(** * Monopoly multiplayer server: game engine and session layer

    A shallow embedding of the Python game engine
    ([server/game_engine/{board,player,cards,dice,rules,game}.py]), of the
    constants in [shared/constants.py] and [shared/enums.py], and of the host
    bookkeeping of [server/network/connection_manager.py].

    Conventions.
    - Python [int] is [Z]; [str] is [string]; [None]-able values are [option].
    - A Python object that is mutated in place is a record, and the mutation is
      a function returning the updated record.  Objects reached through a
      dictionary ([Game.players], [Board.properties]) are identified by their
      dictionary key, and a mutation of the object is an update of that slot.
    - [Dict[str, Player]] is an insertion-ordered association list;
      [Set[int]] is a duplicate-free list.
    - A call either returns, raises, or does not terminate: see [Result]. *)

From Stdlib Require Import ZArith List String Bool Lia Permutation Arith FinFun.
Import ListNotations.
Local Open Scope string_scope.
Local Open Scope Z_scope.

(** ** shared/enums.py *)

Module SpaceType.
Inductive t := PROPERTY | RAILROAD | UTILITY | GO | JAIL | FREE_PARKING
             | GO_TO_JAIL | TAX | CHANCE | COMMUNITY_CHEST.
Definition eqb (a b : t) : bool :=
  match a, b with
  | PROPERTY, PROPERTY | RAILROAD, RAILROAD | UTILITY, UTILITY | GO, GO
  | JAIL, JAIL | FREE_PARKING, FREE_PARKING | GO_TO_JAIL, GO_TO_JAIL
  | TAX, TAX | CHANCE, CHANCE | COMMUNITY_CHEST, COMMUNITY_CHEST => true
  | _, _ => false
  end.
End SpaceType.

Module GamePhase.
Inductive t := WAITING | PRE_ROLL | POST_ROLL | PROPERTY_DECISION | TRADING
             | PAYING_RENT | BANKRUPT | GAME_OVER.
Definition eqb (a b : t) : bool :=
  match a, b with
  | WAITING, WAITING | PRE_ROLL, PRE_ROLL | POST_ROLL, POST_ROLL
  | PROPERTY_DECISION, PROPERTY_DECISION | TRADING, TRADING
  | PAYING_RENT, PAYING_RENT | BANKRUPT, BANKRUPT | GAME_OVER, GAME_OVER => true
  | _, _ => false
  end.
End GamePhase.

Module PlayerState.
Inductive t := ACTIVE | IN_JAIL | BANKRUPT | DISCONNECTED.
Definition eqb (a b : t) : bool :=
  match a, b with
  | ACTIVE, ACTIVE | IN_JAIL, IN_JAIL | BANKRUPT, BANKRUPT
  | DISCONNECTED, DISCONNECTED => true
  | _, _ => false
  end.
End PlayerState.

Module CardType.
Inductive t := CHANCE | COMMUNITY_CHEST.
Definition eqb (a b : t) : bool :=
  match a, b with
  | CHANCE, CHANCE | COMMUNITY_CHEST, COMMUNITY_CHEST => true
  | _, _ => false
  end.
End CardType.

(** ** shared/constants.py *)

Definition BOARD_SIZE : Z := 40.
Definition STARTING_MONEY : Z := 1500.
Definition SALARY_AMOUNT : Z := 200.
Definition JAIL_POSITION : Z := 10.
Definition GO_TO_JAIL_POSITION : Z := 30.
Definition MAX_JAIL_TURNS : Z := 3.
Definition JAIL_BAIL : Z := 50.
Definition MAX_HOUSES_PER_PROPERTY : Z := 4.
Definition TOTAL_HOUSES : Z := 32.
Definition TOTAL_HOTELS : Z := 12.

(** One row of [PROPERTIES]:
    (position, name, type, cost, group, rents, house_cost). *)
Record Space := mkSpace {
  sp_position : Z;
  sp_name : string;
  sp_type : SpaceType.t;
  sp_cost : option Z;
  sp_group : option string;
  sp_rents : option (list Z);
  sp_house_cost : option Z
}.

Definition special (pos : Z) (name : string) (ty : SpaceType.t) : Space :=
  mkSpace pos name ty None None None None.

Definition street (pos : Z) (name : string) (cost : Z) (group : string)
    (rents : list Z) (house_cost : Z) : Space :=
  mkSpace pos name SpaceType.PROPERTY (Some cost) (Some group) (Some rents)
          (Some house_cost).

Definition railroad (pos : Z) (name : string) : Space :=
  mkSpace pos name SpaceType.RAILROAD (Some 200) (Some "RAILROAD")
          (Some [25; 50; 100; 200]) None.

Definition utility (pos : Z) (name : string) : Space :=
  mkSpace pos name SpaceType.UTILITY (Some 150) (Some "UTILITY") None None.

Definition tax (pos : Z) (name : string) (amount : Z) : Space :=
  mkSpace pos name SpaceType.TAX (Some amount) None None None.

Definition PROPERTIES : list Space :=
  [ special 0 "GO" SpaceType.GO;
    special 10 "Jail/Just Visiting" SpaceType.JAIL;
    special 20 "Free Parking" SpaceType.FREE_PARKING;
    special 30 "Go To Jail" SpaceType.GO_TO_JAIL;
    street 1 "Mediterranean Avenue" 60 "BROWN" [2; 10; 30; 90; 160; 250] 50;
    street 3 "Baltic Avenue" 60 "BROWN" [4; 20; 60; 180; 320; 450] 50;
    street 6 "Oriental Avenue" 100 "LIGHT_BLUE" [6; 30; 90; 270; 400; 550] 50;
    street 8 "Vermont Avenue" 100 "LIGHT_BLUE" [6; 30; 90; 270; 400; 550] 50;
    street 9 "Connecticut Avenue" 120 "LIGHT_BLUE" [8; 40; 100; 300; 450; 600] 50;
    street 11 "St. Charles Place" 140 "PINK" [10; 50; 150; 450; 625; 750] 100;
    street 13 "States Avenue" 140 "PINK" [10; 50; 150; 450; 625; 750] 100;
    street 14 "Virginia Avenue" 160 "PINK" [12; 60; 180; 500; 700; 900] 100;
    street 16 "St. James Place" 180 "ORANGE" [14; 70; 200; 550; 750; 950] 100;
    street 18 "Tennessee Avenue" 180 "ORANGE" [14; 70; 200; 550; 750; 950] 100;
    street 19 "New York Avenue" 200 "ORANGE" [16; 80; 220; 600; 800; 1000] 100;
    street 21 "Kentucky Avenue" 220 "RED" [18; 90; 250; 700; 875; 1050] 150;
    street 23 "Indiana Avenue" 220 "RED" [18; 90; 250; 700; 875; 1050] 150;
    street 24 "Illinois Avenue" 240 "RED" [20; 100; 300; 750; 925; 1100] 150;
    street 26 "Atlantic Avenue" 260 "YELLOW" [22; 110; 330; 800; 975; 1150] 150;
    street 27 "Ventnor Avenue" 260 "YELLOW" [22; 110; 330; 800; 975; 1150] 150;
    street 29 "Marvin Gardens" 280 "YELLOW" [24; 120; 360; 850; 1025; 1200] 150;
    street 31 "Pacific Avenue" 300 "GREEN" [26; 130; 390; 900; 1100; 1275] 200;
    street 32 "North Carolina Avenue" 300 "GREEN" [26; 130; 390; 900; 1100; 1275] 200;
    street 34 "Pennsylvania Avenue" 320 "GREEN" [28; 150; 450; 1000; 1200; 1400] 200;
    street 37 "Park Place" 350 "DARK_BLUE" [35; 175; 500; 1100; 1300; 1500] 200;
    street 39 "Boardwalk" 400 "DARK_BLUE" [50; 200; 600; 1400; 1700; 2000] 200;
    railroad 5 "Reading Railroad";
    railroad 15 "Pennsylvania Railroad";
    railroad 25 "B & O Railroad";
    railroad 35 "Short Line";
    utility 12 "Electric Company";
    utility 28 "Water Works";
    tax 4 "Income Tax" 200;
    tax 38 "Luxury Tax" 100;
    special 2 "Community Chest" SpaceType.COMMUNITY_CHEST;
    special 17 "Community Chest" SpaceType.COMMUNITY_CHEST;
    special 33 "Community Chest" SpaceType.COMMUNITY_CHEST;
    special 7 "Chance" SpaceType.CHANCE;
    special 22 "Chance" SpaceType.CHANCE;
    special 36 "Chance" SpaceType.CHANCE ].

(** [BOARD_SPACES]: the rows keyed by position, in the order of [PROPERTIES]
    (positions are pairwise distinct, so no row overwrites another). *)
Definition BOARD_SPACES : list Space := PROPERTIES.

Definition BOARD_SPACES_get (pos : Z) : option Space :=
  find (fun s => sp_position s =? pos) BOARD_SPACES.

(** [UTILITY_MULTIPLIERS.get(n, 4)] *)
Definition UTILITY_MULTIPLIERS_get (n : Z) (default : Z) : Z :=
  if n =? 1 then 4 else if n =? 2 then 10 else default.

(** ** Python helpers *)

Definition opt_str_eqb (a b : option string) : bool :=
  match a, b with
  | Some x, Some y => String.eqb x y
  | None, None => true
  | _, _ => false
  end.

(** [l[i]] for a non-negative or negative index; [None] is [IndexError]. *)
Definition py_index {A} (l : list A) (i : Z) : option A :=
  let n := Z.of_nat (List.length l) in
  if (0 <=? i) && (i <? n) then nth_error l (Z.to_nat i)
  else if (- n <=? i) && (i <? 0) then nth_error l (Z.to_nat (n + i))
  else None.

(** [rents[i]] where [rents] may be [None] ([TypeError]). *)
Definition rents_at (rents : option (list Z)) (i : Z) : option Z :=
  match rents with
  | Some l => py_index l i
  | None => None
  end.

(** ** server/game_engine/board.py: Property *)

Module Property.

Record t := mk {
  position : Z;
  name : string;
  space_type : SpaceType.t;
  cost : Z;
  group : string;
  rents : option (list Z);
  house_cost : option Z;
  owner_id : option string;
  houses : Z;
  has_hotel : bool;
  is_mortgaged : bool
}.

Definition set_owner_id (p : t) (o : option string) : t :=
  mk (position p) (name p) (space_type p) (cost p) (group p) (rents p)
     (house_cost p) o (houses p) (has_hotel p) (is_mortgaged p).
Definition set_houses (p : t) (h : Z) : t :=
  mk (position p) (name p) (space_type p) (cost p) (group p) (rents p)
     (house_cost p) (owner_id p) h (has_hotel p) (is_mortgaged p).
Definition set_has_hotel (p : t) (b : bool) : t :=
  mk (position p) (name p) (space_type p) (cost p) (group p) (rents p)
     (house_cost p) (owner_id p) (houses p) b (is_mortgaged p).
Definition set_is_mortgaged (p : t) (b : bool) : t :=
  mk (position p) (name p) (space_type p) (cost p) (group p) (rents p)
     (house_cost p) (owner_id p) (houses p) (has_hotel p) b.

Definition is_owned (p : t) : bool :=
  match owner_id p with Some _ => true | None => false end.

Definition can_be_developed (p : t) : bool :=
  SpaceType.eqb (space_type p) SpaceType.PROPERTY
  && negb (is_mortgaged p)
  && match house_cost p with Some _ => true | None => false end.

Definition development_level (p : t) : Z :=
  if has_hotel p then 5 else houses p.

Definition mortgage_value (p : t) : Z := cost p / 2.

(** [int(self.mortgage_value * 1.1)]: for the magnitudes on the board the
    truncated floating-point product is the integer part of 11*v/10. *)
Definition unmortgage_cost (p : t) : Z := Z.quot (mortgage_value p * 11) 10.

(** [None] is the [IndexError]/[TypeError] of a bad [rents] lookup. *)
Definition calculate_rent (p : t) (dice_roll : Z) (same_group_owned : Z)
    (has_monopoly : bool) : option Z :=
  if is_mortgaged p || negb (is_owned p) then Some 0
  else match space_type p with
       | SpaceType.PROPERTY =>
           if has_hotel p then rents_at (rents p) 5
           else if 0 <? houses p then rents_at (rents p) (houses p)
           else if has_monopoly then option_map (fun r => r * 2) (rents_at (rents p) 0)
           else rents_at (rents p) 0
       | SpaceType.RAILROAD =>
           if (1 <=? same_group_owned) && (same_group_owned <=? 4)
           then rents_at (rents p) (same_group_owned - 1)
           else rents_at (rents p) 0
       | SpaceType.UTILITY =>
           Some (dice_roll * UTILITY_MULTIPLIERS_get same_group_owned 4)
       | _ => Some 0
       end.

(** The mutators return the result together with the updated property. *)
Definition build_house (p : t) : bool * t :=
  if negb (can_be_developed p) then (false, p)
  else if (4 <=? houses p) || has_hotel p then (false, p)
  else (true, set_houses p (houses p + 1)).

Definition build_hotel (p : t) : bool * t :=
  if negb (can_be_developed p) then (false, p)
  else if negb (houses p =? 4) || has_hotel p then (false, p)
  else (true, set_has_hotel (set_houses p 0) true).

(** [house_cost // 2] is evaluated after the mutation; a [None] result is
    the [TypeError] of [None // 2], raised on the already updated object. *)
Definition half_house_cost (p : t) : option Z :=
  option_map (fun c => c / 2) (house_cost p).

Definition sell_house (p : t) : option Z * t :=
  if houses p <=? 0 then (Some 0, p)
  else (half_house_cost p, set_houses p (houses p - 1)).

Definition sell_hotel (p : t) : option Z * t :=
  if negb (has_hotel p) then (Some 0, p)
  else (half_house_cost p, set_houses (set_has_hotel p false) 4).

Definition mortgage (p : t) : Z * t :=
  if is_mortgaged p || (0 <? houses p) || has_hotel p then (0, p)
  else (mortgage_value p, set_is_mortgaged p true).

Definition unmortgage (p : t) : bool * t :=
  if negb (is_mortgaged p) then (false, p)
  else (true, set_is_mortgaged p false).

End Property.

(** ** server/game_engine/board.py: Board *)

Module Board.

(** [Board.properties]: every [Property] is stored under its own position
    (see [_initialize_properties]); the dictionary is the list of its values
    in insertion order and a lookup is by [Property.position]. *)
Definition t := list Property.t.

Definition purchasable (s : Space) : bool :=
  match sp_type s with
  | SpaceType.PROPERTY | SpaceType.RAILROAD | SpaceType.UTILITY => true
  | _ => false
  end.

Definition property_of_space (s : Space) : Property.t :=
  Property.mk (sp_position s) (sp_name s) (sp_type s)
    (match sp_cost s with Some c => c | None => 0 end)
    (match sp_group s with Some g => g | None => "" end)
    (sp_rents s) (sp_house_cost s) None 0 false false.

Definition _initialize_properties : t :=
  map property_of_space (filter purchasable BOARD_SPACES).

(** [Board()] *)
Definition new : t := _initialize_properties.

Definition get_space (pos : Z) : option Space := BOARD_SPACES_get pos.

Definition get_property (b : t) (pos : Z) : option Property.t :=
  find (fun p => Property.position p =? pos) b.

(** The object stored under [pos] is now in state [q]. *)
Fixpoint set_property (b : t) (pos : Z) (q : Property.t) : t :=
  match b with
  | [] => []
  | p :: r => if Property.position p =? pos then q :: r
              else p :: set_property r pos q
  end.

Definition get_property_owner (b : t) (pos : Z) : option string :=
  match get_property b pos with
  | Some p => Property.owner_id p
  | None => None
  end.

Definition is_property_available (b : t) (pos : Z) : bool :=
  match get_property b pos with
  | Some p => negb (Property.is_owned p)
  | None => false
  end.

Definition owned_by (player_id : string) (p : Property.t) : bool :=
  opt_str_eqb (Property.owner_id p) (Some player_id).

Definition get_player_properties (b : t) (player_id : string) : list Property.t :=
  filter (owned_by player_id) b.

Definition get_group_properties (b : t) (group : string) : list Property.t :=
  filter (fun p => String.eqb (Property.group p) group) b.

Definition player_has_monopoly (b : t) (player_id : string) (group : string) : bool :=
  if String.eqb group "RAILROAD" || String.eqb group "UTILITY" then false
  else match get_group_properties b group with
       | [] => false
       | gp => forallb (owned_by player_id) gp
       end.

Definition count_group_owned (b : t) (player_id : string) (group : string) : Z :=
  Z.of_nat (List.length (filter (owned_by player_id) (get_group_properties b group))).

(** [min(...)] and [max(...)] of a non-empty sequence. *)
Definition list_min (x : Z) (l : list Z) : Z := fold_left Z.min l x.
Definition list_max (x : Z) (l : list Z) : Z := fold_left Z.max l x.

Definition can_build_house (b : t) (pos : Z) (player_id : string) : bool :=
  match get_property b pos with
  | None => false
  | Some prop =>
      if negb (owned_by player_id prop) then false
      else if negb (Property.can_be_developed prop) then false
      else if (4 <=? Property.houses prop) || Property.has_hotel prop then false
      else if negb (player_has_monopoly b player_id (Property.group prop)) then false
      else match map Property.development_level
                     (get_group_properties b (Property.group prop)) with
           | [] => false (* not reached: a monopoly has a non-empty group *)
           | x :: l => Property.development_level prop <=? list_min x l
           end
  end.

Definition can_build_hotel (b : t) (pos : Z) (player_id : string) : bool :=
  match get_property b pos with
  | None => false
  | Some prop =>
      if negb (owned_by player_id prop) then false
      else if negb (Property.can_be_developed prop) then false
      else if negb (Property.houses prop =? 4) || Property.has_hotel prop then false
      else if negb (player_has_monopoly b player_id (Property.group prop)) then false
      else forallb (fun p => (4 <=? Property.houses p) || Property.has_hotel p)
                   (get_group_properties b (Property.group prop))
  end.

(** [None] is the exception of a bad [rents] lookup. *)
Definition calculate_rent (b : t) (pos : Z) (dice_roll : Z)
    (landing_player_id : option string) : option Z :=
  match get_property b pos with
  | None => Some 0
  | Some prop =>
      match Property.owner_id prop with
      | None => Some 0
      | Some owner =>
          if opt_str_eqb (Some owner) landing_player_id then Some 0
          else
            let same_group_owned := count_group_owned b owner (Property.group prop) in
            let has_monopoly := player_has_monopoly b owner (Property.group prop) in
            Property.calculate_rent prop dice_roll same_group_owned has_monopoly
      end
  end.

(** [Property.to_dict] / [Board.to_dict] *)
Record PropertyDict := mkPropertyDict {
  d_position : Z;
  d_name : string;
  d_space_type : SpaceType.t;
  d_cost : Z;
  d_group : string;
  d_owner_id : option string;
  d_houses : Z;
  d_has_hotel : bool;
  d_is_mortgaged : bool
}.

Definition property_to_dict (p : Property.t) : PropertyDict :=
  mkPropertyDict (Property.position p) (Property.name p) (Property.space_type p)
    (Property.cost p) (Property.group p) (Property.owner_id p)
    (Property.houses p) (Property.has_hotel p) (Property.is_mortgaged p).

(** [{"properties": {pos: prop.to_dict() ...}}] *)
Definition Dict := list (Z * PropertyDict).

Definition to_dict (b : t) : Dict :=
  map (fun p => (Property.position p, property_to_dict p)) b.

Definition load_property (board : t) (entry : Z * PropertyDict) : t :=
  let '(pos, prop_data) := entry in
  match get_property board pos with
  | Some prop =>
      set_property board pos
        (Property.set_is_mortgaged
           (Property.set_has_hotel
              (Property.set_houses
                 (Property.set_owner_id prop (d_owner_id prop_data))
                 (d_houses prop_data))
              (d_has_hotel prop_data))
           (d_is_mortgaged prop_data))
  | None => board
  end.

Definition from_dict (data : Dict) : t := fold_left load_property data new.

(** [SpaceType(space.get("type", "GO"))]: a position off the board reads
    as GO. *)
Definition get_space_type (pos : Z) : SpaceType.t :=
  match get_space pos with
  | Some space => sp_type space
  | None => SpaceType.GO
  end.

Definition transfer_property (b : t) (pos : Z) (new_owner_id : option string)
    : bool * t :=
  match get_property b pos with
  | None => (false, b)
  | Some prop => (true, set_property b pos (Property.set_owner_id prop new_owner_id))
  end.

Definition reset (b : t) : t :=
  map (fun prop =>
         Property.set_is_mortgaged
           (Property.set_has_hotel
              (Property.set_houses (Property.set_owner_id prop None) 0) false)
           false) b.

End Board.

(** ** server/game_engine/player.py *)

Module Player.

Record t := mk {
  name : string;
  id : string;
  money : Z;
  position : Z;
  state : PlayerState.t;
  jail_turns : Z;
  jail_cards : Z;
  properties : list Z;
  connection_id : option string;
  consecutive_doubles : Z;
  has_rolled : bool
}.

Definition set_id (p : t) (x : string) : t :=
  mk (name p) x (money p) (position p) (state p) (jail_turns p) (jail_cards p)
     (properties p) (connection_id p) (consecutive_doubles p) (has_rolled p).
Definition set_money (p : t) (x : Z) : t :=
  mk (name p) (id p) x (position p) (state p) (jail_turns p) (jail_cards p)
     (properties p) (connection_id p) (consecutive_doubles p) (has_rolled p).
Definition set_position (p : t) (x : Z) : t :=
  mk (name p) (id p) (money p) x (state p) (jail_turns p) (jail_cards p)
     (properties p) (connection_id p) (consecutive_doubles p) (has_rolled p).
Definition set_state (p : t) (x : PlayerState.t) : t :=
  mk (name p) (id p) (money p) (position p) x (jail_turns p) (jail_cards p)
     (properties p) (connection_id p) (consecutive_doubles p) (has_rolled p).
Definition set_jail_turns (p : t) (x : Z) : t :=
  mk (name p) (id p) (money p) (position p) (state p) x (jail_cards p)
     (properties p) (connection_id p) (consecutive_doubles p) (has_rolled p).
Definition set_jail_cards (p : t) (x : Z) : t :=
  mk (name p) (id p) (money p) (position p) (state p) (jail_turns p) x
     (properties p) (connection_id p) (consecutive_doubles p) (has_rolled p).
Definition set_properties (p : t) (x : list Z) : t :=
  mk (name p) (id p) (money p) (position p) (state p) (jail_turns p) (jail_cards p)
     x (connection_id p) (consecutive_doubles p) (has_rolled p).
Definition set_consecutive_doubles (p : t) (x : Z) : t :=
  mk (name p) (id p) (money p) (position p) (state p) (jail_turns p) (jail_cards p)
     (properties p) (connection_id p) x (has_rolled p).
Definition set_has_rolled (p : t) (x : bool) : t :=
  mk (name p) (id p) (money p) (position p) (state p) (jail_turns p) (jail_cards p)
     (properties p) (connection_id p) (consecutive_doubles p) x.

(** [Player(name=name)]; [uuid] is the value [uuid.uuid4()] produced. *)
Definition new (name : string) (uuid : string) : t :=
  mk name uuid STARTING_MONEY 0 PlayerState.ACTIVE 0 0 [] None 0 false.

Definition add_money (p : t) (amount : Z) : t := set_money p (money p + amount).

Definition remove_money (p : t) (amount : Z) : bool * t :=
  if amount <=? money p then (true, set_money p (money p - amount))
  else (false, p).

Definition can_afford (p : t) (amount : Z) : bool := amount <=? money p.

Definition move_to (p : t) (pos : Z) (collect_go : bool) : bool * t :=
  if collect_go && (pos <? position p)
     && negb (PlayerState.eqb (state p) PlayerState.IN_JAIL)
  then (true, set_position (add_money p SALARY_AMOUNT) (pos mod BOARD_SIZE))
  else (false, set_position p (pos mod BOARD_SIZE)).

Definition move_forward (p : t) (spaces : Z) : bool * t :=
  move_to p ((position p + spaces) mod BOARD_SIZE) true.

Definition send_to_jail (p : t) : t :=
  set_consecutive_doubles
    (set_jail_turns (set_state (set_position p JAIL_POSITION) PlayerState.IN_JAIL) 0)
    0.

Definition release_from_jail (p : t) : t :=
  set_jail_turns (set_state p PlayerState.ACTIVE) 0.

Definition mem (x : Z) (s : list Z) : bool := existsb (Z.eqb x) s.

(** [set.add], [set.discard], [set.clear], [set(iterable)] *)
Definition set_add (s : list Z) (x : Z) : list Z :=
  if mem x s then s else s ++ [x].
Definition set_discard (s : list Z) (x : Z) : list Z :=
  filter (fun y => negb (y =? x)) s.
Definition set_of_list (l : list Z) : list Z := fold_left set_add l [].

Definition add_property (p : t) (pos : Z) : t :=
  set_properties p (set_add (properties p) pos).

Definition remove_property (p : t) (pos : Z) : t :=
  set_properties p (set_discard (properties p) pos).

Definition declare_bankruptcy (p : t) : t :=
  set_properties (set_state p PlayerState.BANKRUPT) [].

(** [if not self.consecutive_doubles: self.consecutive_doubles = 0]: the
    test holds when the count is 0, and the assignment then stores 0. *)
Definition reset_turn (p : t) : t :=
  let p1 := set_has_rolled p false in
  if consecutive_doubles p1 =? 0 then set_consecutive_doubles p1 0 else p1.

Record Dict := mkDict {
  d_id : string;
  d_name : string;
  d_money : Z;
  d_position : Z;
  d_state : PlayerState.t;
  d_jail_turns : Z;
  d_jail_cards : Z;
  d_properties : list Z
}.

Definition to_dict (p : t) : Dict :=
  mkDict (id p) (name p) (money p) (position p) (state p) (jail_turns p)
         (jail_cards p) (properties p).

Definition from_dict (data : Dict) : t :=
  mk (d_name data) (d_id data) (d_money data) (d_position data) (d_state data)
     (d_jail_turns data) (d_jail_cards data) (set_of_list (d_properties data))
     None 0 false.

End Player.

(** ** server/game_engine/dice.py *)

Module DiceResult.
Record t := mk { die1 : Z; die2 : Z }.
Definition total (d : t) : Z := die1 d + die2 d.
Definition is_double (d : t) : bool := die1 d =? die2 d.
Definition to_list (d : t) : list Z := [die1 d; die2 d].
End DiceResult.

(** ** Randomness

    [random.shuffle(x)] is the Fisher-Yates loop
    [for i in reversed(range(1, len(x))): j = randbelow(i + 1); swap x[i], x[j]].
    The outcomes of the generator are an input: [picks] lists the successive
    draws, each reduced into its range; a missing draw counts as 0. *)

Fixpoint list_set {A} (l : list A) (n : nat) (a : A) : list A :=
  match l, n with
  | [], _ => []
  | _ :: r, O => a :: r
  | h :: r, S m => h :: list_set r m a
  end.

Definition swap {A} (l : list A) (i j : nat) : list A :=
  match nth_error l i, nth_error l j with
  | Some a, Some b => list_set (list_set l i b) j a
  | _, _ => l
  end.

Fixpoint shuffle_from {A} (i : nat) (picks : list nat) (x : list A) : list A :=
  match i with
  | O => x
  | S i' => shuffle_from i' (tl picks) (swap x i (Nat.modulo (hd O picks) (S i)))
  end.

Definition shuffle {A} (picks : list nat) (x : list A) : list A :=
  shuffle_from (List.length x - 1) picks x.

(** ** server/game_engine/cards.py *)

Module CardAction.
Inductive t := COLLECT_MONEY | PAY_MONEY | COLLECT_FROM_PLAYERS | PAY_TO_PLAYERS
             | MOVE_TO | MOVE_FORWARD | MOVE_BACK | GO_TO_JAIL | GET_OUT_OF_JAIL
             | REPAIRS.
End CardAction.

Module Card.
Record t := mk {
  card_type : CardType.t;
  text : string;
  action : CardAction.t;
  value : Z;
  per_house : Z;
  per_hotel : Z;
  keep : bool
}.
(** [Card(card_type, text, action, value=v)] with the other defaults. *)
Definition simple (ct : CardType.t) (text : string) (a : CardAction.t) (v : Z) : t :=
  mk ct text a v 0 0 false.
End Card.

Definition CHANCE_CARDS : list Card.t :=
  [ Card.simple CardType.CHANCE "Advance to Go (Collect $200)" CardAction.MOVE_TO 0;
    Card.simple CardType.CHANCE
      "Advance to Illinois Avenue. If you pass Go, collect $200." CardAction.MOVE_TO 24;
    Card.simple CardType.CHANCE
      "Advance to St. Charles Place. If you pass Go, collect $200." CardAction.MOVE_TO 11;
    Card.simple CardType.CHANCE
      "Advance to nearest Utility. If unowned, you may buy it. If owned, throw dice and pay owner 10 times the amount thrown."
      CardAction.MOVE_TO (-1);
    Card.simple CardType.CHANCE
      "Advance to nearest Railroad. If unowned, you may buy it. If owned, pay owner twice the rental."
      CardAction.MOVE_TO (-2);
    Card.simple CardType.CHANCE "Bank pays you dividend of $50." CardAction.COLLECT_MONEY 50;
    Card.mk CardType.CHANCE "Get Out of Jail Free." CardAction.GET_OUT_OF_JAIL 0 0 0 true;
    Card.simple CardType.CHANCE "Go Back 3 Spaces." CardAction.MOVE_BACK 3;
    Card.simple CardType.CHANCE
      "Go to Jail. Go directly to Jail, do not pass Go, do not collect $200."
      CardAction.GO_TO_JAIL 0;
    Card.mk CardType.CHANCE
      "Make general repairs on all your property. For each house pay $25. For each hotel pay $100."
      CardAction.REPAIRS 0 25 100 false;
    Card.simple CardType.CHANCE "Speeding fine $15." CardAction.PAY_MONEY 15;
    Card.simple CardType.CHANCE
      "Take a trip to Reading Railroad. If you pass Go, collect $200." CardAction.MOVE_TO 5;
    Card.simple CardType.CHANCE
      "You have been elected Chairman of the Board. Pay each player $50."
      CardAction.PAY_TO_PLAYERS 50;
    Card.simple CardType.CHANCE "Your building loan matures. Collect $150."
      CardAction.COLLECT_MONEY 150;
    Card.simple CardType.CHANCE "Advance to Boardwalk." CardAction.MOVE_TO 39;
    Card.simple CardType.CHANCE
      "Advance to nearest Railroad. If unowned, you may buy it. If owned, pay owner twice the rental."
      CardAction.MOVE_TO (-2) ].

Definition COMMUNITY_CHEST_CARDS : list Card.t :=
  [ Card.simple CardType.COMMUNITY_CHEST "Advance to Go (Collect $200)." CardAction.MOVE_TO 0;
    Card.simple CardType.COMMUNITY_CHEST "Bank error in your favor. Collect $200."
      CardAction.COLLECT_MONEY 200;
    Card.simple CardType.COMMUNITY_CHEST "Doctor's fee. Pay $50." CardAction.PAY_MONEY 50;
    Card.simple CardType.COMMUNITY_CHEST "From sale of stock you get $50."
      CardAction.COLLECT_MONEY 50;
    Card.mk CardType.COMMUNITY_CHEST "Get Out of Jail Free." CardAction.GET_OUT_OF_JAIL
      0 0 0 true;
    Card.simple CardType.COMMUNITY_CHEST
      "Go to Jail. Go directly to jail, do not pass Go, do not collect $200."
      CardAction.GO_TO_JAIL 0;
    Card.simple CardType.COMMUNITY_CHEST "Holiday fund matures. Receive $100."
      CardAction.COLLECT_MONEY 100;
    Card.simple CardType.COMMUNITY_CHEST "Income tax refund. Collect $20."
      CardAction.COLLECT_MONEY 20;
    Card.simple CardType.COMMUNITY_CHEST
      "It is your birthday. Collect $10 from every player."
      CardAction.COLLECT_FROM_PLAYERS 10;
    Card.simple CardType.COMMUNITY_CHEST "Life insurance matures. Collect $100."
      CardAction.COLLECT_MONEY 100;
    Card.simple CardType.COMMUNITY_CHEST "Pay hospital fees of $100." CardAction.PAY_MONEY 100;
    Card.simple CardType.COMMUNITY_CHEST "Pay school fees of $50." CardAction.PAY_MONEY 50;
    Card.simple CardType.COMMUNITY_CHEST "Receive $25 consultancy fee."
      CardAction.COLLECT_MONEY 25;
    Card.mk CardType.COMMUNITY_CHEST
      "You are assessed for street repair. $40 per house. $115 per hotel."
      CardAction.REPAIRS 0 40 115 false;
    Card.simple CardType.COMMUNITY_CHEST
      "You have won second prize in a beauty contest. Collect $10."
      CardAction.COLLECT_MONEY 10;
    Card.simple CardType.COMMUNITY_CHEST "You inherit $100." CardAction.COLLECT_MONEY 100 ].

Module CardDeck.

Record t := mk {
  card_type : CardType.t;
  cards : list Card.t;
  discard : list Card.t;
  _initialized : bool
}.

Definition reset (picks : list nat) (d : t) : t :=
  let fresh := match card_type d with
               | CardType.CHANCE => CHANCE_CARDS
               | _ => COMMUNITY_CHEST_CARDS
               end in
  mk (card_type d) (shuffle picks fresh) [] true.

(** [CardDeck(card_type)]: [__post_init__] resets a deck that is not
    initialized. *)
Definition new (picks : list nat) (ct : CardType.t) : t :=
  reset picks (mk ct [] [] false).

(** The drawn card and the deck afterwards; [None] is the [IndexError] of
    [pop(0)] on an empty list, raised after the reshuffle. *)
Definition draw (picks : list nat) (d : t) : option Card.t * t :=
  let d1 := match cards d with
            | [] => mk (card_type d) (shuffle picks (discard d)) [] (_initialized d)
            | _ => d
            end in
  match cards d1 with
  | [] => (None, d1)
  | card :: rest =>
      if negb (Card.keep card)
      then (Some card, mk (card_type d1) rest (discard d1 ++ [card]) (_initialized d1))
      else (Some card, mk (card_type d1) rest (discard d1) (_initialized d1))
  end.

Definition return_card (d : t) (card : Card.t) : t :=
  mk (card_type d) (cards d) (discard d ++ [card]) (_initialized d).

Record Dict := mkDict {
  d_card_type : CardType.t;
  d_cards_remaining : Z;
  d_discard_count : Z
}.

Definition to_dict (d : t) : Dict :=
  mkDict (card_type d) (Z.of_nat (List.length (cards d)))
         (Z.of_nat (List.length (discard d))).

End CardDeck.

Module CardManager.

Record t := mk { chance : CardDeck.t; community_chest : CardDeck.t }.

(** [CardManager()]: the two decks are built (and shuffled) in field order. *)
Definition new (picks_chance picks_chest : list nat) : t :=
  mk (CardDeck.new picks_chance CardType.CHANCE)
     (CardDeck.new picks_chest CardType.COMMUNITY_CHEST).

Definition draw_chance (picks : list nat) (m : t) : option Card.t * t :=
  let '(c, d) := CardDeck.draw picks (chance m) in (c, mk d (community_chest m)).

Definition draw_community_chest (picks : list nat) (m : t) : option Card.t * t :=
  let '(c, d) := CardDeck.draw picks (community_chest m) in (c, mk (chance m) d).

Definition return_jail_card (m : t) (ct : CardType.t) : t :=
  match ct with
  | CardType.CHANCE =>
      mk (CardDeck.return_card (chance m)
            (Card.mk CardType.CHANCE "Get Out of Jail Free."
                     CardAction.GET_OUT_OF_JAIL 0 0 0 true))
         (community_chest m)
  | _ =>
      mk (chance m)
         (CardDeck.return_card (community_chest m)
            (Card.mk CardType.COMMUNITY_CHEST "Get Out of Jail Free."
                     CardAction.GET_OUT_OF_JAIL 0 0 0 true))
  end.

Definition reset (picks_chance picks_chest : list nat) (m : t) : t :=
  mk (CardDeck.reset picks_chance (chance m))
     (CardDeck.reset picks_chest (community_chest m)).

Record Dict := mkDict { d_chance : CardDeck.Dict; d_community_chest : CardDeck.Dict }.

Definition to_dict (m : t) : Dict :=
  mkDict (CardDeck.to_dict (chance m)) (CardDeck.to_dict (community_chest m)).

End CardManager.

(** ** server/game_engine/rules.py *)

From Stdlib Require Import DecimalString.

(** [str(n)] inside an f-string. *)
Definition str_of_Z (z : Z) : string := NilZero.string_of_int (Z.to_int z).

Module ActionResult.
Inductive t := SUCCESS | INSUFFICIENT_FUNDS | NOT_YOUR_TURN | INVALID_PROPERTY
             | PROPERTY_OWNED | PROPERTY_NOT_OWNED | NOT_OWNER | NO_MONOPOLY
             | UNEVEN_BUILDING | MAX_DEVELOPMENT | PROPERTY_MORTGAGED
             | HAS_BUILDINGS | NOT_IN_JAIL | ALREADY_ROLLED | MUST_ROLL
             | INVALID_TRADE | GAME_NOT_STARTED | GAME_ALREADY_STARTED
             | NOT_ENOUGH_PLAYERS | TOO_MANY_PLAYERS | PLAYER_BANKRUPT
             | NO_BUILDINGS_AVAILABLE.
End ActionResult.

Module ValidationResult.
Record t := mk { valid : bool; result : ActionResult.t; message : string }.
Definition success : t := mk true ActionResult.SUCCESS "".
Definition failure (r : ActionResult.t) (msg : string) : t := mk false r msg.
End ValidationResult.

Module RuleEngine.

Import ValidationResult.

(** The engine's own state is the bank inventory.  Its [board] attribute is
    the very object held by the game, so the validators take the game's
    board as an argument. *)
Record t := mk { houses_available : Z; hotels_available : Z }.

Definition new : t := mk TOTAL_HOUSES TOTAL_HOTELS.

Definition validate_roll_dice (player : Player.t) (current_player_id : string)
    (phase : GamePhase.t) : ValidationResult.t :=
  if negb (String.eqb (Player.id player) current_player_id)
  then failure ActionResult.NOT_YOUR_TURN "It's not your turn"
  else if negb (GamePhase.eqb phase GamePhase.PRE_ROLL
                || GamePhase.eqb phase GamePhase.POST_ROLL)
  then failure ActionResult.GAME_NOT_STARTED "Game is not in a rollable phase"
  else if Player.has_rolled player
          && negb (PlayerState.eqb (Player.state player) PlayerState.IN_JAIL)
  then failure ActionResult.ALREADY_ROLLED "You have already rolled this turn"
  else success.

Definition validate_buy_property (board : Board.t) (player : Player.t)
    (position : Z) (current_player_id : string) (phase : GamePhase.t)
    : ValidationResult.t :=
  if negb (String.eqb (Player.id player) current_player_id)
  then failure ActionResult.NOT_YOUR_TURN "It's not your turn"
  else if negb (GamePhase.eqb phase GamePhase.PROPERTY_DECISION)
  then failure ActionResult.INVALID_PROPERTY "Not in property decision phase"
  else if negb (Player.position player =? position)
  then failure ActionResult.INVALID_PROPERTY "You are not on this property"
  else match Board.get_property board position with
       | None => failure ActionResult.INVALID_PROPERTY
                   "This space is not a purchasable property"
       | Some prop =>
           if Property.is_owned prop
           then failure ActionResult.PROPERTY_OWNED
                  (Property.name prop ++ " is already owned")
           else if negb (Player.can_afford player (Property.cost prop))
           then failure ActionResult.INSUFFICIENT_FUNDS
                  ("You need $" ++ str_of_Z (Property.cost prop) ++ " to buy "
                   ++ Property.name prop)
           else success
       end.

Definition validate_build_house (r : t) (board : Board.t) (player : Player.t)
    (position : Z) (current_player_id : string) : ValidationResult.t :=
  if negb (String.eqb (Player.id player) current_player_id)
  then failure ActionResult.NOT_YOUR_TURN "It's not your turn"
  else match Board.get_property board position with
  | None => failure ActionResult.INVALID_PROPERTY "This is not a property"
  | Some prop =>
    if negb (Board.owned_by (Player.id player) prop)
    then failure ActionResult.NOT_OWNER "You don't own this property"
    else if negb (SpaceType.eqb (Property.space_type prop) SpaceType.PROPERTY)
    then failure ActionResult.INVALID_PROPERTY "Can only build on color properties"
    else if Property.is_mortgaged prop
    then failure ActionResult.PROPERTY_MORTGAGED "Cannot build on mortgaged property"
    else if negb (Board.player_has_monopoly board (Player.id player) (Property.group prop))
    then failure ActionResult.NO_MONOPOLY "You need a monopoly to build"
    else if existsb Property.is_mortgaged
              (Board.get_group_properties board (Property.group prop))
    then failure ActionResult.PROPERTY_MORTGAGED
           "Cannot build while any property in group is mortgaged"
    else if Property.has_hotel prop
    then failure ActionResult.MAX_DEVELOPMENT "Property already has a hotel"
    else if MAX_HOUSES_PER_PROPERTY <=? Property.houses prop
    then failure ActionResult.MAX_DEVELOPMENT
           "Property has maximum houses, build a hotel instead"
    else if negb (Board.can_build_house board position (Player.id player))
    then failure ActionResult.UNEVEN_BUILDING
           "Must build evenly across all properties in group"
    else if houses_available r <=? 0
    then failure ActionResult.NO_BUILDINGS_AVAILABLE "No houses available in the bank"
    else match Property.house_cost prop with
         | Some c =>
             if negb (Player.can_afford player c)
             then failure ActionResult.INSUFFICIENT_FUNDS
                    ("You need $" ++ str_of_Z c ++ " to build a house")
             else success
         | None => (* not reached: [can_build_house] requires a house cost *)
             failure ActionResult.INVALID_PROPERTY "Can only build on color properties"
         end
  end.

Definition validate_build_hotel (r : t) (board : Board.t) (player : Player.t)
    (position : Z) (current_player_id : string) : ValidationResult.t :=
  if negb (String.eqb (Player.id player) current_player_id)
  then failure ActionResult.NOT_YOUR_TURN "It's not your turn"
  else match Board.get_property board position with
  | None => failure ActionResult.INVALID_PROPERTY "This is not a property"
  | Some prop =>
    if negb (Board.owned_by (Player.id player) prop)
    then failure ActionResult.NOT_OWNER "You don't own this property"
    else if negb (SpaceType.eqb (Property.space_type prop) SpaceType.PROPERTY)
    then failure ActionResult.INVALID_PROPERTY "Can only build on color properties"
    else if Property.is_mortgaged prop
    then failure ActionResult.PROPERTY_MORTGAGED "Cannot build on mortgaged property"
    else if Property.has_hotel prop
    then failure ActionResult.MAX_DEVELOPMENT "Property already has a hotel"
    else if negb (Property.houses prop =? MAX_HOUSES_PER_PROPERTY)
    then failure ActionResult.UNEVEN_BUILDING "Need 4 houses before building a hotel"
    else if negb (Board.can_build_hotel board position (Player.id player))
    then failure ActionResult.UNEVEN_BUILDING
           "Must build evenly across all properties in group"
    else if hotels_available r <=? 0
    then failure ActionResult.NO_BUILDINGS_AVAILABLE "No hotels available in the bank"
    else match Property.house_cost prop with
         | Some c =>
             if negb (Player.can_afford player c)
             then failure ActionResult.INSUFFICIENT_FUNDS
                    ("You need $" ++ str_of_Z c ++ " to build a hotel")
             else success
         | None => (* not reached: [can_build_hotel] requires a house cost *)
             failure ActionResult.INVALID_PROPERTY "Can only build on color properties"
         end
  end.

Definition validate_sell_house (board : Board.t) (player : Player.t)
    (position : Z) : ValidationResult.t :=
  match Board.get_property board position with
  | None => failure ActionResult.INVALID_PROPERTY "This is not a property"
  | Some prop =>
    if negb (Board.owned_by (Player.id player) prop)
    then failure ActionResult.NOT_OWNER "You don't own this property"
    else if (Property.houses prop <=? 0) && negb (Property.has_hotel prop)
    then failure ActionResult.HAS_BUILDINGS "No buildings to sell"
    else if (0 <? Property.houses prop)
            && match map Property.development_level
                         (Board.get_group_properties board (Property.group prop)) with
               | [] => false (* not reached: the group holds [prop] *)
               | x :: l => Property.development_level prop <? Board.list_max x l
               end
    then failure ActionResult.UNEVEN_BUILDING
           "Must sell evenly across all properties in group"
    else success
  end.

Definition validate_mortgage (board : Board.t) (player : Player.t)
    (position : Z) : ValidationResult.t :=
  match Board.get_property board position with
  | None => failure ActionResult.INVALID_PROPERTY "This is not a property"
  | Some prop =>
    if negb (Board.owned_by (Player.id player) prop)
    then failure ActionResult.NOT_OWNER "You don't own this property"
    else if Property.is_mortgaged prop
    then failure ActionResult.PROPERTY_MORTGAGED "Property is already mortgaged"
    else if (0 <? Property.houses prop) || Property.has_hotel prop
    then failure ActionResult.HAS_BUILDINGS "Must sell all buildings before mortgaging"
    else success
  end.

Definition validate_unmortgage (board : Board.t) (player : Player.t)
    (position : Z) : ValidationResult.t :=
  match Board.get_property board position with
  | None => failure ActionResult.INVALID_PROPERTY "This is not a property"
  | Some prop =>
    if negb (Board.owned_by (Player.id player) prop)
    then failure ActionResult.NOT_OWNER "You don't own this property"
    else if negb (Property.is_mortgaged prop)
    then failure ActionResult.PROPERTY_MORTGAGED "Property is not mortgaged"
    else if negb (Player.can_afford player (Property.unmortgage_cost prop))
    then failure ActionResult.INSUFFICIENT_FUNDS
           ("You need $" ++ str_of_Z (Property.unmortgage_cost prop) ++ " to unmortgage")
    else success
  end.

Definition validate_pay_bail (player : Player.t) (current_player_id : string)
    : ValidationResult.t :=
  if negb (String.eqb (Player.id player) current_player_id)
  then failure ActionResult.NOT_YOUR_TURN "It's not your turn"
  else if negb (PlayerState.eqb (Player.state player) PlayerState.IN_JAIL)
  then failure ActionResult.NOT_IN_JAIL "You are not in jail"
  else if negb (Player.can_afford player JAIL_BAIL)
  then failure ActionResult.INSUFFICIENT_FUNDS
         ("You need $" ++ str_of_Z JAIL_BAIL ++ " to pay bail")
  else success.

Definition validate_use_jail_card (player : Player.t) (current_player_id : string)
    : ValidationResult.t :=
  if negb (String.eqb (Player.id player) current_player_id)
  then failure ActionResult.NOT_YOUR_TURN "It's not your turn"
  else if negb (PlayerState.eqb (Player.state player) PlayerState.IN_JAIL)
  then failure ActionResult.NOT_IN_JAIL "You are not in jail"
  else if Player.jail_cards player <=? 0
  then failure ActionResult.INVALID_PROPERTY
         "You don't have a Get Out of Jail Free card"
  else success.

Definition validate_end_turn (player : Player.t) (current_player_id : string)
    (phase : GamePhase.t) : ValidationResult.t :=
  if negb (String.eqb (Player.id player) current_player_id)
  then failure ActionResult.NOT_YOUR_TURN "It's not your turn"
  else match phase with
       | GamePhase.PRE_ROLL =>
           failure ActionResult.MUST_ROLL "You must roll the dice first"
       | GamePhase.PROPERTY_DECISION =>
           failure ActionResult.INVALID_PROPERTY "You must decide on the property first"
       | GamePhase.PAYING_RENT =>
           failure ActionResult.INSUFFICIENT_FUNDS "You must pay rent first"
       | _ => success
       end.

(** The ownership loop of [validate_trade] over one side's properties;
    [None] when every position passes. *)
Fixpoint trade_properties_check (board : Board.t) (owner : Player.t)
    (not_owner : Z -> string) (positions : list Z) : option ValidationResult.t :=
  match positions with
  | [] => None
  | pos :: rest =>
      match Board.get_property board pos with
      | None => Some (failure ActionResult.NOT_OWNER (not_owner pos))
      | Some prop =>
          if negb (Board.owned_by (Player.id owner) prop)
          then Some (failure ActionResult.NOT_OWNER (not_owner pos))
          else if (0 <? Property.houses prop) || Property.has_hotel prop
          then Some (failure ActionResult.HAS_BUILDINGS
                       "Cannot trade properties with buildings")
          else trade_properties_check board owner not_owner rest
      end
  end.

Definition validate_trade (board : Board.t) (from_player to_player : Player.t)
    (offered_money requested_money : Z)
    (offered_properties requested_properties : list Z)
    (offered_jail_cards requested_jail_cards : Z) : ValidationResult.t :=
  if (0 <? offered_money) && negb (Player.can_afford from_player offered_money)
  then failure ActionResult.INSUFFICIENT_FUNDS
         "You cannot afford to offer that much money"
  else if (0 <? requested_money) && negb (Player.can_afford to_player requested_money)
  then failure ActionResult.INSUFFICIENT_FUNDS
         "Other player cannot afford that much money"
  else
    match trade_properties_check board from_player
            (fun pos => "You don't own property at position " ++ str_of_Z pos)
            offered_properties with
    | Some v => v
    | None =>
      match trade_properties_check board to_player
              (fun pos => "Other player doesn't own property at position "
                          ++ str_of_Z pos)
              requested_properties with
      | Some v => v
      | None =>
          if Player.jail_cards from_player <? offered_jail_cards
          then failure ActionResult.INVALID_TRADE
                 "You don't have enough Get Out of Jail Free cards"
          else if Player.jail_cards to_player <? requested_jail_cards
          then failure ActionResult.INVALID_TRADE
                 "Other player doesn't have enough Get Out of Jail Free cards"
          else if (offered_money =? 0) && (requested_money =? 0)
                  && (Z.of_nat (List.length offered_properties) =? 0)
                  && (Z.of_nat (List.length requested_properties) =? 0)
                  && (offered_jail_cards =? 0) && (requested_jail_cards =? 0)
          then failure ActionResult.INVALID_TRADE
                 "Trade must involve at least one item"
          else success
      end
    end.

(** The loop body of [calculate_total_assets] for one position of the
    player's property set. *)
Definition asset_value (board : Board.t) (pos : Z) : Z :=
  match Board.get_property board pos with
  | None => 0
  | Some prop =>
      (if Property.is_mortgaged prop then 0 else Property.mortgage_value prop)
      + match Property.house_cost prop with
        | None => 0
        | Some c =>
            if c =? 0 then 0
            else (Property.houses prop * c) / 2
                 + (if Property.has_hotel prop then c / 2 else 0)
        end
  end.

Definition calculate_total_assets (board : Board.t) (player : Player.t) : Z :=
  fold_left (fun total pos => total + asset_value board pos)
            (Player.properties player) (Player.money player).

Definition can_player_pay (board : Board.t) (player : Player.t) (amount : Z) : bool :=
  amount <=? calculate_total_assets board player.

Definition use_house (r : t) : bool * t :=
  if 0 <? houses_available r
  then (true, mk (houses_available r - 1) (hotels_available r))
  else (false, r).

Definition return_house (r : t) : t :=
  mk (houses_available r + 1) (hotels_available r).

Definition use_hotel (r : t) : bool * t :=
  if 0 <? hotels_available r
  then (true, mk (houses_available r + 4) (hotels_available r - 1))
  else (false, r).

Definition return_hotel (r : t) : t :=
  mk (houses_available r - 4) (hotels_available r + 1).

(** The first of [targets] met when scanning forward from [position]. *)
Definition get_nearest (targets : list Z) (position : Z) : Z :=
  match find (fun i => existsb (Z.eqb ((position + i) mod BOARD_SIZE)) targets)
             (map Z.of_nat (seq 1 39)) with
  | Some i => (position + i) mod BOARD_SIZE
  | None => hd 0 targets
  end.

Definition get_nearest_utility (position : Z) : Z := get_nearest [12; 28] position.
Definition get_nearest_railroad (position : Z) : Z :=
  get_nearest [5; 15; 25; 35] position.

Record Dict := mkDict { d_houses_available : Z; d_hotels_available : Z }.

Definition to_dict (r : t) : Dict := mkDict (houses_available r) (hotels_available r).

Definition load_state (data : Dict) : t :=
  mk (d_houses_available data) (d_hotels_available data).

End RuleEngine.

(** ** server/game_engine/game.py *)

(** The values stored in an event's [data] dictionary. *)
Inductive PyVal :=
| VNone
| VStr (s : string)
| VInt (z : Z)
| VBool (b : bool)
| VStrList (l : list string).

(** [GameEvent] without its wall-clock timestamp. *)
Record GameEvent := mkEvent { event_type : string; data : list (string * PyVal) }.

Definition VOptStr (o : option string) : PyVal :=
  match o with Some s => VStr s | None => VNone end.

(** Insertion-ordered dictionaries with string keys. *)
Fixpoint dict_get {V} (d : list (string * V)) (k : string) : option V :=
  match d with
  | [] => None
  | (k', v) :: r => if String.eqb k' k then Some v else dict_get r k
  end.

Fixpoint dict_set {V} (d : list (string * V)) (k : string) (v : V) : list (string * V) :=
  match d with
  | [] => [(k, v)]
  | (k', v') :: r => if String.eqb k' k then (k', v) :: r else (k', v') :: dict_set r k v
  end.

Fixpoint dict_del {V} (d : list (string * V)) (k : string) : list (string * V) :=
  match d with
  | [] => []
  | (k', v') :: r => if String.eqb k' k then r else (k', v') :: dict_del r k
  end.

(** [list.remove(x)]: the first occurrence; [None] is [ValueError]. *)
Fixpoint list_remove (l : list string) (x : string) : option (list string) :=
  match l with
  | [] => None
  | y :: r => if String.eqb y x then Some r
              else option_map (cons y) (list_remove r x)
  end.

Inductive PyExn := IndexError | KeyError | TypeError | ValueError | RecursionError.

Module Game.

(** The game object.  The [dice] attribute only wraps a random generator; the
    outcome of a roll is an input of [roll_dice]. *)
Record t := mk {
  id : string;
  name : string;
  created_at : Z;
  board : Board.t;
  cards : CardManager.t;
  rules : RuleEngine.t;
  players : list (string * Player.t);
  player_order : list string;
  current_player_index : Z;
  phase : GamePhase.t;
  turn_number : Z;
  last_dice_roll : option DiceResult.t;
  winner_id : option string;
  events : list GameEvent;
  min_players : Z;
  max_players : Z
}.

Definition set_board (g : t) (x : Board.t) : t :=
  mk (id g) (name g) (created_at g) x (cards g) (rules g) (players g)
     (player_order g) (current_player_index g) (phase g) (turn_number g)
     (last_dice_roll g) (winner_id g) (events g) (min_players g) (max_players g).
Definition set_cards (g : t) (x : CardManager.t) : t :=
  mk (id g) (name g) (created_at g) (board g) x (rules g) (players g)
     (player_order g) (current_player_index g) (phase g) (turn_number g)
     (last_dice_roll g) (winner_id g) (events g) (min_players g) (max_players g).
Definition set_rules (g : t) (x : RuleEngine.t) : t :=
  mk (id g) (name g) (created_at g) (board g) (cards g) x (players g)
     (player_order g) (current_player_index g) (phase g) (turn_number g)
     (last_dice_roll g) (winner_id g) (events g) (min_players g) (max_players g).
Definition set_players (g : t) (x : list (string * Player.t)) : t :=
  mk (id g) (name g) (created_at g) (board g) (cards g) (rules g) x
     (player_order g) (current_player_index g) (phase g) (turn_number g)
     (last_dice_roll g) (winner_id g) (events g) (min_players g) (max_players g).
Definition set_player_order (g : t) (x : list string) : t :=
  mk (id g) (name g) (created_at g) (board g) (cards g) (rules g) (players g)
     x (current_player_index g) (phase g) (turn_number g)
     (last_dice_roll g) (winner_id g) (events g) (min_players g) (max_players g).
Definition set_current_player_index (g : t) (x : Z) : t :=
  mk (id g) (name g) (created_at g) (board g) (cards g) (rules g) (players g)
     (player_order g) x (phase g) (turn_number g)
     (last_dice_roll g) (winner_id g) (events g) (min_players g) (max_players g).
Definition set_phase (g : t) (x : GamePhase.t) : t :=
  mk (id g) (name g) (created_at g) (board g) (cards g) (rules g) (players g)
     (player_order g) (current_player_index g) x (turn_number g)
     (last_dice_roll g) (winner_id g) (events g) (min_players g) (max_players g).
Definition set_turn_number (g : t) (x : Z) : t :=
  mk (id g) (name g) (created_at g) (board g) (cards g) (rules g) (players g)
     (player_order g) (current_player_index g) (phase g) x
     (last_dice_roll g) (winner_id g) (events g) (min_players g) (max_players g).
Definition set_last_dice_roll (g : t) (x : option DiceResult.t) : t :=
  mk (id g) (name g) (created_at g) (board g) (cards g) (rules g) (players g)
     (player_order g) (current_player_index g) (phase g) (turn_number g)
     x (winner_id g) (events g) (min_players g) (max_players g).
Definition set_winner_id (g : t) (x : option string) : t :=
  mk (id g) (name g) (created_at g) (board g) (cards g) (rules g) (players g)
     (player_order g) (current_player_index g) (phase g) (turn_number g)
     (last_dice_roll g) x (events g) (min_players g) (max_players g).
Definition set_events (g : t) (x : list GameEvent) : t :=
  mk (id g) (name g) (created_at g) (board g) (cards g) (rules g) (players g)
     (player_order g) (current_player_index g) (phase g) (turn_number g)
     (last_dice_roll g) (winner_id g) x (min_players g) (max_players g).

(** The outcome of a method call: it returns a value, raises, or does not
    terminate; in the first two cases the object is left in state [g]. *)
Inductive Result (A : Type) : Type :=
| Ret (a : A) (g : t)
| Raise (e : PyExn) (g : t)
| Diverge.
Arguments Ret {A} a g.
Arguments Raise {A} e g.
Arguments Diverge {A}.

Definition bind {A B} (r : Result A) (k : A -> t -> Result B) : Result B :=
  match r with
  | Ret a g => k a g
  | Raise e g => Raise e g
  | Diverge => Diverge
  end.

(** [Game(id=..., name=..., max_players=...)]: a fresh board, two freshly
    shuffled decks and a rule engine with the full bank. *)
Definition new (id name : string) (now : Z) (max_players : Z)
    (picks_chance picks_chest : list nat) : t :=
  mk id name now Board.new (CardManager.new picks_chance picks_chest)
     RuleEngine.new [] [] 0 GamePhase.WAITING 0 None None [] 2 max_players.

(** The slot of [player_order] designated by [current_player_index];
    the outer [None] is the [IndexError] of the subscript. *)
Definition current_player_key (g : t) : option (option string) :=
  match player_order g with
  | [] => Some None
  | _ => match py_index (player_order g) (current_player_index g) with
         | Some k => Some (Some k)
         | None => None
         end
  end.

Definition current_player (g : t) : option (option Player.t) :=
  match current_player_key g with
  | None => None
  | Some None => Some None
  | Some (Some k) => Some (dict_get (players g) k)
  end.

(** [self.current_player.id if self.current_player else ""] *)
Definition current_player_id (g : t) : option string :=
  match current_player g with
  | None => None
  | Some None => Some ""
  | Some (Some p) => Some (Player.id p)
  end.

Definition not_bankrupt (p : Player.t) : bool :=
  negb (PlayerState.eqb (Player.state p) PlayerState.BANKRUPT).

Definition active_players (g : t) : list Player.t :=
  filter not_bankrupt (map snd (players g)).

Definition is_game_over (g : t) : bool :=
  (Z.of_nat (List.length (active_players g)) <=? 1)
  && negb (GamePhase.eqb (phase g) GamePhase.WAITING).

Definition _log_event (g : t) (ty : string) (d : list (string * PyVal)) : t :=
  set_events g (events g ++ [mkEvent ty d]).

(** The player object that a method obtained with [self.players.get(key)]
    and keeps a reference to.  No slot is deleted while a gameplay method
    runs, so reading the slot again yields that object in its current state. *)
Definition the_player (g : t) (key : string) : Player.t :=
  match dict_get (players g) key with
  | Some p => p
  | None => Player.new "" ""
  end.

(** In-place mutation of the player object held under [key]. *)
Definition update_player (g : t) (key : string) (f : Player.t -> Player.t) : t :=
  match dict_get (players g) key with
  | Some p => set_players g (dict_set (players g) key (f p))
  | None => g
  end.

(** In-place mutation of the property object at [pos]. *)
Definition update_property (g : t) (pos : Z) (f : Property.t -> Property.t) : t :=
  match Board.get_property (board g) pos with
  | Some p => set_board g (Board.set_property (board g) pos (f p))
  | None => g
  end.

(** The [while True] loop of [_advance_turn]; [start_index] is fixed and the
    state carries the moving index.  The body only changes the index, and
    after one round it is in range and periodic, so a loop that has not left
    after [len(player_order)] rounds never does. *)
Fixpoint advance_loop (fuel : nat) (start_index : Z) (g : t) : Result unit :=
  match fuel with
  | O => Diverge
  | S fuel' =>
      let g1 := set_current_player_index g
                  ((current_player_index g + 1)
                   mod Z.of_nat (List.length (player_order g))) in
      if current_player_index g1 =? start_index then Ret tt g1
      else match current_player g1 with
           | None => Raise IndexError g1
           | Some (Some next_player) =>
               if not_bankrupt next_player then Ret tt g1
               else advance_loop fuel' start_index g1
           | Some None => advance_loop fuel' start_index g1
           end
  end.

Definition _advance_turn (g : t) : Result unit :=
  match player_order g with
  | [] => Ret tt g
  | _ =>
    bind (advance_loop (List.length (player_order g)) (current_player_index g) g)
      (fun _ g1 =>
         let g2 := set_phase (set_turn_number g1 (turn_number g1 + 1))
                             GamePhase.PRE_ROLL in
         match current_player_key g2 with
         | None => Raise IndexError g2
         | Some None => (* not reached: the order is not empty *)
             Ret tt (_log_event g2 "turn_started"
                       [("player_id", VNone); ("turn_number", VInt (turn_number g2))])
         | Some (Some k) =>
             match dict_get (players g2) k with
             | None =>
                 Ret tt (_log_event g2 "turn_started"
                           [("player_id", VNone); ("turn_number", VInt (turn_number g2))])
             | Some _ =>
                 let g3 := update_player g2 k Player.reset_turn in
                 let g4 :=
                   if PlayerState.eqb (Player.state (the_player g3 k)) PlayerState.IN_JAIL
                   then update_player g3 k
                          (fun p => Player.set_jail_turns p (Player.jail_turns p + 1))
                   else g3 in
                 Ret tt (_log_event g4 "turn_started"
                           [("player_id", VStr (Player.id (the_player g4 k)));
                            ("turn_number", VInt (turn_number g4))])
             end
         end)
  end.

(** *** Player management *)

Definition add_player (uuid : string) (name : string) (player_id : option string)
    (g : t) : Result (bool * string * option Player.t) :=
  if negb (GamePhase.eqb (phase g) GamePhase.WAITING)
  then Ret (false, "Game has already started", None) g
  else if max_players g <=? Z.of_nat (List.length (players g))
  then Ret (false, "Game is full (" ++ str_of_Z (max_players g) ++ " players maximum)",
            None) g
  else
    let player0 := Player.new name uuid in
    let player := match player_id with
                  | Some pid => if String.eqb pid "" then player0
                                else Player.set_id player0 pid
                  | None => player0
                  end in
    let g1 := set_players g (dict_set (players g) (Player.id player) player) in
    let g2 := set_player_order g1 (player_order g1 ++ [Player.id player]) in
    let g3 := _log_event g2 "player_joined"
                [("player_id", VStr (Player.id player));
                 ("player_name", VStr (Player.name player))] in
    Ret (true, name ++ " joined the game", Some player) g3.

(** The [while] loops of [_handle_bankruptcy] on one property.  The first
    loop clears [has_hotel] in its body, so it runs at most once; the second
    runs once per house.  A [TypeError] of [house_cost // 2] leaves the
    property as already updated. *)
Definition liquidate_hotel (pos : Z) (g : t) : Result unit :=
  match Board.get_property (board g) pos with
  | None => Ret tt g
  | Some prop =>
      if Property.has_hotel prop then
        let '(refund, prop1) := Property.sell_hotel prop in
        let g1 := set_board g (Board.set_property (board g) pos prop1) in
        match refund with
        | None => Raise TypeError g1
        | Some _ => Ret tt (set_rules g1 (RuleEngine.return_hotel (rules g1)))
        end
      else Ret tt g
  end.

Fixpoint liquidate_houses (n : nat) (pos : Z) (g : t) : Result unit :=
  match n with
  | O => Ret tt g
  | S n' =>
      match Board.get_property (board g) pos with
      | None => Ret tt g
      | Some prop =>
          if 0 <? Property.houses prop then
            let '(refund, prop1) := Property.sell_house prop in
            let g1 := set_board g (Board.set_property (board g) pos prop1) in
            match refund with
            | None => Raise TypeError g1
            | Some _ =>
                liquidate_houses n' pos
                  (set_rules g1 (RuleEngine.return_house (rules g1)))
            end
          else Ret tt g
      end
  end.

Definition return_to_bank (pos : Z) (g : t) : Result unit :=
  match Board.get_property (board g) pos with
  | None => Ret tt g
  | Some _ =>
      bind (liquidate_hotel pos g) (fun _ g1 =>
      bind (liquidate_houses
              (Z.to_nat (match Board.get_property (board g1) pos with
                         | Some p => Property.houses p
                         | None => 0
                         end)) pos g1) (fun _ g2 =>
      Ret tt (update_property g2 pos
                (fun p => Property.set_is_mortgaged (Property.set_owner_id p None) false))))
  end.

Fixpoint return_all_to_bank (positions : list Z) (g : t) : Result unit :=
  match positions with
  | [] => Ret tt g
  | pos :: rest => bind (return_to_bank pos g) (fun _ g1 => return_all_to_bank rest g1)
  end.

Definition give_to_creditor (creditor : string) (g : t) (pos : Z) : t :=
  match Board.get_property (board g) pos with
  | None => g
  | Some _ =>
      let g1 := update_property g pos
                  (fun p => Property.set_owner_id p
                              (Some (Player.id (the_player g creditor)))) in
      update_player g1 creditor (fun c => Player.add_property c pos)
  end.

(** [player] and [creditor] are the dictionary keys of the two objects;
    they may designate the same object. *)
Definition _handle_bankruptcy (player : string) (creditor : option string)
    (g : t) : Result unit :=
  let finish (g : t) : Result unit :=
    let g1 := update_player g player Player.declare_bankruptcy in
    Ret tt (_log_event g1 "bankruptcy"
              [("player_id", VStr (Player.id (the_player g1 player)));
               ("player_name", VStr (Player.name (the_player g1 player)));
               ("creditor_id",
                match creditor with
                | Some c => VStr (Player.id (the_player g1 c))
                | None => VNone
                end)]) in
  match creditor with
  | Some c =>
      let g1 := update_player g c
                  (fun cr => Player.add_money cr (Player.money (the_player g player))) in
      let g2 := update_player g1 c
                  (fun cr => Player.set_jail_cards cr
                               (Player.jail_cards cr
                                + Player.jail_cards (the_player g1 player))) in
      finish (fold_left (give_to_creditor c) (Player.properties (the_player g2 player)) g2)
  | None =>
      bind (return_all_to_bank (Player.properties (the_player g player)) g)
           (fun _ g1 => finish g1)
  end.

Definition remove_player (player_id : string) (g : t) : Result (bool * string) :=
  match dict_get (players g) player_id with
  | None => Ret (false, "Player not found") g
  | Some player =>
      let after (g : t) : Result (bool * string) :=
        Ret (true, Player.name player ++ " left the game")
            (_log_event g "player_left" [("player_id", VStr player_id)]) in
      if GamePhase.eqb (phase g) GamePhase.WAITING then
        let g1 := set_players g (dict_del (players g) player_id) in
        match list_remove (player_order g1) player_id with
        | None => Raise ValueError g1
        | Some order => after (set_player_order g1 order)
        end
      else bind (_handle_bankruptcy player_id None g) (fun _ g1 => after g1)
  end.

Definition start_game (picks : list nat) (g : t) : Result (bool * string) :=
  if negb (GamePhase.eqb (phase g) GamePhase.WAITING)
  then Ret (false, "Game has already started") g
  else if Z.of_nat (List.length (players g)) <? min_players g
  then Ret (false, "Need at least " ++ str_of_Z (min_players g) ++ " players to start") g
  else
    let g1 := set_player_order g (shuffle picks (player_order g)) in
    let g2 := set_turn_number (set_phase g1 GamePhase.PRE_ROLL) 1 in
    match current_player_key g2 with
    | None => Raise IndexError g2
    | Some k =>
        let g3 := match k with
                  | Some k => update_player g2 k Player.reset_turn
                  | None => g2
                  end in
        Ret (true, "Game started!")
            (_log_event g3 "game_started" [("player_order", VStrList (player_order g3))])
    end.

(** *** Dice rolling and landing *)

Definition RollResult : Type := bool * string * option DiceResult.t.

(** [COLLECT_FROM_PLAYERS]: every active player other than the drawer hands
    over [min(value, money)]; the result is the updated dictionary and the
    total collected. *)
Fixpoint collect_from (value : Z) (drawer_id : string)
    (ps : list (string * Player.t)) : list (string * Player.t) * Z :=
  match ps with
  | [] => ([], 0)
  | (k, other) :: r =>
      let '(r', total) := collect_from value drawer_id r in
      if Game.not_bankrupt other && negb (String.eqb (Player.id other) drawer_id)
      then let amount := Z.min value (Player.money other) in
           ((k, snd (Player.remove_money other amount)) :: r', amount + total)
      else ((k, other) :: r', total)
  end.

(** [PAY_TO_PLAYERS]: every active player other than the drawer receives
    [value]. *)
Definition pay_each (value : Z) (drawer_id : string)
    (ps : list (string * Player.t)) : list (string * Player.t) :=
  map (fun kp =>
         if Game.not_bankrupt (snd kp)
            && negb (String.eqb (Player.id (snd kp)) drawer_id)
         then (fst kp, Player.add_money (snd kp) value)
         else kp) ps.

(** [REPAIRS]: the bill over the drawer's property set. *)
Definition repairs_cost (b : Board.t) (card : Card.t) (positions : list Z) : Z :=
  fold_left (fun total pos =>
               match Board.get_property b pos with
               | Some prop =>
                   let t1 := total + Property.houses prop * Card.per_house card in
                   if Property.has_hotel prop then t1 + Card.per_hotel card else t1
               | None => total
               end) positions 0.

Definition _handle_property_landing (player : string) (dice_result : DiceResult.t)
    (g : t) : Result RollResult :=
  let p := the_player g player in
  match Board.get_property (board g) (Player.position p) with
  | None => Ret (true, "Unknown space", Some dice_result)
                (set_phase g GamePhase.POST_ROLL)
  | Some prop =>
      if negb (Property.is_owned prop)
      then Ret (true, Property.name prop ++ " is available for $"
                      ++ str_of_Z (Property.cost prop), Some dice_result)
               (set_phase g GamePhase.PROPERTY_DECISION)
      else if Board.owned_by (Player.id p) prop
      then Ret (true, "Welcome home to " ++ Property.name prop ++ "!", Some dice_result)
               (set_phase g GamePhase.POST_ROLL)
      else
        match Board.calculate_rent (board g) (Player.position p)
                (DiceResult.total dice_result) (Some (Player.id p)) with
        | None => Raise IndexError g
        | Some rent =>
            if rent =? 0
            then Ret (true, Property.name prop ++ " is mortgaged - no rent due",
                      Some dice_result)
                     (set_phase g GamePhase.POST_ROLL)
            else
              let owner_key := match Property.owner_id prop with
                               | Some o => o
                               | None => "" (* not reached: the property is owned *)
                               end in
              let owner_name := match dict_get (players g) owner_key with
                                | Some o => Player.name o
                                | None => "Unknown"
                                end in
              let ev := [("payer_id", VStr (Player.id p));
                         ("payee_id", VOptStr (Property.owner_id prop));
                         ("amount", VInt rent);
                         ("property", VStr (Property.name prop))] in
              if Player.can_afford p rent then
                let g1 := update_player g player
                            (fun q => snd (Player.remove_money q rent)) in
                let g2 := update_player g1 owner_key
                            (fun o => Player.add_money o rent) in
                Ret (true, "Paid $" ++ str_of_Z rent ++ " rent to " ++ owner_name,
                     Some dice_result)
                    (_log_event (set_phase g2 GamePhase.POST_ROLL) "rent_paid" ev)
              else
                Ret (true, "Owe $" ++ str_of_Z rent ++ " to " ++ owner_name
                           ++ " - raise funds!", Some dice_result)
                    (_log_event (set_phase g GamePhase.PAYING_RENT) "rent_due" ev)
        end
  end.

(** [_execute_card]; [landing] is the re-entry into [_handle_landing]. *)
Definition _execute_card (landing : t -> Result RollResult) (player : string)
    (card : Card.t) (dice_result : DiceResult.t) (g : t) : Result RollResult :=
  let p := the_player g player in
  let post (g : t) := set_phase g GamePhase.POST_ROLL in
  let blocked (g : t) := set_phase g GamePhase.PAYING_RENT in
  match Card.action card with
  | CardAction.COLLECT_MONEY =>
      Ret (true, Card.text card ++ " (+$" ++ str_of_Z (Card.value card) ++ ")",
           Some dice_result)
          (post (update_player g player (fun q => Player.add_money q (Card.value card))))
  | CardAction.PAY_MONEY =>
      Ret (true, Card.text card ++ " (-$" ++ str_of_Z (Card.value card) ++ ")",
           Some dice_result)
          (if Player.can_afford p (Card.value card)
           then post (update_player g player
                        (fun q => snd (Player.remove_money q (Card.value card))))
           else blocked g)
  | CardAction.COLLECT_FROM_PLAYERS =>
      let '(ps, total) := collect_from (Card.value card) (Player.id p) (players g) in
      let g1 := set_players g ps in
      Ret (true, Card.text card ++ " (+$" ++ str_of_Z total ++ ")", Some dice_result)
          (post (update_player g1 player (fun q => Player.add_money q total)))
  | CardAction.PAY_TO_PLAYERS =>
      let total_owed :=
        Card.value card * (Z.of_nat (List.length (active_players g)) - 1) in
      Ret (true, Card.text card ++ " (-$" ++ str_of_Z total_owed ++ ")", Some dice_result)
          (if Player.can_afford p total_owed
           then
             let g1 := update_player g player
                         (fun q => snd (Player.remove_money q total_owed)) in
             post (set_players g1 (pay_each (Card.value card) (Player.id p) (players g1)))
           else blocked g)
  | CardAction.MOVE_TO =>
      let new_pos :=
        if Card.value card =? -1
        then RuleEngine.get_nearest_utility (Player.position p)
        else if Card.value card =? -2
        then RuleEngine.get_nearest_railroad (Player.position p)
        else Card.value card in
      landing (update_player g player (fun q => snd (Player.move_to q new_pos true)))
  | CardAction.MOVE_BACK =>
      let new_pos := (Player.position p - Card.value card) mod BOARD_SIZE in
      landing (update_player g player (fun q => snd (Player.move_to q new_pos false)))
  | CardAction.GO_TO_JAIL =>
      Ret (true, Card.text card, Some dice_result)
          (post (update_player g player Player.send_to_jail))
  | CardAction.GET_OUT_OF_JAIL =>
      Ret (true, Card.text card ++ " (Card kept)", Some dice_result)
          (post (update_player g player
                   (fun q => Player.set_jail_cards q (Player.jail_cards q + 1))))
  | CardAction.REPAIRS =>
      let total_cost := repairs_cost (board g) card (Player.properties p) in
      Ret (true, Card.text card ++ " (-$" ++ str_of_Z total_cost ++ ")", Some dice_result)
          (if Player.can_afford p total_cost
           then post (update_player g player
                        (fun q => snd (Player.remove_money q total_cost)))
           else blocked g)
  | CardAction.MOVE_FORWARD =>
      Ret (true, Card.text card, Some dice_result) (post g)
  end.

(** [_handle_card]; [picks] feeds the reshuffle of an exhausted deck. *)
Definition _handle_card (landing : t -> Result RollResult) (picks : list nat)
    (player : string) (card_type : CardType.t) (dice_result : DiceResult.t)
    (g : t) : Result RollResult :=
  let '(drawn, cards1) :=
    match card_type with
    | CardType.CHANCE => CardManager.draw_chance picks (cards g)
    | CardType.COMMUNITY_CHEST => CardManager.draw_community_chest picks (cards g)
    end in
  let g1 := set_cards g cards1 in
  match drawn with
  | None => Raise IndexError g1
  | Some card =>
      let g2 := _log_event g1 "card_drawn"
                  [("player_id", VStr (Player.id (the_player g1 player)));
                   ("card_type", VStr (match card_type with
                                       | CardType.CHANCE => "CHANCE"
                                       | CardType.COMMUNITY_CHEST => "COMMUNITY_CHEST"
                                       end));
                   ("card_text", VStr (Card.text card))] in
      _execute_card landing player card dice_result g2
  end.

(** [_handle_landing].  A card that moves the player re-enters the function;
    [depth] bounds the nesting (the interpreter's recursion limit) and
    [picks] holds the generator draws for each nested card. *)
Fixpoint _handle_landing (depth : nat) (picks : list (list nat)) (player : string)
    (dice_result : DiceResult.t) (g : t) : Result RollResult :=
  match depth with
  | O => Raise RecursionError g
  | S depth' =>
      let p := the_player g player in
      let post (msg : string) :=
        Ret (true, msg, Some dice_result) (set_phase g GamePhase.POST_ROLL) in
      let landing := _handle_landing depth' (tl picks) player dice_result in
      match Board.get_space (Player.position p) with
      | None => Raise KeyError g
      | Some space =>
          match sp_type space with
          | SpaceType.GO => post "Landed on GO!"
          | SpaceType.JAIL => post "Just visiting jail"
          | SpaceType.FREE_PARKING => post "Free Parking - take a rest!"
          | SpaceType.GO_TO_JAIL =>
              let g1 := update_player g player Player.send_to_jail in
              let g2 := set_phase g1 GamePhase.POST_ROLL in
              Ret (true, "Go to Jail!", Some dice_result)
                  (_log_event g2 "sent_to_jail"
                     [("player_id", VStr (Player.id (the_player g2 player)));
                      ("reason", VStr "landed_on_go_to_jail")])
          | SpaceType.TAX =>
              match sp_cost space with
              | None => Raise TypeError g
              | Some tax_amount =>
                  if Player.can_afford p tax_amount then
                    let g1 := update_player g player
                                (fun q => snd (Player.remove_money q tax_amount)) in
                    let g2 := set_phase g1 GamePhase.POST_ROLL in
                    Ret (true, "Paid $" ++ str_of_Z tax_amount ++ " in taxes",
                         Some dice_result)
                        (_log_event g2 "tax_paid"
                           [("player_id", VStr (Player.id (the_player g2 player)));
                            ("amount", VInt tax_amount)])
                  else
                    Ret (true, "Must pay $" ++ str_of_Z tax_amount ++ " in taxes",
                         Some dice_result)
                        (set_phase g GamePhase.PAYING_RENT)
              end
          | SpaceType.CHANCE =>
              _handle_card landing (hd [] picks) player CardType.CHANCE dice_result g
          | SpaceType.COMMUNITY_CHEST =>
              _handle_card landing (hd [] picks) player CardType.COMMUNITY_CHEST
                           dice_result g
          | SpaceType.PROPERTY | SpaceType.RAILROAD | SpaceType.UTILITY =>
              _handle_property_landing player dice_result g
          end
      end
  end.

(** The nesting depth granted to one roll. *)
Definition RECURSION_DEPTH : nat := 300.

Definition _move_player (picks : list (list nat)) (player : string) (spaces : Z)
    (dice_result : DiceResult.t) (g : t) : Result RollResult :=
  let old_position := Player.position (the_player g player) in
  let passed_go := fst (Player.move_forward (the_player g player) spaces) in
  let g1 := update_player g player (fun q => snd (Player.move_forward q spaces)) in
  let g2 := if passed_go
            then _log_event g1 "passed_go"
                   [("player_id", VStr (Player.id (the_player g1 player)));
                    ("collected", VInt SALARY_AMOUNT)]
            else g1 in
  let g3 := _log_event g2 "player_moved"
              [("player_id", VStr (Player.id (the_player g2 player)));
               ("from", VInt old_position);
               ("to", VInt (Player.position (the_player g2 player)));
               ("spaces", VInt spaces)] in
  _handle_landing RECURSION_DEPTH picks player dice_result g3.

Definition _handle_jail_roll (picks : list (list nat)) (player : string)
    (result : DiceResult.t) (g : t) : Result RollResult :=
  let p := the_player g player in
  if DiceResult.is_double result then
    let g1 := update_player g player Player.release_from_jail in
    let g2 := _log_event g1 "released_from_jail"
                [("player_id", VStr (Player.id p)); ("reason", VStr "rolled_doubles")] in
    _move_player picks player (DiceResult.total result) result g2
  else if MAX_JAIL_TURNS <=? Player.jail_turns p then
    if Player.can_afford p JAIL_BAIL then
      let g1 := update_player g player
                  (fun q => Player.release_from_jail
                              (snd (Player.remove_money q JAIL_BAIL))) in
      let g2 := _log_event g1 "released_from_jail"
                  [("player_id", VStr (Player.id p)); ("reason", VStr "forced_bail");
                   ("amount", VInt JAIL_BAIL)] in
      _move_player picks player (DiceResult.total result) result g2
    else
      Ret (true, "Must pay $" ++ str_of_Z JAIL_BAIL
                 ++ " bail - sell assets or go bankrupt", Some result)
          (set_phase g GamePhase.PAYING_RENT)
  else
    Ret (true, "No doubles. " ++ str_of_Z (MAX_JAIL_TURNS - Player.jail_turns p)
               ++ " attempts remaining.", Some result)
        (set_phase g GamePhase.POST_ROLL).

(** [rolled] is the pair produced by [self.dice.roll()]. *)
Definition roll_dice (rolled : DiceResult.t) (picks : list (list nat))
    (player_id : string) (g : t) : Result RollResult :=
  match dict_get (players g) player_id with
  | None => Ret (false, "Player not found", None) g
  | Some player =>
    match current_player_id g with
    | None => Raise IndexError g
    | Some current =>
      let validation := RuleEngine.validate_roll_dice player current (phase g) in
      if negb (ValidationResult.valid validation)
      then Ret (false, ValidationResult.message validation, None) g
      else
        let g1 := set_last_dice_roll g (Some rolled) in
        let g2 := update_player g1 player_id (fun q => Player.set_has_rolled q true) in
        let g3 := _log_event g2 "dice_rolled"
                    [("player_id", VStr player_id);
                     ("die1", VInt (DiceResult.die1 rolled));
                     ("die2", VInt (DiceResult.die2 rolled));
                     ("total", VInt (DiceResult.total rolled));
                     ("is_double", VBool (DiceResult.is_double rolled))] in
        if PlayerState.eqb (Player.state player) PlayerState.IN_JAIL
        then _handle_jail_roll picks player_id rolled g3
        else if DiceResult.is_double rolled then
          let g4 := update_player g3 player_id
                      (fun q => Player.set_consecutive_doubles q
                                  (Player.consecutive_doubles q + 1)) in
          if 3 <=? Player.consecutive_doubles (the_player g4 player_id) then
            let g5 := update_player g4 player_id Player.send_to_jail in
            let g6 := set_phase g5 GamePhase.POST_ROLL in
            Ret (true, "Three doubles! Go to jail!", Some rolled)
                (_log_event g6 "sent_to_jail"
                   [("player_id", VStr player_id); ("reason", VStr "three_doubles")])
          else _move_player picks player_id (DiceResult.total rolled) rolled g4
        else
          let g4 := update_player g3 player_id
                      (fun q => Player.set_consecutive_doubles q 0) in
          _move_player picks player_id (DiceResult.total rolled) rolled g4
    end
  end.

(** *** Property actions *)

Definition buy_property (player_id : string) (g : t) : Result (bool * string) :=
  match dict_get (players g) player_id with
  | None => Ret (false, "Player not found") g
  | Some player =>
    match current_player_id g with
    | None => Raise IndexError g
    | Some current =>
      let validation :=
        RuleEngine.validate_buy_property (board g) player (Player.position player)
          current (phase g) in
      if negb (ValidationResult.valid validation)
      then Ret (false, ValidationResult.message validation) g
      else
        match Board.get_property (board g) (Player.position player) with
        | None => Raise TypeError g (* not reached: validation found the property *)
        | Some prop =>
            let g1 := update_player g player_id
                        (fun q => snd (Player.remove_money q (Property.cost prop))) in
            let g2 := update_property g1 (Property.position prop)
                        (fun q => Property.set_owner_id q (Some (Player.id player))) in
            let g3 := update_player g2 player_id
                        (fun q => Player.add_property q (Property.position prop)) in
            let g4 := set_phase g3 GamePhase.POST_ROLL in
            Ret (true, "Bought " ++ Property.name prop ++ " for $"
                       ++ str_of_Z (Property.cost prop))
                (_log_event g4 "property_bought"
                   [("player_id", VStr player_id);
                    ("property", VStr (Property.name prop));
                    ("position", VInt (Property.position prop));
                    ("price", VInt (Property.cost prop))])
        end
    end
  end.

Definition decline_property (player_id : string) (g : t) : Result (bool * string) :=
  match dict_get (players g) player_id with
  | None => Ret (false, "Player not found") g
  | Some player =>
      if negb (GamePhase.eqb (phase g) GamePhase.PROPERTY_DECISION)
      then Ret (false, "Not in property decision phase") g
      else
        match current_player_id g with
        | None => Raise IndexError g
        | Some current =>
            if negb (String.eqb (Player.id player) current)
            then Ret (false, "Not your turn") g
            else
              let prop := Board.get_property (board g) (Player.position player) in
              let g1 := set_phase g GamePhase.POST_ROLL in
              Ret (true, "Declined to buy "
                         ++ match prop with
                            | Some q => Property.name q
                            | None => "property"
                            end)
                  (_log_event g1 "property_declined"
                     [("player_id", VStr player_id);
                      ("property", VStr match prop with
                                        | Some q => Property.name q
                                        | None => "Unknown"
                                        end);
                      ("position", VInt (Player.position player))])
        end
  end.

Definition build_house (player_id : string) (position : Z) (g : t)
    : Result (bool * string) :=
  match dict_get (players g) player_id with
  | None => Ret (false, "Player not found") g
  | Some player =>
    match current_player_id g with
    | None => Raise IndexError g
    | Some current =>
      let validation :=
        RuleEngine.validate_build_house (rules g) (board g) player position current in
      if negb (ValidationResult.valid validation)
      then Ret (false, ValidationResult.message validation) g
      else
        match Board.get_property (board g) position with
        | None => Raise TypeError g (* not reached: validation found the property *)
        | Some prop =>
          match Property.house_cost prop with
          | None => Raise TypeError g (* not reached: validation found the cost *)
          | Some c =>
            let g1 := update_player g player_id
                        (fun q => snd (Player.remove_money q c)) in
            let g2 := update_property g1 position
                        (fun q => snd (Property.build_house q)) in
            let g3 := set_rules g2 (snd (RuleEngine.use_house (rules g2))) in
            let houses := match Board.get_property (board g3) position with
                          | Some q => Property.houses q
                          | None => 0
                          end in
            Ret (true, "Built house on " ++ Property.name prop ++ " (now "
                       ++ str_of_Z houses ++ " houses)")
                (_log_event g3 "house_built"
                   [("player_id", VStr player_id);
                    ("property", VStr (Property.name prop));
                    ("position", VInt position);
                    ("houses", VInt houses)])
          end
        end
    end
  end.

Definition build_hotel (player_id : string) (position : Z) (g : t)
    : Result (bool * string) :=
  match dict_get (players g) player_id with
  | None => Ret (false, "Player not found") g
  | Some player =>
    match current_player_id g with
    | None => Raise IndexError g
    | Some current =>
      let validation :=
        RuleEngine.validate_build_hotel (rules g) (board g) player position current in
      if negb (ValidationResult.valid validation)
      then Ret (false, ValidationResult.message validation) g
      else
        match Board.get_property (board g) position with
        | None => Raise TypeError g (* not reached: validation found the property *)
        | Some prop =>
          match Property.house_cost prop with
          | None => Raise TypeError g (* not reached: validation found the cost *)
          | Some c =>
            let g1 := update_player g player_id
                        (fun q => snd (Player.remove_money q c)) in
            let g2 := update_property g1 position
                        (fun q => snd (Property.build_hotel q)) in
            let g3 := set_rules g2 (snd (RuleEngine.use_hotel (rules g2))) in
            Ret (true, "Built hotel on " ++ Property.name prop)
                (_log_event g3 "hotel_built"
                   [("player_id", VStr player_id);
                    ("property", VStr (Property.name prop));
                    ("position", VInt position)])
          end
        end
    end
  end.

Definition sell_building (player_id : string) (position : Z) (g : t)
    : Result (bool * string) :=
  match dict_get (players g) player_id with
  | None => Ret (false, "Player not found") g
  | Some player =>
      let validation := RuleEngine.validate_sell_house (board g) player position in
      if negb (ValidationResult.valid validation)
      then Ret (false, ValidationResult.message validation) g
      else
        match Board.get_property (board g) position with
        | None => Raise TypeError g (* not reached: validation found the property *)
        | Some prop =>
            let hotel := Property.has_hotel prop in
            let '(refund, prop1) :=
              if hotel then Property.sell_hotel prop else Property.sell_house prop in
            let g1 := set_board g (Board.set_property (board g) position prop1) in
            match refund with
            | None => Raise TypeError g1
            | Some refund =>
                let g2 := set_rules g1
                            (if hotel then RuleEngine.return_hotel (rules g1)
                             else RuleEngine.return_house (rules g1)) in
                let building_type := if hotel then "hotel" else "house" in
                let g3 := update_player g2 player_id
                            (fun q => Player.add_money q refund) in
                Ret (true, "Sold " ++ building_type ++ " on " ++ Property.name prop
                           ++ " for $" ++ str_of_Z refund)
                    (_log_event g3 "building_sold"
                       [("player_id", VStr player_id);
                        ("property", VStr (Property.name prop));
                        ("position", VInt position);
                        ("building_type", VStr building_type);
                        ("refund", VInt refund)])
            end
        end
  end.

Definition mortgage_property (player_id : string) (position : Z) (g : t)
    : Result (bool * string) :=
  match dict_get (players g) player_id with
  | None => Ret (false, "Player not found") g
  | Some player =>
      let validation := RuleEngine.validate_mortgage (board g) player position in
      if negb (ValidationResult.valid validation)
      then Ret (false, ValidationResult.message validation) g
      else
        match Board.get_property (board g) position with
        | None => Raise TypeError g (* not reached: validation found the property *)
        | Some prop =>
            let '(mortgage_value, prop1) := Property.mortgage prop in
            let g1 := set_board g (Board.set_property (board g) position prop1) in
            let g2 := update_player g1 player_id
                        (fun q => Player.add_money q mortgage_value) in
            Ret (true, "Mortgaged " ++ Property.name prop ++ " for $"
                       ++ str_of_Z mortgage_value)
                (_log_event g2 "property_mortgaged"
                   [("player_id", VStr player_id);
                    ("property", VStr (Property.name prop));
                    ("position", VInt position);
                    ("value", VInt mortgage_value)])
        end
  end.

Definition unmortgage_property (player_id : string) (position : Z) (g : t)
    : Result (bool * string) :=
  match dict_get (players g) player_id with
  | None => Ret (false, "Player not found") g
  | Some player =>
      let validation := RuleEngine.validate_unmortgage (board g) player position in
      if negb (ValidationResult.valid validation)
      then Ret (false, ValidationResult.message validation) g
      else
        match Board.get_property (board g) position with
        | None => Raise TypeError g (* not reached: validation found the property *)
        | Some prop =>
            let cost := Property.unmortgage_cost prop in
            let g1 := update_player g player_id
                        (fun q => snd (Player.remove_money q cost)) in
            let g2 := update_property g1 position
                        (fun q => snd (Property.unmortgage q)) in
            Ret (true, "Unmortgaged " ++ Property.name prop ++ " for $"
                       ++ str_of_Z cost)
                (_log_event g2 "property_unmortgaged"
                   [("player_id", VStr player_id);
                    ("property", VStr (Property.name prop));
                    ("position", VInt position);
                    ("cost", VInt cost)])
        end
  end.

(** *** Jail actions *)

Definition pay_bail (player_id : string) (g : t) : Result (bool * string) :=
  match dict_get (players g) player_id with
  | None => Ret (false, "Player not found") g
  | Some player =>
    match current_player_id g with
    | None => Raise IndexError g
    | Some current =>
      let validation := RuleEngine.validate_pay_bail player current in
      if negb (ValidationResult.valid validation)
      then Ret (false, ValidationResult.message validation) g
      else
        let g1 := update_player g player_id
                    (fun q => Player.release_from_jail
                                (snd (Player.remove_money q JAIL_BAIL))) in
        Ret (true, "Paid $" ++ str_of_Z JAIL_BAIL ++ " bail")
            (_log_event g1 "bail_paid"
               [("player_id", VStr player_id); ("amount", VInt JAIL_BAIL)])
    end
  end.

Definition use_jail_card (player_id : string) (g : t) : Result (bool * string) :=
  match dict_get (players g) player_id with
  | None => Ret (false, "Player not found") g
  | Some player =>
    match current_player_id g with
    | None => Raise IndexError g
    | Some current =>
      let validation := RuleEngine.validate_use_jail_card player current in
      if negb (ValidationResult.valid validation)
      then Ret (false, ValidationResult.message validation) g
      else
        let g1 := update_player g player_id
                    (fun q => Player.release_from_jail
                                (Player.set_jail_cards q (Player.jail_cards q - 1))) in
        let g2 := set_cards g1 (CardManager.return_jail_card (cards g1) CardType.CHANCE) in
        Ret (true, "Used Get Out of Jail Free card")
            (_log_event g2 "jail_card_used" [("player_id", VStr player_id)])
    end
  end.

(** *** Turn management *)

Definition _end_game (g : t) : t :=
  let g1 := set_phase g GamePhase.GAME_OVER in
  match active_players g1 with
  | [] => g1
  | winner :: _ =>
      _log_event (set_winner_id g1 (Some (Player.id winner))) "game_over"
        [("winner_id", VStr (Player.id winner));
         ("winner_name", VStr (Player.name winner))]
  end.

Definition game_over_message (g : t) : string :=
  "Game Over! "
  ++ match active_players g with
     | p :: _ => Player.name p
     | [] => "Nobody"
     end ++ " wins!".

Definition end_turn (player_id : string) (g : t) : Result (bool * string) :=
  match dict_get (players g) player_id with
  | None => Ret (false, "Player not found") g
  | Some player =>
    match current_player_id g with
    | None => Raise IndexError g
    | Some current =>
      let validation := RuleEngine.validate_end_turn player current (phase g) in
      if negb (ValidationResult.valid validation)
      then Ret (false, ValidationResult.message validation) g
      else if match last_dice_roll g with
              | Some roll => DiceResult.is_double roll
              | None => false
              end
              && (Player.consecutive_doubles player <? 3)
              && negb (PlayerState.eqb (Player.state player) PlayerState.IN_JAIL)
      then
        let g1 := set_phase g GamePhase.PRE_ROLL in
        let g2 := update_player g1 player_id (fun q => Player.set_has_rolled q false) in
        Ret (true, "Doubles! Roll again")
            (_log_event g2 "extra_turn"
               [("player_id", VStr player_id); ("reason", VStr "doubles")])
      else if is_game_over g
      then let g1 := _end_game g in Ret (true, game_over_message g1) g1
      else
        bind (_advance_turn g) (fun _ g1 =>
          match current_player g1 with
          | None => Raise IndexError g1
          | Some (Some p) =>
              Ret (true, "Turn ended. " ++ Player.name p ++ "'s turn") g1
          | Some None => Ret (true, "Turn ended") g1
          end)
    end
  end.

(** *** Bankruptcy *)

Definition declare_bankruptcy (player_id : string) (creditor_id : option string)
    (g : t) : Result (bool * string) :=
  match dict_get (players g) player_id with
  | None => Ret (false, "Player not found") g
  | Some player =>
      let creditor :=
        match creditor_id with
        | Some c => if String.eqb c "" then None
                    else match dict_get (players g) c with
                         | Some _ => Some c
                         | None => None
                         end
        | None => None
        end in
      bind (_handle_bankruptcy player_id creditor g) (fun _ g1 =>
        if is_game_over g1
        then let g2 := _end_game g1 in Ret (true, game_over_message g2) g2
        else
          match current_player g1 with
          | None => Raise IndexError g1
          | Some (Some p) =>
              if String.eqb (Player.id p) player_id
              then bind (_advance_turn g1) (fun _ g2 =>
                     Ret (true, Player.name player ++ " declared bankruptcy") g2)
              else Ret (true, Player.name player ++ " declared bankruptcy") g1
          | Some None => Ret (true, Player.name player ++ " declared bankruptcy") g1
          end)
  end.

(** *** Serialization *)

Record Dict := mkDict {
  d_id : string;
  d_name : string;
  d_created_at : Z;
  d_phase : GamePhase.t;
  d_turn_number : Z;
  d_current_player_index : Z;
  d_player_order : list string;
  d_winner_id : option string;
  d_last_dice_roll : option (list Z);
  d_players : list (string * Player.Dict);
  d_board : Board.Dict;
  d_rules : RuleEngine.Dict;
  d_cards : CardManager.Dict
}.

Definition to_dict (g : t) : Dict :=
  mkDict (id g) (name g) (created_at g) (phase g) (turn_number g)
    (current_player_index g) (player_order g) (winner_id g)
    (option_map DiceResult.to_list (last_dice_roll g))
    (map (fun kp => (fst kp, Player.to_dict (snd kp))) (players g))
    (Board.to_dict (board g))
    (RuleEngine.to_dict (rules g))
    (CardManager.to_dict (cards g)).

(** [DiceResult(die1=roll[0], die2=roll[1])] when the stored list is truthy;
    the outer [None] is the [IndexError] of a too short list. *)
Definition load_dice_roll (stored : option (list Z)) : option (option DiceResult.t) :=
  match stored with
  | None | Some [] => Some None
  | Some [_] => None
  | Some (a :: b :: _) => Some (Some (DiceResult.mk a b))
  end.

(** [from_dict]: [cls(id=..., name=...)] builds a default game, with decks
    shuffled from the generator draws [picks_chance] and [picks_chest] and
    the clock reading [now]; the saved fields are then copied over it. *)
Definition from_dict (now : Z) (picks_chance picks_chest : list nat) (data : Dict)
    : option t :=
  let game := new (d_id data) (d_name data) now 4 picks_chance picks_chest in
  match load_dice_roll (d_last_dice_roll data) with
  | None => None
  | Some roll =>
      Some (mk (id game) (name game) (d_created_at data)
               (Board.from_dict (d_board data))
               (cards game)
               (RuleEngine.load_state (d_rules data))
               (fold_left (fun ps kd => dict_set ps (fst kd) (Player.from_dict (snd kd)))
                          (d_players data) (players game))
               (d_player_order data)
               (d_current_player_index data)
               (d_phase data)
               (d_turn_number data)
               roll
               (d_winner_id data)
               (events game) (min_players game) (max_players game))
  end.

(** [get_state_for_player]: the dictionary sent to a client.  The outer
    [None] is the [IndexError] of [current_player]; [v_is_your_turn] is
    [None] when there is no current player. *)
Record StateView := mkView {
  v_game_id : string;
  v_game_name : string;
  v_phase : GamePhase.t;
  v_turn_number : Z;
  v_current_player_id : option string;
  v_is_your_turn : option bool;
  v_last_dice_roll : option (list Z);
  v_players : list Player.Dict;
  v_board : Board.Dict;
  v_houses_available : Z;
  v_hotels_available : Z;
  v_winner_id : option string
}.

Definition get_state_for_player (player_id : string) (g : t) : option StateView :=
  match current_player g with
  | None => None
  | Some current =>
      Some (mkView (id g) (name g) (phase g) (turn_number g)
              (option_map Player.id current)
              (option_map (fun p => String.eqb (Player.id p) player_id) current)
              (option_map DiceResult.to_list (last_dice_roll g))
              (flat_map (fun pid => match dict_get (players g) pid with
                                    | Some p => [Player.to_dict p]
                                    | None => []
                                    end) (player_order g))
              (Board.to_dict (board g))
              (RuleEngine.houses_available (rules g))
              (RuleEngine.hotels_available (rules g))
              (winner_id g))
  end.

End Game.

(** ** server/network/connection_manager.py *)

Module ConnectionManager.

(** A websocket is identified by a handle.  The timestamps of a connection
    are left out. *)
Definition WebSocket := Z.

Record PlayerConnection := mkConn {
  player_id : string;
  player_name : string;
  websocket : WebSocket;
  game_id : option string;
  is_host : bool;
  is_spectator : bool
}.

Definition set_websocket (c : PlayerConnection) (w : WebSocket) : PlayerConnection :=
  mkConn (player_id c) (player_name c) w (game_id c) (is_host c) (is_spectator c).
Definition set_is_host (c : PlayerConnection) (b : bool) : PlayerConnection :=
  mkConn (player_id c) (player_name c) (websocket c) (game_id c) b (is_spectator c).
Definition set_game (c : PlayerConnection) (g : option string) (host spectator : bool)
    : PlayerConnection :=
  mkConn (player_id c) (player_name c) (websocket c) g host spectator.

Fixpoint ws_get {V} (d : list (WebSocket * V)) (k : WebSocket) : option V :=
  match d with
  | [] => None
  | (k', v) :: r => if k' =? k then Some v else ws_get r k
  end.

Fixpoint ws_set {V} (d : list (WebSocket * V)) (k : WebSocket) (v : V)
    : list (WebSocket * V) :=
  match d with
  | [] => [(k, v)]
  | (k', v') :: r => if k' =? k then (k', v) :: r else (k', v') :: ws_set r k v
  end.

Fixpoint ws_del {V} (d : list (WebSocket * V)) (k : WebSocket) : list (WebSocket * V) :=
  match d with
  | [] => []
  | (k', v') :: r => if k' =? k then r else (k', v') :: ws_del r k
  end.

(** The four dictionaries of the manager; a set of player ids is a
    duplicate-free list. *)
Record t := mk {
  _connections : list (WebSocket * PlayerConnection);
  _player_to_socket : list (string * WebSocket);
  _game_players : list (string * list string);
  _disconnected_players : list (string * PlayerConnection)
}.

Definition new : t := mk [] [] [] [].

Definition str_mem (x : string) (s : list string) : bool := existsb (String.eqb x) s.
Definition str_set_add (s : list string) (x : string) : list string :=
  if str_mem x s then s else s ++ [x].
Definition str_set_discard (s : list string) (x : string) : list string :=
  filter (fun y => negb (String.eqb y x)) s.

(** A non-empty string is truthy. *)
Definition truthy (o : option string) : option string :=
  match o with
  | Some s => if String.eqb s "" then None else Some s
  | None => None
  end.

Definition connect (ws : WebSocket) (pid name : string) (m : t) : PlayerConnection * t :=
  let '(connection, disconnected) :=
    match dict_get (_disconnected_players m) pid with
    | Some c => (set_websocket c ws, dict_del (_disconnected_players m) pid)
    | None => (mkConn pid name ws None false false, _disconnected_players m)
    end in
  (connection,
   mk (ws_set (_connections m) ws connection)
      (dict_set (_player_to_socket m) pid ws)
      (_game_players m)
      disconnected).

Definition disconnect (ws : WebSocket) (m : t) : option PlayerConnection * t :=
  match ws_get (_connections m) ws with
  | None => (None, m)
  | Some connection =>
      (Some connection,
       mk (ws_del (_connections m) ws)
          (dict_del (_player_to_socket m) (player_id connection))
          (_game_players m)
          (match truthy (game_id connection) with
           | Some _ => dict_set (_disconnected_players m) (player_id connection) connection
           | None => _disconnected_players m
           end))
  end.

Definition _remove_player_from_game_internal (pid gid : string)
    (gp : list (string * list string)) : list (string * list string) :=
  match dict_get gp gid with
  | None => gp
  | Some s =>
      match str_set_discard s pid with
      | [] => dict_del gp gid
      | s' => dict_set gp gid s'
      end
  end.

Definition join_game (pid gid : string) (host spectator : bool) (m : t) : bool * t :=
  match dict_get (_player_to_socket m) pid with
  | None => (false, m)
  | Some ws =>
      match ws_get (_connections m) ws with
      | None => (false, m)
      | Some connection =>
          let gp1 := match truthy (game_id connection) with
                     | Some old => _remove_player_from_game_internal pid old (_game_players m)
                     | None => _game_players m
                     end in
          let members := match dict_get gp1 gid with Some s => s | None => [] end in
          (true,
           mk (ws_set (_connections m) ws (set_game connection (Some gid) host spectator))
              (_player_to_socket m)
              (dict_set gp1 gid (str_set_add members pid))
              (_disconnected_players m))
      end
  end.

(** The connection of a player together with the key it is stored under. *)
Definition get_connection_by_player_id (m : t) (pid : string)
    : option (WebSocket * PlayerConnection) :=
  match dict_get (_player_to_socket m) pid with
  | Some ws => option_map (pair ws) (ws_get (_connections m) ws)
  | None => None
  end.

Definition game_members (m : t) (gid : string) : list string :=
  match dict_get (_game_players m) gid with Some s => s | None => [] end.

Definition is_player_in_game (m : t) (pid gid : string) : bool :=
  str_mem pid (game_members m gid).

Definition get_connected_players_in_game (m : t) (gid : string)
    : list (WebSocket * PlayerConnection) :=
  flat_map (fun pid => match get_connection_by_player_id m pid with
                       | Some c => [c]
                       | None => []
                       end) (game_members m gid).

Definition get_host (m : t) (gid : string) : option PlayerConnection :=
  option_map snd (find (fun c => is_host (snd c)) (get_connected_players_in_game m gid)).

(** In-place mutation of the connection object stored under [ws]. *)
Definition update_connection (m : t) (ws : WebSocket)
    (f : PlayerConnection -> PlayerConnection) : t :=
  match ws_get (_connections m) ws with
  | Some c => mk (ws_set (_connections m) ws (f c)) (_player_to_socket m)
                 (_game_players m) (_disconnected_players m)
  | None => m
  end.

Definition transfer_host (gid new_host_id : string) (m : t) : bool * t :=
  if negb (is_player_in_game m new_host_id gid) then (false, m)
  else
    let m1 := match find (fun c => is_host (snd c))
                         (get_connected_players_in_game m gid) with
              | Some (ws, _) => update_connection m ws (fun c => set_is_host c false)
              | None => m
              end in
    match get_connection_by_player_id m1 new_host_id with
    | Some (ws, _) => (true, update_connection m1 ws (fun c => set_is_host c true))
    | None => (false, m1)
    end.

(** Every connection record the manager holds, live or parked. *)
Definition all_connections (m : t) : list PlayerConnection :=
  map snd (_connections m) ++ map snd (_disconnected_players m).

Definition remove_player_completely (pid : string) (m : t) : t :=
  let m1 :=
    match dict_get (_player_to_socket m) pid with
    | None => m
    | Some ws =>
        let sockets := dict_del (_player_to_socket m) pid in
        match ws_get (_connections m) ws with
        | None => mk (_connections m) sockets (_game_players m)
                     (_disconnected_players m)
        | Some connection =>
            mk (ws_del (_connections m) ws) sockets
               (match truthy (game_id connection) with
                | Some gid =>
                    _remove_player_from_game_internal pid gid (_game_players m)
                | None => _game_players m
                end)
               (_disconnected_players m)
        end
    end in
  mk (_connections m1) (_player_to_socket m1) (_game_players m1)
     (dict_del (_disconnected_players m1) pid).

(** The game that was left, if any, and the manager afterwards. *)
Definition leave_game (pid : string) (m : t) : option string * t :=
  match dict_get (_player_to_socket m) pid with
  | None =>
      match dict_get (_disconnected_players m) pid with
      | None => (None, m)
      | Some connection =>
          match truthy (game_id connection) with
          | None => (None, m)
          | Some gid =>
              (Some gid,
               mk (_connections m) (_player_to_socket m)
                  (_remove_player_from_game_internal pid gid (_game_players m))
                  (dict_del (_disconnected_players m) pid))
          end
      end
  | Some ws =>
      match ws_get (_connections m) ws with
      | None => (None, m)
      | Some connection =>
          match truthy (game_id connection) with
          | None => (None, m)
          | Some gid =>
              (Some gid,
               mk (ws_set (_connections m) ws (set_game connection None false false))
                  (_player_to_socket m)
                  (_remove_player_from_game_internal pid gid (_game_players m))
                  (_disconnected_players m))
          end
      end
  end.

Definition get_connection (m : t) (ws : WebSocket) : option PlayerConnection :=
  ws_get (_connections m) ws.

Definition get_player_id (m : t) (ws : WebSocket) : option string :=
  option_map player_id (ws_get (_connections m) ws).

Definition get_game_id (m : t) (pid : string) : option string :=
  match get_connection_by_player_id m pid with
  | Some (_, connection) => game_id connection
  | None =>
      match dict_get (_disconnected_players m) pid with
      | Some disconnected => game_id disconnected
      | None => None
      end
  end.

Definition get_players_in_game (m : t) (gid : string) : list string :=
  game_members m gid.

Definition is_player_connected (m : t) (pid : string) : bool :=
  match dict_get (_player_to_socket m) pid with Some _ => true | None => false end.

Definition get_disconnected_players_in_game (m : t) (gid : string)
    : list PlayerConnection :=
  filter (fun c => opt_str_eqb (game_id c) (Some gid))
         (map snd (_disconnected_players m)).

Record Stats := mkStats {
  total_connections : Z;
  total_players : Z;
  active_games : Z;
  disconnected_awaiting_reconnect : Z;
  players_per_game : list (string * Z)
}.

Definition get_stats (m : t) : Stats :=
  mkStats (Z.of_nat (List.length (_connections m)))
          (Z.of_nat (List.length (_player_to_socket m)))
          (Z.of_nat (List.length (_game_players m)))
          (Z.of_nat (List.length (_disconnected_players m)))
          (map (fun gp => (fst gp, Z.of_nat (List.length (snd gp)))) (_game_players m)).

End ConnectionManager.

(** ** The game as a transition system

    One transition is one call of a public method of [Game] (or a save
    followed by a load), with the random outcomes it consumes. *)

Inductive Op :=
| AddPlayer (uuid name : string) (player_id : option string)
| RemovePlayer (player_id : string)
| StartGame (picks : list nat)
| RollDice (rolled : DiceResult.t) (picks : list (list nat)) (player_id : string)
| BuyProperty (player_id : string)
| DeclineProperty (player_id : string)
| BuildHouse (player_id : string) (position : Z)
| BuildHotel (player_id : string) (position : Z)
| SellBuilding (player_id : string) (position : Z)
| MortgageProperty (player_id : string) (position : Z)
| UnmortgageProperty (player_id : string) (position : Z)
| PayBail (player_id : string)
| UseJailCard (player_id : string)
| EndTurn (player_id : string)
| DeclareBankruptcy (player_id : string) (creditor_id : option string)
| SaveLoad (now : Z) (picks_chance picks_chest : list nat).

(** A die shows 1 to 6. *)
Definition die_ok (d : Z) : bool := (1 <=? d) && (d <=? 6).

Definition op_ok (op : Op) : bool :=
  match op with
  | RollDice rolled _ _ => die_ok (DiceResult.die1 rolled) && die_ok (DiceResult.die2 rolled)
  | _ => true
  end.

(** The state a call leaves behind, whether it returned or raised. *)
Definition outcome {A} (r : Game.Result A) : option Game.t :=
  match r with
  | Game.Ret _ g => Some g
  | Game.Raise _ g => Some g
  | Game.Diverge => None
  end.

(** The success flag of a call that returned. *)
Definition succeeded {A} (r : Game.Result (bool * A)) : option bool :=
  match r with
  | Game.Ret (ok, _) _ => Some ok
  | _ => None
  end.

Definition step (op : Op) (g : Game.t) : option Game.t :=
  match op with
  | AddPlayer uuid name pid => outcome (Game.add_player uuid name pid g)
  | RemovePlayer pid => outcome (Game.remove_player pid g)
  | StartGame picks => outcome (Game.start_game picks g)
  | RollDice rolled picks pid => outcome (Game.roll_dice rolled picks pid g)
  | BuyProperty pid => outcome (Game.buy_property pid g)
  | DeclineProperty pid => outcome (Game.decline_property pid g)
  | BuildHouse pid pos => outcome (Game.build_house pid pos g)
  | BuildHotel pid pos => outcome (Game.build_hotel pid pos g)
  | SellBuilding pid pos => outcome (Game.sell_building pid pos g)
  | MortgageProperty pid pos => outcome (Game.mortgage_property pid pos g)
  | UnmortgageProperty pid pos => outcome (Game.unmortgage_property pid pos g)
  | PayBail pid => outcome (Game.pay_bail pid g)
  | UseJailCard pid => outcome (Game.use_jail_card pid g)
  | EndTurn pid => outcome (Game.end_turn pid g)
  | DeclareBankruptcy pid creditor => outcome (Game.declare_bankruptcy pid creditor g)
  | SaveLoad now pc pcc => Game.from_dict now pc pcc (Game.to_dict g)
  end.

(** Running a script of calls; [None] when a call does not return. *)
Fixpoint run (ops : list Op) (g : Game.t) : option Game.t :=
  match ops with
  | [] => Some g
  | op :: rest => match step op g with
                  | Some g' => run rest g'
                  | None => None
                  end
  end.

(** The states a game can be in: a new game, followed by calls. *)
Inductive reachable : Game.t -> Prop :=
| reach_new : forall id name now max_players picks_chance picks_chest,
    reachable (Game.new id name now max_players picks_chance picks_chest)
| reach_step : forall op g g',
    reachable g -> op_ok op = true -> step op g = Some g' -> reachable g'.

(** ** Representation invariants

    What the Python types guarantee and the list representation does not:
    a dictionary has no repeated key, a set no repeated element, and the
    board holds exactly the properties created by [_initialize_properties],
    whose static fields are never assigned. *)

Definition static_part (p : Property.t)
    : Z * string * SpaceType.t * Z * string * option (list Z) * option Z :=
  (Property.position p, Property.name p, Property.space_type p, Property.cost p,
   Property.group p, Property.rents p, Property.house_cost p).

Definition board_layout (b : Board.t) : Prop :=
  map static_part b = map static_part Board.new.

Fixpoint distinct_str (l : list string) : bool :=
  match l with
  | [] => true
  | x :: r => negb (existsb (String.eqb x) r) && distinct_str r
  end.

Fixpoint distinct_Z (l : list Z) : bool :=
  match l with
  | [] => true
  | x :: r => negb (existsb (Z.eqb x) r) && distinct_Z r
  end.

Definition players_wf (ps : list (string * Player.t)) : bool :=
  distinct_str (map fst ps) && forallb (fun kp => distinct_Z (Player.properties (snd kp))) ps.

(** Houses number 0 to 4, a hotel stands alone, and only streets are built
    on (the checks of [build_house] and [build_hotel]). *)
Definition building_ok (p : Property.t) : bool :=
  (0 <=? Property.houses p) && (Property.houses p <=? 4)
  && (negb (Property.has_hotel p) || (Property.houses p =? 0))
  && (negb ((0 <? Property.houses p) || Property.has_hotel p)
      || SpaceType.eqb (Property.space_type p) SpaceType.PROPERTY).

Definition buildings_ok (b : Board.t) : bool := forallb building_ok b.

(** Buildings standing on the board. *)
Definition houses_in_use (b : Board.t) : Z :=
  fold_right (fun p n => Property.houses p + n) 0 b.
Definition hotels_in_use (b : Board.t) : Z :=
  fold_right (fun p n => (if Property.has_hotel p then 1 else 0) + n) 0 b.

(** ** The rent rule in the words of the specification *)

Definition holds_full_group (b : Board.t) (owner : string) (group : string) : bool :=
  forallb (fun q => negb (String.eqb (Property.group q) group) || Board.owned_by owner q) b.

Definition held_of_type (b : Board.t) (owner : string) (ty : SpaceType.t) : Z :=
  Z.of_nat (List.length
    (filter (fun q => SpaceType.eqb (Property.space_type q) ty && Board.owned_by owner q) b)).

Definition rent_table (p : Property.t) (i : Z) : Z :=
  nth (Z.to_nat i) (match Property.rents p with Some l => l | None => [] end) 0.

Definition rent_rule (b : Board.t) (pos : Z) (dice_total : Z)
    (landing_player : option string) : Z :=
  match Board.get_property b pos with
  | None => 0
  | Some p =>
      match Property.owner_id p with
      | None => 0
      | Some owner =>
          if opt_str_eqb landing_player (Some owner) then 0
          else if Property.is_mortgaged p then 0
          else match Property.space_type p with
               | SpaceType.PROPERTY =>
                   if Property.has_hotel p then rent_table p 5
                   else if (Property.houses p =? 0)
                           && holds_full_group b owner (Property.group p)
                   then 2 * rent_table p 0
                   else rent_table p (Property.houses p)
               | SpaceType.RAILROAD =>
                   rent_table p (held_of_type b owner SpaceType.RAILROAD - 1)
               | SpaceType.UTILITY =>
                   dice_total * (if held_of_type b owner SpaceType.UTILITY =? 1 then 4
                                 else 10)
               | _ => 0
               end
      end
  end.

(** ** State invariants of the engine *)

Definition money_ok (ps : list (string * Player.t)) : bool :=
  forallb (fun kp => 0 <=? Player.money (snd kp)) ps.

(** The amount of a card is not negative, except for the two codes of a
    "nearest" destination. *)
Definition card_ok (c : Card.t) : bool :=
  match Card.action c with
  | CardAction.MOVE_TO => true
  | _ => 0 <=? Card.value c
  end.

Definition deck_ok (d : CardDeck.t) : bool :=
  forallb card_ok (CardDeck.cards d) && forallb card_ok (CardDeck.discard d).

Definition cards_ok (m : CardManager.t) : bool :=
  deck_ok (CardManager.chance m) && deck_ok (CardManager.community_chest m).

(** What every public call preserves: balances and card amounts are not
    negative, the board and the player dictionary are regular, the houses
    and hotels in the bank and on the board add up to the totals, and the
    bank's count of hotels is not negative. *)
Record Inv (g : Game.t) : Prop := mkInv {
  inv_money : money_ok (Game.players g) = true;
  inv_cards : cards_ok (Game.cards g) = true;
  inv_board : board_layout (Game.board g);
  inv_players : players_wf (Game.players g) = true;
  inv_buildings : buildings_ok (Game.board g) = true;
  inv_houses : RuleEngine.houses_available (Game.rules g) + houses_in_use (Game.board g)
               = TOTAL_HOUSES;
  inv_hotels : RuleEngine.hotels_available (Game.rules g) + hotels_in_use (Game.board g)
               = TOTAL_HOTELS;
  inv_hotel_bank : 0 <= RuleEngine.hotels_available (Game.rules g)
}.

(** ** The gameplay calls and their success flag *)

Definition gameplay_call (op : Op) (g : Game.t) : option (bool * Game.t) :=
  let flag {A} (r : Game.Result (bool * A)) : option (bool * Game.t) :=
    match r with
    | Game.Ret (ok, _) g' => Some (ok, g')
    | _ => None
    end in
  match op with
  | RollDice rolled picks pid =>
      match Game.roll_dice rolled picks pid g with
      | Game.Ret (ok, _, _) g' => Some (ok, g')
      | _ => None
      end
  | BuyProperty pid => flag (Game.buy_property pid g)
  | BuildHouse pid pos => flag (Game.build_house pid pos g)
  | BuildHotel pid pos => flag (Game.build_hotel pid pos g)
  | SellBuilding pid pos => flag (Game.sell_building pid pos g)
  | MortgageProperty pid pos => flag (Game.mortgage_property pid pos g)
  | UnmortgageProperty pid pos => flag (Game.unmortgage_property pid pos g)
  | PayBail pid => flag (Game.pay_bail pid g)
  | UseJailCard pid => flag (Game.use_jail_card pid g)
  | EndTurn pid => flag (Game.end_turn pid g)
  | _ => None
  end.

(** ** Decks after a load *)

Definition card_table (ct : CardType.t) : list Card.t :=
  match ct with
  | CardType.CHANCE => CHANCE_CARDS
  | CardType.COMMUNITY_CHEST => COMMUNITY_CHEST_CARDS
  end.


(** The "Get Out of Jail Free" card of a deck, and the deck of a type. *)
Definition jail_card (ct : CardType.t) : Card.t :=
  Card.mk ct "Get Out of Jail Free." CardAction.GET_OUT_OF_JAIL 0 0 0 true.

Definition deck_of (ct : CardType.t) (m : CardManager.t) : CardDeck.t :=
  match ct with
  | CardType.CHANCE => CardManager.chance m
  | CardType.COMMUNITY_CHEST => CardManager.community_chest m
  end.

(** The used card is put on the discard pile of deck [ct]. *)
Definition returned_to (ct : CardType.t) (before after : CardManager.t) : Prop :=
  CardDeck.discard (deck_of ct after)
  = (CardDeck.discard (deck_of ct before) ++ [jail_card ct])%list.

Import Game.

(** ** Notions used in the proofs *)

(** What the rent rule needs of a row of the property table: amounts are
    not negative, a street has six rent tiers and a house cost, a railroad
    has four tiers, and the groups RAILROAD and UTILITY name the types. *)
Definition static_check
    (s : Z * string * SpaceType.t * Z * string * option (list Z) * option Z) : bool :=
  let '(pos, _, ty, cost, group, rents, hc) := s in
  (0 <=? cost)
  && forallb (Z.leb 0) (match rents with Some l => l | None => [] end)
  && match hc with Some c => 0 <=? c | None => true end
  && match ty with
     | SpaceType.PROPERTY =>
         negb (String.eqb group "RAILROAD") && negb (String.eqb group "UTILITY")
         && match rents with Some l => Nat.eqb (List.length l) 6 | None => false end
         && match hc with Some _ => true | None => false end
     | SpaceType.RAILROAD =>
         String.eqb group "RAILROAD"
         && match rents with Some l => Nat.eqb (List.length l) 4 | None => false end
     | SpaceType.UTILITY => String.eqb group "UTILITY"
     | _ => false
     end.

(** The space type in the static part of a property. *)
Definition type_of_static
    (s : Z * string * SpaceType.t * Z * string * option (list Z) * option Z) : SpaceType.t :=
  let '(_, _, ty, _, _, _, _) := s in ty.

(** The transposition of the indices [i] and [j]. *)
Definition transpose (i j n : nat) : nat :=
  if Nat.eqb n i then j else if Nat.eqb n j then i else n.

(** A stored property over the object found on the fresh board. *)
Definition loaded (prop : Property.t) (pd : Board.PropertyDict) : Property.t :=
  Property.set_is_mortgaged
    (Property.set_has_hotel
       (Property.set_houses
          (Property.set_owner_id prop (Board.d_owner_id pd))
          (Board.d_houses pd))
       (Board.d_has_hotel pd))
    (Board.d_is_mortgaged pd).

(** The entry saved for a position. *)
Fixpoint entry_get (es : Board.Dict) (pos : Z) : option Board.PropertyDict :=
  match es with
  | [] => None
  | (k, v) :: r => if k =? pos then Some v else entry_get r pos
  end.

(** A player saved with [to_dict] and loaded again. *)
Definition reloaded (p : Player.t) : Player.t := Player.from_dict (Player.to_dict p).

(** The state a call leaves behind satisfies the invariant. *)
Definition InvR {A} (r : Result A) : Prop :=
  match r with
  | Ret _ g => Inv g
  | Raise _ g => Inv g
  | Diverge => True
  end.

(** A mutation of a player object that keeps the balance non-negative. *)
Definition keeps_money (f : Player.t -> Player.t) : Prop :=
  forall p, 0 <= Player.money p -> 0 <= Player.money (f p).

(** A mutation of a player object that keeps the property set a set. *)
Definition keeps_props (f : Player.t -> Player.t) : Prop :=
  forall p, distinct_Z (Player.properties p) = true ->
            distinct_Z (Player.properties (f p)) = true.

(** A mutation of a property object leaves its static fields alone. *)
Definition keeps_static (f : Property.t -> Property.t) : Prop :=
  forall p, static_part (f p) = static_part p.

(** A mutation of a property object that keeps its buildings regular. *)
Definition keeps_building (f : Property.t -> Property.t) : Prop :=
  forall p, building_ok p = true -> building_ok (f p) = true.

(** A mutation of a property object that leaves its buildings alone. *)
Definition keeps_count (f : Property.t -> Property.t) : Prop :=
  forall p, Property.houses (f p) = Property.houses p
            /\ Property.has_hotel (f p) = Property.has_hotel p.

(** The call returned with the balances untouched and the phase blocked. *)
Definition blocked {A} (r : Result A) (g : t) : Prop :=
  exists v g', r = Ret v g'
               /\ players g' = players g /\ phase g' = GamePhase.PAYING_RENT.

(** The call was refused (or raised) and left the game as it was. *)
Definition refused (r : Result (bool * string)) (g : t) : Prop :=
  (exists msg, r = Ret (false, msg) g) \/ (exists e, r = Raise e g).

(** A call that never reports failure. *)
Definition never_fails {A} (flag : A -> bool) (r : Result A) : Prop :=
  forall a g', r = Ret a g' -> flag a = true.

(** A call whose reported failures leave the state [g]. *)
Definition fails_clean {A} (flag : A -> bool) (r : Result A) (g : t) : Prop :=
  forall a g', r = Ret a g' -> flag a = false -> g' = g.

(** The success flag in the two result shapes. *)
Definition roll_flag (a : RollResult) : bool := fst (fst a).

Definition call_flag (a : bool * string) : bool := fst a.

(** The bank's side: a property with its buildings removed, unowned and
    unmortgaged. *)
Definition cleared (p : Property.t) : Property.t :=
  Property.set_is_mortgaged
    (Property.set_owner_id (Property.set_houses (Property.set_has_hotel p false) 0) None)
    false.






(** The player stands on one of the forty squares. *)
Definition on_board (p : Player.t) : bool :=
  (0 <=? Player.position p) && (Player.position p <? BOARD_SIZE).

(** A slot of the player dictionary: the key is the player's id and the
    player stands on the board. *)
Definition placed (kp : string * Player.t) : bool :=
  String.eqb (Player.id (snd kp)) (fst kp) && on_board (snd kp).

(** The key of the slot occurs in the turn order. *)
Definition seated_in (order : list string) (kp : string * Player.t) : bool :=
  existsb (String.eqb (fst kp)) order.

(** A card that goes back to the discard pile when drawn. *)
Definition ordinary (c : Card.t) : bool := negb (Card.keep c).

(** The cards a deck holds, draw pile first. *)
Definition pile (d : CardDeck.t) : list Card.t :=
  (CardDeck.cards d ++ CardDeck.discard d)%list.

(** The deck holds cards of its table only, and each ordinary card of the
    table exactly once. *)
Definition deck_complete (ct : CardType.t) (d : CardDeck.t) : Prop :=
  incl (pile d) (card_table ct)
  /\ Permutation (filter ordinary (pile d)) (filter ordinary (card_table ct)).

Record Shape (g : Game.t) : Prop := mkShape {
  shape_placed : forallb placed (players g) = true;
  shape_seated : forallb (seated_in (player_order g)) (players g) = true;
  shape_lobby : phase g = GamePhase.WAITING -> current_player_index g = 0;
  shape_index : player_order g <> [] ->
                0 <= current_player_index g < Z.of_nat (List.length (player_order g));
  shape_chance : deck_complete CardType.CHANCE (CardManager.chance (cards g));
  shape_chest : deck_complete CardType.COMMUNITY_CHEST
                  (CardManager.community_chest (cards g))
}.

(** The call returned, and left a game of that shape. *)
Definition ShapeT {A} (r : Result A) : Prop :=
  match r with
  | Ret _ g => Shape g
  | _ => False
  end.

(** The square a card moves the player to from [pos], if it moves the
    player. *)
Definition card_destination (card : Card.t) (pos : Z) : option Z :=
  match Card.action card with
  | CardAction.MOVE_TO =>
      Some ((if Card.value card =? -1 then RuleEngine.get_nearest_utility pos
             else if Card.value card =? -2 then RuleEngine.get_nearest_railroad pos
             else Card.value card) mod BOARD_SIZE)
  | CardAction.MOVE_BACK =>
      Some (((pos - Card.value card) mod BOARD_SIZE) mod BOARD_SIZE)
  | _ => None
  end.

(** Landing on [pos] comes to rest within [n] nested calls of
    [_handle_landing], whatever cards are drawn from the two tables. *)
Fixpoint settles (n : nat) (pos : Z) : bool :=
  match n with
  | O => false
  | S n' =>
      match Board.get_space pos with
      | None => false
      | Some space =>
          let after (table : list Card.t) :=
            forallb (fun card => match card_destination card pos with
                                 | Some pos' => settles n' pos'
                                 | None => true
                                 end) table in
          match sp_type space with
          | SpaceType.CHANCE => after CHANCE_CARDS
          | SpaceType.COMMUNITY_CHEST => after COMMUNITY_CHEST_CARDS
          | SpaceType.TAX => match sp_cost space with Some _ => true | None => false end
          | _ => true
          end
      end
  end.

(** A mutation of a player that keeps the id and keeps the player on the
    board. *)
Definition keeps_place (f : Player.t -> Player.t) : Prop :=
  forall p, Player.id (f p) = Player.id p /\ (on_board p = true -> on_board (f p) = true).

(** The condition under which the re-entry into [_handle_landing] returns. *)
Definition lands (n : nat) (player : string) (landing : t -> Result RollResult) : Prop :=
  forall g', Inv g' -> Shape g' ->
             settles n (Player.position (the_player g' player)) = true ->
             ShapeT (landing g').

(** The call returned: it did not raise and it terminated. *)
Definition returned {A} (r : Result A) : bool :=
  match r with
  | Ret _ _ => true
  | _ => false
  end.

(** The public call [op] on [g] returns. *)
Definition call_returns (op : Op) (g : Game.t) : bool :=
  match op with
  | AddPlayer uuid name pid => returned (Game.add_player uuid name pid g)
  | RemovePlayer pid => returned (Game.remove_player pid g)
  | StartGame picks => returned (Game.start_game picks g)
  | RollDice rolled picks pid => returned (Game.roll_dice rolled picks pid g)
  | BuyProperty pid => returned (Game.buy_property pid g)
  | DeclineProperty pid => returned (Game.decline_property pid g)
  | BuildHouse pid pos => returned (Game.build_house pid pos g)
  | BuildHotel pid pos => returned (Game.build_hotel pid pos g)
  | SellBuilding pid pos => returned (Game.sell_building pid pos g)
  | MortgageProperty pid pos => returned (Game.mortgage_property pid pos g)
  | UnmortgageProperty pid pos => returned (Game.unmortgage_property pid pos g)
  | PayBail pid => returned (Game.pay_bail pid g)
  | UseJailCard pid => returned (Game.use_jail_card pid g)
  | EndTurn pid => returned (Game.end_turn pid g)
  | DeclareBankruptcy pid creditor => returned (Game.declare_bankruptcy pid creditor g)
  | SaveLoad now pc pcc =>
      match Game.from_dict now pc pcc (Game.to_dict g) with
      | Some _ => true
      | None => false
      end
  end.

(** [g] has the seats and the player keys of [g0], and is in play if [g0]
    is. *)
Definition same_table (g0 g : t) : Prop :=
  player_order g = player_order g0
  /\ map fst (players g) = map fst (players g0)
  /\ (phase g0 <> GamePhase.WAITING -> phase g <> GamePhase.WAITING).

(** The state a call leaves behind has the table of [g0]. *)
Definition TableR {A} (g0 : t) (r : Result A) : Prop :=
  match r with
  | Ret _ g => same_table g0 g
  | Raise _ g => same_table g0 g
  | Diverge => True
  end.

(** [g] is at the same point of the same turn as [g0]. *)
Definition same_turn (g0 g : t) : Prop :=
  phase g = phase g0
  /\ current_player_index g = current_player_index g0
  /\ turn_number g = turn_number g0.

(** The state a call leaves behind is at the point of the turn of [g0]. *)
Definition TurnR {A} (g0 : t) (r : Result A) : Prop :=
  match r with
  | Ret _ g => same_turn g0 g
  | Raise _ g => same_turn g0 g
  | Diverge => True
  end.

(** [r] is the first square of [targets] met when walking forward from
    [position], which is left by one step at least. *)
Definition next_ahead (targets : list Z) (position r : Z) : Prop :=
  In r targets
  /\ 1 <= (r - position) mod BOARD_SIZE
  /\ forall i, 1 <= i < (r - position) mod BOARD_SIZE ->
       ~ In ((position + i) mod BOARD_SIZE) targets.

(** The test of [next_ahead] on the squares 0..39. *)
Definition next_ahead_b (targets : list Z) (position r : Z) : bool :=
  existsb (Z.eqb r) targets
  && (1 <=? (r - position) mod BOARD_SIZE)
  && forallb (fun i => ((r - position) mod BOARD_SIZE <=? i)
                       || negb (existsb (Z.eqb ((position + i) mod BOARD_SIZE)) targets))
             (map Z.of_nat (seq 1 39)).

(** [owner] may trade the property at [pos]: it is the owner's and nothing
    is built on it. *)
Definition tradable (board : Board.t) (owner : Player.t) (pos : Z) : Prop :=
  exists prop,
    Board.get_property board pos = Some prop
    /\ Property.owner_id prop = Some (Player.id owner)
    /\ Property.houses prop <= 0
    /\ Property.has_hotel prop = false.

(** The id [add_player] gives to the new player: [player_id] when it is a
    non-empty string, else the [uuid] the [Player] was created with. *)
Definition joined_id (uuid : string) (player_id : option string) : string :=
  match player_id with
  | Some pid => if String.eqb pid "" then uuid else pid
  | None => uuid
  end.

(** The calls that change a [ConnectionManager]. *)
Inductive SessionOp :=
| Connect (ws : ConnectionManager.WebSocket) (player_id player_name : string)
| Disconnect (ws : ConnectionManager.WebSocket)
| RemovePlayerCompletely (player_id : string)
| JoinGame (player_id game_id : string) (is_host is_spectator : bool)
| LeaveGame (player_id : string)
| TransferHost (game_id new_host_id : string).

(** The manager after a call. *)
Definition session_step (op : SessionOp) (m : ConnectionManager.t) : ConnectionManager.t :=
  match op with
  | Connect ws pid name => snd (ConnectionManager.connect ws pid name m)
  | Disconnect ws => snd (ConnectionManager.disconnect ws m)
  | RemovePlayerCompletely pid => ConnectionManager.remove_player_completely pid m
  | JoinGame pid gid host spectator =>
      snd (ConnectionManager.join_game pid gid host spectator m)
  | LeaveGame pid => snd (ConnectionManager.leave_game pid m)
  | TransferHost gid pid => snd (ConnectionManager.transfer_host gid pid m)
  end.

(** The managers obtained from [ConnectionManager()] by its calls. *)
Inductive session_reachable : ConnectionManager.t -> Prop :=
| session_new : session_reachable ConnectionManager.new
| session_next : forall op m,
    session_reachable m -> session_reachable (session_step op m).

(** What the dictionaries of a manager satisfy: the keys of a Python dict
    are distinct; a player is not both connected and parked; no game has an
    empty member set; a parked connection is kept under its player's id and
    belongs to a game. *)
Record SessionInv (m : ConnectionManager.t) : Prop := mkSessionInv {
  si_socket_keys : distinct_str (map fst (ConnectionManager._player_to_socket m)) = true;
  si_parked_keys : distinct_str (map fst (ConnectionManager._disconnected_players m)) = true;
  si_game_keys : distinct_str (map fst (ConnectionManager._game_players m)) = true;
  si_apart : forall pid,
    dict_get (ConnectionManager._player_to_socket m) pid <> None ->
    dict_get (ConnectionManager._disconnected_players m) pid = None;
  si_members : forall gid s,
    dict_get (ConnectionManager._game_players m) gid = Some s -> s <> [];
  si_parked : forall pid c,
    dict_get (ConnectionManager._disconnected_players m) pid = Some c ->
    ConnectionManager.player_id c = pid
    /\ ConnectionManager.truthy (ConnectionManager.game_id c) <> None
}.










(** ** Scenarios *)

Definition roll (a b : Z) (player_id : string) : Op :=
  RollDice (DiceResult.mk a b) [] player_id.

(** Generator draws under which a shuffle leaves a list of [n] items as it
    is: each step swaps an item with itself. *)
Definition identity_picks (n : nat) : list nat := rev (seq 1 (n - 1)).

(** A four-player game in which Carol and Dan go bankrupt in favour of
    Alice, who then buys the light blue, pink and orange streets while Bob
    circles between Free Parking and jail. *)
Definition four_player_game : Game.t :=
  Game.new "g" "Game" 0 4 (identity_picks 16) (identity_picks 16).

Definition four_player_setup : list Op :=
  [ AddPlayer "u1" "Alice" (Some "A"); AddPlayer "u2" "Bob" (Some "B");
    AddPlayer "u3" "Carol" (Some "C"); AddPlayer "u4" "Dan" (Some "D");
    StartGame (identity_picks 4);
    DeclareBankruptcy "C" (Some "A"); DeclareBankruptcy "D" (Some "A") ].

Definition bob_turn : list Op := [roll 4 6 "B"; EndTurn "B"].

Definition alice_acquires : list Op :=
  ([roll 2 4 "A"; BuyProperty "A"; EndTurn "A"] ++ bob_turn
   ++ [roll 1 1 "A"; BuyProperty "A"; EndTurn "A";
       roll 1 2 "A"; BuyProperty "A"; EndTurn "A"] ++ bob_turn
   ++ [roll 1 1 "A"; BuyProperty "A"; EndTurn "A";
       roll 1 2 "A"; BuyProperty "A"; EndTurn "A"] ++ bob_turn
   ++ [roll 1 1 "A"; BuyProperty "A"; EndTurn "A";
       roll 1 2 "A"; DeclineProperty "A"; EndTurn "A"] ++ bob_turn
   ++ [roll 4 6 "A"; DeclineProperty "A"; EndTurn "A"] ++ bob_turn
   ++ [roll 4 5 "A"; EndTurn "A"] ++ bob_turn
   ++ [roll 4 5 "A"; BuyProperty "A"; EndTurn "A"] ++ bob_turn
   ++ [roll 2 3 "A"; BuyProperty "A"; EndTurn "A"] ++ bob_turn
   ++ [roll 2 3 "A"; BuyProperty "A"])%list.

Definition house_round (a b c : Z) : list Op :=
  [BuildHouse "A" a; BuildHouse "A" b; BuildHouse "A" c].

Definition four_rounds (a b c : Z) : list Op :=
  (house_round a b c ++ house_round a b c ++ house_round a b c ++ house_round a b c)%list.

(** Twelve houses on light blue, a hotel on Oriental Avenue (which hands four
    houses back), then twelve houses each on pink and orange: the bank has no
    house left. *)
Definition alice_develops : list Op :=
  (four_rounds 6 8 9 ++ [BuildHotel "A" 6] ++ four_rounds 11 13 14
   ++ four_rounds 16 18 19)%list.

Definition bank_empty_script : list Op :=
  (four_player_setup ++ alice_acquires ++ alice_develops)%list.

(** A game whose Community Chest deck has its "Get Out of Jail Free" card on
    top: Alice draws it with a first double, pays income tax with a second,
    and goes to jail with the third. *)
Definition chest_card_on_top : list nat :=
  [15; 14; 13; 12; 11; 10; 9; 8; 7; 6; 5; 0; 3; 2; 1]%nat.

Definition two_player_game : Game.t :=
  Game.new "g" "Game" 0 4 (identity_picks 16) chest_card_on_top.

Definition two_player_setup : list Op :=
  [ AddPlayer "u1" "Alice" (Some "A"); AddPlayer "u2" "Bob" (Some "B");
    StartGame (identity_picks 2) ].

Definition to_jail_with_card : list Op :=
  [ EndTurn "A"; roll 1 1 "A"; EndTurn "A"; roll 1 1 "A" ].

(** A game in which it is Alice's turn to end and Bob, who is next, still
    carries a doubles count of 2. *)
Definition stale_doubles_game : Game.t :=
  Game.mk "g" "Game" 0 Board.new
    (CardManager.new (identity_picks 16) (identity_picks 16)) RuleEngine.new
    [ ("A", Player.mk "Alice" "A" 1500 5 PlayerState.ACTIVE 0 0 [] None 0 true);
      ("B", Player.mk "Bob" "B" 1500 7 PlayerState.ACTIVE 0 0 [] None 2 true) ]
    ["A"; "B"] 0 GamePhase.POST_ROLL 3 (Some (DiceResult.mk 2 3)) None [] 2 4.

(** Alice owns both brown streets, undeveloped. *)
Definition brown_monopoly : Board.t :=
  map (fun p => if String.eqb (Property.group p) "BROWN"
                then Property.set_owner_id p (Some "A") else p) Board.new.

(** Session scenarios: Alice hosts game "g" and Bob has joined it. *)
Definition lobby : ConnectionManager.t :=
  let m1 := snd (ConnectionManager.connect 1 "A" "Alice" ConnectionManager.new) in
  let m2 := snd (ConnectionManager.connect 2 "B" "Bob" m1) in
  let m3 := snd (ConnectionManager.join_game "A" "g" true false m2) in
  snd (ConnectionManager.join_game "B" "g" false false m3).

Definition lobby_bob_away : ConnectionManager.t :=
  snd (ConnectionManager.disconnect 2 lobby).

Definition lobby_alice_away : ConnectionManager.t :=
  snd (ConnectionManager.disconnect 1 lobby).

Definition host_flags (m : ConnectionManager.t) : list (string * bool) :=
  map (fun c => (ConnectionManager.player_id c, ConnectionManager.is_host c))
      (ConnectionManager.all_connections m).

(** The game a script leaves behind. *)
Definition play (ops : list Op) (g : Game.t) : Game.t :=
  match run ops g with
  | Some g' => g'
  | None => g
  end.

(** Alice has bought Oriental Avenue; Carol and Dan are out. *)
Definition first_purchase : Game.t :=
  play (four_player_setup ++ [roll 2 4 "A"; BuyProperty "A"])%list four_player_game.

(** Alice holds nine developed streets and the bank has no house left. *)
Definition bank_empty : Game.t := play bank_empty_script four_player_game.

(** Before and after Alice draws the Community Chest jail card, and Alice in
    jail holding it. *)
Definition chest_card_due : Game.t := play two_player_setup two_player_game.
Definition chest_card_drawn : Game.t := play [roll 1 1 "A"] chest_card_due.
Definition jailed_with_chest_card : Game.t := play to_jail_with_card chest_card_drawn.

(** Alice then sells the hotel on Oriental Avenue. *)
Definition after_hotel_sale : Game.t := play [SellBuilding "A" 6] bank_empty.

(** Bob is made host while Alice, the host, is away; Alice then reconnects on
    socket 3. *)
Definition host_moved_while_away : ConnectionManager.t :=
  snd (ConnectionManager.transfer_host "g" "B" lobby_alice_away).

Definition alice_back : ConnectionManager.t :=
  snd (ConnectionManager.connect 3 "A" "Alice" host_moved_while_away).

(** Alice has used the card. *)
Definition chest_card_used : Game.t := play [UseJailCard "A"] jailed_with_chest_card.

(** Alice has ended her turn in [stale_doubles_game]. *)
Definition after_stale_end_turn : Game.t := play [EndTurn "A"] stale_doubles_game.

(** Bob tries to buy on Alice's turn. *)
Definition bob_out_of_turn : Op := BuyProperty "B".

(** Bob stands on Alice's Oriental Avenue with $3 and owes her a rent
    of $6. *)
Definition rent_due_game : Game.t :=
  Game.mk "g" "Game" 0
    (map (fun p => if Property.position p =? 6
                   then Property.set_owner_id p (Some "A") else p) Board.new)
    (CardManager.new (identity_picks 16) (identity_picks 16)) RuleEngine.new
    [ ("A", Player.mk "Alice" "A" 1400 8 PlayerState.ACTIVE 0 0 [6] None 0 true);
      ("B", Player.mk "Bob" "B" 3 6 PlayerState.ACTIVE 0 0 [] None 0 true) ]
    ["A"; "B"] 1 GamePhase.PAYING_RENT 2 (Some (DiceResult.mk 2 4)) None [] 2 4.

(** Alice and Bob wait in the lobby of a game that has not started. *)
Definition two_player_lobby : Game.t :=
  play [ AddPlayer "u1" "Alice" (Some "A"); AddPlayer "u2" "Bob" (Some "B") ]
       two_player_game.

(** Alice holds the two brown streets and $100. *)
Definition brown_owner : Player.t :=
  Player.mk "Alice" "A" 100 0 PlayerState.ACTIVE 0 0 [1; 3] None 0 false.

(** Alice, who holds the Community Chest jail card, has declared bankruptcy
    with Bob as creditor. *)
Definition chest_card_handed_over : Game.t :=
  play [DeclareBankruptcy "A" (Some "B")] chest_card_drawn.

(** * Proofs *)

(** * Facts about the static board data *)

Lemma static_check_new : forallb static_check (map static_part Board.new) = true.
Proof. vm_compute. reflexivity. Qed.

Lemma layout_static_check b p :
  board_layout b -> In p b -> static_check (static_part p) = true.
Proof.
  intros Hl Hin.
  pose proof static_check_new as H. rewrite <- Hl in H.
  rewrite forallb_forall in H. apply H. now apply in_map.
Qed.

Lemma get_property_In b pos p :
  Board.get_property b pos = Some p -> In p b /\ Property.position p = pos.
Proof.
  unfold Board.get_property. intros H. apply find_some in H.
  destruct H as [H1 H2]. split; [assumption | now apply Z.eqb_eq].
Qed.

Lemma filter_length_map {A B} (f : B -> bool) (h : A -> B) (l : list A) :
  List.length (filter (fun x => f (h x)) l) = List.length (filter f (map h l)).
Proof.
  induction l as [|a l IH]; simpl; [reflexivity|].
  destruct (f (h a)); simpl; now rewrite IH.
Qed.

Lemma filter_length_le {A} (f : A -> bool) (l : list A) :
  (List.length (filter f l) <= List.length l)%nat.
Proof.
  induction l as [|a l IH]; simpl; [lia|]. destruct (f a); simpl; lia.
Qed.

Lemma filter_In_length {A} (f : A -> bool) (l : list A) (a : A) :
  In a l -> f a = true -> (1 <= List.length (filter f l))%nat.
Proof.
  intros Hin Hf.
  assert (In a (filter f l)) as H by (apply filter_In; auto).
  destruct (filter f l); [contradiction | simpl; lia].
Qed.

Lemma filter_filter {A} (f g : A -> bool) (l : list A) :
  filter f (filter g l) = filter (fun x => g x && f x) l.
Proof.
  induction l as [|a l IH]; simpl; [reflexivity|].
  destruct (g a); simpl; [destruct (f a)|]; now rewrite IH.
Qed.

Lemma forallb_filter {A} (f g : A -> bool) (l : list A) :
  forallb f (filter g l) = forallb (fun x => negb (g x) || f x) l.
Proof.
  induction l as [|a l IH]; simpl; [reflexivity|].
  destruct (g a); simpl; now rewrite IH.
Qed.

Ltac split_andb :=
  repeat match goal with
         | H : _ && _ = true |- _ => apply andb_prop in H; destruct H
         end.

(** On the board the group names "RAILROAD" and "UTILITY" single out the
    railroads and the utilities. *)
Lemma group_is_type b p q ty :
  board_layout b -> In p b -> In q b ->
  Property.space_type p = ty -> (ty = SpaceType.RAILROAD \/ ty = SpaceType.UTILITY) ->
  String.eqb (Property.group q) (Property.group p)
  = SpaceType.eqb (Property.space_type q) ty.
Proof.
  intros Hl Hp Hq Hty Hcase.
  pose proof (layout_static_check b p Hl Hp) as Cp.
  pose proof (layout_static_check b q Hl Hq) as Cq.
  unfold static_check, static_part in Cp, Cq.
  rewrite Hty in Cp.
  destruct Hcase as [-> | ->]; split_andb;
    match goal with H : String.eqb (Property.group p) _ = true |- _ =>
      apply String.eqb_eq in H; rewrite H end;
    destruct (Property.space_type q); simpl; split_andb;
    repeat match goal with
           | H : negb _ = true |- _ => apply negb_true_iff in H
           | H : String.eqb _ _ = true |- _ => apply String.eqb_eq in H
           end;
    try discriminate; try assumption;
    try (match goal with H : Property.group q = _ |- _ => rewrite H; reflexivity end).
Qed.

Lemma count_is_held b p o ty :
  board_layout b -> In p b -> Property.space_type p = ty ->
  (ty = SpaceType.RAILROAD \/ ty = SpaceType.UTILITY) ->
  Board.count_group_owned b o (Property.group p) = held_of_type b o ty.
Proof.
  intros Hl Hp Hty Hcase.
  unfold Board.count_group_owned, Board.get_group_properties, held_of_type.
  rewrite filter_filter. f_equal. f_equal.
  apply filter_ext_in. intros q Hq.
  now rewrite (group_is_type b p q ty Hl Hp Hq Hty Hcase).
Qed.

Lemma held_bounds b p o ty n :
  board_layout b -> In p b -> Property.space_type p = ty ->
  Property.owner_id p = Some o ->
  List.length (filter (fun s => SpaceType.eqb (type_of_static s) ty)
                      (map static_part Board.new)) = n ->
  1 <= held_of_type b o ty <= Z.of_nat n.
Proof.
  intros Hl Hp Hty Ho Hn. unfold held_of_type. split.
  - apply (Nat2Z.inj_le 1). apply filter_In_length with (a := p); [assumption|].
    rewrite Hty. unfold Board.owned_by. rewrite Ho. simpl.
    rewrite String.eqb_refl. now destruct ty.
  - apply Nat2Z.inj_le. rewrite <- Hn, <- Hl.
    rewrite <- (filter_length_map (fun s => SpaceType.eqb (type_of_static s) ty) static_part).
    rewrite <- filter_filter. apply filter_length_le.
Qed.

Lemma monopoly_is_full_group b p o :
  board_layout b -> In p b -> Property.space_type p = SpaceType.PROPERTY ->
  Board.player_has_monopoly b o (Property.group p)
  = holds_full_group b o (Property.group p).
Proof.
  intros Hl Hp Hty.
  pose proof (layout_static_check b p Hl Hp) as Cp.
  unfold static_check, static_part in Cp. rewrite Hty in Cp. split_andb.
  unfold Board.player_has_monopoly, holds_full_group.
  repeat match goal with H : negb _ = true |- _ => apply negb_true_iff in H; rewrite H end.
  simpl. unfold Board.get_group_properties.
  rewrite <- forallb_filter.
  assert (In p (filter (fun q => String.eqb (Property.group q) (Property.group p)) b)) as Hin
    by (apply filter_In; split; [assumption | apply String.eqb_refl]).
  destruct (filter _ b); [contradiction | reflexivity].
Qed.

Lemma rents_at_table p l i :
  Property.rents p = Some l -> 0 <= i < Z.of_nat (List.length l) ->
  rents_at (Property.rents p) i = Some (rent_table p i).
Proof.
  intros Hr Hi. unfold rents_at, rent_table, py_index. rewrite Hr.
  replace ((0 <=? i) && (i <? Z.of_nat (List.length l))) with true
    by (symmetry; apply andb_true_iff; split; [apply Z.leb_le | apply Z.ltb_lt]; lia).
  apply nth_error_nth'. lia.
Qed.

Lemma opt_str_eqb_sym a b : opt_str_eqb a b = opt_str_eqb b a.
Proof. destruct a, b; simpl; auto using String.eqb_sym. Qed.

(** C1.  On a board in a regular state, [Board.calculate_rent] returns the
    rent of the rule: 0 on a position that is no property, or is unowned,
    owned by the landing player or mortgaged; on a street, the table entry
    of the hotel (index 5), else of the house count, else twice the base rent
    when the owner holds the whole group, else the base rent; on a railroad,
    the tier of the number of railroads the owner holds, which is between 1
    and 4; on a utility, the dice total times 4 or times 10 as the owner holds
    one utility or both. *)
Theorem calculate_rent_follows_rule b pos dice lp :
  board_layout b -> buildings_ok b = true ->
  Board.calculate_rent b pos dice lp = Some (rent_rule b pos dice lp)
  /\ (forall p o, Board.get_property b pos = Some p -> Property.owner_id p = Some o ->
        (Property.space_type p = SpaceType.RAILROAD ->
           1 <= held_of_type b o SpaceType.RAILROAD <= 4)
        /\ (Property.space_type p = SpaceType.UTILITY ->
              1 <= held_of_type b o SpaceType.UTILITY <= 2)).
Proof.
  intros Hl Hb. split.
  - unfold Board.calculate_rent, rent_rule.
    destruct (Board.get_property b pos) as [p|] eqn:Hg; [|reflexivity].
    apply get_property_In in Hg. destruct Hg as [Hp _].
    destruct (Property.owner_id p) as [o|] eqn:Ho; [|reflexivity].
    rewrite (opt_str_eqb_sym lp).
    destruct (opt_str_eqb (Some o) lp); [reflexivity|].
    unfold Property.calculate_rent, Property.is_owned. rewrite Ho.
    destruct (Property.is_mortgaged p); [reflexivity|]. simpl.
    pose proof (layout_static_check b p Hl Hp) as Cp.
    unfold static_check, static_part in Cp.
    unfold buildings_ok in Hb. rewrite forallb_forall in Hb.
    pose proof (Hb p Hp) as Bp. unfold building_ok in Bp.
    destruct (Property.space_type p) eqn:Hty; split_andb; try discriminate.
    + (* a street *)
      destruct (Property.rents p) as [l|] eqn:Hr; [|discriminate].
      match goal with H : Nat.eqb _ 6 = true |- _ => apply Nat.eqb_eq in H; rename H into Hlen end.
      rewrite (monopoly_is_full_group b p o Hl Hp Hty).
      rewrite <- Hr.
      destruct (Property.has_hotel p).
      * apply rents_at_table with (l := l); [assumption | lia].
      * repeat match goal with
               | H : (_ <=? _) = true |- _ => apply Z.leb_le in H
               end.
        destruct (0 <? Property.houses p) eqn:Hh.
        -- apply Z.ltb_lt in Hh.
           replace (Property.houses p =? 0) with false by (symmetry; apply Z.eqb_neq; lia).
           simpl. apply rents_at_table with (l := l); [assumption | lia].
        -- apply Z.ltb_ge in Hh.
           assert (Property.houses p = 0) as Hz by lia. rewrite Hz. simpl.
           rewrite (rents_at_table p l 0 Hr) by lia.
           destruct (holds_full_group b o (Property.group p)); cbn [option_map andb]; [f_equal; apply Z.mul_comm | reflexivity].
    + (* a railroad *)
      destruct (Property.rents p) as [l|] eqn:Hr; [|discriminate].
      match goal with H : Nat.eqb _ 4 = true |- _ => apply Nat.eqb_eq in H; rename H into Hlen end.
      rewrite (count_is_held b p o SpaceType.RAILROAD Hl Hp Hty) by auto.
      pose proof (held_bounds b p o SpaceType.RAILROAD 4 Hl Hp Hty Ho eq_refl) as Hc.
      replace ((1 <=? held_of_type b o SpaceType.RAILROAD)
               && (held_of_type b o SpaceType.RAILROAD <=? 4)) with true
        by (symmetry; apply andb_true_iff; split; apply Z.leb_le; lia).
      rewrite <- Hr. apply rents_at_table with (l := l); [assumption | lia].
    + (* a utility *)
      rewrite (count_is_held b p o SpaceType.UTILITY Hl Hp Hty) by auto.
      pose proof (held_bounds b p o SpaceType.UTILITY 2 Hl Hp Hty Ho eq_refl) as Hc.
      unfold UTILITY_MULTIPLIERS_get.
      destruct (held_of_type b o SpaceType.UTILITY =? 1) eqn:Hone; [reflexivity|].
      apply Z.eqb_neq in Hone.
      replace (held_of_type b o SpaceType.UTILITY =? 2) with true
        by (symmetry; apply Z.eqb_eq; lia).
      reflexivity.
  - intros p o Hg Ho. apply get_property_In in Hg. destruct Hg as [Hp _]. split; intros Hty.
    + exact (held_bounds b p o SpaceType.RAILROAD 4 Hl Hp Hty Ho eq_refl).
    + exact (held_bounds b p o SpaceType.UTILITY 2 Hl Hp Hty Ho eq_refl).
Qed.

(** * Shuffling permutes *)

Lemma length_list_set {A} (l : list A) n x : List.length (list_set l n x) = List.length l.
Proof.
  revert n. induction l as [|a l IH]; intros [|n]; simpl; auto.
Qed.

Lemma nth_error_list_set {A} (l : list A) i x n :
  nth_error (list_set l i x) n
  = if Nat.eqb n i
    then match nth_error l i with Some _ => Some x | None => None end
    else nth_error l n.
Proof.
  revert i n. induction l as [|a l IH]; intros [|i] [|n]; simpl; auto.
  - destruct (Nat.eqb n i); reflexivity.
Qed.

Lemma transpose_injective i j : Injective (transpose i j).
Proof.
  intros x y. unfold transpose.
  destruct (Nat.eqb_spec x i), (Nat.eqb_spec y i),
           (Nat.eqb_spec x j), (Nat.eqb_spec y j); congruence.
Qed.

Lemma swap_permutation {A} (l : list A) i j : Permutation (swap l i j) l.
Proof.
  unfold swap.
  destruct (nth_error l i) as [a|] eqn:Hi; [|reflexivity].
  destruct (nth_error l j) as [b|] eqn:Hj; [|reflexivity].
  apply Permutation_sym, Permutation_nth_error. split.
  - now rewrite !length_list_set.
  - exists (transpose i j). split; [apply transpose_injective|].
    intros n. rewrite !nth_error_list_set, Hi. unfold transpose.
    destruct (Nat.eqb_spec n j) as [->|Hnj].
    + destruct (Nat.eqb_spec j i) as [->|Hji].
      * rewrite Hj. congruence.
      * now rewrite Hj, Hi.
    + destruct (Nat.eqb_spec n i) as [->|Hni]; [now rewrite Hj | reflexivity].
Qed.

Lemma shuffle_from_permutation {A} i : forall picks (l : list A),
  Permutation (shuffle_from i picks l) l.
Proof.
  induction i as [|i IH]; intros picks l; simpl; [reflexivity|].
  etransitivity; [apply IH | apply swap_permutation].
Qed.

Lemma shuffle_permutation {A} picks (l : list A) : Permutation (shuffle picks l) l.
Proof. apply shuffle_from_permutation. Qed.

(** * Saving and loading *)

Lemma get_set_property b pos q pos' :
  Property.position q = pos ->
  Board.get_property (Board.set_property b pos q) pos'
  = if pos' =? pos
    then match Board.get_property b pos with Some _ => Some q | None => None end
    else Board.get_property b pos'.
Proof.
  intros Hq. unfold Board.get_property.
  induction b as [|x r IH]; simpl.
  - now destruct (pos' =? pos).
  - destruct (Property.position x =? pos) eqn:Ex; simpl.
    + rewrite Hq. apply Z.eqb_eq in Ex. rewrite Ex. rewrite (Z.eqb_sym pos pos').
      now destruct (pos' =? pos).
    + destruct (Property.position x =? pos') eqn:Ex'.
      * replace (pos' =? pos) with false; [reflexivity|].
        symmetry. apply Z.eqb_neq. apply Z.eqb_eq in Ex'. apply Z.eqb_neq in Ex. lia.
      * exact IH.
Qed.

Lemma get_load_property b pos pd pos' :
  Board.get_property (Board.load_property b (pos, pd)) pos'
  = if pos' =? pos
    then option_map (fun prop => loaded prop pd) (Board.get_property b pos)
    else Board.get_property b pos'.
Proof.
  unfold Board.load_property.
  destruct (Board.get_property b pos) as [prop|] eqn:Hg.
  - rewrite get_set_property.
    + rewrite Hg. reflexivity.
    + simpl. now apply get_property_In in Hg.
  - destruct (pos' =? pos) eqn:E; [|reflexivity].
    apply Z.eqb_eq in E. now rewrite E, Hg.
Qed.

Lemma get_fold_load es : forall b pos,
  distinct_Z (map fst es) = true ->
  Board.get_property (fold_left Board.load_property es b) pos
  = match entry_get es pos with
    | Some pd => option_map (fun prop => loaded prop pd) (Board.get_property b pos)
    | None => Board.get_property b pos
    end.
Proof.
  induction es as [|[k pd] es IH]; intros b pos Hd; [reflexivity|].
  simpl in Hd. cbn [fold_left entry_get].
  apply andb_prop in Hd. destruct Hd as [Hk Hd].
  rewrite (IH _ _ Hd), !get_load_property.
  destruct (k =? pos) eqn:E.
  - apply Z.eqb_eq in E. subst k. rewrite Z.eqb_refl.
    assert (entry_get es pos = None) as Hn.
    { clear -Hk. apply negb_true_iff in Hk.
      induction es as [|[k v] es IH]; simpl in *; [reflexivity|].
      apply orb_false_elim in Hk. destruct Hk as [H1 H2].
      rewrite (Z.eqb_sym k pos), H1. auto. }
    now rewrite Hn.
  - rewrite (Z.eqb_sym pos k), E. reflexivity.
Qed.

Lemma entry_get_to_dict b pos :
  entry_get (Board.to_dict b) pos
  = option_map Board.property_to_dict (Board.get_property b pos).
Proof.
  unfold Board.to_dict, Board.get_property.
  induction b as [|x r IH]; simpl; [reflexivity|].
  destruct (Property.position x =? pos); [reflexivity | exact IH].
Qed.

(** Boards with the same layout hold, at every position, properties with the
    same static fields. *)
Lemma layout_get b b' pos :
  map static_part b = map static_part b' ->
  match Board.get_property b pos, Board.get_property b' pos with
  | Some p, Some p' => static_part p = static_part p'
  | None, None => True
  | _, _ => False
  end.
Proof.
  unfold Board.get_property.
  revert b'. induction b as [|x r IH]; intros [|x' r'] H; try discriminate; [exact I|].
  cbn [map] in H.
  assert (static_part x = static_part x') as Hx by congruence.
  assert (map static_part r = map static_part r') as Hr by congruence.
  assert (Property.position x = Property.position x') as Hp
    by (unfold static_part in Hx; congruence).
  cbn [find]. rewrite <- Hp.
  destruct (Property.position x =? pos); [assumption | now apply IH].
Qed.

Lemma loaded_to_dict n p :
  static_part n = static_part p -> loaded n (Board.property_to_dict p) = p.
Proof.
  unfold static_part, loaded. destruct n, p. simpl. intros [= -> -> -> -> -> -> ->].
  reflexivity.
Qed.

Lemma layout_positions_distinct b :
  board_layout b -> distinct_Z (map Property.position b) = true.
Proof.
  intros Hl.
  assert (map Property.position b = map (fun s => fst (fst (fst (fst (fst (fst s))))))
                                        (map static_part b)) as H
    by (rewrite map_map; reflexivity).
  rewrite H, Hl. reflexivity.
Qed.

(** The board dictionary survives a save and a load. *)
Lemma board_round_trip b pos :
  board_layout b ->
  Board.get_property (Board.from_dict (Board.to_dict b)) pos = Board.get_property b pos.
Proof.
  intros Hl. unfold Board.from_dict.
  rewrite get_fold_load.
  - rewrite entry_get_to_dict.
    pose proof (layout_get Board.new b pos (eq_sym Hl)) as H.
    destruct (Board.get_property b pos) as [p|];
      destruct (Board.get_property Board.new pos) as [n|];
      try contradiction; cbn [option_map]; [|reflexivity].
    now rewrite loaded_to_dict.
  - unfold Board.to_dict. rewrite map_map. simpl.
    now apply layout_positions_distinct.
Qed.

Lemma dict_set_fresh {V} (d : list (string * V)) k v :
  existsb (String.eqb k) (map fst d) = false -> dict_set d k v = (d ++ [(k, v)])%list.
Proof.
  induction d as [|[k' v'] r IH]; simpl; intros H; [reflexivity|].
  apply orb_false_elim in H. destruct H as [H1 H2].
  rewrite String.eqb_sym, H1. now rewrite IH.
Qed.

Lemma existsb_app_false {A} (f : A -> bool) l1 l2 :
  existsb f l1 = false -> existsb f l2 = false -> existsb f (l1 ++ l2) = false.
Proof. intros H1 H2. now rewrite existsb_app, H1, H2. Qed.

Lemma players_fold_load (ps : list (string * Player.t)) : forall acc,
  distinct_str (map fst ps) = true ->
  (forall k, In k (map fst ps) -> existsb (String.eqb k) (map fst acc) = false) ->
  fold_left (fun a kd => dict_set a (fst kd) (Player.from_dict (snd kd)))
            (map (fun kp => (fst kp, Player.to_dict (snd kp))) ps) acc
  = (acc ++ map (fun kp => (fst kp, reloaded (snd kp))) ps)%list.
Proof.
  induction ps as [|[k p] ps IH]; intros acc Hd Hf; simpl in *.
  - now rewrite app_nil_r.
  - apply andb_prop in Hd. destruct Hd as [Hk Hd]. apply negb_true_iff in Hk.
    rewrite dict_set_fresh by (apply Hf; now left).
    rewrite IH; [now rewrite <- app_assoc | assumption |].
    intros k' Hin. rewrite map_app. apply existsb_app_false; [apply Hf; now right|].
    simpl. rewrite orb_false_r.
    destruct (String.eqb_spec k' k) as [->|]; [|reflexivity].
    exfalso. clear -Hk Hin.
    assert (existsb (String.eqb k) (map fst ps) = true) as H
      by (apply existsb_exists; exists k; split; [assumption | apply String.eqb_refl]).
    congruence.
Qed.

Lemma dict_get_map {V W} (f : V -> W) (d : list (string * V)) k :
  dict_get (map (fun kv => (fst kv, f (snd kv))) d) k = option_map f (dict_get d k).
Proof.
  induction d as [|[k' v] r IH]; simpl; [reflexivity|].
  destruct (String.eqb k' k); [reflexivity | exact IH].
Qed.

Lemma set_add_fresh s x : Player.mem x s = false -> Player.set_add s x = (s ++ [x])%list.
Proof. unfold Player.set_add. now intros ->. Qed.

Lemma set_of_list_distinct l : distinct_Z l = true -> Player.set_of_list l = l.
Proof.
  unfold Player.set_of_list.
  assert (forall acc, distinct_Z l = true ->
            (forall x, In x l -> Player.mem x acc = false) ->
            fold_left Player.set_add l acc = (acc ++ l)%list) as H.
  { induction l as [|a l IH]; intros acc Hd Hf; simpl in *; [now rewrite app_nil_r|].
    apply andb_prop in Hd. destruct Hd as [Ha Hd]. apply negb_true_iff in Ha.
    rewrite set_add_fresh by (apply Hf; now left).
    rewrite IH; [now rewrite <- app_assoc | assumption |].
    intros x Hin. unfold Player.mem. rewrite existsb_app.
    fold (Player.mem x acc). rewrite (Hf x) by now right. simpl. rewrite orb_false_r.
    destruct (Z.eqb_spec x a) as [->|]; [|reflexivity].
    exfalso. clear -Ha Hin.
    assert (existsb (Z.eqb a) l = true) as H
      by (apply existsb_exists; exists a; split; [assumption | apply Z.eqb_refl]).
    congruence. }
  intros Hd. now rewrite H.
Qed.

(** A loaded player has the saved fields; the fields that are not saved take
    their defaults. *)
Lemma reloaded_fields p :
  distinct_Z (Player.properties p) = true ->
  reloaded p
  = Player.mk (Player.name p) (Player.id p) (Player.money p) (Player.position p)
      (Player.state p) (Player.jail_turns p) (Player.jail_cards p)
      (Player.properties p) None 0 false.
Proof.
  intros Hd. unfold reloaded, Player.from_dict, Player.to_dict. simpl.
  now rewrite set_of_list_distinct.
Qed.

Lemma from_to_dict g now pc pcc :
  Game.from_dict now pc pcc (Game.to_dict g)
  = Some (Game.mk (Game.id g) (Game.name g) (Game.created_at g)
            (Board.from_dict (Board.to_dict (Game.board g)))
            (CardManager.new pc pcc)
            (Game.rules g)
            (fold_left (fun a kd => dict_set a (fst kd) (Player.from_dict (snd kd)))
               (map (fun kp => (fst kp, Player.to_dict (snd kp))) (Game.players g)) [])
            (Game.player_order g) (Game.current_player_index g) (Game.phase g)
            (Game.turn_number g) (Game.last_dice_roll g) (Game.winner_id g) [] 2 4).
Proof.
  unfold Game.from_dict, Game.to_dict. simpl.
  destruct (Game.last_dice_roll g) as [[a b]|]; simpl;
    destruct (Game.rules g); reflexivity.
Qed.


(** * Preservation of the state invariants *)

Import Game.

Lemma InvR_bind {A B} (r : Result A) (k : A -> t -> Result B) :
  InvR r -> (forall a g, Inv g -> InvR (k a g)) -> InvR (bind r k).
Proof. destruct r; simpl; auto. Qed.

Lemma Inv_same g g' :
  players g' = players g -> cards g' = cards g -> board g' = board g ->
  rules g' = rules g ->
  Inv g -> Inv g'.
Proof. intros Hp Hc Hb Hr [? ? ? ? ? ? ? ?]. constructor; congruence. Qed.

Lemma Inv_set_phase g x : Inv g -> Inv (set_phase g x).
Proof. apply Inv_same; reflexivity. Qed.
Lemma Inv_set_turn_number g x : Inv g -> Inv (set_turn_number g x).
Proof. apply Inv_same; reflexivity. Qed.
Lemma Inv_set_current_player_index g x : Inv g -> Inv (set_current_player_index g x).
Proof. apply Inv_same; reflexivity. Qed.
Lemma Inv_set_last_dice_roll g x : Inv g -> Inv (set_last_dice_roll g x).
Proof. apply Inv_same; reflexivity. Qed.
Lemma Inv_set_winner_id g x : Inv g -> Inv (set_winner_id g x).
Proof. apply Inv_same; reflexivity. Qed.
Lemma Inv_set_player_order g x : Inv g -> Inv (set_player_order g x).
Proof. apply Inv_same; reflexivity. Qed.
Lemma Inv_log_event g ty d : Inv g -> Inv (_log_event g ty d).
Proof. apply Inv_same; reflexivity. Qed.

Lemma Inv_set_players g ps :
  money_ok ps = true -> players_wf ps = true -> Inv g -> Inv (set_players g ps).
Proof. intros H H' [? ? ? ? ? ? ? ?]. constructor; assumption. Qed.

Lemma Inv_set_cards g c : cards_ok c = true -> Inv g -> Inv (set_cards g c).
Proof. intros H [? ? ? ? ? ? ? ?]. constructor; assumption. Qed.

(** The board and the bank inventory change together. *)
Lemma Inv_set_board_rules g b r :
  board_layout b -> buildings_ok b = true ->
  RuleEngine.houses_available r + houses_in_use b = TOTAL_HOUSES ->
  RuleEngine.hotels_available r + hotels_in_use b = TOTAL_HOTELS ->
  0 <= RuleEngine.hotels_available r ->
  Inv g -> Inv (set_rules (set_board g b) r).
Proof. intros H1 H2 H3 H4 H5 [? ? ? ? ? ? ? ?]. constructor; assumption. Qed.

Lemma Inv_set_board g b :
  board_layout b -> buildings_ok b = true ->
  houses_in_use b = houses_in_use (board g) ->
  hotels_in_use b = hotels_in_use (board g) ->
  Inv g -> Inv (set_board g b).
Proof.
  intros H1 H2 H3 H4 [? ? ? ? ? ? ? ?]. constructor; try assumption; cbn [rules board set_board];
    congruence.
Qed.

Lemma money_ok_dict_set ps k p :
  money_ok ps = true -> 0 <= Player.money p -> money_ok (dict_set ps k p) = true.
Proof.
  unfold money_ok. induction ps as [|[k' v] r IH]; simpl; intros H Hp.
  - rewrite andb_true_r. now apply Z.leb_le.
  - apply andb_prop in H. destruct H as [H1 H2].
    destruct (String.eqb k' k); simpl.
    + rewrite H2, andb_true_r. now apply Z.leb_le.
    + now rewrite H1, IH.
Qed.

Lemma money_ok_dict_get ps k p :
  money_ok ps = true -> dict_get ps k = Some p -> 0 <= Player.money p.
Proof.
  unfold money_ok. induction ps as [|[k' v] r IH]; simpl; intros H Hg; [discriminate|].
  apply andb_prop in H. destruct H as [H1 H2].
  destruct (String.eqb k' k).
  - injection Hg as <-. now apply Z.leb_le.
  - auto.
Qed.

Lemma money_ok_dict_del ps k : money_ok ps = true -> money_ok (dict_del ps k) = true.
Proof.
  unfold money_ok. induction ps as [|[k' v] r IH]; simpl; intros H; [reflexivity|].
  apply andb_prop in H. destruct H as [H1 H2].
  destruct (String.eqb k' k); simpl; [assumption | now rewrite H1, IH].
Qed.

Lemma keys_dict_set {V} (d : list (string * V)) k v x :
  existsb (String.eqb x) (map fst (dict_set d k v))
  = existsb (String.eqb x) (map fst d) || String.eqb x k.
Proof.
  induction d as [|[k' v'] r IH]; simpl.
  - now rewrite orb_false_r.
  - destruct (String.eqb k' k) eqn:E; simpl.
    + apply String.eqb_eq in E. subst k'.
      destruct (String.eqb x k); simpl; [reflexivity | now rewrite orb_false_r].
    + rewrite IH. now rewrite orb_assoc.
Qed.

Lemma keys_dict_del {V} (d : list (string * V)) k x :
  existsb (String.eqb x) (map fst (dict_del d k)) = true ->
  existsb (String.eqb x) (map fst d) = true.
Proof.
  induction d as [|[k' v'] r IH]; simpl; [trivial|].
  destruct (String.eqb k' k); simpl.
  - intros ->. apply orb_true_r.
  - destruct (String.eqb x k'); [reflexivity | exact IH].
Qed.

Lemma players_wf_dict_set ps k p :
  players_wf ps = true -> distinct_Z (Player.properties p) = true ->
  players_wf (dict_set ps k p) = true.
Proof.
  unfold players_wf. intros H Hp. apply andb_prop in H. destruct H as [Hk Hs].
  apply andb_true_iff. split.
  - clear Hs. induction ps as [|[k' v] r IH]; simpl in *; [reflexivity|].
    apply andb_prop in Hk. destruct Hk as [H1 H2].
    destruct (String.eqb_spec k' k) as [->|Hne]; simpl.
    + now rewrite H1, H2.
    + rewrite keys_dict_set, IH by assumption.
      apply negb_true_iff in H1. rewrite H1. simpl.
      destruct (String.eqb_spec k' k); [congruence | reflexivity].
  - clear Hk. induction ps as [|[k' v] r IH]; simpl in *; [now rewrite Hp|].
    apply andb_prop in Hs. destruct Hs as [H1 H2].
    destruct (String.eqb k' k); simpl; [now rewrite Hp, H2 | now rewrite H1, IH].
Qed.

Lemma players_wf_dict_get ps k p :
  players_wf ps = true -> dict_get ps k = Some p ->
  distinct_Z (Player.properties p) = true.
Proof.
  unfold players_wf. intros H. apply andb_prop in H. destruct H as [_ Hs].
  induction ps as [|[k' v] r IH]; simpl in *; intros Hg; [discriminate|].
  apply andb_prop in Hs. destruct Hs as [H1 H2].
  destruct (String.eqb k' k); [now injection Hg as <- | auto].
Qed.

Lemma players_wf_dict_del ps k : players_wf ps = true -> players_wf (dict_del ps k) = true.
Proof.
  unfold players_wf. intros H. apply andb_prop in H. destruct H as [Hk Hs].
  apply andb_true_iff. split.
  - clear Hs. induction ps as [|[k' v] r IH]; simpl in *; [reflexivity|].
    apply andb_prop in Hk. destruct Hk as [H1 H2].
    destruct (String.eqb k' k); simpl; [assumption|].
    rewrite IH by assumption. rewrite andb_true_r.
    apply negb_true_iff. apply negb_true_iff in H1.
    destruct (existsb (String.eqb k') (map fst (dict_del r k))) eqn:E; [|reflexivity].
    apply keys_dict_del in E. congruence.
  - clear Hk. induction ps as [|[k' v] r IH]; simpl in *; [reflexivity|].
    apply andb_prop in Hs. destruct Hs as [H1 H2].
    destruct (String.eqb k' k); simpl; [assumption | now rewrite H1, IH].
Qed.

Lemma Inv_update_player g k f :
  keeps_money f -> keeps_props f -> Inv g -> Inv (update_player g k f).
Proof.
  intros Hf Hf' HI. unfold update_player.
  destruct (dict_get (players g) k) as [p|] eqn:Hg; [|assumption].
  apply Inv_set_players; [| |assumption].
  - apply money_ok_dict_set; [apply (inv_money _ HI)|].
    apply Hf. eapply money_ok_dict_get; [apply (inv_money _ HI) | eassumption].
  - apply players_wf_dict_set; [apply (inv_players _ HI)|].
    apply Hf'. eapply players_wf_dict_get; [apply (inv_players _ HI) | eassumption].
Qed.

Lemma the_player_money g k : Inv g -> 0 <= Player.money (the_player g k).
Proof.
  intros HI. pose proof (inv_money _ HI) as Hm. unfold the_player.
  destruct (dict_get (players g) k) eqn:Hg; [eapply money_ok_dict_get; eauto|].
  simpl. unfold STARTING_MONEY. lia.
Qed.

Lemma keeps_remove a : keeps_money (fun q => snd (Player.remove_money q a)).
Proof.
  intros p Hp. unfold Player.remove_money.
  destruct (a <=? Player.money p) eqn:E; simpl; [apply Z.leb_le in E; lia | assumption].
Qed.

Lemma keeps_add a : 0 <= a -> keeps_money (fun q => Player.add_money q a).
Proof. intros Ha p Hp. simpl. lia. Qed.

Lemma keeps_same f : (forall p, Player.money (f p) = Player.money p) -> keeps_money f.
Proof. intros H p Hp. now rewrite H. Qed.

Lemma keeps_compose f h : keeps_money f -> keeps_money h -> keeps_money (fun q => f (h q)).
Proof. intros Hf Hh p Hp. apply Hf, Hh, Hp. Qed.

Lemma keeps_move_to pos c : keeps_money (fun q => snd (Player.move_to q pos c)).
Proof.
  intros p Hp. unfold Player.move_to.
  destruct (c && (pos <? Player.position p)
            && negb (PlayerState.eqb (Player.state p) PlayerState.IN_JAIL));
    simpl; unfold SALARY_AMOUNT; lia.
Qed.

Lemma keeps_move_forward n : keeps_money (fun q => snd (Player.move_forward q n)).
Proof. intros p Hp. unfold Player.move_forward. now apply keeps_move_to. Qed.

Lemma layout_set_property b pos p q :
  Board.get_property b pos = Some p -> static_part q = static_part p ->
  map static_part (Board.set_property b pos q) = map static_part b.
Proof.
  unfold Board.get_property. induction b as [|x r IH]; simpl; intros Hg Hs; [reflexivity|].
  destruct (Property.position x =? pos).
  - injection Hg as ->. simpl. now rewrite Hs.
  - simpl. now rewrite IH.
Qed.

Lemma buildings_ok_set b pos q :
  buildings_ok b = true -> building_ok q = true ->
  buildings_ok (Board.set_property b pos q) = true.
Proof.
  unfold buildings_ok. induction b as [|x r IH]; simpl; intros H Hq; [reflexivity|].
  apply andb_prop in H. destruct H as [H1 H2].
  destruct (Property.position x =? pos); simpl; [now rewrite Hq, H2 | now rewrite H1, IH].
Qed.

Lemma buildings_ok_get b pos p :
  buildings_ok b = true -> Board.get_property b pos = Some p -> building_ok p = true.
Proof.
  unfold buildings_ok. rewrite forallb_forall. intros H Hg.
  apply H. now apply get_property_In in Hg.
Qed.

Lemma houses_in_use_set b pos p q :
  Board.get_property b pos = Some p ->
  houses_in_use (Board.set_property b pos q)
  = houses_in_use b - Property.houses p + Property.houses q.
Proof.
  unfold Board.get_property. induction b as [|x r IH]; simpl; intros H; [discriminate|].
  destruct (Property.position x =? pos).
  - injection H as ->. simpl. lia.
  - simpl. rewrite (IH H). lia.
Qed.

Lemma hotels_in_use_set b pos p q :
  Board.get_property b pos = Some p ->
  hotels_in_use (Board.set_property b pos q)
  = hotels_in_use b - (if Property.has_hotel p then 1 else 0)
    + (if Property.has_hotel q then 1 else 0).
Proof.
  unfold Board.get_property. induction b as [|x r IH]; simpl; intros H; [discriminate|].
  destruct (Property.position x =? pos).
  - injection H as ->. simpl. lia.
  - simpl. rewrite (IH H). lia.
Qed.

(** A property is replaced and the bank inventory follows its buildings. *)
Lemma Inv_move_buildings g pos p q r :
  Board.get_property (board g) pos = Some p -> static_part q = static_part p ->
  building_ok q = true ->
  RuleEngine.houses_available r + Property.houses q
  = RuleEngine.houses_available (rules g) + Property.houses p ->
  RuleEngine.hotels_available r + (if Property.has_hotel q then 1 else 0)
  = RuleEngine.hotels_available (rules g) + (if Property.has_hotel p then 1 else 0) ->
  0 <= RuleEngine.hotels_available r ->
  Inv g -> Inv (set_rules (set_board g (Board.set_property (board g) pos q)) r).
Proof.
  intros Hg Hs Hq Hh Hhot Hbank HI. apply Inv_set_board_rules; [| | | | assumption |assumption].
  - pose proof (inv_board _ HI) as Hl. unfold board_layout in *.
    now rewrite (layout_set_property _ _ _ _ Hg Hs).
  - apply buildings_ok_set; [apply (inv_buildings _ HI) | assumption].
  - rewrite (houses_in_use_set _ _ _ _ Hg). pose proof (inv_houses _ HI). lia.
  - rewrite (hotels_in_use_set _ _ _ _ Hg). pose proof (inv_hotels _ HI). lia.
Qed.

Lemma Inv_set_property g pos p q :
  Board.get_property (board g) pos = Some p -> static_part q = static_part p ->
  Property.houses q = Property.houses p -> Property.has_hotel q = Property.has_hotel p ->
  Inv g -> Inv (set_board g (Board.set_property (board g) pos q)).
Proof.
  intros Hg Hs Hh Hhot HI. apply Inv_set_board; [| | | |assumption].
  - pose proof (inv_board _ HI) as Hl. unfold board_layout in *.
    now rewrite (layout_set_property _ _ _ _ Hg Hs).
  - apply buildings_ok_set; [apply (inv_buildings _ HI)|].
    pose proof (buildings_ok_get _ _ _ (inv_buildings _ HI) Hg) as Hp.
    unfold building_ok in *. rewrite Hh, Hhot.
    replace (Property.space_type q) with (Property.space_type p)
      by (unfold static_part in Hs; congruence).
    exact Hp.
  - rewrite (houses_in_use_set _ _ _ _ Hg). lia.
  - rewrite (hotels_in_use_set _ _ _ _ Hg), Hhot. lia.
Qed.

Lemma Inv_update_property g pos f :
  keeps_static f -> keeps_count f -> Inv g -> Inv (update_property g pos f).
Proof.
  intros Hf Hf' HI. unfold update_property.
  destruct (Board.get_property (board g) pos) as [p|] eqn:Hg; [|assumption].
  apply Inv_set_property with (p := p); try assumption; [apply Hf | apply Hf' | apply Hf'].
Qed.

(** ** Mutations that keep sets and buildings regular *)

Lemma mem_app_single x s y : Player.mem x (s ++ [y]) = Player.mem x s || (x =? y).
Proof. unfold Player.mem. rewrite existsb_app. simpl. now rewrite orb_false_r. Qed.

Lemma distinct_app_single s y :
  distinct_Z s = true -> Player.mem y s = false -> distinct_Z (s ++ [y]) = true.
Proof.
  induction s as [|x r IH]; simpl; intros Hd Hm; [reflexivity|].
  apply andb_prop in Hd. destruct Hd as [H1 H2].
  apply orb_false_iff in Hm. destruct Hm as [Hyx Hm].
  rewrite IH by assumption. rewrite andb_true_r.
  apply negb_true_iff. apply negb_true_iff in H1.
  fold (Player.mem x (r ++ [y])). rewrite mem_app_single.
  unfold Player.mem. rewrite H1. simpl. now rewrite Z.eqb_sym.
Qed.

Lemma set_add_distinct s x : distinct_Z s = true -> distinct_Z (Player.set_add s x) = true.
Proof.
  intros Hd. unfold Player.set_add.
  destruct (Player.mem x s) eqn:E; [assumption | now apply distinct_app_single].
Qed.

Lemma set_discard_distinct s x :
  distinct_Z s = true -> distinct_Z (Player.set_discard s x) = true.
Proof.
  unfold Player.set_discard.
  induction s as [|y r IH]; simpl; intros Hd; [reflexivity|].
  apply andb_prop in Hd. destruct Hd as [H1 H2].
  destruct (negb (y =? x)); simpl; [|auto].
  rewrite IH by assumption. rewrite andb_true_r.
  apply negb_true_iff. apply negb_true_iff in H1.
  destruct (existsb (Z.eqb y) (filter (fun z => negb (z =? x)) r)) eqn:E; [|reflexivity].
  apply existsb_exists in E. destruct E as [z [Hz Hyz]].
  apply filter_In in Hz. destruct Hz as [Hz _].
  assert (existsb (Z.eqb y) r = true) by (apply existsb_exists; eauto). congruence.
Qed.

Lemma keeps_props_same f :
  (forall p, Player.properties (f p) = Player.properties p) -> keeps_props f.
Proof. intros H p Hp. now rewrite H. Qed.

Lemma keeps_props_add_property pos : keeps_props (fun q => Player.add_property q pos).
Proof. intros p Hp. simpl. now apply set_add_distinct. Qed.

Lemma keeps_props_remove_property pos : keeps_props (fun q => Player.remove_property q pos).
Proof. intros p Hp. simpl. now apply set_discard_distinct. Qed.

Lemma keeps_props_bankrupt : keeps_props Player.declare_bankruptcy.
Proof. intros p Hp. reflexivity. Qed.

Lemma keeps_building_same f :
  (forall p, Property.houses (f p) = Property.houses p) ->
  (forall p, Property.has_hotel (f p) = Property.has_hotel p) ->
  (forall p, Property.space_type (f p) = Property.space_type p) ->
  keeps_building f.
Proof. intros H1 H2 H3 p Hp. unfold building_ok in *. now rewrite H1, H2, H3. Qed.

Lemma building_ok_intro p :
  0 <= Property.houses p <= 4 ->
  (Property.has_hotel p = true -> Property.houses p = 0) ->
  (0 < Property.houses p \/ Property.has_hotel p = true ->
   Property.space_type p = SpaceType.PROPERTY) ->
  building_ok p = true.
Proof.
  intros Hh Hhotel Hty. unfold building_ok.
  repeat (apply andb_true_iff; split).
  - apply Z.leb_le; lia.
  - apply Z.leb_le; lia.
  - destruct (Property.has_hotel p); simpl; [|reflexivity].
    apply Z.eqb_eq. now apply Hhotel.
  - destruct (Z.ltb_spec 0 (Property.houses p)) as [H|H]; simpl.
    + rewrite Hty by (now left). reflexivity.
    + destruct (Property.has_hotel p); simpl; [|reflexivity].
      rewrite Hty by (now right). reflexivity.
Qed.

Lemma building_ok_elim p :
  building_ok p = true ->
  0 <= Property.houses p <= 4
  /\ (Property.has_hotel p = true -> Property.houses p = 0)
  /\ (0 < Property.houses p \/ Property.has_hotel p = true ->
      Property.space_type p = SpaceType.PROPERTY).
Proof.
  unfold building_ok. intros H.
  apply andb_prop in H. destruct H as [H H4].
  apply andb_prop in H. destruct H as [H H3].
  apply andb_prop in H. destruct H as [H1 H2].
  apply Z.leb_le in H1. apply Z.leb_le in H2.
  split; [lia|]. split.
  - intros Hh. rewrite Hh in H3. simpl in H3. now apply Z.eqb_eq.
  - intros Hb.
    assert ((0 <? Property.houses p) || Property.has_hotel p = true) as Hb'.
    { destruct Hb as [Hb|Hb]; [apply Z.ltb_lt in Hb; now rewrite Hb | rewrite Hb; apply orb_true_r]. }
    rewrite Hb' in H4. simpl in H4.
    destruct (Property.space_type p); (reflexivity || discriminate).
Qed.

Lemma can_be_developed_street p :
  Property.can_be_developed p = true -> Property.space_type p = SpaceType.PROPERTY.
Proof.
  unfold Property.can_be_developed. intros H.
  apply andb_prop in H. destruct H as [H _]. apply andb_prop in H. destruct H as [H _].
  destruct (Property.space_type p); (reflexivity || discriminate).
Qed.

Lemma keeps_building_build_house : keeps_building (fun q => snd (Property.build_house q)).
Proof.
  intros p Hp. unfold Property.build_house.
  destruct (negb (Property.can_be_developed p)) eqn:E1; [exact Hp|].
  destruct ((4 <=? Property.houses p) || Property.has_hotel p) eqn:E2; [exact Hp|].
  apply negb_false_iff, can_be_developed_street in E1.
  apply orb_false_iff in E2. destruct E2 as [E2 E3]. apply Z.leb_gt in E2.
  apply building_ok_elim in Hp. destruct Hp as (Hh & _ & _).
  apply building_ok_intro; cbn; [lia | congruence | intros _; exact E1].
Qed.

Lemma keeps_building_build_hotel : keeps_building (fun q => snd (Property.build_hotel q)).
Proof.
  intros p Hp. unfold Property.build_hotel.
  destruct (negb (Property.can_be_developed p)) eqn:E1; [exact Hp|].
  destruct (negb (Property.houses p =? 4) || Property.has_hotel p) eqn:E2; [exact Hp|].
  apply negb_false_iff, can_be_developed_street in E1.
  apply building_ok_intro; cbn; [lia | reflexivity | intros _; exact E1].
Qed.

Lemma sell_house_building p :
  building_ok p = true -> building_ok (snd (Property.sell_house p)) = true.
Proof.
  intros Hp. unfold Property.sell_house.
  destruct (Z.leb_spec (Property.houses p) 0) as [E|E]; [exact Hp|].
  apply building_ok_elim in Hp. destruct Hp as (Hh & Hhotel & Hty).
  apply building_ok_intro; cbn.
  - lia.
  - intros Hb. specialize (Hhotel Hb). lia.
  - intros _. apply Hty. now left.
Qed.

Lemma sell_hotel_building p :
  building_ok p = true -> building_ok (snd (Property.sell_hotel p)) = true.
Proof.
  intros Hp. unfold Property.sell_hotel.
  destruct (Property.has_hotel p) eqn:E; [|exact Hp]. cbn [negb snd].
  apply building_ok_elim in Hp. destruct Hp as (Hh & Hhotel & Hty).
  apply building_ok_intro; cbn; [lia | discriminate | intros _; apply Hty; now right].
Qed.

Lemma mortgage_building p :
  building_ok p = true -> building_ok (snd (Property.mortgage p)) = true.
Proof.
  intros Hp. unfold Property.mortgage.
  destruct (Property.is_mortgaged p || (0 <? Property.houses p) || Property.has_hotel p);
    exact Hp.
Qed.

Lemma street_has_house_cost b p :
  board_layout b -> In p b -> Property.space_type p = SpaceType.PROPERTY ->
  Property.house_cost p <> None.
Proof.
  intros Hl Hin Hty. pose proof (layout_static_check b p Hl Hin) as C.
  unfold static_check, static_part in C. rewrite Hty in C. split_andb.
  destruct (Property.house_cost p); [discriminate | discriminate].
Qed.

Lemma board_update_player g k f : board (update_player g k f) = board g.
Proof. unfold update_player. destruct (dict_get _ _); reflexivity. Qed.
Lemma rules_update_player g k f : rules (update_player g k f) = rules g.
Proof. unfold update_player. destruct (dict_get _ _); reflexivity. Qed.
Lemma players_update_property g pos f : players (update_property g pos f) = players g.
Proof. unfold update_property. destruct (Board.get_property _ _); reflexivity. Qed.
Lemma rules_update_property g pos f : rules (update_property g pos f) = rules g.
Proof. unfold update_property. destruct (Board.get_property _ _); reflexivity. Qed.

Lemma update_property_at g pos f p :
  Board.get_property (board g) pos = Some p ->
  update_property g pos f = set_board g (Board.set_property (board g) pos (f p)).
Proof. intros E. unfold update_property. now rewrite E. Qed.

(** In a regular game a property with buildings is a street, and a street
    has a house cost. *)
Lemma built_has_cost g pos prop :
  Inv g -> Board.get_property (board g) pos = Some prop ->
  0 < Property.houses prop \/ Property.has_hotel prop = true ->
  exists c, Property.house_cost prop = Some c.
Proof.
  intros HI Hg Hb.
  pose proof (buildings_ok_get _ _ _ (inv_buildings _ HI) Hg) as Hok.
  apply building_ok_elim in Hok. destruct Hok as (_ & _ & Hty).
  apply get_property_In in Hg. destruct Hg as [Hin _].
  pose proof (street_has_house_cost _ _ (inv_board _ HI) Hin (Hty Hb)) as Hc.
  destruct (Property.house_cost prop) as [c|]; [eauto | congruence].
Qed.

(** The four moves of buildings between a property and the bank. *)
Lemma Inv_sell_hotel g pos prop :
  Inv g -> Board.get_property (board g) pos = Some prop ->
  Property.has_hotel prop = true ->
  Inv (set_rules (set_board g (Board.set_property (board g) pos
                                 (snd (Property.sell_hotel prop))))
         (RuleEngine.return_hotel (rules g))).
Proof.
  intros HI Hg Hh.
  pose proof (buildings_ok_get _ _ _ (inv_buildings _ HI) Hg) as Hok.
  pose proof (sell_hotel_building _ Hok) as Hok'.
  apply building_ok_elim in Hok. destruct Hok as (_ & H0 & _). specialize (H0 Hh).
  pose proof (inv_hotel_bank _ HI) as Hbank.
  apply Inv_move_buildings with (p := prop); try assumption.
  - unfold Property.sell_hotel. rewrite Hh. reflexivity.
  - unfold Property.sell_hotel. rewrite Hh. cbn. lia.
  - unfold Property.sell_hotel. rewrite Hh. cbn. lia.
  - cbn. lia.
Qed.

Lemma Inv_sell_house g pos prop :
  Inv g -> Board.get_property (board g) pos = Some prop ->
  0 < Property.houses prop ->
  Inv (set_rules (set_board g (Board.set_property (board g) pos
                                 (snd (Property.sell_house prop))))
         (RuleEngine.return_house (rules g))).
Proof.
  intros HI Hg Hh.
  pose proof (buildings_ok_get _ _ _ (inv_buildings _ HI) Hg) as Hok.
  pose proof (sell_house_building _ Hok) as Hok'.
  assert (Property.sell_house prop
          = (Property.half_house_cost prop, Property.set_houses prop (Property.houses prop - 1)))
    as E.
  { unfold Property.sell_house.
    destruct (Z.leb_spec (Property.houses prop) 0); [lia | reflexivity]. }
  rewrite E in *. cbn [snd] in *.
  pose proof (inv_hotel_bank _ HI) as Hbank.
  apply Inv_move_buildings with (p := prop); try assumption;
    [reflexivity | cbn; lia | reflexivity].
Qed.

Lemma Inv_build_house g pos prop :
  Inv g -> Board.get_property (board g) pos = Some prop ->
  Property.can_be_developed prop = true ->
  Property.houses prop < 4 -> Property.has_hotel prop = false ->
  0 < RuleEngine.houses_available (rules g) ->
  Inv (set_rules (set_board g (Board.set_property (board g) pos
                                 (snd (Property.build_house prop))))
         (snd (RuleEngine.use_house (rules g)))).
Proof.
  intros HI Hg Hd Hh Hhot Hbank.
  pose proof (buildings_ok_get _ _ _ (inv_buildings _ HI) Hg) as Hok.
  pose proof (keeps_building_build_house _ Hok) as Hok'. cbv beta in Hok'.
  assert (Property.build_house prop
          = (true, Property.set_houses prop (Property.houses prop + 1))) as E.
  { unfold Property.build_house. rewrite Hd, Hhot.
    destruct (Z.leb_spec 4 (Property.houses prop)); [lia | reflexivity]. }
  assert (RuleEngine.use_house (rules g)
          = (true, RuleEngine.mk (RuleEngine.houses_available (rules g) - 1)
                                 (RuleEngine.hotels_available (rules g)))) as E'.
  { unfold RuleEngine.use_house.
    destruct (Z.ltb_spec 0 (RuleEngine.houses_available (rules g))); [reflexivity | lia]. }
  rewrite E, E' in *. cbn [snd] in *.
  pose proof (inv_hotel_bank _ HI) as Hbank'.
  apply Inv_move_buildings with (p := prop); try assumption;
    [reflexivity | cbn; lia | reflexivity].
Qed.

Lemma Inv_build_hotel g pos prop :
  Inv g -> Board.get_property (board g) pos = Some prop ->
  Property.can_be_developed prop = true ->
  Property.houses prop = 4 -> Property.has_hotel prop = false ->
  0 < RuleEngine.hotels_available (rules g) ->
  Inv (set_rules (set_board g (Board.set_property (board g) pos
                                 (snd (Property.build_hotel prop))))
         (snd (RuleEngine.use_hotel (rules g)))).
Proof.
  intros HI Hg Hd Hh Hhot Hbank.
  pose proof (buildings_ok_get _ _ _ (inv_buildings _ HI) Hg) as Hok.
  pose proof (keeps_building_build_hotel _ Hok) as Hok'. cbv beta in Hok'.
  assert (Property.build_hotel prop
          = (true, Property.set_has_hotel (Property.set_houses prop 0) true)) as E.
  { unfold Property.build_hotel. rewrite Hd, Hhot, Hh. reflexivity. }
  assert (RuleEngine.use_hotel (rules g)
          = (true, RuleEngine.mk (RuleEngine.houses_available (rules g) + 4)
                                 (RuleEngine.hotels_available (rules g) - 1))) as E'.
  { unfold RuleEngine.use_hotel.
    destruct (Z.ltb_spec 0 (RuleEngine.hotels_available (rules g))); [reflexivity | lia]. }
  rewrite E, E' in *. cbn [snd] in *.
  apply Inv_move_buildings with (p := prop); try assumption;
    [reflexivity | cbn; lia | cbn; rewrite Hhot; lia | cbn; lia].
Qed.

(** Non-negative static amounts. *)
Lemma layout_cost_nonneg b p : board_layout b -> In p b -> 0 <= Property.cost p.
Proof.
  intros Hl Hp. pose proof (layout_static_check b p Hl Hp) as C.
  unfold static_check, static_part in C. split_andb.
  match goal with H : (0 <=? Property.cost p) = true |- _ => now apply Z.leb_le in H end.
Qed.

Lemma layout_house_cost_nonneg b p c :
  board_layout b -> In p b -> Property.house_cost p = Some c -> 0 <= c.
Proof.
  intros Hl Hp Hc. pose proof (layout_static_check b p Hl Hp) as C.
  unfold static_check, static_part in C. rewrite Hc in C. split_andb.
  match goal with H : (0 <=? c) = true |- _ => now apply Z.leb_le in H end.
Qed.

Lemma layout_rents_nonneg b p l r :
  board_layout b -> In p b -> Property.rents p = Some l -> In r l -> 0 <= r.
Proof.
  intros Hl Hp Hr Hin. pose proof (layout_static_check b p Hl Hp) as C.
  unfold static_check, static_part in C. rewrite Hr in C. split_andb.
  match goal with H : forallb _ l = true |- _ =>
    rewrite forallb_forall in H; apply Z.leb_le; now apply H end.
Qed.

Lemma py_index_In {A} (l : list A) i x : py_index l i = Some x -> In x l.
Proof.
  unfold py_index.
  destruct ((0 <=? i) && (i <? Z.of_nat (List.length l))).
  - apply nth_error_In.
  - destruct ((- Z.of_nat (List.length l) <=? i) && (i <? 0)); [apply nth_error_In | discriminate].
Qed.

Lemma rents_at_nonneg b p i r :
  board_layout b -> In p b -> rents_at (Property.rents p) i = Some r -> 0 <= r.
Proof.
  intros Hl Hp. unfold rents_at.
  destruct (Property.rents p) as [l|] eqn:Hr; [|discriminate].
  intros H. apply py_index_In in H. eapply layout_rents_nonneg; eauto.
Qed.

Lemma calculate_rent_nonneg b pos dice lp r :
  board_layout b -> 0 <= dice -> Board.calculate_rent b pos dice lp = Some r -> 0 <= r.
Proof.
  intros Hl Hd. unfold Board.calculate_rent.
  destruct (Board.get_property b pos) as [p|] eqn:Hg; [|intros [= <-]; lia].
  apply get_property_In in Hg. destruct Hg as [Hp _].
  destruct (Property.owner_id p) as [o|]; [|intros [= <-]; lia].
  destruct (opt_str_eqb (Some o) lp); [intros [= <-]; lia|].
  unfold Property.calculate_rent.
  destruct (Property.is_mortgaged p || negb (Property.is_owned p)); [intros [= <-]; lia|].
  destruct (Property.space_type p); try (intros [= <-]; lia).
  - destruct (Property.has_hotel p); [apply (rents_at_nonneg b p); assumption|].
    destruct (0 <? Property.houses p); [apply (rents_at_nonneg b p); assumption|].
    destruct (Board.player_has_monopoly b o (Property.group p));
      [|apply (rents_at_nonneg b p); assumption].
    destruct (rents_at (Property.rents p) 0) as [x|] eqn:Hx; [|discriminate].
    simpl. intros [= <-]. pose proof (rents_at_nonneg b p 0 x Hl Hp Hx). lia.
  - destruct ((1 <=? Board.count_group_owned b o (Property.group p))
              && (Board.count_group_owned b o (Property.group p) <=? 4));
      apply (rents_at_nonneg b p); assumption.
  - intros [= <-]. unfold UTILITY_MULTIPLIERS_get.
    destruct (_ =? 1); [lia|]. destruct (_ =? 2); lia.
Qed.

(** Shuffling keeps a property that holds of every card. *)
Lemma forallb_list_set {A} (f : A -> bool) l n x :
  forallb f l = true -> f x = true -> forallb f (list_set l n x) = true.
Proof.
  revert n. induction l as [|a l IH]; intros [|n] Hl Hx; simpl in *; auto;
    apply andb_prop in Hl; destruct Hl as [H1 H2].
  - now rewrite Hx, H2.
  - now rewrite H1, IH.
Qed.

Lemma forallb_nth_error {A} (f : A -> bool) l n x :
  forallb f l = true -> nth_error l n = Some x -> f x = true.
Proof.
  intros Hl Hn. rewrite forallb_forall in Hl. apply Hl. eapply nth_error_In; eauto.
Qed.

Lemma forallb_swap {A} (f : A -> bool) l i j :
  forallb f l = true -> forallb f (swap l i j) = true.
Proof.
  intros Hl. unfold swap.
  destruct (nth_error l i) as [a|] eqn:Hi; [|assumption].
  destruct (nth_error l j) as [b|] eqn:Hj; [|assumption].
  apply forallb_list_set; [apply forallb_list_set|]; eauto using forallb_nth_error.
Qed.

Lemma forallb_shuffle_from {A} (f : A -> bool) i picks l :
  forallb f l = true -> forallb f (shuffle_from i picks l) = true.
Proof.
  revert picks l. induction i as [|i IH]; intros picks l Hl; simpl; [assumption|].
  apply IH. now apply forallb_swap.
Qed.

Lemma forallb_shuffle {A} (f : A -> bool) picks l :
  forallb f l = true -> forallb f (shuffle picks l) = true.
Proof. apply forallb_shuffle_from. Qed.

Lemma forallb_app_single {A} (f : A -> bool) l x :
  forallb f l = true -> f x = true -> forallb f (l ++ [x]) = true.
Proof. intros Hl Hx. rewrite forallb_app, Hl. simpl. now rewrite Hx. Qed.

Lemma deck_draw_ok picks d c d' :
  deck_ok d = true -> CardDeck.draw picks d = (c, d') ->
  deck_ok d' = true /\ match c with Some card => card_ok card = true | None => True end.
Proof.
  unfold deck_ok, CardDeck.draw. intros Hd.
  apply andb_prop in Hd. destruct Hd as [Hc Hdis].
  set (d1 := match CardDeck.cards d with
             | [] => CardDeck.mk (CardDeck.card_type d) (shuffle picks (CardDeck.discard d))
                       [] (CardDeck._initialized d)
             | _ => d
             end).
  assert (forallb card_ok (CardDeck.cards d1) = true
          /\ forallb card_ok (CardDeck.discard d1) = true) as [H1 H2].
  { subst d1. destruct (CardDeck.cards d) eqn:E0; simpl.
    - split; [now apply forallb_shuffle | reflexivity].
    - rewrite E0. now split. }
  destruct (CardDeck.cards d1) as [|card rest] eqn:E.
  - intros [= <- <-]. rewrite E. simpl. now rewrite H2.
  - simpl in H1. apply andb_prop in H1. destruct H1 as [Hcard Hrest].
    destruct (negb (Card.keep card)); intros [= <- <-]; simpl; rewrite Hrest; simpl; split;
      auto using forallb_app_single.
Qed.

Lemma table_cards_ok :
  forallb card_ok CHANCE_CARDS = true /\ forallb card_ok COMMUNITY_CHEST_CARDS = true.
Proof. split; reflexivity. Qed.

Lemma deck_reset_ok picks d : deck_ok (CardDeck.reset picks d) = true.
Proof.
  unfold deck_ok, CardDeck.reset. simpl. rewrite andb_true_r.
  apply forallb_shuffle. destruct (CardDeck.card_type d); apply table_cards_ok.
Qed.

Lemma cards_new_ok pc pcc : cards_ok (CardManager.new pc pcc) = true.
Proof.
  unfold cards_ok, CardManager.new, CardDeck.new. simpl.
  now rewrite !deck_reset_ok.
Qed.

Lemma return_jail_card_ok m ct : cards_ok m = true -> cards_ok (CardManager.return_jail_card m ct) = true.
Proof.
  unfold cards_ok. intros H. apply andb_prop in H. destruct H as [H1 H2].
  destruct ct; simpl; unfold deck_ok, CardDeck.return_card in *; simpl;
    apply andb_prop in H1; destruct H1 as [A1 A2];
    apply andb_prop in H2; destruct H2 as [B1 B2];
    rewrite ?A1, ?A2, ?B1, ?B2, ?forallb_app; simpl;
    rewrite ?A2, ?B2; reflexivity.
Qed.

Ltac keeps_tac :=
  first
    [ apply keeps_remove
    | apply keeps_move_to
    | apply keeps_move_forward
    | apply keeps_same; intros; reflexivity
    | apply keeps_same; intros; unfold Player.reset_turn; cbv zeta;
      match goal with |- context [if ?c then _ else _] => destruct c end; reflexivity
    | match goal with
      | |- keeps_money (fun q => _ (snd (Player.remove_money q ?a))) =>
          let p := fresh "p" in let Hp := fresh "Hp" in
          intros p Hp; exact (keeps_remove a p Hp)
      end
    | apply keeps_add ].

Ltac props_tac :=
  first
    [ apply keeps_props_add_property
    | apply keeps_props_remove_property
    | apply keeps_props_bankrupt
    | apply keeps_props_same; intros;
      unfold Player.remove_money, Player.move_forward, Player.move_to, Player.reset_turn;
      cbv zeta;
      repeat match goal with |- context [if ?c then _ else _] => destruct c end;
      reflexivity ].

Ltac count_tac :=
  let p := fresh "p" in
  intros p; unfold Property.unmortgage;
  repeat match goal with |- context [if ?c then _ else _] => destruct c end;
  split; reflexivity.

Ltac static_tac :=
  let p := fresh "p" in
  intros p;
  first
    [ reflexivity
    | unfold Property.build_house, Property.build_hotel, Property.unmortgage;
      repeat match goal with |- context [if ?c then _ else _] => destruct c end;
      reflexivity ].

Ltac inv_auto :=
  repeat first
    [ assumption
    | exact I
    | apply Inv_log_event
    | apply Inv_set_phase
    | apply Inv_set_turn_number
    | apply Inv_set_current_player_index
    | apply Inv_set_last_dice_roll
    | apply Inv_set_winner_id
    | apply Inv_set_player_order
    | apply Inv_update_player; [keeps_tac | props_tac |]
    | apply Inv_update_property; [static_tac | count_tac |]
    | match goal with
      | |- Inv (match ?x with _ => _ end) => let E := fresh "E" in destruct x eqn:E
      end ].

Ltac inv_destruct :=
  repeat match goal with
         | |- InvR (match ?x with _ => _ end) => let E := fresh "E" in destruct x eqn:E
         | |- InvR (bind _ _) => apply InvR_bind; [| intros ? ? ?]
         | |- Inv (match ?x with _ => _ end) => let E := fresh "E" in destruct x eqn:E
         end.

Ltac inv_go := cbv beta zeta; inv_destruct; cbn [InvR]; inv_destruct; inv_auto.

Lemma property_landing_Inv player d g :
  0 <= DiceResult.total d -> Inv g -> InvR (_handle_property_landing player d g).
Proof.
  intros Hd HI. unfold _handle_property_landing. inv_go.
  all: try (eapply calculate_rent_nonneg; [| eassumption | eassumption]; now destruct HI).
Qed.

(** [collect_from] and [pay_each] keep every balance non-negative. *)
Lemma collect_from_ok value drawer ps :
  0 <= value -> money_ok ps = true ->
  money_ok (fst (collect_from value drawer ps)) = true
  /\ 0 <= snd (collect_from value drawer ps).
Proof.
  intros Hv. unfold money_ok. induction ps as [|[k p] r IH]; simpl; intros H; [split; [reflexivity|lia]|].
  apply andb_prop in H. destruct H as [H1 H2]. specialize (IH H2).
  destruct (collect_from value drawer r) as [r' total]. simpl in IH. destruct IH as [IH1 IH2].
  apply Z.leb_le in H1.
  destruct (not_bankrupt p && negb (String.eqb (Player.id p) drawer)); simpl.
  - split; [|lia]. rewrite IH1, andb_true_r. apply Z.leb_le.
    apply keeps_remove. assumption.
  - split; [|assumption]. rewrite IH1, andb_true_r. now apply Z.leb_le.
Qed.

Lemma pay_each_ok value drawer ps :
  0 <= value -> money_ok ps = true -> money_ok (pay_each value drawer ps) = true.
Proof.
  intros Hv. unfold money_ok, pay_each. induction ps as [|[k p] r IH]; simpl; intros H; [reflexivity|].
  apply andb_prop in H. destruct H as [H1 H2]. rewrite (IH H2), andb_true_r.
  apply Z.leb_le in H1. apply Z.leb_le.
  destruct (not_bankrupt p && negb (String.eqb (Player.id p) drawer)); simpl; lia.
Qed.

Lemma forallb_of_map {A B} (f : B -> bool) (h : A -> B) l :
  forallb f (map h l) = forallb (fun x => f (h x)) l.
Proof. induction l as [|a l IH]; simpl; [reflexivity | now rewrite IH]. Qed.

Lemma players_wf_same ps ps' :
  map (fun kp => (fst kp, Player.properties (snd kp))) ps'
  = map (fun kp => (fst kp, Player.properties (snd kp))) ps ->
  players_wf ps' = players_wf ps.
Proof.
  intros H. unfold players_wf. f_equal.
  - f_equal. apply (f_equal (map fst)) in H. rewrite !map_map in H. exact H.
  - apply (f_equal (forallb (fun kl => distinct_Z (snd kl)))) in H.
    rewrite !forallb_of_map in H. exact H.
Qed.

Lemma collect_from_wf value drawer ps :
  players_wf (fst (collect_from value drawer ps)) = players_wf ps.
Proof.
  apply players_wf_same.
  induction ps as [|[k p] r IH]; simpl; [reflexivity|].
  destruct (collect_from value drawer r) as [r' total]. simpl in IH.
  destruct (not_bankrupt p && negb (String.eqb (Player.id p) drawer)); simpl.
  - rewrite IH. f_equal. f_equal. unfold Player.remove_money.
    destruct (_ <=? _); reflexivity.
  - now rewrite IH.
Qed.

Lemma pay_each_wf value drawer ps : players_wf (pay_each value drawer ps) = players_wf ps.
Proof.
  apply players_wf_same. unfold pay_each. rewrite map_map. apply map_ext.
  intros [k p]. simpl.
  destruct (not_bankrupt p && negb (String.eqb (Player.id p) drawer)); reflexivity.
Qed.

Lemma execute_card_Inv landing player card d g :
  (forall g', Inv g' -> InvR (landing g')) ->
  card_ok card = true -> Inv g -> InvR (_execute_card landing player card d g).
Proof.
  intros Hland Hc HI. unfold _execute_card. unfold card_ok in Hc.
  destruct (Card.action card) eqn:Ha; try apply Z.leb_le in Hc.
  - inv_go.
  - inv_go.
  - pose proof (collect_from_ok (Card.value card) (Player.id (the_player g player))
                  (players g) Hc (inv_money g HI)) as [H1 H2].
    pose proof (collect_from_wf (Card.value card) (Player.id (the_player g player))
                  (players g)) as H3.
    rewrite (inv_players g HI) in H3.
    destruct (collect_from _ _ _) as [ps total]. simpl in H1, H2, H3.
    cbv beta zeta. cbn [InvR]. inv_auto. now apply Inv_set_players.
  - inv_go.
    assert (Inv (update_player g player
                   (fun q => snd (Player.remove_money q
                      (Card.value card * (Z.of_nat (List.length (active_players g)) - 1))))))
      as HI' by inv_auto.
    apply Inv_set_players.
    + apply pay_each_ok; [assumption | apply (inv_money _ HI')].
    + rewrite pay_each_wf. apply (inv_players _ HI').
    + inv_auto.
  - apply Hland. inv_auto.
  - inv_go.
  - apply Hland. inv_auto.
  - inv_go.
  - inv_go.
  - inv_go.
Qed.

Lemma handle_card_Inv landing picks player ct d g :
  (forall g', Inv g' -> InvR (landing g')) ->
  Inv g -> InvR (_handle_card landing picks player ct d g).
Proof.
  intros Hland HI. unfold _handle_card.
  pose proof (inv_cards g HI) as Hc. unfold cards_ok in Hc.
  apply andb_prop in Hc. destruct Hc as [Hc1 Hc2].
  destruct ct; unfold CardManager.draw_chance, CardManager.draw_community_chest.
  - destruct (CardDeck.draw picks (CardManager.chance (cards g))) as [c d'] eqn:E.
    destruct (deck_draw_ok _ _ _ _ Hc1 E) as [Hd' Hcard].
    assert (Inv (set_cards g (CardManager.mk d' (CardManager.community_chest (cards g))))) as HI1.
    { apply Inv_set_cards; [|assumption]. unfold cards_ok. simpl. now rewrite Hd', Hc2. }
    destruct c as [card|]; [|exact HI1].
    apply execute_card_Inv; [assumption | assumption |]. now apply Inv_log_event.
  - destruct (CardDeck.draw picks (CardManager.community_chest (cards g))) as [c d'] eqn:E.
    destruct (deck_draw_ok _ _ _ _ Hc2 E) as [Hd' Hcard].
    assert (Inv (set_cards g (CardManager.mk (CardManager.chance (cards g)) d'))) as HI1.
    { apply Inv_set_cards; [|assumption]. unfold cards_ok. simpl. now rewrite Hd', Hc1. }
    destruct c as [card|]; [|exact HI1].
    apply execute_card_Inv; [assumption | assumption |]. now apply Inv_log_event.
Qed.

Lemma handle_landing_Inv depth : forall picks player d g,
  0 <= DiceResult.total d -> Inv g -> InvR (_handle_landing depth picks player d g).
Proof.
  induction depth as [|depth IH]; intros picks player d g Hd HI; simpl; [assumption|].
  destruct (Board.get_space (Player.position (the_player g player))) as [space|];
    [|assumption].
  destruct (sp_type space);
    try (now apply property_landing_Inv);
    try (apply handle_card_Inv; [intros; now apply IH | assumption]);
    inv_go.
Qed.

Lemma move_player_Inv picks player spaces d g :
  0 <= DiceResult.total d -> Inv g -> InvR (_move_player picks player spaces d g).
Proof.
  intros Hd HI. unfold _move_player. cbv zeta.
  apply handle_landing_Inv; [assumption|].
  apply Inv_log_event.
  destruct (fst (Player.move_forward (the_player g player) spaces)); inv_auto.
Qed.

Lemma handle_jail_roll_Inv picks player d g :
  0 <= DiceResult.total d -> Inv g -> InvR (_handle_jail_roll picks player d g).
Proof.
  intros Hd HI. unfold _handle_jail_roll. cbv zeta.
  destruct (DiceResult.is_double d).
  - apply move_player_Inv; [assumption|]. inv_auto.
  - destruct (MAX_JAIL_TURNS <=? Player.jail_turns (the_player g player)); [|inv_go].
    destruct (Player.can_afford (the_player g player) JAIL_BAIL); [|inv_go].
    apply move_player_Inv; [assumption|]. inv_auto.
Qed.

Lemma roll_dice_Inv d picks pid g :
  0 <= DiceResult.total d -> Inv g -> InvR (roll_dice d picks pid g).
Proof.
  intros Hd HI. unfold roll_dice.
  destruct (dict_get (players g) pid) as [player|]; [|assumption].
  destruct (current_player_id g) as [current|]; [|assumption].
  destruct (negb (ValidationResult.valid _)); [assumption|]. cbv zeta.
  destruct (PlayerState.eqb (Player.state player) PlayerState.IN_JAIL).
  - apply handle_jail_roll_Inv; [assumption|]. inv_auto.
  - destruct (DiceResult.is_double d).
    + match goal with |- InvR (if ?c then _ else _) => destruct c end.
      * cbn [InvR]. inv_auto.
      * apply move_player_Inv; [assumption|]. inv_auto.
    + apply move_player_Inv; [assumption|]. inv_auto.
Qed.

Lemma advance_loop_Inv fuel : forall start g, Inv g -> InvR (advance_loop fuel start g).
Proof.
  induction fuel as [|fuel IH]; intros start g HI; simpl; [exact I|].
  inv_go; apply IH; inv_auto.
Qed.

Lemma advance_turn_Inv g : Inv g -> InvR (_advance_turn g).
Proof.
  intros HI. unfold _advance_turn.
  destruct (player_order g); [assumption|].
  apply InvR_bind; [now apply advance_loop_Inv|].
  intros _ g1 H1. inv_go.
Qed.

Lemma add_player_Inv uuid name pid g : Inv g -> InvR (add_player uuid name pid g).
Proof.
  intros HI. unfold add_player. inv_go.
  apply Inv_set_players; [| |assumption].
  - apply money_ok_dict_set; [apply (inv_money _ HI)|].
    destruct pid as [pid|]; [destruct (String.eqb pid "")|]; simpl; unfold STARTING_MONEY; lia.
  - apply players_wf_dict_set; [apply (inv_players _ HI)|].
    destruct pid as [pid|]; [destruct (String.eqb pid "")|]; reflexivity.
Qed.

Lemma sell_hotel_static p : static_part (snd (Property.sell_hotel p)) = static_part p.
Proof. unfold Property.sell_hotel. destruct (negb (Property.has_hotel p)); reflexivity. Qed.

Lemma sell_house_static p : static_part (snd (Property.sell_house p)) = static_part p.
Proof. unfold Property.sell_house. destruct (Property.houses p <=? 0); reflexivity. Qed.

Lemma mortgage_static p : static_part (snd (Property.mortgage p)) = static_part p.
Proof.
  unfold Property.mortgage.
  destruct (Property.is_mortgaged p || (0 <? Property.houses p) || Property.has_hotel p);
    reflexivity.
Qed.

Lemma liquidate_hotel_Inv pos g : Inv g -> InvR (liquidate_hotel pos g).
Proof.
  intros HI. unfold liquidate_hotel.
  destruct (Board.get_property (board g) pos) as [prop|] eqn:Hg; [|assumption].
  destruct (Property.has_hotel prop) eqn:Hh; [|assumption].
  pose proof (Inv_sell_hotel g pos prop HI Hg Hh) as HI'.
  destruct (built_has_cost g pos prop HI Hg (or_intror Hh)) as [c Hc].
  unfold Property.sell_hotel, Property.half_house_cost in *.
  rewrite Hh, Hc in *. exact HI'.
Qed.

Lemma liquidate_houses_Inv n : forall pos g, Inv g -> InvR (liquidate_houses n pos g).
Proof.
  induction n as [|n IH]; intros pos g HI; simpl; [assumption|].
  destruct (Board.get_property (board g) pos) as [prop|] eqn:Hg; [|assumption].
  destruct (Z.ltb_spec 0 (Property.houses prop)) as [Hh|Hh]; [|assumption].
  pose proof (Inv_sell_house g pos prop HI Hg Hh) as HI'.
  destruct (built_has_cost g pos prop HI Hg (or_introl Hh)) as [c Hc].
  unfold Property.sell_house, Property.half_house_cost in *.
  destruct (Z.leb_spec (Property.houses prop) 0); [lia|].
  rewrite Hc in *. apply IH. exact HI'.
Qed.

Lemma return_to_bank_Inv pos g : Inv g -> InvR (return_to_bank pos g).
Proof.
  intros HI. unfold return_to_bank.
  destruct (Board.get_property (board g) pos); [|assumption].
  apply InvR_bind; [now apply liquidate_hotel_Inv|]. intros _ g1 H1.
  apply InvR_bind; [now apply liquidate_houses_Inv|]. intros _ g2 H2.
  cbn [InvR]. inv_auto.
Qed.

Lemma return_all_to_bank_Inv l : forall g, Inv g -> InvR (return_all_to_bank l g).
Proof.
  induction l as [|pos l IH]; intros g HI; simpl; [assumption|].
  apply InvR_bind; [now apply return_to_bank_Inv | intros; now apply IH].
Qed.

Lemma give_to_creditor_Inv c l : forall g, Inv g -> Inv (fold_left (give_to_creditor c) l g).
Proof.
  induction l as [|pos l IH]; intros g HI; simpl; [assumption|].
  apply IH. unfold give_to_creditor.
  destruct (Board.get_property (board g) pos); [|assumption].
  inv_auto.
Qed.

Lemma handle_bankruptcy_Inv player creditor g :
  Inv g -> InvR (_handle_bankruptcy player creditor g).
Proof.
  intros HI. unfold _handle_bankruptcy. cbv beta zeta.
  destruct creditor as [c|].
  - cbn [InvR]. inv_auto. apply give_to_creditor_Inv. inv_auto.
    now apply the_player_money.
  - apply InvR_bind; [now apply return_all_to_bank_Inv|].
    intros _ g1 H1. cbn [InvR]. inv_auto.
Qed.

Lemma remove_player_Inv pid g : Inv g -> InvR (remove_player pid g).
Proof.
  intros HI. unfold remove_player. cbv beta zeta.
  destruct (dict_get (players g) pid) as [player|]; [|assumption].
  assert (Inv (set_players g (dict_del (players g) pid))) as H1
    by (apply Inv_set_players;
          [apply money_ok_dict_del, (inv_money _ HI)
          | apply players_wf_dict_del, (inv_players _ HI) | assumption]).
  destruct (GamePhase.eqb (phase g) GamePhase.WAITING).
  - destruct (list_remove _ _); cbn [InvR]; inv_auto.
  - apply InvR_bind; [now apply handle_bankruptcy_Inv|].
    intros _ g1 Hg1. cbn [InvR]. inv_auto.
Qed.

Lemma start_game_Inv picks g : Inv g -> InvR (start_game picks g).
Proof. intros HI. unfold start_game. inv_go. Qed.

Lemma buy_property_Inv pid g : Inv g -> InvR (buy_property pid g).
Proof.
  intros HI. unfold buy_property. inv_go.
Qed.

Lemma decline_property_Inv pid g : Inv g -> InvR (decline_property pid g).
Proof. intros HI. unfold decline_property. inv_go. Qed.

Ltac refused_tac :=
  cbn [negb ValidationResult.valid ValidationResult.failure ValidationResult.success InvR];
  try assumption.

Lemma build_house_Inv pid pos g : Inv g -> InvR (build_house pid pos g).
Proof.
  intros HI. unfold build_house.
  destruct (dict_get (players g) pid) as [player|]; [|assumption].
  destruct (current_player_id g) as [cur|]; [|assumption].
  cbv zeta. unfold RuleEngine.validate_build_house.
  destruct (negb (String.eqb (Player.id player) cur)); [refused_tac|].
  destruct (Board.get_property (board g) pos) as [prop|] eqn:Eg; [|refused_tac].
  destruct (negb (Board.owned_by (Player.id player) prop)); [refused_tac|].
  destruct (SpaceType.eqb (Property.space_type prop) SpaceType.PROPERTY) eqn:Et;
    [|refused_tac].
  destruct (Property.is_mortgaged prop) eqn:Em; [refused_tac|].
  destruct (negb (Board.player_has_monopoly _ _ _)); [refused_tac|].
  destruct (existsb _ _); [refused_tac|].
  destruct (Property.has_hotel prop) eqn:Eh; [refused_tac|].
  destruct (Z.leb_spec MAX_HOUSES_PER_PROPERTY (Property.houses prop)) as [E4|E4];
    [refused_tac|].
  destruct (negb (Board.can_build_house _ _ _)); [refused_tac|].
  destruct (Z.leb_spec (RuleEngine.houses_available (rules g)) 0) as [Hb|Hb]; [refused_tac|].
  destruct (Property.house_cost prop) as [c|] eqn:Ec; [|refused_tac].
  destruct (negb (Player.can_afford player c)); refused_tac.
  apply Inv_log_event.
  set (g1 := update_player g pid _).
  assert (Inv g1) as H1 by (unfold g1; inv_auto).
  assert (Board.get_property (board g1) pos = Some prop) as Eg1
    by (unfold g1; now rewrite board_update_player).
  rewrite rules_update_property, (update_property_at g1 pos _ prop Eg1).
  apply Inv_build_house; try assumption.
  - unfold Property.can_be_developed. now rewrite Et, Em, Ec.
  - unfold g1. now rewrite rules_update_player.
Qed.

Lemma build_hotel_Inv pid pos g : Inv g -> InvR (build_hotel pid pos g).
Proof.
  intros HI. unfold build_hotel.
  destruct (dict_get (players g) pid) as [player|]; [|assumption].
  destruct (current_player_id g) as [cur|]; [|assumption].
  cbv zeta. unfold RuleEngine.validate_build_hotel.
  destruct (negb (String.eqb (Player.id player) cur)); [refused_tac|].
  destruct (Board.get_property (board g) pos) as [prop|] eqn:Eg; [|refused_tac].
  destruct (negb (Board.owned_by (Player.id player) prop)); [refused_tac|].
  destruct (SpaceType.eqb (Property.space_type prop) SpaceType.PROPERTY) eqn:Et;
    [|refused_tac].
  destruct (Property.is_mortgaged prop) eqn:Em; [refused_tac|].
  destruct (Property.has_hotel prop) eqn:Eh; [refused_tac|].
  destruct (Z.eqb_spec (Property.houses prop) MAX_HOUSES_PER_PROPERTY) as [E4|E4];
    [|refused_tac].
  destruct (negb (Board.can_build_hotel _ _ _)); [refused_tac|].
  destruct (Z.leb_spec (RuleEngine.hotels_available (rules g)) 0) as [Hb|Hb]; [refused_tac|].
  destruct (Property.house_cost prop) as [c|] eqn:Ec; [|refused_tac].
  destruct (negb (Player.can_afford player c)); refused_tac.
  apply Inv_log_event.
  set (g1 := update_player g pid _).
  assert (Inv g1) as H1 by (unfold g1; inv_auto).
  assert (Board.get_property (board g1) pos = Some prop) as Eg1
    by (unfold g1; now rewrite board_update_player).
  rewrite rules_update_property, (update_property_at g1 pos _ prop Eg1).
  apply Inv_build_hotel; try assumption.
  - unfold Property.can_be_developed. now rewrite Et, Em, Ec.
  - unfold g1. now rewrite rules_update_player.
Qed.

Lemma sell_building_Inv pid pos g : Inv g -> InvR (sell_building pid pos g).
Proof.
  intros HI. unfold sell_building.
  destruct (dict_get (players g) pid) as [player|]; [|assumption]. cbv beta zeta.
  unfold RuleEngine.validate_sell_house.
  destruct (Board.get_property (board g) pos) as [prop|] eqn:Hg; [|refused_tac].
  destruct (negb (Board.owned_by (Player.id player) prop)); [refused_tac|].
  destruct ((Property.houses prop <=? 0) && negb (Property.has_hotel prop)) eqn:Eb;
    [refused_tac|].
  match goal with |- InvR (if negb (ValidationResult.valid ?v) then _ else _) =>
    destruct (negb (ValidationResult.valid v)); [assumption|] end.
  assert (0 < Property.houses prop \/ Property.has_hotel prop = true) as Hbuilt.
  { destruct (Property.has_hotel prop); [now right|]. left.
    rewrite andb_true_r in Eb. apply Z.leb_gt in Eb. exact Eb. }
  destruct (built_has_cost g pos prop HI Hg Hbuilt) as [c Hc].
  assert (0 <= c / 2) as Hr.
  { pose proof Hg as Hg'. apply get_property_In in Hg'. destruct Hg' as [Hin _].
    pose proof (layout_house_cost_nonneg _ _ _ (inv_board _ HI) Hin Hc).
    apply Z.div_pos; lia. }
  destruct (Property.has_hotel prop) eqn:Hh.
  - pose proof (Inv_sell_hotel g pos prop HI Hg Hh) as HI'.
    unfold Property.sell_hotel, Property.half_house_cost in *.
    rewrite Hh, Hc in *. cbn [negb option_map snd] in *.
    cbn [InvR]. inv_auto.
  - destruct Hbuilt as [Hbuilt|]; [|discriminate].
    pose proof (Inv_sell_house g pos prop HI Hg Hbuilt) as HI'.
    unfold Property.sell_house, Property.half_house_cost in *.
    destruct (Z.leb_spec (Property.houses prop) 0); [lia|].
    rewrite Hc in *. cbn [option_map snd] in *.
    cbn [InvR]. inv_auto.
Qed.

Lemma mortgage_property_Inv pid pos g : Inv g -> InvR (mortgage_property pid pos g).
Proof.
  intros HI. unfold mortgage_property.
  destruct (dict_get (players g) pid) as [player|]; [|assumption]. cbv beta zeta.
  destruct (negb (ValidationResult.valid _)); [assumption|].
  destruct (Board.get_property (board g) pos) as [prop|] eqn:Hg; [|assumption].
  pose proof (mortgage_static prop) as Hs.
  assert (Property.houses (snd (Property.mortgage prop)) = Property.houses prop
          /\ Property.has_hotel (snd (Property.mortgage prop)) = Property.has_hotel prop)
    as [Hb Hb'].
  { unfold Property.mortgage. destruct (_ || _); split; reflexivity. }
  assert (0 <= fst (Property.mortgage prop)) as Hv.
  { pose proof Hg as Hg'. apply get_property_In in Hg'. destruct Hg' as [Hin _].
    pose proof (layout_cost_nonneg _ _ (inv_board _ HI) Hin).
    unfold Property.mortgage, Property.mortgage_value.
    destruct (_ || _); simpl; [lia | apply Z.div_pos; lia]. }
  destruct (Property.mortgage prop) as [v prop1]. simpl in Hs, Hv, Hb, Hb'.
  pose proof (Inv_set_property g pos prop prop1 Hg Hs Hb Hb' HI).
  cbn [InvR]. inv_auto.
Qed.

Lemma unmortgage_property_Inv pid pos g : Inv g -> InvR (unmortgage_property pid pos g).
Proof. intros HI. unfold unmortgage_property. inv_go. Qed.

Lemma pay_bail_Inv pid g : Inv g -> InvR (pay_bail pid g).
Proof. intros HI. unfold pay_bail. inv_go. Qed.

Lemma use_jail_card_Inv pid g : Inv g -> InvR (use_jail_card pid g).
Proof.
  intros HI. unfold use_jail_card. inv_go.
  apply Inv_set_cards; [|inv_auto].
  apply return_jail_card_ok. apply inv_cards. inv_auto.
Qed.

Lemma end_game_Inv g : Inv g -> Inv (_end_game g).
Proof. intros HI. unfold _end_game. cbv zeta. destruct (active_players _); inv_auto. Qed.

Lemma end_turn_Inv pid g : Inv g -> InvR (end_turn pid g).
Proof.
  intros HI. unfold end_turn.
  destruct (dict_get (players g) pid) as [player|]; [|assumption].
  destruct (current_player_id g) as [current|]; [|assumption]. cbv beta zeta.
  destruct (negb (ValidationResult.valid _)); [assumption|].
  match goal with |- InvR (if ?c then _ else _) => destruct c end; [cbn [InvR]; inv_auto|].
  destruct (is_game_over g); [now apply end_game_Inv|].
  apply InvR_bind; [now apply advance_turn_Inv|]. intros _ g1 H1. inv_go.
Qed.

Lemma declare_bankruptcy_Inv pid creditor g : Inv g -> InvR (declare_bankruptcy pid creditor g).
Proof.
  intros HI. unfold declare_bankruptcy.
  destruct (dict_get (players g) pid) as [player|]; [|assumption]. cbv beta zeta.
  apply InvR_bind; [now apply handle_bankruptcy_Inv|]. intros _ g1 H1.
  destruct (is_game_over g1); [now apply end_game_Inv|].
  destruct (current_player g1) as [[p|]|]; try assumption.
  destruct (String.eqb (Player.id p) pid); [|assumption].
  apply InvR_bind; [now apply advance_turn_Inv|]. intros; assumption.
Qed.

Lemma load_property_layout b e :
  map static_part (Board.load_property b e) = map static_part b.
Proof.
  destruct e as [pos pd]. unfold Board.load_property.
  destruct (Board.get_property b pos) as [prop|] eqn:Hg; [|reflexivity].
  now apply layout_set_property with (p := prop).
Qed.

Lemma board_from_dict_layout data : board_layout (Board.from_dict data).
Proof.
  unfold Board.from_dict, board_layout.
  assert (forall b, map static_part (fold_left Board.load_property data b)
                    = map static_part b) as H.
  { induction data as [|e data IH]; intros b; simpl; [reflexivity|].
    now rewrite IH, load_property_layout. }
  apply H.
Qed.

Lemma money_ok_load (ds : list (string * Player.Dict)) : forall ps,
  money_ok ps = true ->
  forallb (fun kd => 0 <=? Player.d_money (snd kd)) ds = true ->
  money_ok (fold_left (fun ps kd => dict_set ps (fst kd) (Player.from_dict (snd kd))) ds ps)
  = true.
Proof.
  induction ds as [|[k d] ds IH]; intros ps Hps Hds; simpl in *; [assumption|].
  apply andb_prop in Hds. destruct Hds as [H1 H2].
  apply IH; [|assumption]. apply money_ok_dict_set; [assumption|].
  simpl. now apply Z.leb_le.
Qed.

Lemma In_get_property b p :
  distinct_Z (map Property.position b) = true -> In p b ->
  Board.get_property b (Property.position p) = Some p.
Proof.
  unfold Board.get_property.
  induction b as [|x r IH]; simpl; intros Hd Hin; [contradiction|].
  apply andb_prop in Hd. destruct Hd as [H1 H2].
  destruct Hin as [->|Hin]; [now rewrite Z.eqb_refl|].
  destruct (Z.eqb_spec (Property.position x) (Property.position p)) as [E|E]; [|auto].
  exfalso. apply negb_true_iff in H1.
  assert (existsb (Z.eqb (Property.position x)) (map Property.position r) = true) as H.
  { apply existsb_exists. exists (Property.position p). split.
    - now apply in_map.
    - now apply Z.eqb_eq. }
  congruence.
Qed.

Lemma get_property_absent b pos :
  existsb (Z.eqb pos) (map Property.position b) = false -> Board.get_property b pos = None.
Proof.
  unfold Board.get_property. induction b as [|x r IH]; simpl; [reflexivity|].
  intros H. apply orb_false_iff in H. destruct H as [H1 H2].
  rewrite Z.eqb_sym, H1. now apply IH.
Qed.

(** Two boards with the same positions, all different, and the same property
    at every position are the same list. *)
Lemma boards_equal b1 : forall b2,
  map Property.position b1 = map Property.position b2 ->
  distinct_Z (map Property.position b1) = true ->
  (forall pos, Board.get_property b1 pos = Board.get_property b2 pos) ->
  b1 = b2.
Proof.
  induction b1 as [|x1 r1 IH]; intros [|x2 r2] Hpos Hd Hget; try discriminate; [reflexivity|].
  cbn [map] in Hpos. injection Hpos as Hp Hr.
  cbn [map distinct_Z] in Hd. apply andb_prop in Hd. destruct Hd as [Hx Hd].
  apply negb_true_iff in Hx.
  assert (x1 = x2) as ->.
  { specialize (Hget (Property.position x1)). unfold Board.get_property in Hget.
    cbn [find] in Hget. rewrite <- Hp, Z.eqb_refl in Hget. congruence. }
  f_equal. apply IH; [assumption | assumption|].
  intros pos. destruct (Z.eq_dec pos (Property.position x2)) as [->|Hne].
  - rewrite !get_property_absent; [reflexivity | now rewrite <- Hr | assumption].
  - specialize (Hget pos). unfold Board.get_property in *. cbn [find] in Hget.
    destruct (Z.eqb_spec (Property.position x2) pos); [congruence | exact Hget].
Qed.

(** A saved board loads as itself. *)
Lemma board_from_to_dict b : board_layout b -> Board.from_dict (Board.to_dict b) = b.
Proof.
  intros Hl.
  pose proof (board_from_dict_layout (Board.to_dict b)) as Hl'.
  apply boards_equal.
  - assert (forall c, map Property.position c
                      = map (fun s => fst (fst (fst (fst (fst (fst s))))))
                            (map static_part c)) as H
      by (intros c; rewrite map_map; reflexivity).
    rewrite (H b), (H (Board.from_dict _)). unfold board_layout in *. congruence.
  - now apply layout_positions_distinct.
  - intros pos. now apply board_round_trip.
Qed.

Lemma loaded_players_wf ps :
  players_wf ps = true ->
  players_wf (fold_left (fun a kd => dict_set a (fst kd) (Player.from_dict (snd kd)))
                (map (fun kp => (fst kp, Player.to_dict (snd kp))) ps) [])
  = true.
Proof.
  intros Hwf. pose proof Hwf as Hwf'.
  unfold players_wf in Hwf'. apply andb_prop in Hwf'. destruct Hwf' as [Hk Hs].
  rewrite players_fold_load; [|assumption | reflexivity]. cbn [app].
  rewrite <- Hwf. apply players_wf_same. rewrite map_map. cbn [fst snd].
  rewrite forallb_forall in Hs.
  apply map_ext_in. intros [k p] Hin. cbn [fst snd]. f_equal.
  rewrite reloaded_fields by exact (Hs _ Hin). reflexivity.
Qed.

Lemma save_load_Inv now pc pcc g g' :
  Inv g -> from_dict now pc pcc (to_dict g) = Some g' -> Inv g'.
Proof.
  intros HI. unfold from_dict.
  destruct (load_dice_roll _); [|discriminate]. intros [= <-].
  constructor; simpl.
  - apply (money_ok_load _ []); [reflexivity|].
    pose proof (inv_money _ HI) as Hm. unfold money_ok in Hm.
    rewrite forallb_forall in *. intros [k d] Hin.
    apply in_map_iff in Hin. destruct Hin as [[k' p] [[= <- <-] Hin]].
    exact (Hm _ Hin).
  - apply cards_new_ok.
  - apply board_from_dict_layout.
  - apply loaded_players_wf, (inv_players _ HI).
  - rewrite board_from_to_dict by apply (inv_board _ HI). apply (inv_buildings _ HI).
  - rewrite board_from_to_dict by apply (inv_board _ HI).
    pose proof (inv_houses _ HI) as H. destruct (rules g); exact H.
  - rewrite board_from_to_dict by apply (inv_board _ HI).
    pose proof (inv_hotels _ HI) as H. destruct (rules g); exact H.
  - pose proof (inv_hotel_bank _ HI) as H. destruct (rules g); exact H.
Qed.

Lemma new_Inv id name now maxp pc pcc : Inv (Game.new id name now maxp pc pcc).
Proof.
  constructor; simpl;
    [reflexivity | apply cards_new_ok | reflexivity | reflexivity | reflexivity
    | reflexivity | reflexivity | unfold TOTAL_HOTELS; lia].
Qed.

Lemma InvR_outcome {A} (r : Result A) g' : InvR r -> outcome r = Some g' -> Inv g'.
Proof. destruct r; simpl; intros H E; [injection E as <- | injection E as <- | discriminate]; assumption. Qed.

Lemma step_Inv op g g' : op_ok op = true -> Inv g -> step op g = Some g' -> Inv g'.
Proof.
  intros Hok HI. destruct op; simpl; try (apply InvR_outcome).
  - now apply add_player_Inv.
  - now apply remove_player_Inv.
  - now apply start_game_Inv.
  - apply roll_dice_Inv; [|assumption].
    simpl in Hok. unfold die_ok in Hok. split_andb.
    repeat match goal with H : (_ <=? _) = true |- _ => apply Z.leb_le in H end.
    unfold DiceResult.total. lia.
  - now apply buy_property_Inv.
  - now apply decline_property_Inv.
  - now apply build_house_Inv.
  - now apply build_hotel_Inv.
  - now apply sell_building_Inv.
  - now apply mortgage_property_Inv.
  - now apply unmortgage_property_Inv.
  - now apply pay_bail_Inv.
  - now apply use_jail_card_Inv.
  - now apply end_turn_Inv.
  - now apply declare_bankruptcy_Inv.
  - now apply save_load_Inv.
Qed.

Lemma reachable_Inv g : reachable g -> Inv g.
Proof.
  induction 1 as [| op g g' _ IH Hok Hstep]; [apply new_Inv | eapply step_Inv; eauto].
Qed.

(** Every reachable game has a board and a player dictionary in a regular
    state. *)
Lemma reachable_regular g :
  reachable g ->
  board_layout (board g)
  /\ buildings_ok (board g) = true
  /\ players_wf (players g) = true.
Proof.
  intros Hr. apply reachable_Inv in Hr.
  split; [apply (inv_board _ Hr)|].
  split; [apply (inv_buildings _ Hr) | apply (inv_players _ Hr)].
Qed.

(** In every reachable game the houses in the bank and on the board add up
    to [TOTAL_HOUSES], and the hotels to [TOTAL_HOTELS]. *)
Lemma reachable_conservation g :
  reachable g ->
  RuleEngine.houses_available (rules g) + houses_in_use (board g) = TOTAL_HOUSES
  /\ RuleEngine.hotels_available (rules g) + hotels_in_use (board g) = TOTAL_HOTELS.
Proof.
  intros Hr. apply reachable_Inv in Hr.
  split; [apply (inv_houses _ Hr) | apply (inv_hotels _ Hr)].
Qed.

(** The bank never runs a negative count of hotels, so the hotels on the
    board stay within the pool; the houses do exactly when the bank's count
    of houses is not negative. *)
Lemma reachable_pool g :
  reachable g ->
  hotels_in_use (board g) <= TOTAL_HOTELS
  /\ (houses_in_use (board g) <= TOTAL_HOUSES
      <-> 0 <= RuleEngine.houses_available (rules g)).
Proof.
  intros Hr. apply reachable_Inv in Hr.
  pose proof (inv_houses _ Hr). pose proof (inv_hotels _ Hr).
  pose proof (inv_hotel_bank _ Hr). lia.
Qed.

Lemma reachable_run ops : forall g g',
  reachable g -> forallb op_ok ops = true -> run ops g = Some g' -> reachable g'.
Proof.
  induction ops as [|op ops IH]; intros g g' Hr Hok Hrun; simpl in *.
  - now injection Hrun as <-.
  - apply andb_prop in Hok. destruct Hok as [H1 H2].
    destruct (step op g) as [g1|] eqn:E; [|discriminate].
    eapply IH; [eapply reach_step; eauto | assumption | assumption].
Qed.

Lemma cannot_afford p a : Player.money p < a -> Player.can_afford p a = false.
Proof. intros H. unfold Player.can_afford. apply Z.leb_gt. lia. Qed.

Lemma tax_blocks depth picks pid d g space amount :
  Board.get_space (Player.position (the_player g pid)) = Some space ->
  sp_type space = SpaceType.TAX -> sp_cost space = Some amount ->
  Player.money (the_player g pid) < amount ->
  blocked (_handle_landing (S depth) picks pid d g) g.
Proof.
  intros Hs Ht Hc Hm. simpl. rewrite Hs, Ht, Hc, (cannot_afford _ _ Hm).
  eexists _, _. split; [reflexivity|]. split; reflexivity.
Qed.

Lemma rent_blocks pid d g rent :
  Board.calculate_rent (board g) (Player.position (the_player g pid))
    (DiceResult.total d) (Some (Player.id (the_player g pid))) = Some rent ->
  rent <> 0 -> Player.money (the_player g pid) < rent ->
  blocked (_handle_property_landing pid d g) g.
Proof.
  intros Hr Hnz Hm. unfold _handle_property_landing. cbv zeta.
  unfold Board.calculate_rent in Hr |- *.
  destruct (Board.get_property (board g) (Player.position (the_player g pid))) as [prop|];
    [|injection Hr as <-; contradiction].
  unfold Property.is_owned, Board.owned_by.
  destruct (Property.owner_id prop) as [o|] eqn:Ho; [|injection Hr as <-; contradiction].
  simpl. simpl in Hr.
  destruct (String.eqb o (Player.id (the_player g pid))); [injection Hr as <-; contradiction|].
  rewrite Hr. apply Z.eqb_neq in Hnz. rewrite Hnz, (cannot_afford _ _ Hm).
  eexists _, _. split; [reflexivity|]. split; reflexivity.
Qed.

Lemma card_blocks landing pid card d g :
  (Card.action card = CardAction.PAY_MONEY
     /\ Player.money (the_player g pid) < Card.value card)
  \/ (Card.action card = CardAction.PAY_TO_PLAYERS
        /\ Player.money (the_player g pid)
           < Card.value card * (Z.of_nat (List.length (active_players g)) - 1))
  \/ (Card.action card = CardAction.REPAIRS
        /\ Player.money (the_player g pid)
           < repairs_cost (board g) card (Player.properties (the_player g pid))) ->
  blocked (_execute_card landing pid card d g) g.
Proof.
  unfold _execute_card. cbv zeta.
  intros [[Ha Hm] | [[Ha Hm] | [Ha Hm]]]; rewrite Ha, (cannot_afford _ _ Hm);
    eexists _, _; (split; [reflexivity|]); split; reflexivity.
Qed.

Lemma bail_blocks picks pid d g :
  DiceResult.is_double d = false ->
  MAX_JAIL_TURNS <= Player.jail_turns (the_player g pid) ->
  Player.money (the_player g pid) < JAIL_BAIL ->
  blocked (_handle_jail_roll picks pid d g) g.
Proof.
  intros Hd Hj Hm. unfold _handle_jail_roll. cbv zeta.
  apply Z.leb_le in Hj. rewrite Hd, Hj, (cannot_afford _ _ Hm).
  eexists _, _. split; [reflexivity|]. split; reflexivity.
Qed.

Ltac refuse_tac :=
  repeat match goal with
         | |- ValidationResult.valid (if ?c then _ else _) = false =>
             destruct c eqn:?; [try reflexivity | try reflexivity]
         | |- ValidationResult.valid (match ?x with _ => _ end) = false =>
             destruct x eqn:?; [try reflexivity | try reflexivity]
         end.

Lemma buy_refused pid g p prop :
  dict_get (players g) pid = Some p ->
  Board.get_property (board g) (Player.position p) = Some prop ->
  Player.money p < Property.cost prop ->
  refused (buy_property pid g) g.
Proof.
  intros Hp Hg Hm. unfold buy_property. rewrite Hp.
  destruct (current_player_id g) as [cur|]; [|right; eexists; reflexivity].
  assert (ValidationResult.valid
            (RuleEngine.validate_buy_property (board g) p (Player.position p) cur (phase g))
          = false) as Hv.
  { unfold RuleEngine.validate_buy_property. rewrite Hg, (cannot_afford _ _ Hm).
    refuse_tac. }
  rewrite Hv. left. eexists; reflexivity.
Qed.

Lemma build_house_refused pid pos g p prop c :
  dict_get (players g) pid = Some p ->
  Board.get_property (board g) pos = Some prop ->
  Property.house_cost prop = Some c -> Player.money p < c ->
  refused (build_house pid pos g) g.
Proof.
  intros Hp Hg Hc Hm. unfold build_house. rewrite Hp.
  destruct (current_player_id g) as [cur|]; [|right; eexists; reflexivity].
  assert (ValidationResult.valid
            (RuleEngine.validate_build_house (rules g) (board g) p pos cur) = false) as Hv.
  { unfold RuleEngine.validate_build_house. rewrite Hg, Hc, (cannot_afford _ _ Hm).
    refuse_tac. }
  rewrite Hv. left. eexists; reflexivity.
Qed.

Lemma build_hotel_refused pid pos g p prop c :
  dict_get (players g) pid = Some p ->
  Board.get_property (board g) pos = Some prop ->
  Property.house_cost prop = Some c -> Player.money p < c ->
  refused (build_hotel pid pos g) g.
Proof.
  intros Hp Hg Hc Hm. unfold build_hotel. rewrite Hp.
  destruct (current_player_id g) as [cur|]; [|right; eexists; reflexivity].
  assert (ValidationResult.valid
            (RuleEngine.validate_build_hotel (rules g) (board g) p pos cur) = false) as Hv.
  { unfold RuleEngine.validate_build_hotel. rewrite Hg, Hc, (cannot_afford _ _ Hm).
    refuse_tac. }
  rewrite Hv. left. eexists; reflexivity.
Qed.

Lemma unmortgage_refused pid pos g p prop :
  dict_get (players g) pid = Some p ->
  Board.get_property (board g) pos = Some prop ->
  Player.money p < Property.unmortgage_cost prop ->
  refused (unmortgage_property pid pos g) g.
Proof.
  intros Hp Hg Hm. unfold unmortgage_property. rewrite Hp.
  assert (ValidationResult.valid
            (RuleEngine.validate_unmortgage (board g) p pos) = false) as Hv.
  { unfold RuleEngine.validate_unmortgage. rewrite Hg, (cannot_afford _ _ Hm).
    refuse_tac. }
  rewrite Hv. left. eexists; reflexivity.
Qed.

Lemma pay_bail_refused pid g p :
  dict_get (players g) pid = Some p -> Player.money p < JAIL_BAIL ->
  refused (pay_bail pid g) g.
Proof.
  intros Hp Hm. unfold pay_bail. rewrite Hp.
  destruct (current_player_id g) as [cur|]; [|right; eexists; reflexivity].
  assert (ValidationResult.valid (RuleEngine.validate_pay_bail p cur) = false) as Hv.
  { unfold RuleEngine.validate_pay_bail. rewrite (cannot_afford _ _ Hm). refuse_tac. }
  rewrite Hv. left. eexists; reflexivity.
Qed.

Lemma money_ok_In ps k p : money_ok ps = true -> In (k, p) ps -> 0 <= Player.money p.
Proof.
  unfold money_ok. rewrite forallb_forall. intros H Hin.
  apply Z.leb_le. exact (H _ Hin).
Qed.

(** C4. In every reachable game state every player's cash is non-negative;
    [remove_money] never overdraws; a tax, rent, card payment or forced bail
    the player cannot afford leaves all balances as they were and blocks the
    phase in PAYING_RENT; and a purchase, building, unmortgage or bail the
    player cannot afford is refused with the game unchanged. *)
Theorem cash_never_negative :
  (forall g, reachable g ->
     forall k p, In (k, p) (players g) -> 0 <= Player.money p)
  /\ (forall p amount, Player.money p < amount -> Player.remove_money p amount = (false, p))
  /\ (forall p amount, 0 <= Player.money p ->
        0 <= Player.money (snd (Player.remove_money p amount)))
  /\ (forall depth picks pid d g space amount,
        Board.get_space (Player.position (the_player g pid)) = Some space ->
        sp_type space = SpaceType.TAX -> sp_cost space = Some amount ->
        Player.money (the_player g pid) < amount ->
        blocked (_handle_landing (S depth) picks pid d g) g)
  /\ (forall pid d g rent,
        Board.calculate_rent (board g) (Player.position (the_player g pid))
          (DiceResult.total d) (Some (Player.id (the_player g pid))) = Some rent ->
        rent <> 0 -> Player.money (the_player g pid) < rent ->
        blocked (_handle_property_landing pid d g) g)
  /\ (forall landing pid card d g,
        (Card.action card = CardAction.PAY_MONEY
           /\ Player.money (the_player g pid) < Card.value card)
        \/ (Card.action card = CardAction.PAY_TO_PLAYERS
              /\ Player.money (the_player g pid)
                 < Card.value card * (Z.of_nat (List.length (active_players g)) - 1))
        \/ (Card.action card = CardAction.REPAIRS
              /\ Player.money (the_player g pid)
                 < repairs_cost (board g) card (Player.properties (the_player g pid))) ->
        blocked (_execute_card landing pid card d g) g)
  /\ (forall picks pid d g,
        DiceResult.is_double d = false ->
        MAX_JAIL_TURNS <= Player.jail_turns (the_player g pid) ->
        Player.money (the_player g pid) < JAIL_BAIL ->
        blocked (_handle_jail_roll picks pid d g) g)
  /\ (forall pid g p prop,
        dict_get (players g) pid = Some p ->
        Board.get_property (board g) (Player.position p) = Some prop ->
        Player.money p < Property.cost prop ->
        refused (buy_property pid g) g)
  /\ (forall pid pos g p prop c,
        dict_get (players g) pid = Some p ->
        Board.get_property (board g) pos = Some prop ->
        Property.house_cost prop = Some c -> Player.money p < c ->
        refused (build_house pid pos g) g /\ refused (build_hotel pid pos g) g)
  /\ (forall pid pos g p prop,
        dict_get (players g) pid = Some p ->
        Board.get_property (board g) pos = Some prop ->
        Player.money p < Property.unmortgage_cost prop ->
        refused (unmortgage_property pid pos g) g)
  /\ (forall pid g p,
        dict_get (players g) pid = Some p -> Player.money p < JAIL_BAIL ->
        refused (pay_bail pid g) g).
Proof.
  repeat split.
  - intros g Hr k p Hin. apply reachable_Inv in Hr.
    eapply money_ok_In; [apply (inv_money _ Hr) | eassumption].
  - intros p amount H. unfold Player.remove_money.
    replace (amount <=? Player.money p) with false by (symmetry; apply Z.leb_gt; lia).
    reflexivity.
  - intros p amount. apply keeps_remove.
  - apply tax_blocks.
  - apply rent_blocks.
  - apply card_blocks.
  - apply bail_blocks.
  - apply buy_refused.
  - eapply build_house_refused; eauto.
  - eapply build_hotel_refused; eauto.
  - apply unmortgage_refused.
  - apply pay_bail_refused.
Qed.

(** * Failed validation leaves the game unchanged *)

Lemma never_fails_clean {A} (flag : A -> bool) r g : never_fails flag r -> fails_clean flag r g.
Proof. intros H a g' E F. rewrite (H a g' E) in F. discriminate. Qed.

Lemma never_fails_bind {A B} (flag : B -> bool) (r : Result A) k :
  (forall a g, never_fails flag (k a g)) -> never_fails flag (bind r k).
Proof. intros H. destruct r; simpl; [apply H | |]; intros a' g' E; discriminate. Qed.

Ltac nf_leaf :=
  let a := fresh "a" in let g' := fresh "g'" in let E := fresh "E" in
  intros a g' E; first [discriminate E | injection E as <- <-; reflexivity].

Ltac nf_go :=
  cbv beta zeta;
  repeat match goal with
         | |- never_fails _ (match ?x with _ => _ end) => destruct x
         | |- never_fails _ (bind _ _) => apply never_fails_bind; intros
         end;
  try nf_leaf.

Lemma property_landing_never_fails pid d g :
  never_fails roll_flag (_handle_property_landing pid d g).
Proof. unfold _handle_property_landing. nf_go. Qed.

Lemma execute_card_never_fails landing pid card d g :
  (forall g', never_fails roll_flag (landing g')) ->
  never_fails roll_flag (_execute_card landing pid card d g).
Proof. intros H. unfold _execute_card. nf_go; apply H. Qed.

Lemma handle_card_never_fails landing picks pid ct d g :
  (forall g', never_fails roll_flag (landing g')) ->
  never_fails roll_flag (_handle_card landing picks pid ct d g).
Proof.
  intros H. unfold _handle_card.
  destruct (match ct with
            | CardType.CHANCE => CardManager.draw_chance picks (cards g)
            | CardType.COMMUNITY_CHEST => CardManager.draw_community_chest picks (cards g)
            end) as [[card|] cards1]; cbv zeta.
  - now apply execute_card_never_fails.
  - nf_leaf.
Qed.

Lemma handle_landing_never_fails depth : forall picks pid d g,
  never_fails roll_flag (_handle_landing depth picks pid d g).
Proof.
  induction depth as [|depth IH]; intros picks pid d g; simpl; [nf_leaf|].
  destruct (Board.get_space _) as [space|]; [|nf_leaf].
  destruct (sp_type space);
    try apply property_landing_never_fails;
    try (apply handle_card_never_fails; intros; apply IH);
    nf_go.
Qed.

Lemma move_player_never_fails picks pid n d g :
  never_fails roll_flag (_move_player picks pid n d g).
Proof. unfold _move_player. cbv zeta. apply handle_landing_never_fails. Qed.

Lemma handle_jail_roll_never_fails picks pid d g :
  never_fails roll_flag (_handle_jail_roll picks pid d g).
Proof.
  unfold _handle_jail_roll. cbv zeta.
  repeat match goal with
         | |- never_fails _ (if ?c then _ else _) => destruct c
         end;
    try apply move_player_never_fails; nf_leaf.
Qed.

Ltac fc_leaf :=
  let a := fresh "a" in let g' := fresh "g'" in let E := fresh "E" in let F := fresh "F" in
  intros a g' E F;
  first [ discriminate E
        | injection E as <- <-; first [reflexivity | discriminate F] ].

Lemma roll_dice_fails_clean d picks pid g : fails_clean roll_flag (roll_dice d picks pid g) g.
Proof.
  unfold roll_dice.
  destruct (dict_get (players g) pid) as [player|]; [|fc_leaf].
  destruct (current_player_id g) as [cur|]; [|fc_leaf].
  destruct (negb (ValidationResult.valid _)); [fc_leaf|].
  apply never_fails_clean. cbv zeta.
  repeat match goal with
         | |- never_fails _ (if ?c then _ else _) => destruct c
         end;
    try apply handle_jail_roll_never_fails; try apply move_player_never_fails; nf_leaf.
Qed.

Ltac fc_go :=
  cbv beta zeta;
  repeat match goal with
         | |- fails_clean _ (match ?x with _ => _ end) _ => destruct x
         | |- fails_clean _ (bind _ _) _ =>
             apply never_fails_clean, never_fails_bind; intros; nf_go
         end;
  try fc_leaf.

Lemma buy_property_fails_clean pid g : fails_clean call_flag (buy_property pid g) g.
Proof. unfold buy_property. fc_go. Qed.
Lemma build_house_fails_clean pid pos g : fails_clean call_flag (build_house pid pos g) g.
Proof. unfold build_house. fc_go. Qed.
Lemma build_hotel_fails_clean pid pos g : fails_clean call_flag (build_hotel pid pos g) g.
Proof. unfold build_hotel. fc_go. Qed.
Lemma sell_building_fails_clean pid pos g : fails_clean call_flag (sell_building pid pos g) g.
Proof. unfold sell_building. fc_go. Qed.
Lemma mortgage_property_fails_clean pid pos g :
  fails_clean call_flag (mortgage_property pid pos g) g.
Proof. unfold mortgage_property. fc_go. Qed.
Lemma unmortgage_property_fails_clean pid pos g :
  fails_clean call_flag (unmortgage_property pid pos g) g.
Proof. unfold unmortgage_property. fc_go. Qed.
Lemma pay_bail_fails_clean pid g : fails_clean call_flag (pay_bail pid g) g.
Proof. unfold pay_bail. fc_go. Qed.
Lemma use_jail_card_fails_clean pid g : fails_clean call_flag (use_jail_card pid g) g.
Proof. unfold use_jail_card. fc_go. Qed.
Lemma end_turn_fails_clean pid g : fails_clean call_flag (end_turn pid g) g.
Proof. unfold end_turn. fc_go. Qed.

(** C8. For each of the ten gameplay operations and every state, a call that
    returns success=False leaves the whole game object unchanged. *)
Theorem failed_call_changes_nothing op g g' :
  gameplay_call op g = Some (false, g') -> g' = g.
Proof.
  destruct op; simpl; try discriminate.
  - destruct (roll_dice rolled picks player_id g) as [[[ok msg] v] g1| |] eqn:E;
      try discriminate.
    intros [= -> <-]. exact (roll_dice_fails_clean _ _ _ _ _ _ E eq_refl).
  - destruct (buy_property player_id g) as [[ok msg] g1| |] eqn:E; try discriminate.
    intros [= -> <-]. exact (buy_property_fails_clean _ _ _ _ E eq_refl).
  - destruct (build_house player_id position g) as [[ok msg] g1| |] eqn:E; try discriminate.
    intros [= -> <-]. exact (build_house_fails_clean _ _ _ _ _ E eq_refl).
  - destruct (build_hotel player_id position g) as [[ok msg] g1| |] eqn:E; try discriminate.
    intros [= -> <-]. exact (build_hotel_fails_clean _ _ _ _ _ E eq_refl).
  - destruct (sell_building player_id position g) as [[ok msg] g1| |] eqn:E; try discriminate.
    intros [= -> <-]. exact (sell_building_fails_clean _ _ _ _ _ E eq_refl).
  - destruct (mortgage_property player_id position g) as [[ok msg] g1| |] eqn:E;
      try discriminate.
    intros [= -> <-]. exact (mortgage_property_fails_clean _ _ _ _ _ E eq_refl).
  - destruct (unmortgage_property player_id position g) as [[ok msg] g1| |] eqn:E;
      try discriminate.
    intros [= -> <-]. exact (unmortgage_property_fails_clean _ _ _ _ _ E eq_refl).
  - destruct (pay_bail player_id g) as [[ok msg] g1| |] eqn:E; try discriminate.
    intros [= -> <-]. exact (pay_bail_fails_clean _ _ _ _ E eq_refl).
  - destruct (use_jail_card player_id g) as [[ok msg] g1| |] eqn:E; try discriminate.
    intros [= -> <-]. exact (use_jail_card_fails_clean _ _ _ _ E eq_refl).
  - destruct (end_turn player_id g) as [[ok msg] g1| |] eqn:E; try discriminate.
    intros [= -> <-]. exact (end_turn_fails_clean _ _ _ _ E eq_refl).
Qed.

(** * Bankruptcy *)

Lemma dict_get_set {V} (d : list (string * V)) k v k' :
  dict_get (dict_set d k v) k' = if String.eqb k k' then Some v else dict_get d k'.
Proof.
  induction d as [|[k0 v0] r IH]; simpl.
  - reflexivity.
  - destruct (String.eqb_spec k0 k) as [->|Hne]; simpl.
    + destruct (String.eqb k k'); reflexivity.
    + destruct (String.eqb_spec k0 k') as [->|Hne'].
      * destruct (String.eqb_spec k k'); [congruence | reflexivity].
      * exact IH.
Qed.

Lemma get_update_player g k f k' :
  dict_get (players (update_player g k f)) k'
  = if String.eqb k k' then option_map f (dict_get (players g) k)
    else dict_get (players g) k'.
Proof.
  unfold update_player.
  destruct (dict_get (players g) k) as [p|] eqn:E; simpl.
  - apply dict_get_set.
  - destruct (String.eqb_spec k k') as [<-|]; [assumption | reflexivity].
Qed.

Lemma the_player_update g k f k' :
  the_player (update_player g k f) k'
  = if String.eqb k k'
    then match dict_get (players g) k with Some p => f p | None => the_player g k' end
    else the_player g k'.
Proof.
  unfold the_player at 1. rewrite get_update_player.
  destruct (String.eqb_spec k k') as [<-|]; [|reflexivity].
  unfold the_player. destruct (dict_get (players g) k); reflexivity.
Qed.

Lemma get_update_property g pos f pos' :
  (forall p, Property.position (f p) = Property.position p) ->
  Board.get_property (board (update_property g pos f)) pos'
  = if pos' =? pos then option_map f (Board.get_property (board g) pos)
    else Board.get_property (board g) pos'.
Proof.
  intros Hf. unfold update_property.
  destruct (Board.get_property (board g) pos) as [p|] eqn:E; simpl.
  - rewrite get_set_property.
    + now rewrite E.
    + rewrite Hf. now apply get_property_In in E.
  - destruct (Z.eqb_spec pos' pos) as [->|]; [assumption | reflexivity].
Qed.

(** The creditor's side: one step of the loop over the positions. *)
Lemma give_one_spec c g a cr :
  dict_get (players g) c = Some cr ->
  let g1 := give_to_creditor c g a in
  rules g1 = rules g
  /\ (forall k, k <> c -> dict_get (players g1) k = dict_get (players g) k)
  /\ dict_get (players g1) c
     = Some (match Board.get_property (board g) a with
             | Some _ => Player.add_property cr a
             | None => cr
             end)
  /\ (forall pos,
        Board.get_property (board g1) pos
        = if pos =? a
          then option_map (fun p => Property.set_owner_id p (Some (Player.id cr)))
                          (Board.get_property (board g) pos)
          else Board.get_property (board g) pos).
Proof.
  intros Hc. cbv zeta. unfold give_to_creditor.
  destruct (Board.get_property (board g) a) as [prop|] eqn:Ha.
  - repeat split.
    + now rewrite rules_update_player, rules_update_property.
    + intros k Hk. rewrite get_update_player, players_update_property.
      destruct (String.eqb_spec c k); [congruence | reflexivity].
    + now rewrite get_update_player, String.eqb_refl, players_update_property, Hc.
    + intros pos. rewrite board_update_player, get_update_property by reflexivity.
      unfold the_player. rewrite Hc.
      destruct (Z.eqb_spec pos a) as [->|]; [now rewrite Ha | reflexivity].
  - repeat split; auto.
    intros pos. destruct (Z.eqb_spec pos a) as [->|]; [now rewrite Ha | reflexivity].
Qed.

Lemma mem_In x l : Player.mem x l = true <-> In x l.
Proof.
  unfold Player.mem. rewrite existsb_exists. split.
  - intros [y [Hy E]]. apply Z.eqb_eq in E. now subst.
  - intros H. exists x. split; [assumption | apply Z.eqb_refl].
Qed.

Lemma set_add_In s a x : In x (Player.set_add s a) <-> In x s \/ x = a.
Proof.
  unfold Player.set_add. destruct (Player.mem a s) eqn:E.
  - apply mem_In in E. split; [tauto | intros [H| ->]; assumption].
  - rewrite in_app_iff. simpl. intuition congruence.
Qed.

(** The whole loop. *)
Lemma give_all_spec c l : forall g cr,
  dict_get (players g) c = Some cr ->
  rules (fold_left (give_to_creditor c) l g) = rules g
  /\ (forall k, k <> c ->
        dict_get (players (fold_left (give_to_creditor c) l g)) k = dict_get (players g) k)
  /\ (exists props,
        dict_get (players (fold_left (give_to_creditor c) l g)) c
        = Some (Player.set_properties cr props)
        /\ forall x, In x props <->
                     In x (Player.properties cr)
                     \/ (In x l /\ Board.get_property (board g) x <> None))
  /\ (forall pos,
        Board.get_property (board (fold_left (give_to_creditor c) l g)) pos
        = if Player.mem pos l
          then option_map (fun p => Property.set_owner_id p (Some (Player.id cr)))
                          (Board.get_property (board g) pos)
          else Board.get_property (board g) pos).
Proof.
  induction l as [|a l IH]; intros g cr Hc.
  - cbn [fold_left]. repeat split; auto.
    exists (Player.properties cr). split.
    + rewrite Hc. destruct cr; reflexivity.
    + intros x. split; [now left | intros [H|[[] _]]; assumption].
  - change (fold_left (give_to_creditor c) (a :: l) g)
      with (fold_left (give_to_creditor c) l (give_to_creditor c g a)).
    destruct (give_one_spec c g a cr Hc) as (Hr1 & Ho1 & Hc1 & Hb1).
    remember (give_to_creditor c g a) as g1 eqn:Eg1. clear Eg1.
    destruct (IH g1 _ Hc1) as (Hr & Hother & (props & Hprops & Hin) & Hboard).
    assert (forall x, Board.get_property (board g1) x <> None
                      <-> Board.get_property (board g) x <> None) as Hne.
    { intros x. rewrite Hb1. destruct (x =? a); [|tauto].
      destruct (Board.get_property (board g) x); simpl; split; intros H; congruence. }
    repeat split.
    + congruence.
    + intros k Hk. now rewrite Hother, Ho1.
    + exists props. split.
      * rewrite Hprops. now destruct (Board.get_property (board g) a).
      * intros x. rewrite Hin, Hne. simpl.
        destruct (Board.get_property (board g) a) as [pa|] eqn:Ha.
        -- unfold Player.add_property. simpl. rewrite set_add_In.
           split; [intros [[H| ->]|[H H']]; auto; right; split; auto; congruence|].
           intros [H|[[<-|H] H']]; auto.
        -- split; [tauto|]. intros [H|[[<-|H] H']]; [tauto | contradiction | tauto].
    + intros pos. rewrite Hboard, Hb1.
      assert (Player.id (match Board.get_property (board g) a with
                         | Some _ => Player.add_property cr a
                         | None => cr
                         end) = Player.id cr) as ->
        by (destruct (Board.get_property (board g) a); reflexivity).
      cbn [Player.mem existsb]. fold (Player.mem pos l).
      destruct (Z.eqb_spec pos a) as [->|Hne'].
      * simpl. destruct (Player.mem a l); [|reflexivity].
        destruct (Board.get_property (board g) a); reflexivity.
      * simpl. reflexivity.
Qed.

Lemma set_property_same b pos p :
  Board.get_property b pos = Some p -> Board.set_property b pos p = b.
Proof.
  unfold Board.get_property. induction b as [|x r IH]; simpl; intros H; [reflexivity|].
  destruct (Property.position x =? pos); [now injection H as -> | now rewrite IH].
Qed.

Lemma set_set_property b pos q q' :
  Property.position q = pos ->
  Board.set_property (Board.set_property b pos q) pos q' = Board.set_property b pos q'.
Proof.
  intros Hq. induction b as [|x r IH]; simpl; [reflexivity|].
  destruct (Property.position x =? pos) eqn:E; simpl.
  - now rewrite Hq, Z.eqb_refl.
  - now rewrite E, IH.
Qed.

Lemma liquidate_houses_spec n : forall g pos prop,
  Board.get_property (board g) pos = Some prop ->
  Property.houses prop = Z.of_nat n ->
  (n <> O -> Property.house_cost prop <> None) ->
  exists g', liquidate_houses n pos g = Ret tt g'
    /\ players g' = players g
    /\ rules g' = RuleEngine.mk (RuleEngine.houses_available (rules g) + Z.of_nat n)
                                (RuleEngine.hotels_available (rules g))
    /\ board g' = Board.set_property (board g) pos (Property.set_houses prop 0).
Proof.
  induction n as [|n IH]; intros g pos prop Hg Hh Hc.
  - exists g. simpl. repeat split.
    + rewrite Z.add_0_r. now destruct (rules g).
    + assert (Property.set_houses prop 0 = prop) as ->
        by (destruct prop; simpl in *; now subst).
      symmetry. now apply set_property_same.
  - cbn [liquidate_houses]. rewrite Hg.
    replace (0 <? Property.houses prop) with true by (symmetry; apply Z.ltb_lt; lia).
    unfold Property.sell_house.
    replace (Property.houses prop <=? 0) with false by (symmetry; apply Z.leb_gt; lia).
    unfold Property.half_house_cost.
    destruct (Property.house_cost prop) as [c|] eqn:Ec; [|exfalso; now apply Hc].
    cbn [option_map].
    set (prop1 := Property.set_houses prop (Property.houses prop - 1)).
    set (g2 := set_rules _ _).
    assert (Board.get_property (board g2) pos = Some prop1) as Hg2.
    { subst g2. simpl. rewrite get_set_property.
      - now rewrite Z.eqb_refl, Hg.
      - subst prop1. simpl. now apply get_property_In in Hg. }
    destruct (IH g2 pos prop1 Hg2) as (g' & Hrun & Hp & Hr & Hb).
    { subst prop1. simpl. lia. }
    { intros _. subst prop1. simpl. congruence. }
    exists g'. repeat split; [exact Hrun | now rewrite Hp | |].
    + rewrite Hr. subst g2. simpl. f_equal. lia.
    + rewrite Hb. subst g2 prop1. simpl. apply set_set_property.
      simpl. now apply get_property_In in Hg.
Qed.

Lemma return_to_bank_spec g pos prop :
  board_layout (board g) -> buildings_ok (board g) = true ->
  Board.get_property (board g) pos = Some prop ->
  exists g', return_to_bank pos g = Ret tt g'
    /\ players g' = players g
    /\ rules g' = RuleEngine.mk
                    (RuleEngine.houses_available (rules g) + Property.houses prop)
                    (RuleEngine.hotels_available (rules g)
                     + (if Property.has_hotel prop then 1 else 0))
    /\ board g' = Board.set_property (board g) pos (cleared prop).
Proof.
  intros Hl Hb Hg.
  pose proof (buildings_ok_get _ _ _ Hb Hg) as Hok. unfold building_ok in Hok.
  split_andb.
  repeat match goal with H : (_ <=? _) = true |- _ => apply Z.leb_le in H end.
  pose proof Hg as Hin. apply get_property_In in Hin. destruct Hin as [Hin Hpos].
  unfold return_to_bank. rewrite Hg. unfold liquidate_hotel. rewrite Hg.
  destruct (Property.has_hotel prop) eqn:Hhotel.
  - (* a hotel, standing alone *)
    match goal with H : negb true || _ = true |- _ => simpl in H; apply Z.eqb_eq in H;
      rename H into Hzero end.
    match goal with H : negb (_ || true) || _ = true |- _ =>
      rewrite orb_true_r in H; simpl in H; rename H into Hty end.
    assert (Property.space_type prop = SpaceType.PROPERTY) as Hty'
      by (destruct (Property.space_type prop); simpl in Hty; congruence).
    pose proof (street_has_house_cost _ _ Hl Hin Hty') as Hcost.
    unfold Property.sell_hotel. rewrite Hhotel. cbn [negb].
    unfold Property.half_house_cost.
    destruct (Property.house_cost prop) as [c|] eqn:Ec; [|congruence].
    cbn [option_map bind].
    set (prop1 := Property.set_houses (Property.set_has_hotel prop false) 4).
    set (g1 := set_rules _ _).
    assert (Board.get_property (board g1) pos = Some prop1) as Hg1.
    { subst g1. simpl. rewrite get_set_property; [now rewrite Z.eqb_refl, Hg|].
      subst prop1. simpl. exact Hpos. }
    rewrite Hg1.
    destruct (liquidate_houses_spec 4 g1 pos prop1 Hg1) as (g2 & Hrun & Hp & Hr & Hb2).
    { reflexivity. }
    { intros _. subst prop1. simpl. congruence. }
    change (Z.to_nat (Property.houses prop1)) with 4%nat.
    rewrite Hrun. cbn [bind].
    eexists. split; [reflexivity|]. repeat split.
    + rewrite players_update_property, Hp. reflexivity.
    + rewrite rules_update_property, Hr. subst g1. simpl. f_equal; lia.
    + unfold update_property. rewrite Hb2.
      assert (Board.get_property (Board.set_property (board g1) pos (Property.set_houses prop1 0)) pos
              = Some (Property.set_houses prop1 0)) as ->.
      { rewrite get_set_property; [now rewrite Z.eqb_refl, Hg1|]. subst prop1. simpl. exact Hpos. }
      simpl. subst g1 prop1. simpl.
      rewrite set_set_property by (simpl; exact Hpos).
      rewrite set_set_property by (simpl; exact Hpos).
      reflexivity.
  - (* houses only *)
    cbn [bind]. rewrite Hg.
    assert (Z.to_nat (Property.houses prop) <> O -> Property.house_cost prop <> None) as Hcost.
    { intros Hn.
      match goal with H : negb (_ || false) || _ = true |- _ =>
        rewrite orb_false_r in H; rename H into Hty end.
      replace (0 <? Property.houses prop) with true in Hty by (symmetry; apply Z.ltb_lt; lia).
      simpl in Hty.
      assert (Property.space_type prop = SpaceType.PROPERTY) as Hty'
        by (destruct (Property.space_type prop); simpl in Hty; congruence).
      exact (street_has_house_cost _ _ Hl Hin Hty'). }
    destruct (liquidate_houses_spec (Z.to_nat (Property.houses prop)) g pos prop Hg)
      as (g2 & Hrun & Hp & Hr & Hb2); [lia | exact Hcost |].
    rewrite Hrun. cbn [bind].
    eexists. split; [reflexivity|]. repeat split.
    + rewrite players_update_property, Hp. reflexivity.
    + rewrite rules_update_property, Hr. f_equal; lia.
    + unfold update_property. rewrite Hb2.
      assert (Board.get_property (Board.set_property (board g) pos (Property.set_houses prop 0)) pos
              = Some (Property.set_houses prop 0)) as ->.
      { rewrite get_set_property; [now rewrite Z.eqb_refl, Hg|]. simpl. exact Hpos. }
      simpl. rewrite set_set_property by (simpl; exact Hpos).
      unfold cleared. destruct prop. simpl in *. subst. reflexivity.
Qed.

Lemma building_ok_cleared p : building_ok (cleared p) = true.
Proof. reflexivity. Qed.

Lemma return_all_spec l : forall g,
  board_layout (board g) -> buildings_ok (board g) = true ->
  exists g', return_all_to_bank l g = Ret tt g'
    /\ players g' = players g
    /\ (forall pos,
          Board.get_property (board g') pos
          = if Player.mem pos l then option_map cleared (Board.get_property (board g) pos)
            else Board.get_property (board g) pos)
    /\ RuleEngine.houses_available (rules g') + houses_in_use (board g')
       = RuleEngine.houses_available (rules g) + houses_in_use (board g)
    /\ RuleEngine.hotels_available (rules g') + hotels_in_use (board g')
       = RuleEngine.hotels_available (rules g) + hotels_in_use (board g).
Proof.
  induction l as [|a l IH]; intros g Hl Hb.
  - exists g. simpl. repeat split.
  - cbn [return_all_to_bank].
    destruct (Board.get_property (board g) a) as [prop|] eqn:Ha.
    + destruct (return_to_bank_spec g a prop Hl Hb Ha) as (g1 & Hrun & Hp1 & Hr1 & Hb1).
      rewrite Hrun. cbn [bind].
      pose proof Ha as Hpos. apply get_property_In in Hpos. destruct Hpos as [_ Hpos].
      assert (board_layout (board g1)) as Hl1.
      { unfold board_layout. rewrite Hb1.
        rewrite (layout_set_property _ _ prop); [exact Hl | exact Ha | reflexivity]. }
      assert (buildings_ok (board g1) = true) as Hok1
        by (rewrite Hb1; apply buildings_ok_set; [exact Hb | apply building_ok_cleared]).
      destruct (IH g1 Hl1 Hok1) as (g' & Hrun' & Hp & Hget & Hh & Ht).
      exists g'. split; [exact Hrun'|]. repeat split.
      * congruence.
      * intros pos. rewrite Hget, Hb1.
        rewrite get_set_property by exact Hpos. rewrite Ha.
        cbn [Player.mem existsb]. fold (Player.mem pos l).
        destruct (Z.eqb_spec pos a) as [->|Hne].
        -- rewrite Ha. simpl. now destruct (Player.mem a l).
        -- simpl. reflexivity.
      * rewrite Hh, Hr1, Hb1. simpl.
        rewrite (houses_in_use_set _ _ prop) by exact Ha. simpl. lia.
      * rewrite Ht, Hr1, Hb1. simpl.
        rewrite (hotels_in_use_set _ _ prop) by exact Ha. simpl. lia.
    + unfold return_to_bank. rewrite Ha. cbn [bind].
      destruct (IH g Hl Hb) as (g' & Hrun' & Hp & Hget & Hh & Ht).
      exists g'. split; [exact Hrun'|]. repeat split; try assumption.
      intros pos. rewrite Hget.
      cbn [Player.mem existsb]. fold (Player.mem pos l).
      destruct (Z.eqb_spec pos a) as [->|Hne]; [|reflexivity].
      rewrite Ha. simpl. now destruct (Player.mem a l).
Qed.

Lemma mem_false_iff x l : Player.mem x l = false <-> ~ In x l.
Proof.
  rewrite <- mem_In. destruct (Player.mem x l); split; intros; congruence.
Qed.

(** What [_handle_bankruptcy] hands over.  A bankruptcy with a creditor (a
    player of the game) credits the creditor with the bankrupt player's cash
    and jail cards (the player's own fields are left alone) and makes the
    creditor
    the owner of every property of the bankrupt player, buildings and
    mortgage untouched; without a creditor (on a board in a regular state)
    every such property loses its buildings to the bank and becomes unowned
    and unmortgaged; either way the player is BANKRUPT with an empty property
    set. *)
Theorem bankruptcy_hands_over_or_liquidates g pid p :
  dict_get (players g) pid = Some p ->
  (forall c cr, dict_get (players g) c = Some cr ->
     exists g', _handle_bankruptcy pid (Some c) g = Ret tt g'
       /\ Player.money (the_player g' c) = Player.money cr + Player.money p
       /\ Player.jail_cards (the_player g' c) = Player.jail_cards cr + Player.jail_cards p
       /\ (forall pos prop,
             In pos (Player.properties p) ->
             Board.get_property (board g) pos = Some prop ->
             Board.get_property (board g') pos
             = Some (Property.set_owner_id prop (Some (Player.id cr))))
       /\ (forall pos, ~ In pos (Player.properties p) ->
             Board.get_property (board g') pos = Board.get_property (board g) pos)
       /\ (c <> pid ->
           forall x, In x (Player.properties (the_player g' c)) <->
                     In x (Player.properties cr)
                     \/ (In x (Player.properties p)
                         /\ Board.get_property (board g) x <> None))
       /\ rules g' = rules g
       /\ Player.state (the_player g' pid) = PlayerState.BANKRUPT
       /\ Player.properties (the_player g' pid) = [])
  /\ (board_layout (board g) -> buildings_ok (board g) = true ->
      exists g', _handle_bankruptcy pid None g = Ret tt g'
       /\ (forall pos prop,
             In pos (Player.properties p) ->
             Board.get_property (board g) pos = Some prop ->
             Board.get_property (board g') pos = Some (cleared prop))
       /\ (forall pos, ~ In pos (Player.properties p) ->
             Board.get_property (board g') pos = Board.get_property (board g) pos)
       /\ RuleEngine.houses_available (rules g') + houses_in_use (board g')
          = RuleEngine.houses_available (rules g) + houses_in_use (board g)
       /\ RuleEngine.hotels_available (rules g') + hotels_in_use (board g')
          = RuleEngine.hotels_available (rules g) + hotels_in_use (board g)
       /\ Player.state (the_player g' pid) = PlayerState.BANKRUPT
       /\ Player.properties (the_player g' pid) = []).
Proof.
  intros Hp. split.
  - intros c cr Hc. unfold _handle_bankruptcy. cbv beta zeta.
    eexists. split; [reflexivity|].
    assert (the_player g pid = p) as Hgp by (unfold the_player; now rewrite Hp).
    set (g1 := update_player g c _).
    set (g2 := update_player g1 c _).
    assert (Player.jail_cards (the_player g1 pid) = Player.jail_cards p
            /\ Player.properties (the_player g2 pid) = Player.properties p) as [Hjc Hprops].
    { subst g2 g1. rewrite !the_player_update, Hc, Hgp.
      destruct (String.eqb_spec c pid) as [->|].
      - rewrite get_update_player, String.eqb_refl, Hc. simpl.
        rewrite Hp in Hc. injection Hc as <-. split; reflexivity.
      - split; reflexivity. }
    assert (dict_get (players g2) c
            = Some (Player.set_jail_cards (Player.add_money cr (Player.money p))
                      (Player.jail_cards cr + Player.jail_cards p))) as Hc2.
    { subst g2. rewrite get_update_player, String.eqb_refl.
      subst g1. rewrite get_update_player, String.eqb_refl, Hc. simpl.
      rewrite Hgp. do 3 f_equal.
      change (update_player g c (fun cr0 => Player.add_money cr0 (Player.money (the_player g pid))))
        with (update_player g c (fun cr0 => Player.add_money cr0 (Player.money (the_player g pid)))).
      rewrite the_player_update, Hc, Hgp.
      destruct (String.eqb_spec c pid) as [->|]; [|reflexivity].
      rewrite Hp in Hc. injection Hc as <-. reflexivity. }
    assert (board g2 = board g /\ rules g2 = rules g) as [Hb2 Hr2].
    { subst g2 g1. now rewrite !board_update_player, !rules_update_player. }
    rewrite Hprops.
    destruct (give_all_spec c (Player.properties p) g2 _ Hc2)
      as (Hr & Hother & (props & Hcf & Hin) & Hboard).
    set (gf := fold_left (give_to_creditor c) (Player.properties p) g2) in *.
    assert (exists q, dict_get (players gf) pid = Some q) as [q Hq].
    { destruct (String.eqb_spec pid c) as [->|Hne]; [eauto|].
      rewrite (Hother pid Hne). subst g2 g1. rewrite !get_update_player.
      destruct (String.eqb_spec c pid); [congruence|]. eauto. }
    assert (forall k, the_player (_log_event (update_player gf pid Player.declare_bankruptcy)
                                    "bankruptcy"
                                    [("player_id",
                                      VStr (Player.id (the_player (update_player gf pid Player.declare_bankruptcy) pid)));
                                     ("player_name",
                                      VStr (Player.name (the_player (update_player gf pid Player.declare_bankruptcy) pid)));
                                     ("creditor_id",
                                      VStr (Player.id (the_player (update_player gf pid Player.declare_bankruptcy) c)))]) k
                      = the_player (update_player gf pid Player.declare_bankruptcy) k) as Hlog
      by reflexivity.
    rewrite !Hlog. rewrite !the_player_update, Hq, String.eqb_refl.
    simpl board. simpl rules. rewrite board_update_player, rules_update_player.
    assert (the_player gf c = Player.set_properties
                                (Player.set_jail_cards (Player.add_money cr (Player.money p))
                                   (Player.jail_cards cr + Player.jail_cards p)) props) as Hcp
      by (unfold the_player; now rewrite Hcf).
    repeat split.
    + destruct (String.eqb_spec pid c) as [->|].
      * rewrite Hcf in Hq. injection Hq as <-. reflexivity.
      * now rewrite Hcp.
    + destruct (String.eqb_spec pid c) as [->|].
      * rewrite Hcf in Hq. injection Hq as <-. reflexivity.
      * now rewrite Hcp.
    + intros pos prop Hinp Hg. rewrite Hboard, Hb2, Hg.
      apply mem_In in Hinp. rewrite Hinp. reflexivity.
    + intros pos Hnin. rewrite Hboard, Hb2.
      apply mem_false_iff in Hnin. now rewrite Hnin.
    + destruct (String.eqb_spec pid c); [congruence|].
      rewrite Hcp. simpl. intros H'. apply Hin in H'. now rewrite Hb2 in H'.
    + destruct (String.eqb_spec pid c); [congruence|].
      rewrite Hcp. simpl. intros H'. apply Hin. now rewrite Hb2.
    + congruence.
  - intros Hl Hb. unfold _handle_bankruptcy. cbv beta zeta.
    assert (the_player g pid = p) as Hgp by (unfold the_player; now rewrite Hp).
    rewrite Hgp.
    destruct (return_all_spec (Player.properties p) g Hl Hb)
      as (g1 & Hrun & Hp1 & Hget & Hh & Ht).
    rewrite Hrun. cbn [bind].
    eexists. split; [reflexivity|].
    simpl board. simpl rules. rewrite board_update_player, rules_update_player.
    change (the_player (_log_event ?x _ _) ?k) with (the_player x k).
    rewrite the_player_update, String.eqb_refl, Hp1, Hp.
    repeat split; try assumption.
    + intros pos prop Hinp Hg. rewrite Hget, Hg.
      apply mem_In in Hinp. now rewrite Hinp.
    + intros pos Hnin. rewrite Hget.
      apply mem_false_iff in Hnin. now rewrite Hnin.
Qed.

(** * Saving and loading a game *)


Lemma loaded_players g now pc pcc g' k :
  distinct_str (map fst (players g)) = true ->
  from_dict now pc pcc (to_dict g) = Some g' ->
  dict_get (players g') k = option_map reloaded (dict_get (players g) k).
Proof.
  intros Hd. rewrite from_to_dict. intros [= <-]. cbn [players].
  rewrite players_fold_load; [|assumption | reflexivity].
  cbn [app]. apply dict_get_map.
Qed.

(** C6.  Saving a game with [to_dict] and loading it with [from_dict] gives a
    game with the same turn number, the same balance for every player and
    the same owner for every board position.  The two hypotheses are what a
    Python [dict] and a [Board] object guarantee by construction: no player
    key occurs twice, and the board holds the properties of
    [_initialize_properties]. *)
Theorem save_load_round_trip g now pc pcc :
  distinct_str (map fst (players g)) = true ->
  board_layout (board g) ->
  exists g',
    from_dict now pc pcc (to_dict g) = Some g'
    /\ turn_number g' = turn_number g
    /\ (forall k, option_map Player.money (dict_get (players g') k)
                  = option_map Player.money (dict_get (players g) k))
    /\ (forall pos, Board.get_property_owner (board g') pos
                    = Board.get_property_owner (board g) pos).
Proof.
  intros Hd Hl.
  destruct (from_dict now pc pcc (to_dict g)) as [g'|] eqn:E;
    [|rewrite from_to_dict in E; discriminate].
  exists g'. split; [reflexivity|].
  pose proof (fun k => loaded_players g now pc pcc g' k Hd E) as Hp.
  rewrite from_to_dict in E. injection E as <-. cbn [turn_number board] in *.
  split; [reflexivity|]. split.
  - intros k. rewrite Hp. destruct (dict_get (players g) k); reflexivity.
  - intros pos. unfold Board.get_property_owner. now rewrite board_round_trip.
Qed.

Lemma save_load_round_trip_witness :
  distinct_str (map fst (players first_purchase)) = true
  /\ board_layout (board first_purchase)
  /\ exists g',
       from_dict 7 [] [] (to_dict first_purchase) = Some g'
       /\ turn_number g' = turn_number first_purchase
       /\ (forall k, option_map Player.money (dict_get (players g') k)
                     = option_map Player.money (dict_get (players first_purchase) k))
       /\ (forall pos, Board.get_property_owner (board g') pos
                       = Board.get_property_owner (board first_purchase) pos).
Proof.
  split; [vm_compute; reflexivity|]. split; [vm_compute; reflexivity|].
  apply (save_load_round_trip first_purchase 7 [] []); vm_compute; reflexivity.
Defined.


(** * The turn order *)



Lemma current_player_seated g :
  player_order g <> [] ->
  current_player g
  = option_map (fun k => dict_get (players g) k)
      (py_index (player_order g) (current_player_index g)).
Proof.
  intros Hne. unfold current_player, current_player_key.
  destruct (player_order g) eqn:E; [congruence|]. rewrite <- E.
  destruct (py_index (player_order g) (current_player_index g)); reflexivity.
Qed.








Lemma update_player_turn g k f :
  current_player_index (update_player g k f) = current_player_index g
  /\ player_order (update_player g k f) = player_order g
  /\ turn_number (update_player g k f) = turn_number g
  /\ phase (update_player g k f) = phase g
  /\ last_dice_roll (update_player g k f) = last_dice_roll g.
Proof. unfold update_player. destruct (dict_get _ _); repeat split. Qed.



(** * Hotel conversion *)

(** A successful [build_hotel] replaces the four houses of the property by a
    hotel, hands the four houses back to the bank and takes one hotel from
    it, in one call. *)
Lemma build_hotel_converts pid pos g msg g' :
  build_hotel pid pos g = Ret (true, msg) g' ->
  exists prop,
    Board.get_property (board g) pos = Some prop
    /\ Property.houses prop = 4
    /\ Property.has_hotel prop = false
    /\ Board.get_property (board g') pos
       = Some (Property.set_has_hotel (Property.set_houses prop 0) true)
    /\ RuleEngine.houses_available (rules g') = RuleEngine.houses_available (rules g) + 4
    /\ RuleEngine.hotels_available (rules g') = RuleEngine.hotels_available (rules g) - 1.
Proof.
  unfold build_hotel.
  destruct (dict_get (players g) pid) as [player|]; [|intros [=]].
  destruct (current_player_id g) as [cur|]; [|intros [=]].
  cbv zeta. unfold RuleEngine.validate_build_hotel.
  destruct (negb (String.eqb (Player.id player) cur)); [intros [=]|].
  destruct (Board.get_property (board g) pos) as [prop|] eqn:Eg; [|intros [=]].
  destruct (negb (Board.owned_by (Player.id player) prop)); [intros [=]|].
  destruct (SpaceType.eqb (Property.space_type prop) SpaceType.PROPERTY) eqn:Et;
    [|intros [=]].
  destruct (Property.is_mortgaged prop) eqn:Em; [intros [=]|].
  destruct (Property.has_hotel prop) eqn:Eh; [intros [=]|].
  destruct (Z.eqb_spec (Property.houses prop) MAX_HOUSES_PER_PROPERTY) as [E4|E4];
    [|intros [=]].
  destruct (negb (Board.can_build_hotel (board g) pos (Player.id player))); [intros [=]|].
  destruct (Z.leb_spec (RuleEngine.hotels_available (rules g)) 0) as [Hh|Hh]; [intros [=]|].
  destruct (Property.house_cost prop) as [c|] eqn:Ec; [|intros [=]].
  destruct (negb (Player.can_afford player c)); [intros [=]|].
  cbn [negb ValidationResult.valid ValidationResult.success].
  intros [= _ <-].
  exists prop. split; [reflexivity|]. split; [exact E4|]. split; [exact Eh|].
  cbn [board rules _log_event set_events set_rules].
  rewrite rules_update_property, rules_update_player.
  split.
  - rewrite get_update_property by (intros q; unfold Property.build_hotel;
      repeat match goal with |- context [if ?c then _ else _] => destruct c end; reflexivity).
    rewrite Z.eqb_refl, board_update_player, Eg. cbn [option_map].
    unfold Property.build_hotel, Property.can_be_developed.
    rewrite Et, Em, Ec, Eh, E4. reflexivity.
  - unfold RuleEngine.use_hotel.
    replace (0 <? RuleEngine.hotels_available (rules g)) with true
      by (symmetry; apply Z.ltb_lt; lia).
    split; reflexivity.
Qed.

(** * The bank's houses *)

Lemma reachable_play ops id name now max_players pc pcc :
  forallb op_ok ops = true ->
  run ops (new id name now max_players pc pcc) <> None ->
  reachable (play ops (new id name now max_players pc pcc)).
Proof.
  intros Hok Hrun. unfold play.
  destruct (run ops (new id name now max_players pc pcc)) as [g'|] eqn:E; [|congruence].
  eapply reachable_run; [apply reach_new | exact Hok | exact E].
Qed.

(** C2.  The scripted game [bank_empty] is reachable and has all 32 houses on
    the board.  Selling the hotel on Oriental Avenue (position 6) there
    succeeds: the bank's house count goes to -4 and 36 houses stand on the
    board, four more than the pool of [TOTAL_HOUSES]. *)
Theorem hotel_sale_overdraws_house_bank :
  reachable bank_empty
  /\ RuleEngine.houses_available (rules bank_empty) = 0
  /\ RuleEngine.hotels_available (rules bank_empty) = 11
  /\ houses_in_use (board bank_empty) = 32
  /\ hotels_in_use (board bank_empty) = 1
  /\ sell_building "A" 6 bank_empty = Ret (true, "Sold hotel on Oriental Avenue for $25") after_hotel_sale
  /\ reachable after_hotel_sale
  /\ RuleEngine.houses_available (rules after_hotel_sale) = -4
  /\ RuleEngine.hotels_available (rules after_hotel_sale) = 12
  /\ houses_in_use (board after_hotel_sale) = 36
  /\ hotels_in_use (board after_hotel_sale) = 0
  /\ TOTAL_HOUSES = 32.
Proof.
  assert (reachable bank_empty) as Hr.
  { apply reachable_play; [reflexivity|]. vm_compute. discriminate. }
  split; [exact Hr|].
  do 5 (split; [vm_compute; reflexivity|]).
  split.
  { apply (reach_step (SellBuilding "A" 6) bank_empty after_hotel_sale Hr); [reflexivity|].
    vm_compute. reflexivity. }
  do 4 (split; [vm_compute; reflexivity|]).
  vm_compute. reflexivity.
Qed.

(** * Get Out of Jail Free cards *)

(** C7, as stated, fails.  In [chest_card_due] the card is on top of the
    Community Chest deck; Alice draws it, goes to jail and uses it.  The card
    is not put back on the Community Chest discard pile: it goes to the Chance
    discard pile, and the Community Chest deck is left with 15 cards. *)
Lemma chest_card_not_returned_to_chest :
  hd_error (CardDeck.cards (CardManager.community_chest (cards chest_card_due)))
    = Some (jail_card CardType.COMMUNITY_CHEST)
  /\ roll_dice (DiceResult.mk 1 1) [] "A" chest_card_due
     = Ret (true, "Get Out of Jail Free. (Card kept)", Some (DiceResult.mk 1 1))
           chest_card_drawn
  /\ Player.jail_cards (the_player chest_card_due "A") = 0
  /\ Player.jail_cards (the_player chest_card_drawn "A") = 1
  /\ run to_jail_with_card chest_card_drawn = Some jailed_with_chest_card
  /\ Player.state (the_player jailed_with_chest_card "A") = PlayerState.IN_JAIL
  /\ use_jail_card "A" jailed_with_chest_card
     = Ret (true, "Used Get Out of Jail Free card") chest_card_used
  /\ ~ returned_to CardType.COMMUNITY_CHEST (cards jailed_with_chest_card) (cards chest_card_used)
  /\ CardDeck.discard (CardManager.chance (cards chest_card_used)) = [jail_card CardType.CHANCE]
  /\ CardDeck.discard (CardManager.community_chest (cards chest_card_used)) = []
  /\ List.length (CardDeck.cards (CardManager.community_chest (cards chest_card_used))) = 15%nat.
Proof.
  do 7 (split; [vm_compute; reflexivity|]).
  split; [unfold returned_to; vm_compute; discriminate|].
  do 2 (split; [vm_compute; reflexivity|]).
  vm_compute. reflexivity.
Qed.

(** C7, amended.  A successful [use_jail_card] is made by a player in jail
    who holds a card; the count goes down by one, the player is released
    (active, with the jail turns at 0), and a Chance jail card is put on the
    Chance discard pile, whichever deck the card came from.  The Community
    Chest deck is not touched. *)
Theorem use_jail_card_returns_to_chance pid g msg g' :
  use_jail_card pid g = Ret (true, msg) g' ->
  exists p,
    dict_get (players g) pid = Some p
    /\ Player.state p = PlayerState.IN_JAIL
    /\ 0 < Player.jail_cards p
    /\ Player.jail_cards (the_player g' pid) = Player.jail_cards p - 1
    /\ Player.state (the_player g' pid) = PlayerState.ACTIVE
    /\ Player.jail_turns (the_player g' pid) = 0
    /\ returned_to CardType.CHANCE (cards g) (cards g')
    /\ CardManager.community_chest (cards g') = CardManager.community_chest (cards g).
Proof.
  unfold use_jail_card.
  destruct (dict_get (players g) pid) as [p|] eqn:Ep; [|intros [=]].
  destruct (current_player_id g) as [cur|]; [|intros [=]].
  unfold RuleEngine.validate_use_jail_card.
  destruct (negb (String.eqb (Player.id p) cur)); [intros [=]|].
  destruct (PlayerState.eqb (Player.state p) PlayerState.IN_JAIL) eqn:Es; [|intros [=]].
  destruct (Z.leb_spec (Player.jail_cards p) 0) as [Hj|Hj]; [intros [=]|].
  cbn [negb ValidationResult.valid ValidationResult.success].
  intros [= _ <-].
  exists p. split; [reflexivity|].
  split; [destruct (Player.state p); (reflexivity || discriminate)|].
  split; [assumption|].
  unfold the_player. cbn [players _log_event set_events set_cards cards].
  rewrite get_update_player, String.eqb_refl, Ep. cbn.
  repeat split.
  - unfold returned_to. unfold update_player. rewrite Ep. reflexivity.
  - unfold update_player. rewrite Ep. reflexivity.
Qed.

Lemma use_jail_card_returns_to_chance_witness :
  use_jail_card "A" jailed_with_chest_card
    = Ret (true, "Used Get Out of Jail Free card") chest_card_used
  /\ exists p,
       dict_get (players jailed_with_chest_card) "A" = Some p
       /\ Player.state p = PlayerState.IN_JAIL
       /\ 0 < Player.jail_cards p
       /\ Player.jail_cards (the_player chest_card_used "A") = Player.jail_cards p - 1
       /\ Player.state (the_player chest_card_used "A") = PlayerState.ACTIVE
       /\ Player.jail_turns (the_player chest_card_used "A") = 0
       /\ returned_to CardType.CHANCE (cards jailed_with_chest_card) (cards chest_card_used)
       /\ CardManager.community_chest (cards chest_card_used)
          = CardManager.community_chest (cards jailed_with_chest_card).
Proof.
  split; [vm_compute; reflexivity|].
  apply (use_jail_card_returns_to_chance "A" jailed_with_chest_card
           "Used Get Out of Jail Free card" chest_card_used).
  vm_compute. reflexivity.
Defined.

(** * Host transfer *)

(** C9.  Bob is a member of game "g" whose connection has dropped.  The
    transfer to Bob reports failure, and yet Alice's host flag has been
    cleared: the game is left without a host.  And when the host's own
    connection has dropped, a successful transfer leaves the flag on the
    parked record, so that two connections carry it once Alice is back. *)
Theorem failed_transfer_clears_host :
  host_flags lobby_bob_away = [("A", true); ("B", false)]
  /\ ConnectionManager.is_player_in_game lobby_bob_away "B" "g" = true
  /\ ConnectionManager.get_connection_by_player_id lobby_bob_away "B" = None
  /\ fst (ConnectionManager.transfer_host "g" "B" lobby_bob_away) = false
  /\ host_flags (snd (ConnectionManager.transfer_host "g" "B" lobby_bob_away))
     = [("A", false); ("B", false)]
  /\ ConnectionManager.get_host (snd (ConnectionManager.transfer_host "g" "B" lobby_bob_away)) "g"
     = None
  /\ host_flags lobby_alice_away = [("B", false); ("A", true)]
  /\ fst (ConnectionManager.transfer_host "g" "B" lobby_alice_away) = true
  /\ host_flags host_moved_while_away = [("B", true); ("A", true)]
  /\ host_flags alice_back = [("B", true); ("A", true)].
Proof.
  do 9 (split; [vm_compute; reflexivity|]).
  vm_compute. reflexivity.
Qed.

(** * Instances

    The theorems with hypotheses, applied to the scenario games. *)

Lemma calculate_rent_follows_rule_witness :
  board_layout brown_monopoly
  /\ buildings_ok brown_monopoly = true
  /\ Board.calculate_rent brown_monopoly 1 7 (Some "B")
     = Some (rent_rule brown_monopoly 1 7 (Some "B"))
  /\ rent_rule brown_monopoly 1 7 (Some "B") = 4.
Proof.
  assert (board_layout brown_monopoly) as Hl by (vm_compute; reflexivity).
  assert (buildings_ok brown_monopoly = true) as Hb by (vm_compute; reflexivity).
  split; [exact Hl|]. split; [exact Hb|].
  split; [exact (proj1 (calculate_rent_follows_rule brown_monopoly 1 7 (Some "B") Hl Hb))|].
  vm_compute. reflexivity.
Defined.

Lemma cash_never_negative_witness :
  reachable after_hotel_sale
  /\ dict_get (players after_hotel_sale) "A" = Some (the_player after_hotel_sale "A")
  /\ 0 <= Player.money (the_player after_hotel_sale "A").
Proof.
  assert (reachable after_hotel_sale) as Hr.
  { apply (reach_step (SellBuilding "A" 6) bank_empty after_hotel_sale);
      [|reflexivity | vm_compute; reflexivity].
    apply reachable_play; [reflexivity|]. vm_compute. discriminate. }
  split; [exact Hr|]. split; [vm_compute; reflexivity|].
  apply (proj1 cash_never_negative after_hotel_sale Hr "A").
  vm_compute. left. reflexivity.
Defined.

Lemma failed_call_changes_nothing_witness :
  gameplay_call bob_out_of_turn first_purchase = Some (false, first_purchase).
Proof.
  destruct (gameplay_call bob_out_of_turn first_purchase) as [[[|] g']|] eqn:E;
    try (exfalso; revert E; vm_compute; discriminate).
  now rewrite (failed_call_changes_nothing bob_out_of_turn first_purchase g' E).
Defined.

Lemma bankruptcy_hands_over_or_liquidates_witness :
  dict_get (players bank_empty) "A" = Some (the_player bank_empty "A")
  /\ dict_get (players bank_empty) "B" = Some (the_player bank_empty "B")
  /\ board_layout (board bank_empty)
  /\ buildings_ok (board bank_empty) = true
  /\ (exists g',
        _handle_bankruptcy "A" (Some "B") bank_empty = Ret tt g'
        /\ Player.money (the_player g' "B")
           = Player.money (the_player bank_empty "B") + Player.money (the_player bank_empty "A")
        /\ rules g' = rules bank_empty
        /\ Player.state (the_player g' "A") = PlayerState.BANKRUPT)
  /\ (exists g',
        _handle_bankruptcy "A" None bank_empty = Ret tt g'
        /\ RuleEngine.houses_available (rules g') + houses_in_use (board g')
           = RuleEngine.houses_available (rules bank_empty) + houses_in_use (board bank_empty)
        /\ Player.properties (the_player g' "A") = []).
Proof.
  assert (dict_get (players bank_empty) "A" = Some (the_player bank_empty "A")) as HA
    by (vm_compute; reflexivity).
  assert (dict_get (players bank_empty) "B" = Some (the_player bank_empty "B")) as HB
    by (vm_compute; reflexivity).
  assert (board_layout (board bank_empty)) as Hl by (vm_compute; reflexivity).
  assert (buildings_ok (board bank_empty) = true) as Hb by (vm_compute; reflexivity).
  do 4 (split; [assumption|]).
  destruct (bankruptcy_hands_over_or_liquidates bank_empty "A" _ HA) as [Hc Hn].
  split.
  - destruct (Hc "B" _ HB) as (g' & E & Hm & _ & _ & _ & _ & Hr & Hs & _).
    exists g'. repeat split; assumption.
  - destruct (Hn Hl Hb) as (g' & E & _ & _ & Hh & _ & _ & Hp).
    exists g'. repeat split; assumption.
Defined.


(** * The shape of a game in play *)

(** ** Squares *)

Lemma range_check (f : Z -> bool) :
  forallb f (map Z.of_nat (seq 0 40)) = true ->
  forall pos, 0 <= pos < 40 -> f pos = true.
Proof.
  intros H pos Hp. rewrite forallb_forall in H. apply H.
  apply in_map_iff. exists (Z.to_nat pos). split; [lia|].
  apply in_seq. lia.
Qed.

Lemma every_square_settles pos : 0 <= pos < 40 -> settles 3 pos = true.
Proof. apply range_check. vm_compute. reflexivity. Qed.

Lemma settles_more n : forall pos, settles n pos = true -> settles (S n) pos = true.
Proof.
  induction n as [|n IH]; intros pos H; [discriminate|].
  cbn [settles] in *. destruct (Board.get_space pos) as [space|]; [|discriminate].
  cbv zeta in *.
  assert (forall table,
            forallb (fun card => match card_destination card pos with
                                 | Some pos' => settles n pos'
                                 | None => true
                                 end) table = true ->
            forallb (fun card => match card_destination card pos with
                                 | Some pos' => settles (S n) pos'
                                 | None => true
                                 end) table = true) as Hmono.
  { intros table Ht. rewrite forallb_forall in *. intros c Hc. specialize (Ht c Hc).
    destruct (card_destination c pos); [now apply IH | reflexivity]. }
  destruct (sp_type space); auto.
Qed.

Lemma on_board_mod (p : Player.t) x :
  on_board (Player.set_position p (x mod BOARD_SIZE)) = true.
Proof.
  unfold on_board. cbn [Player.position Player.set_position].
  pose proof (Z.mod_pos_bound x BOARD_SIZE ltac:(reflexivity)) as H.
  apply andb_true_iff. split; [apply Z.leb_le | apply Z.ltb_lt]; lia.
Qed.

Lemma on_board_range p : on_board p = true -> 0 <= Player.position p < 40.
Proof.
  unfold on_board, BOARD_SIZE. intros H. apply andb_prop in H. destruct H as [H1 H2].
  apply Z.leb_le in H1. apply Z.ltb_lt in H2. lia.
Qed.

(** ** Dictionaries *)

Lemma dict_get_In {V} (d : list (string * V)) k v : dict_get d k = Some v -> In (k, v) d.
Proof.
  induction d as [|[k' v'] r IH]; simpl; [discriminate|].
  destruct (String.eqb_spec k' k) as [->|]; [intros [= ->]; now left | auto].
Qed.

Lemma forallb_dict_set {V} (P : string * V -> bool) d k v :
  forallb P d = true -> P (k, v) = true -> forallb P (dict_set d k v) = true.
Proof.
  induction d as [|[k' v'] r IH]; simpl; intros H Hp; [now rewrite Hp|].
  apply andb_prop in H. destruct H as [H1 H2].
  destruct (String.eqb_spec k' k) as [->|]; simpl.
  - now rewrite Hp.
  - rewrite H1. now apply IH.
Qed.

Lemma forallb_dict_del {V} (P : string * V -> bool) d k :
  forallb P d = true -> forallb P (dict_del d k) = true.
Proof.
  induction d as [|[k' v'] r IH]; simpl; intros H; [reflexivity|].
  apply andb_prop in H. destruct H as [H1 H2].
  destruct (String.eqb k' k); [assumption|]. simpl. rewrite H1. now apply IH.
Qed.

Lemma forallb_In {A} (f : A -> bool) l x : forallb f l = true -> In x l -> f x = true.
Proof. intros H. rewrite forallb_forall in H. apply H. Qed.

Lemma get_placed g k p :
  Shape g -> dict_get (players g) k = Some p -> Player.id p = k /\ on_board p = true.
Proof.
  intros HS Hg. apply dict_get_In in Hg.
  pose proof (forallb_In _ _ _ (shape_placed _ HS) Hg) as H.
  unfold placed in H. cbn [fst snd] in H. apply andb_prop in H. destruct H as [H1 H2].
  apply String.eqb_eq in H1. now split.
Qed.

Lemma the_player_on_board g k : Shape g -> on_board (the_player g k) = true.
Proof.
  intros HS. unfold the_player.
  destruct (dict_get (players g) k) eqn:E; [eapply get_placed; eauto | reflexivity].
Qed.

(** ** The shape under the mutations of the engine *)

Lemma Shape_same g g' :
  players g' = players g -> player_order g' = player_order g ->
  current_player_index g' = current_player_index g -> cards g' = cards g ->
  (phase g' = GamePhase.WAITING -> phase g = GamePhase.WAITING) ->
  Shape g -> Shape g'.
Proof.
  intros Hp Ho Hi Hc Hph [? ? ? ? ? ?].
  constructor; rewrite ?Hp, ?Ho, ?Hi, ?Hc; auto.
Qed.

Lemma Shape_set_phase g x : x <> GamePhase.WAITING -> Shape g -> Shape (set_phase g x).
Proof. intros Hx. apply Shape_same; try reflexivity. simpl. congruence. Qed.
Lemma Shape_set_turn_number g x : Shape g -> Shape (set_turn_number g x).
Proof. apply Shape_same; auto. Qed.
Lemma Shape_set_last_dice_roll g x : Shape g -> Shape (set_last_dice_roll g x).
Proof. apply Shape_same; auto. Qed.
Lemma Shape_set_winner_id g x : Shape g -> Shape (set_winner_id g x).
Proof. apply Shape_same; auto. Qed.
Lemma Shape_set_board g x : Shape g -> Shape (set_board g x).
Proof. apply Shape_same; auto. Qed.
Lemma Shape_set_rules g x : Shape g -> Shape (set_rules g x).
Proof. apply Shape_same; auto. Qed.
Lemma Shape_log_event g ty d : Shape g -> Shape (_log_event g ty d).
Proof. apply Shape_same; auto. Qed.

Lemma Shape_update_property g pos f : Shape g -> Shape (update_property g pos f).
Proof.
  unfold update_property. destruct (Board.get_property _ _); [apply Shape_set_board | auto].
Qed.

Lemma Shape_set_players g ps :
  forallb placed ps = true -> forallb (seated_in (player_order g)) ps = true ->
  Shape g -> Shape (set_players g ps).
Proof. intros H1 H2 [? ? ? ? ? ?]. constructor; assumption. Qed.

Lemma Shape_set_cards g c :
  deck_complete CardType.CHANCE (CardManager.chance c) ->
  deck_complete CardType.COMMUNITY_CHEST (CardManager.community_chest c) ->
  Shape g -> Shape (set_cards g c).
Proof. intros H1 H2 [? ? ? ? ? ?]. constructor; assumption. Qed.

Lemma Shape_update_player g k f : keeps_place f -> Shape g -> Shape (update_player g k f).
Proof.
  intros Hf HS. unfold update_player.
  destruct (dict_get (players g) k) as [p|] eqn:E; [|assumption].
  destruct (get_placed g k p HS E) as [Hid Hon]. destruct (Hf p) as [Hf1 Hf2].
  apply Shape_set_players; [| |assumption].
  - apply forallb_dict_set; [apply (shape_placed _ HS)|].
    unfold placed. cbn [fst snd]. rewrite Hf1, Hid, String.eqb_refl. now apply Hf2.
  - apply forallb_dict_set; [apply (shape_seated _ HS)|].
    apply dict_get_In in E. apply (forallb_In _ _ _ (shape_seated _ HS) E).
Qed.

Lemma keeps_place_compose f h : keeps_place f -> keeps_place h -> keeps_place (fun q => f (h q)).
Proof.
  intros Hf Hh p. destruct (Hf (h p)) as [F1 F2], (Hh p) as [H1 H2].
  split; [congruence | auto].
Qed.

Lemma keeps_place_same f :
  (forall p, Player.id (f p) = Player.id p) ->
  (forall p, Player.position (f p) = Player.position p) -> keeps_place f.
Proof. intros H1 H2 p. split; [apply H1|]. unfold on_board. now rewrite H2. Qed.

Lemma keeps_place_move_to pos c : keeps_place (fun q => snd (Player.move_to q pos c)).
Proof.
  intros p. unfold Player.move_to.
  destruct (c && (pos <? Player.position p)
            && negb (PlayerState.eqb (Player.state p) PlayerState.IN_JAIL));
    cbn [snd]; (split; [reflexivity | intros _; apply on_board_mod]).
Qed.

Lemma keeps_place_move_forward n : keeps_place (fun q => snd (Player.move_forward q n)).
Proof. intros p. unfold Player.move_forward. apply keeps_place_move_to. Qed.

Lemma keeps_place_send_to_jail : keeps_place Player.send_to_jail.
Proof. intros p. split; reflexivity. Qed.

Ltac place_tac :=
  first
    [ apply keeps_place_move_to
    | apply keeps_place_move_forward
    | apply keeps_place_send_to_jail
    | apply keeps_place_same; intros;
      unfold Player.remove_money, Player.reset_turn, Player.release_from_jail;
      cbv zeta;
      repeat match goal with |- context [if ?c then _ else _] => destruct c end;
      reflexivity ].

(** ** Decks *)

Lemma filter_perm {A} (f : A -> bool) l l' :
  Permutation l l' -> Permutation (filter f l) (filter f l').
Proof.
  induction 1 as [|x l l' _ IH|x y l|l l' l'' _ IH1 _ IH2]; simpl.
  - constructor.
  - destruct (f x); [now constructor | assumption].
  - destruct (f x), (f y); try reflexivity. apply perm_swap.
  - etransitivity; eauto.
Qed.

Lemma deck_complete_perm ct d d' :
  Permutation (pile d') (pile d) -> deck_complete ct d -> deck_complete ct d'.
Proof.
  intros Hp [Hi Hf]. split.
  - intros c Hc. apply Hi. eapply Permutation_in; eauto.
  - etransitivity; [|exact Hf]. now apply filter_perm.
Qed.

Lemma deck_complete_drop ct d d' c :
  pile d = c :: pile d' -> ordinary c = false -> deck_complete ct d -> deck_complete ct d'.
Proof.
  intros Hp Hc [Hi Hf]. rewrite Hp in Hi, Hf. simpl in Hf. rewrite Hc in Hf. split.
  - intros x Hx. apply Hi. now right.
  - exact Hf.
Qed.

Lemma table_has_ordinary ct : filter ordinary (card_table ct) <> [].
Proof. destruct ct; discriminate. Qed.

Lemma draw_top ct d card rest :
  deck_complete ct d -> CardDeck.cards d = card :: rest ->
  In card (card_table ct)
  /\ deck_complete ct
       (if negb (Card.keep card)
        then CardDeck.mk (CardDeck.card_type d) rest (CardDeck.discard d ++ [card])
               (CardDeck._initialized d)
        else CardDeck.mk (CardDeck.card_type d) rest (CardDeck.discard d)
               (CardDeck._initialized d)).
Proof.
  intros Hd E. split.
  - apply (proj1 Hd). unfold pile. rewrite E. now left.
  - destruct (negb (Card.keep card)) eqn:Ek.
    + eapply deck_complete_perm; [|exact Hd].
      unfold pile. rewrite E. cbn [CardDeck.cards CardDeck.discard].
      rewrite app_assoc. apply Permutation_sym.
      exact (Permutation_app_comm [card] (rest ++ CardDeck.discard d)).
    + eapply deck_complete_drop; [| exact Ek | exact Hd].
      unfold pile. rewrite E. reflexivity.
Qed.

Lemma draw_complete ct picks d :
  deck_complete ct d ->
  exists card d', CardDeck.draw picks d = (Some card, d')
                  /\ In card (card_table ct) /\ deck_complete ct d'.
Proof.
  intros Hd. unfold CardDeck.draw.
  destruct (CardDeck.cards d) as [|c l] eqn:E.
  - assert (deck_complete ct
              (CardDeck.mk (CardDeck.card_type d) (shuffle picks (CardDeck.discard d)) []
                 (CardDeck._initialized d))) as H1.
    { eapply deck_complete_perm; [|exact Hd].
      unfold pile. rewrite E. cbn [CardDeck.cards CardDeck.discard app].
      rewrite app_nil_r. apply shuffle_permutation. }
    cbn [CardDeck.cards].
    destruct (shuffle picks (CardDeck.discard d)) as [|card rest] eqn:Es.
    + exfalso. destruct H1 as [_ Hf]. unfold pile in Hf.
      cbn [CardDeck.cards CardDeck.discard app filter] in Hf.
      apply Permutation_nil in Hf. now apply (table_has_ordinary ct).
    + destruct (draw_top ct _ card rest H1 eq_refl) as [Hin Hc].
      cbn [CardDeck.card_type CardDeck.discard CardDeck._initialized] in *.
      destruct (negb (Card.keep card)); eauto.
  - rewrite E.
    destruct (draw_top ct d c l Hd E) as [Hin Hc].
    destruct (negb (Card.keep c)); eauto.
Qed.

Lemma return_card_complete d :
  deck_complete CardType.CHANCE d ->
  deck_complete CardType.CHANCE
    (CardDeck.return_card d
       (Card.mk CardType.CHANCE "Get Out of Jail Free." CardAction.GET_OUT_OF_JAIL
                0 0 0 true)).
Proof.
  intros [Hi Hf]. unfold deck_complete, CardDeck.return_card, pile in *.
  cbn [CardDeck.cards CardDeck.discard]. rewrite app_assoc. split.
  - intros c Hc. apply in_app_or in Hc. destruct Hc as [Hc|[<-|[]]]; [now apply Hi|].
    cbn. do 6 right. left. reflexivity.
  - rewrite filter_app. cbn [filter ordinary negb Card.keep]. now rewrite app_nil_r.
Qed.

Lemma fresh_deck_complete picks ct : deck_complete ct (CardDeck.new picks ct).
Proof.
  unfold deck_complete, CardDeck.new, CardDeck.reset, pile.
  cbn [CardDeck.card_type CardDeck.cards CardDeck.discard].
  rewrite app_nil_r.
  assert (Permutation (shuffle picks (card_table ct)) (card_table ct)) as Hp
    by apply shuffle_permutation.
  replace (match ct with
           | CardType.CHANCE => CHANCE_CARDS
           | CardType.COMMUNITY_CHEST => COMMUNITY_CHEST_CARDS
           end) with (card_table ct) by (destruct ct; reflexivity).
  split.
  - intros c Hc. eapply Permutation_in; eauto.
  - now apply filter_perm.
Qed.

(** * Landing and rolling return *)

(** On a regular board the rent lookup finds its table entry. *)
Lemma calculate_rent_defined b pos dice lp :
  board_layout b -> buildings_ok b = true ->
  exists rent, Board.calculate_rent b pos dice lp = Some rent.
Proof.
  intros Hl Hb. unfold Board.calculate_rent.
  destruct (Board.get_property b pos) as [p|] eqn:Hg; [|eauto].
  apply get_property_In in Hg. destruct Hg as [Hp _].
  destruct (Property.owner_id p) as [o|] eqn:Ho; [|eauto].
  destruct (opt_str_eqb (Some o) lp); [eauto|].
  unfold Property.calculate_rent, Property.is_owned. rewrite Ho.
  destruct (Property.is_mortgaged p); [simpl; eauto|]. simpl.
  pose proof (layout_static_check b p Hl Hp) as Cp.
  unfold static_check, static_part in Cp.
  unfold buildings_ok in Hb. rewrite forallb_forall in Hb.
  pose proof (Hb p Hp) as Bp. unfold building_ok in Bp.
  destruct (Property.space_type p) eqn:Hty; split_andb; try discriminate; eauto.
  - destruct (Property.rents p) as [l|] eqn:Hr; [|discriminate].
    match goal with H : Nat.eqb _ 6 = true |- _ => apply Nat.eqb_eq in H; rename H into Hlen end.
    rewrite <- Hr.
    repeat match goal with
           | H : (_ <=? _) = true |- _ => apply Z.leb_le in H
           end.
    destruct (Property.has_hotel p).
    + rewrite (rents_at_table p l 5 Hr) by lia. eauto.
    + destruct (0 <? Property.houses p) eqn:Hh.
      * rewrite (rents_at_table p l _ Hr) by lia. eauto.
      * rewrite (rents_at_table p l 0 Hr) by lia.
        destruct (Board.player_has_monopoly b o (Property.group p)); simpl; eauto.
  - destruct (Property.rents p) as [l|] eqn:Hr; [|discriminate].
    match goal with H : Nat.eqb _ 4 = true |- _ => apply Nat.eqb_eq in H; rename H into Hlen end.
    rewrite <- Hr.
    destruct ((1 <=? Board.count_group_owned b o (Property.group p))
              && (Board.count_group_owned b o (Property.group p) <=? 4)) eqn:E.
    + apply andb_prop in E. destruct E as [E1 E2].
      apply Z.leb_le in E1. apply Z.leb_le in E2.
      rewrite (rents_at_table p l _ Hr) by lia. eauto.
    + rewrite (rents_at_table p l 0 Hr) by lia. eauto.
Qed.

Ltac shape_auto :=
  repeat first
    [ assumption
    | apply Shape_log_event
    | apply Shape_set_phase; [discriminate|]
    | apply Shape_set_turn_number
    | apply Shape_set_last_dice_roll
    | apply Shape_set_winner_id
    | apply Shape_set_board
    | apply Shape_set_rules
    | apply Shape_update_property
    | apply Shape_update_player; [place_tac|]
    | match goal with
      | |- Shape (match ?x with _ => _ end) => let E := fresh "E" in destruct x eqn:E
      end ].

Lemma property_landing_Shape player d g :
  Inv g -> Shape g -> ShapeT (_handle_property_landing player d g).
Proof.
  intros HI HS. unfold _handle_property_landing. cbv zeta.
  destruct (Board.get_property (board g) (Player.position (the_player g player)))
    as [prop|]; [|cbn [ShapeT]; shape_auto].
  destruct (negb (Property.is_owned prop)); [cbn [ShapeT]; shape_auto|].
  destruct (Board.owned_by (Player.id (the_player g player)) prop);
    [cbn [ShapeT]; shape_auto|].
  destruct (calculate_rent_defined (board g) (Player.position (the_player g player))
              (DiceResult.total d) (Some (Player.id (the_player g player)))
              (inv_board _ HI) (inv_buildings _ HI)) as [rent ->].
  destruct (rent =? 0); [cbn [ShapeT]; shape_auto|].
  destruct (Player.can_afford (the_player g player) rent); cbn [ShapeT]; shape_auto.
Qed.

Lemma position_move_to q pos c :
  Player.position (snd (Player.move_to q pos c)) = pos mod BOARD_SIZE.
Proof.
  unfold Player.move_to.
  destruct (c && (pos <? Player.position q)
            && negb (PlayerState.eqb (Player.state q) PlayerState.IN_JAIL)); reflexivity.
Qed.

Lemma settles_go n : n <> O -> settles n 0 = true.
Proof. destruct n; [congruence | reflexivity]. Qed.

Lemma settles_nonzero n pos : settles n pos = true -> n <> O.
Proof. destruct n; [discriminate | discriminate]. Qed.

(** The player moved by a card stands on the card's destination. *)
Lemma moved_player_settles g player new_pos c n :
  settles n (new_pos mod BOARD_SIZE) = true ->
  settles n (Player.position
               (the_player (update_player g player
                              (fun q => snd (Player.move_to q new_pos c))) player)) = true.
Proof.
  intros H. rewrite the_player_update, String.eqb_refl.
  destruct (dict_get (players g) player) as [p|] eqn:E.
  - now rewrite position_move_to.
  - unfold the_player. rewrite E. apply settles_go. eapply settles_nonzero; eauto.
Qed.

Lemma collect_from_keeps (P : string * Player.t -> bool) value drawer ps :
  (forall k p a, P (k, snd (Player.remove_money p a)) = P (k, p)) ->
  forallb P (fst (collect_from value drawer ps)) = forallb P ps.
Proof.
  intros HP. induction ps as [|[k p] r IH]; simpl; [reflexivity|].
  destruct (collect_from value drawer r) as [r' total]. simpl in IH.
  destruct (not_bankrupt p && negb (String.eqb (Player.id p) drawer)); simpl;
    rewrite ?HP, IH; reflexivity.
Qed.

Lemma pay_each_keeps (P : string * Player.t -> bool) value drawer ps :
  (forall k p a, P (k, Player.add_money p a) = P (k, p)) ->
  forallb P (pay_each value drawer ps) = forallb P ps.
Proof.
  intros HP. unfold pay_each. induction ps as [|[k p] r IH]; simpl; [reflexivity|].
  destruct (not_bankrupt p && negb (String.eqb (Player.id p) drawer)); simpl;
    rewrite ?HP, IH; reflexivity.
Qed.

Lemma placed_remove_money k p a : placed (k, snd (Player.remove_money p a)) = placed (k, p).
Proof. unfold Player.remove_money. destruct (a <=? Player.money p); reflexivity. Qed.

Lemma seated_remove_money o k p a :
  seated_in o (k, snd (Player.remove_money p a)) = seated_in o (k, p).
Proof. reflexivity. Qed.

Lemma Shape_collect_from g value drawer :
  Shape g -> Shape (set_players g (fst (collect_from value drawer (players g)))).
Proof.
  intros HS. apply Shape_set_players; [| |assumption].
  - rewrite collect_from_keeps by apply placed_remove_money. apply (shape_placed _ HS).
  - rewrite collect_from_keeps by (intros; reflexivity). apply (shape_seated _ HS).
Qed.

Lemma Shape_pay_each g value drawer :
  Shape g -> Shape (set_players g (pay_each value drawer (players g))).
Proof.
  intros HS. apply Shape_set_players; [| |assumption].
  - rewrite pay_each_keeps by (intros; reflexivity). apply (shape_placed _ HS).
  - rewrite pay_each_keeps by (intros; reflexivity). apply (shape_seated _ HS).
Qed.

Lemma execute_card_Shape landing player card d g n :
  lands n player landing ->
  match card_destination card (Player.position (the_player g player)) with
  | Some pos' => settles n pos' = true
  | None => True
  end ->
  card_ok card = true -> Inv g -> Shape g ->
  ShapeT (_execute_card landing player card d g).
Proof.
  intros Hland Hdest Hc HI HS. unfold _execute_card.
  unfold card_destination in Hdest. unfold card_ok in Hc.
  destruct (Card.action card) eqn:Ha; try apply Z.leb_le in Hc; cbv zeta.
  - cbn [ShapeT]. shape_auto.
  - cbn [ShapeT]. shape_auto.
  - pose proof (Shape_collect_from g (Card.value card)
                  (Player.id (the_player g player)) HS) as H.
    destruct (collect_from _ _ _) as [ps total]. cbn [fst] in H.
    cbn [ShapeT]. shape_auto.
  - cbn [ShapeT]. shape_auto.
    apply Shape_pay_each. shape_auto.
  - apply Hland.
    + inv_auto.
    + shape_auto.
    + now apply moved_player_settles.
  - cbn [ShapeT]. shape_auto.
  - apply Hland.
    + inv_auto.
    + shape_auto.
    + now apply moved_player_settles.
  - cbn [ShapeT]. shape_auto.
  - cbn [ShapeT]. shape_auto.
  - cbn [ShapeT]. shape_auto.
Qed.

Lemma handle_card_Shape landing picks player ct d g n :
  lands n player landing ->
  (forall card, In card (card_table ct) ->
     match card_destination card (Player.position (the_player g player)) with
     | Some pos' => settles n pos' = true
     | None => True
     end) ->
  Inv g -> Shape g -> ShapeT (_handle_card landing picks player ct d g).
Proof.
  intros Hland Hdest HI HS. unfold _handle_card.
  pose proof (inv_cards g HI) as Hc. unfold cards_ok in Hc.
  apply andb_prop in Hc. destruct Hc as [Hc1 Hc2].
  destruct ct; unfold CardManager.draw_chance, CardManager.draw_community_chest.
  - destruct (draw_complete CardType.CHANCE picks _ (shape_chance _ HS))
      as (card & d' & E & Hin & Hd').
    rewrite E.
    destruct (deck_draw_ok _ _ _ _ Hc1 E) as [Hok Hcard].
    apply execute_card_Shape with (n := n); [assumption | now apply Hdest | assumption | |].
    + apply Inv_log_event. apply Inv_set_cards; [|assumption].
      unfold cards_ok. simpl. now rewrite Hok, Hc2.
    + apply Shape_log_event. apply Shape_set_cards; [assumption | apply (shape_chest _ HS) | assumption].
  - destruct (draw_complete CardType.COMMUNITY_CHEST picks _ (shape_chest _ HS))
      as (card & d' & E & Hin & Hd').
    rewrite E.
    destruct (deck_draw_ok _ _ _ _ Hc2 E) as [Hok Hcard].
    apply execute_card_Shape with (n := n); [assumption | now apply Hdest | assumption | |].
    + apply Inv_log_event. apply Inv_set_cards; [|assumption].
      unfold cards_ok. simpl. now rewrite Hok, Hc1.
    + apply Shape_log_event. apply Shape_set_cards; [apply (shape_chance _ HS) | assumption | assumption].
Qed.

Lemma settles_cards n pos space table :
  Board.get_space pos = Some space ->
  (sp_type space = SpaceType.CHANCE /\ table = CHANCE_CARDS
   \/ sp_type space = SpaceType.COMMUNITY_CHEST /\ table = COMMUNITY_CHEST_CARDS) ->
  settles (S n) pos = true ->
  forall card, In card table ->
    match card_destination card pos with
    | Some pos' => settles n pos' = true
    | None => True
    end.
Proof.
  intros Hs Ht H card Hin. cbn [settles] in H. rewrite Hs in H. cbv zeta in H.
  assert (forallb (fun card => match card_destination card pos with
                               | Some pos' => settles n pos'
                               | None => true
                               end) table = true) as Hall.
  { destruct Ht as [[Ht ->]|[Ht ->]]; now rewrite Ht in H. }
  pose proof (forallb_In _ _ _ Hall Hin) as Hc. cbv beta in Hc.
  destruct (card_destination card pos); [assumption | exact I].
Qed.

(** [_handle_landing] returns when the square settles within the granted
    depth. *)
Lemma handle_landing_Shape n : forall depth picks player d g,
  (n <= depth)%nat ->
  settles n (Player.position (the_player g player)) = true ->
  Inv g -> Shape g -> ShapeT (_handle_landing depth picks player d g).
Proof.
  induction n as [|n IH]; intros depth picks player d g Hn Hset HI HS; [discriminate|].
  destruct depth as [|depth]; [lia|].
  assert (lands n player (_handle_landing depth (tl picks) player d)) as Hland.
  { intros g' HI' HS' Hs'. apply IH; [lia | assumption | assumption | assumption]. }
  cbn [_handle_landing]. cbv zeta.
  pose proof Hset as Hset'. cbn [settles] in Hset'.
  destruct (Board.get_space (Player.position (the_player g player))) as [space|] eqn:Es;
    [|discriminate].
  cbv zeta in Hset'.
  destruct (sp_type space) eqn:Et;
    try (now apply property_landing_Shape);
    try (cbn [ShapeT]; shape_auto; fail).
  - (* tax *)
    destruct (sp_cost space) as [tax_amount|]; [|discriminate].
    destruct (Player.can_afford (the_player g player) tax_amount); cbn [ShapeT]; shape_auto.
  - (* chance *)
    apply handle_card_Shape with (n := n); [assumption | | assumption | assumption].
    apply (settles_cards n _ space CHANCE_CARDS Es); [left; now split | assumption].
  - (* community chest *)
    apply handle_card_Shape with (n := n); [assumption | | assumption | assumption].
    apply (settles_cards n _ space COMMUNITY_CHEST_CARDS Es); [right; now split | assumption].
Qed.

Lemma move_player_Shape picks player spaces d g :
  Inv g -> Shape g -> ShapeT (_move_player picks player spaces d g).
Proof.
  intros HI HS. unfold _move_player. cbv zeta.
  apply handle_landing_Shape with (n := 3%nat).
  - unfold RECURSION_DEPTH. lia.
  - apply every_square_settles. apply on_board_range.
    apply the_player_on_board.
    apply Shape_log_event.
    destruct (fst (Player.move_forward (the_player g player) spaces)); shape_auto.
  - apply Inv_log_event.
    destruct (fst (Player.move_forward (the_player g player) spaces)); inv_auto.
  - apply Shape_log_event.
    destruct (fst (Player.move_forward (the_player g player) spaces)); shape_auto.
Qed.

Lemma handle_jail_roll_Shape picks player d g :
  Inv g -> Shape g -> ShapeT (_handle_jail_roll picks player d g).
Proof.
  intros HI HS. unfold _handle_jail_roll. cbv zeta.
  destruct (DiceResult.is_double d).
  - apply move_player_Shape; [inv_auto | shape_auto].
  - destruct (MAX_JAIL_TURNS <=? Player.jail_turns (the_player g player));
      [|cbn [ShapeT]; shape_auto].
    destruct (Player.can_afford (the_player g player) JAIL_BAIL);
      [|cbn [ShapeT]; shape_auto].
    apply move_player_Shape; [inv_auto | shape_auto].
Qed.

(** ** The current player is defined *)

Lemma py_index_in_range {A} (l : list A) i :
  0 <= i < Z.of_nat (List.length l) -> exists x, py_index l i = Some x.
Proof.
  intros Hi. unfold py_index.
  replace ((0 <=? i) && (i <? Z.of_nat (List.length l))) with true
    by (symmetry; apply andb_true_iff; split; [apply Z.leb_le | apply Z.ltb_lt]; lia).
  destruct (nth_error l (Z.to_nat i)) eqn:E; [eauto|].
  apply nth_error_None in E. lia.
Qed.

Lemma current_player_key_defined g : Shape g -> exists k, current_player_key g = Some k.
Proof.
  intros HS. unfold current_player_key.
  destruct (player_order g) eqn:E; [eauto|]. rewrite <- E.
  destruct (py_index_in_range (player_order g) (current_player_index g)) as [k ->]; [|eauto].
  apply (shape_index _ HS). rewrite E. discriminate.
Qed.

Lemma current_player_defined g : Shape g -> exists c, current_player g = Some c.
Proof.
  intros HS. unfold current_player.
  destruct (current_player_key_defined g HS) as [[k|] ->]; eauto.
Qed.

Lemma current_player_id_defined g : Shape g -> exists c, current_player_id g = Some c.
Proof.
  intros HS. unfold current_player_id.
  destruct (current_player_defined g HS) as [[p|] ->]; eauto.
Qed.

Lemma roll_dice_Shape d picks pid g :
  Inv g -> Shape g -> ShapeT (roll_dice d picks pid g).
Proof.
  intros HI HS. unfold roll_dice.
  destruct (dict_get (players g) pid) as [player|]; [|assumption].
  destruct (current_player_id_defined g HS) as [current ->].
  cbv zeta.
  destruct (negb (ValidationResult.valid _)); [assumption|].
  destruct (PlayerState.eqb (Player.state player) PlayerState.IN_JAIL).
  - apply handle_jail_roll_Shape; [inv_auto | shape_auto].
  - destruct (DiceResult.is_double d).
    + destruct (3 <=? _).
      * cbn [ShapeT]. shape_auto.
      * apply move_player_Shape; [inv_auto | shape_auto].
    + apply move_player_Shape; [inv_auto | shape_auto].
Qed.

(** * Every public call returns and keeps the shape *)

Lemma ShapeT_bind {A B} (r : Result A) (k : A -> t -> Result B) :
  InvR r -> ShapeT r -> (forall a g, Inv g -> Shape g -> ShapeT (k a g)) ->
  ShapeT (bind r k).
Proof. destruct r; simpl; auto; contradiction. Qed.

Lemma forallb_impl {A} (P Q : A -> bool) l :
  (forall x, P x = true -> Q x = true) -> forallb P l = true -> forallb Q l = true.
Proof.
  intros H. rewrite !forallb_forall. auto.
Qed.

(** ** Turn advance *)

Lemma set_index_twice g x y :
  set_current_player_index (set_current_player_index g x) y = set_current_player_index g y.
Proof. reflexivity. Qed.

(** The loop of [_advance_turn] leaves after at most one round. *)
Lemma advance_loop_returns start fuel : forall e g,
  0 <= start < Z.of_nat (List.length (player_order g)) ->
  0 <= e < Z.of_nat (List.length (player_order g)) ->
  current_player_index g = (start + e) mod Z.of_nat (List.length (player_order g)) ->
  Z.of_nat (List.length (player_order g)) <= Z.of_nat fuel + e ->
  exists j, 0 <= j < Z.of_nat (List.length (player_order g))
            /\ advance_loop fuel start g = Ret tt (set_current_player_index g j).
Proof.
  induction fuel as [|fuel IH]; intros e g Hs He Hi Hf; [lia|].
  cbn [advance_loop]. cbv zeta.
  set (len := Z.of_nat (List.length (player_order g))) in *.
  set (j := (current_player_index g + 1) mod len).
  assert (0 <= j < len) as Hj by (apply Z.mod_pos_bound; lia).
  cbn [current_player_index set_current_player_index].
  destruct (Z.eqb_spec j start) as [Ej|Ej]; [eauto|].
  assert (j = (start + (e + 1)) mod len) as Hj'.
  { subst j. rewrite Hi, Z.add_mod_idemp_l by lia. f_equal. lia. }
  assert (e + 1 < len) as He'.
  { destruct (Z.eq_dec (e + 1) len) as [E|E]; [|lia].
    exfalso. apply Ej. rewrite Hj', E.
    rewrite <- (Z.mul_1_l len) at 1. rewrite Z.mod_add by lia.
    apply Z.mod_small. lia. }
  assert (exists k, py_index (player_order g) j = Some k) as [k Hk]
    by (apply py_index_in_range; exact Hj).
  assert (current_player (set_current_player_index g j)
          = Some (dict_get (players g) k)) as Hc.
  { rewrite current_player_seated.
    - cbn [player_order current_player_index players set_current_player_index].
      now rewrite Hk.
    - cbn [player_order set_current_player_index]. intros Eo.
      clear -Hs Eo. subst len. rewrite Eo in Hs. simpl in Hs. lia. }
  rewrite Hc.
  destruct (IH (e + 1) (set_current_player_index g j)) as (j' & Hj1 & Hj2);
    [exact Hs
    | cbn [player_order set_current_player_index]; fold len; lia
    | exact Hj'
    | cbn [player_order set_current_player_index]; fold len; lia |].
  rewrite set_index_twice in Hj2.
  destruct (dict_get (players g) k) as [next_player|].
  - destruct (not_bankrupt next_player); eauto.
  - eauto.
Qed.

Lemma Shape_reseat g j turn x :
  x <> GamePhase.WAITING ->
  0 <= j < Z.of_nat (List.length (player_order g)) ->
  Shape g ->
  Shape (set_phase (set_turn_number (set_current_player_index g j) turn) x).
Proof.
  intros Hx Hj [? ? ? ? ? ?]. constructor; simpl; auto; congruence.
Qed.

Lemma advance_turn_Shape g : Shape g -> ShapeT (_advance_turn g).
Proof.
  intros HS. unfold _advance_turn.
  destruct (player_order g) eqn:Eo; [assumption|]. rewrite <- Eo.
  assert (player_order g <> []) as Hne by (rewrite Eo; discriminate).
  pose proof (shape_index _ HS Hne) as Hi.
  destruct (advance_loop_returns (current_player_index g) (List.length (player_order g)) 0 g)
    as (j & Hj & ->); [lia | lia | | lia |].
  { rewrite Z.add_0_r. symmetry. apply Z.mod_small. lia. }
  cbn [bind]. cbv zeta.
  set (g2 := set_phase _ _).
  assert (Shape g2) as H2 by (apply Shape_reseat; [discriminate | assumption | assumption]).
  destruct (current_player_key_defined g2 H2) as [[k|] ->].
  - destruct (dict_get (players g2) k); cbn [ShapeT]; shape_auto.
  - cbn [ShapeT]. shape_auto.
Qed.

(** ** Bankruptcy *)

Lemma liquidate_hotel_Shape pos g : Inv g -> Shape g -> ShapeT (liquidate_hotel pos g).
Proof.
  intros HI HS. unfold liquidate_hotel.
  destruct (Board.get_property (board g) pos) as [prop|] eqn:Hg; [|assumption].
  destruct (Property.has_hotel prop) eqn:Hh; [|assumption].
  destruct (built_has_cost g pos prop HI Hg (or_intror Hh)) as [c Hc].
  unfold Property.sell_hotel, Property.half_house_cost.
  rewrite Hh, Hc. cbn [negb option_map ShapeT]. shape_auto.
Qed.

Lemma liquidate_houses_Shape n : forall pos g,
  Inv g -> Shape g -> ShapeT (liquidate_houses n pos g).
Proof.
  induction n as [|n IH]; intros pos g HI HS; simpl; [assumption|].
  destruct (Board.get_property (board g) pos) as [prop|] eqn:Hg; [|assumption].
  destruct (Z.ltb_spec 0 (Property.houses prop)) as [Hh|Hh]; [|assumption].
  pose proof (Inv_sell_house g pos prop HI Hg Hh) as HI'.
  destruct (built_has_cost g pos prop HI Hg (or_introl Hh)) as [c Hc].
  unfold Property.sell_house, Property.half_house_cost in *.
  destruct (Z.leb_spec (Property.houses prop) 0); [lia|].
  rewrite Hc in *. cbn [option_map] in *. apply IH; [exact HI' | shape_auto].
Qed.

Lemma return_to_bank_Shape pos g : Inv g -> Shape g -> ShapeT (return_to_bank pos g).
Proof.
  intros HI HS. unfold return_to_bank.
  destruct (Board.get_property (board g) pos); [|assumption].
  apply ShapeT_bind;
    [now apply liquidate_hotel_Inv | now apply liquidate_hotel_Shape |].
  intros _ g1 HI1 HS1.
  apply ShapeT_bind;
    [now apply liquidate_houses_Inv | now apply liquidate_houses_Shape |].
  intros _ g2 HI2 HS2. cbn [ShapeT]. shape_auto.
Qed.

Lemma return_all_to_bank_Shape l : forall g,
  Inv g -> Shape g -> ShapeT (return_all_to_bank l g).
Proof.
  induction l as [|pos l IH]; intros g HI HS; simpl; [assumption|].
  apply ShapeT_bind;
    [now apply return_to_bank_Inv | now apply return_to_bank_Shape | intros; now apply IH].
Qed.

Lemma give_to_creditor_Shape c l : forall g,
  Shape g -> Shape (fold_left (give_to_creditor c) l g).
Proof.
  induction l as [|pos l IH]; intros g HS; simpl; [assumption|].
  apply IH. unfold give_to_creditor.
  destruct (Board.get_property (board g) pos); [|assumption].
  shape_auto.
Qed.

Lemma handle_bankruptcy_Shape player creditor g :
  Inv g -> Shape g -> ShapeT (_handle_bankruptcy player creditor g).
Proof.
  intros HI HS. unfold _handle_bankruptcy. cbv beta zeta.
  destruct creditor as [c|].
  - cbn [ShapeT]. shape_auto. apply give_to_creditor_Shape. shape_auto.
  - apply ShapeT_bind;
      [now apply return_all_to_bank_Inv | now apply return_all_to_bank_Shape |].
    intros _ g1 HI1 HS1. cbn [ShapeT]. shape_auto.
Qed.

(** ** The lobby *)

Lemma GamePhase_eqb_eq a b : GamePhase.eqb a b = true -> a = b.
Proof. destruct a, b; simpl; congruence. Qed.

Lemma seated_in_app o x kp : seated_in o kp = true -> seated_in (o ++ [x]) kp = true.
Proof. unfold seated_in. rewrite existsb_app. now intros ->. Qed.

Lemma add_player_Shape uuid name pid g : Shape g -> ShapeT (add_player uuid name pid g).
Proof.
  intros HS. unfold add_player.
  destruct (negb (GamePhase.eqb (phase g) GamePhase.WAITING)) eqn:Eph; [assumption|].
  apply negb_false_iff, GamePhase_eqb_eq in Eph.
  destruct (max_players g <=? _); [assumption|].
  cbv zeta.
  set (player := match pid with
                 | Some pid => if String.eqb pid "" then Player.new name uuid
                               else Player.set_id (Player.new name uuid) pid
                 | None => Player.new name uuid
                 end).
  assert (on_board player = true) as Hon
    by (subst player; destruct pid as [pid|]; [destruct (String.eqb pid "")|]; reflexivity).
  cbn [ShapeT]. apply Shape_log_event.
  pose proof (shape_lobby _ HS Eph) as Hi.
  constructor; cbn [players player_order phase current_player_index cards
                    set_players set_player_order].
  - apply forallb_dict_set; [apply (shape_placed _ HS)|].
    unfold placed. cbn [fst snd]. now rewrite String.eqb_refl.
  - apply forallb_dict_set.
    + eapply forallb_impl; [|apply (shape_seated _ HS)].
      intros kp. apply seated_in_app.
    + unfold seated_in. cbn [fst]. rewrite existsb_app. simpl.
      now rewrite String.eqb_refl, orb_true_r.
  - intros _. exact Hi.
  - intros _. rewrite Hi, length_app. simpl. lia.
  - apply (shape_chance _ HS).
  - apply (shape_chest _ HS).
Qed.

Lemma list_remove_seats l x :
  existsb (String.eqb x) l = true ->
  exists l', list_remove l x = Some l'
             /\ forall y, y <> x -> existsb (String.eqb y) l' = existsb (String.eqb y) l.
Proof.
  induction l as [|a l IH]; simpl; [discriminate|].
  destruct (String.eqb_spec a x) as [->|Hne].
  - intros _. exists l. split; [reflexivity|]. intros y Hy.
    destruct (String.eqb_spec y x); [contradiction | reflexivity].
  - destruct (String.eqb_spec x a) as [->|_]; [contradiction|]. simpl. intros H.
    destruct (IH H) as (l' & -> & Hl'). exists (a :: l'). split; [reflexivity|].
    intros y Hy. simpl. now rewrite Hl'.
Qed.

Lemma dict_del_In {V} (d : list (string * V)) k k' v :
  distinct_str (map fst d) = true -> In (k', v) (dict_del d k) -> k' <> k /\ In (k', v) d.
Proof.
  induction d as [|[k0 v0] r IH]; simpl; [contradiction|].
  intros Hd. apply andb_prop in Hd. destruct Hd as [H0 Hd]. apply negb_true_iff in H0.
  destruct (String.eqb_spec k0 k) as [->|Hne].
  - intros Hin. split; [|now right]. intros ->.
    assert (existsb (String.eqb k) (map fst r) = true) as Hc; [|congruence].
    apply existsb_exists. exists k. split; [|apply String.eqb_refl].
    apply in_map_iff. now exists (k, v).
  - intros [[= <- <-]|Hin]; [split; [assumption | now left]|].
    destruct (IH Hd Hin). split; [assumption | now right].
Qed.

Lemma remove_player_Shape pid g : Inv g -> Shape g -> ShapeT (remove_player pid g).
Proof.
  intros HI HS. unfold remove_player. cbv beta zeta.
  destruct (dict_get (players g) pid) as [player|] eqn:Eg; [|assumption].
  destruct (GamePhase.eqb (phase g) GamePhase.WAITING) eqn:Eph.
  - apply GamePhase_eqb_eq in Eph.
    cbn [player_order set_players].
    pose proof (forallb_In _ _ _ (shape_seated _ HS) (dict_get_In _ _ _ Eg)) as Hseat.
    unfold seated_in in Hseat. cbn [fst] in Hseat.
    destruct (list_remove_seats _ _ Hseat) as (order & -> & Ho).
    cbn [ShapeT]. apply Shape_log_event.
    pose proof (shape_lobby _ HS Eph) as Hi.
    pose proof (inv_players _ HI) as Hwf. unfold players_wf in Hwf.
    apply andb_prop in Hwf. destruct Hwf as [Hd _].
    constructor; cbn [players player_order phase current_player_index cards
                      set_players set_player_order].
    + apply forallb_dict_del, (shape_placed _ HS).
    + apply forallb_forall. intros [k p] Hin.
      destruct (dict_del_In _ _ _ _ Hd Hin) as [Hne Hin'].
      unfold seated_in. cbn [fst]. rewrite Ho by assumption.
      apply (forallb_In _ _ _ (shape_seated _ HS) Hin').
    + intros _. exact Hi.
    + intros Hne. rewrite Hi. destruct order; [congruence | simpl; lia].
    + apply (shape_chance _ HS).
    + apply (shape_chest _ HS).
  - apply ShapeT_bind;
      [now apply handle_bankruptcy_Inv | now apply handle_bankruptcy_Shape |].
    intros _ g1 HI1 HS1. cbn [ShapeT]. shape_auto.
Qed.

Lemma existsb_perm {A} (f : A -> bool) l l' :
  Permutation l l' -> existsb f l = existsb f l'.
Proof.
  induction 1 as [|x l l' _ IH|x y l|l l' l'' _ IH1 _ IH2]; simpl.
  - reflexivity.
  - now rewrite IH.
  - destruct (f x), (f y); reflexivity.
  - congruence.
Qed.

Lemma start_game_Shape picks g : Shape g -> ShapeT (start_game picks g).
Proof.
  intros HS. unfold start_game.
  destruct (negb (GamePhase.eqb (phase g) GamePhase.WAITING)) eqn:Eph; [assumption|].
  apply negb_false_iff, GamePhase_eqb_eq in Eph.
  destruct (_ <? min_players g); [assumption|].
  cbv zeta.
  set (g2 := set_turn_number _ 1).
  assert (Shape g2) as H2.
  { pose proof (shape_lobby _ HS Eph) as Hi.
    pose proof (shuffle_permutation picks (player_order g)) as Hp.
    subst g2.
    constructor; cbn [players player_order phase current_player_index cards
                      set_turn_number set_phase set_player_order].
    - apply (shape_placed _ HS).
    - eapply forallb_impl; [|apply (shape_seated _ HS)].
      intros kp. unfold seated_in. now rewrite (existsb_perm _ _ _ Hp).
    - discriminate.
    - intros Hne. rewrite (Permutation_length Hp). apply (shape_index _ HS).
      intros E. rewrite E in Hp. apply Permutation_sym, Permutation_nil in Hp. congruence.
    - apply (shape_chance _ HS).
    - apply (shape_chest _ HS). }
  destruct (current_player_key_defined g2 H2) as [[k|] ->]; cbn [ShapeT]; shape_auto.
Qed.

(** ** The gameplay calls *)

Ltac admitted_tac :=
  cbn [negb ValidationResult.valid ValidationResult.failure ValidationResult.success ShapeT];
  try assumption.

Lemma buy_property_Shape pid g : Shape g -> ShapeT (buy_property pid g).
Proof.
  intros HS. unfold buy_property.
  destruct (dict_get (players g) pid) as [player|]; [|assumption].
  destruct (current_player_id_defined g HS) as [current ->]. cbv zeta.
  unfold RuleEngine.validate_buy_property.
  destruct (negb (String.eqb (Player.id player) current)); [admitted_tac|].
  destruct (negb (GamePhase.eqb (phase g) GamePhase.PROPERTY_DECISION)); [admitted_tac|].
  destruct (negb (Player.position player =? Player.position player)); [admitted_tac|].
  destruct (Board.get_property (board g) (Player.position player)) as [prop|];
    [|admitted_tac].
  destruct (Property.is_owned prop); [admitted_tac|].
  destruct (negb (Player.can_afford player (Property.cost prop))); admitted_tac.
  shape_auto.
Qed.

Lemma decline_property_Shape pid g : Shape g -> ShapeT (decline_property pid g).
Proof.
  intros HS. unfold decline_property.
  destruct (dict_get (players g) pid) as [player|]; [|assumption].
  destruct (negb (GamePhase.eqb (phase g) GamePhase.PROPERTY_DECISION)); [assumption|].
  destruct (current_player_id_defined g HS) as [current ->].
  destruct (negb (String.eqb (Player.id player) current)); [assumption|].
  cbn [ShapeT]. shape_auto.
Qed.

Lemma build_house_Shape pid pos g : Shape g -> ShapeT (build_house pid pos g).
Proof.
  intros HS. unfold build_house.
  destruct (dict_get (players g) pid) as [player|]; [|assumption].
  destruct (current_player_id_defined g HS) as [current ->]. cbv zeta.
  unfold RuleEngine.validate_build_house.
  destruct (negb (String.eqb (Player.id player) current)); [admitted_tac|].
  destruct (Board.get_property (board g) pos) as [prop|]; [|admitted_tac].
  repeat match goal with
         | |- context [ValidationResult.valid (if ?c then _ else _)] =>
             destruct c; [admitted_tac|]
         end.
  destruct (Property.house_cost prop) as [c|]; [|admitted_tac].
  destruct (negb (Player.can_afford player c)); admitted_tac.
  shape_auto.
Qed.

Lemma build_hotel_Shape pid pos g : Shape g -> ShapeT (build_hotel pid pos g).
Proof.
  intros HS. unfold build_hotel.
  destruct (dict_get (players g) pid) as [player|]; [|assumption].
  destruct (current_player_id_defined g HS) as [current ->]. cbv zeta.
  unfold RuleEngine.validate_build_hotel.
  destruct (negb (String.eqb (Player.id player) current)); [admitted_tac|].
  destruct (Board.get_property (board g) pos) as [prop|]; [|admitted_tac].
  repeat match goal with
         | |- context [ValidationResult.valid (if ?c then _ else _)] =>
             destruct c; [admitted_tac|]
         end.
  destruct (Property.house_cost prop) as [c|]; [|admitted_tac].
  destruct (negb (Player.can_afford player c)); admitted_tac.
  shape_auto.
Qed.

Lemma sell_building_Shape pid pos g : Inv g -> Shape g -> ShapeT (sell_building pid pos g).
Proof.
  intros HI HS. unfold sell_building.
  destruct (dict_get (players g) pid) as [player|]; [|assumption]. cbv beta zeta.
  unfold RuleEngine.validate_sell_house.
  destruct (Board.get_property (board g) pos) as [prop|] eqn:Hg; [|admitted_tac].
  destruct (negb (Board.owned_by (Player.id player) prop)); [admitted_tac|].
  destruct ((Property.houses prop <=? 0) && negb (Property.has_hotel prop)) eqn:Eb;
    [admitted_tac|].
  match goal with |- ShapeT (if negb (ValidationResult.valid ?v) then _ else _) =>
    destruct (negb (ValidationResult.valid v)); [assumption|] end.
  assert (0 < Property.houses prop \/ Property.has_hotel prop = true) as Hbuilt.
  { destruct (Property.has_hotel prop); [now right|]. left.
    rewrite andb_true_r in Eb. apply Z.leb_gt in Eb. exact Eb. }
  destruct (built_has_cost g pos prop HI Hg Hbuilt) as [c Hc].
  destruct (Property.has_hotel prop) eqn:Hh.
  - unfold Property.sell_hotel, Property.half_house_cost.
    rewrite Hh, Hc. cbn [negb option_map snd ShapeT]. shape_auto.
  - destruct Hbuilt as [Hbuilt|]; [|discriminate].
    unfold Property.sell_house, Property.half_house_cost.
    destruct (Z.leb_spec (Property.houses prop) 0); [lia|].
    rewrite Hc. cbn [option_map snd ShapeT]. shape_auto.
Qed.

Lemma mortgage_property_Shape pid pos g : Shape g -> ShapeT (mortgage_property pid pos g).
Proof.
  intros HS. unfold mortgage_property.
  destruct (dict_get (players g) pid) as [player|]; [|assumption]. cbv beta zeta.
  unfold RuleEngine.validate_mortgage.
  destruct (Board.get_property (board g) pos) as [prop|]; [|admitted_tac].
  destruct (negb (ValidationResult.valid _)); [assumption|].
  destruct (Property.mortgage prop) as [v prop1]. cbn [ShapeT]. shape_auto.
Qed.

Lemma unmortgage_property_Shape pid pos g :
  Shape g -> ShapeT (unmortgage_property pid pos g).
Proof.
  intros HS. unfold unmortgage_property.
  destruct (dict_get (players g) pid) as [player|]; [|assumption]. cbv beta zeta.
  unfold RuleEngine.validate_unmortgage.
  destruct (Board.get_property (board g) pos) as [prop|]; [|admitted_tac].
  destruct (negb (ValidationResult.valid _)); [assumption|].
  cbn [ShapeT]. shape_auto.
Qed.

Lemma pay_bail_Shape pid g : Shape g -> ShapeT (pay_bail pid g).
Proof.
  intros HS. unfold pay_bail.
  destruct (dict_get (players g) pid) as [player|]; [|assumption].
  destruct (current_player_id_defined g HS) as [current ->]. cbv zeta.
  destruct (negb (ValidationResult.valid _)); [assumption|].
  cbn [ShapeT]. shape_auto.
Qed.

Lemma use_jail_card_Shape pid g : Shape g -> ShapeT (use_jail_card pid g).
Proof.
  intros HS. unfold use_jail_card.
  destruct (dict_get (players g) pid) as [player|]; [|assumption].
  destruct (current_player_id_defined g HS) as [current ->]. cbv zeta.
  destruct (negb (ValidationResult.valid _)); [assumption|].
  cbn [ShapeT]. apply Shape_log_event.
  set (g1 := update_player g pid _).
  assert (Shape g1) as H1 by (subst g1; shape_auto).
  apply Shape_set_cards; [| |assumption].
  - apply return_card_complete, (shape_chance _ H1).
  - apply (shape_chest _ H1).
Qed.

Lemma end_game_Shape g : Shape g -> Shape (_end_game g).
Proof. intros HS. unfold _end_game. cbv zeta. destruct (active_players _); shape_auto. Qed.

Lemma end_turn_Shape pid g : Inv g -> Shape g -> ShapeT (end_turn pid g).
Proof.
  intros HI HS. unfold end_turn.
  destruct (dict_get (players g) pid) as [player|]; [|assumption].
  destruct (current_player_id_defined g HS) as [current ->]. cbv beta zeta.
  destruct (negb (ValidationResult.valid _)); [assumption|].
  match goal with |- ShapeT (if ?c then _ else _) => destruct c end;
    [cbn [ShapeT]; shape_auto|].
  destruct (is_game_over g); [now apply end_game_Shape|].
  apply ShapeT_bind; [now apply advance_turn_Inv | now apply advance_turn_Shape|].
  intros _ g1 HI1 HS1.
  destruct (current_player_defined g1 HS1) as [[p|] ->]; assumption.
Qed.

Lemma declare_bankruptcy_Shape pid creditor g :
  Inv g -> Shape g -> ShapeT (declare_bankruptcy pid creditor g).
Proof.
  intros HI HS. unfold declare_bankruptcy.
  destruct (dict_get (players g) pid) as [player|]; [|assumption]. cbv beta zeta.
  apply ShapeT_bind;
    [now apply handle_bankruptcy_Inv | now apply handle_bankruptcy_Shape|].
  intros _ g1 HI1 HS1.
  destruct (is_game_over g1); [now apply end_game_Shape|].
  destruct (current_player_defined g1 HS1) as [[p|] ->]; [|assumption].
  destruct (String.eqb (Player.id p) pid); [|assumption].
  apply ShapeT_bind; [now apply advance_turn_Inv | now apply advance_turn_Shape|].
  intros; assumption.
Qed.

(** * The shape of every reachable game *)

Lemma new_Shape id name now maxp pc pcc : Shape (Game.new id name now maxp pc pcc).
Proof.
  constructor; simpl; try reflexivity.
  - congruence.
  - apply fresh_deck_complete.
  - apply fresh_deck_complete.
Qed.

Lemma save_load_Shape now pc pcc g g' :
  Inv g -> Shape g -> from_dict now pc pcc (to_dict g) = Some g' -> Shape g'.
Proof.
  intros HI HS. rewrite from_to_dict. intros [= <-].
  pose proof (inv_players _ HI) as Hwf. unfold players_wf in Hwf.
  apply andb_prop in Hwf. destruct Hwf as [Hd _].
  constructor; cbn [players player_order phase current_player_index cards].
  - rewrite players_fold_load; [|assumption | reflexivity]. cbn [app].
    rewrite forallb_of_map. apply (shape_placed _ HS).
  - rewrite players_fold_load; [|assumption | reflexivity]. cbn [app].
    rewrite forallb_of_map. apply (shape_seated _ HS).
  - apply (shape_lobby _ HS).
  - apply (shape_index _ HS).
  - apply fresh_deck_complete.
  - apply fresh_deck_complete.
Qed.

Lemma ShapeT_outcome {A} (r : Result A) g' : ShapeT r -> outcome r = Some g' -> Shape g'.
Proof. destruct r; simpl; intros H E; [injection E as <-; assumption | contradiction | discriminate]. Qed.

Lemma ShapeT_returned {A} (r : Result A) : ShapeT r -> returned r = true.
Proof. destruct r; simpl; [reflexivity | contradiction | contradiction]. Qed.

Lemma op_ShapeT op g :
  Inv g -> Shape g ->
  match op with
  | AddPlayer uuid name pid => ShapeT (Game.add_player uuid name pid g)
  | RemovePlayer pid => ShapeT (Game.remove_player pid g)
  | StartGame picks => ShapeT (Game.start_game picks g)
  | RollDice rolled picks pid => ShapeT (Game.roll_dice rolled picks pid g)
  | BuyProperty pid => ShapeT (Game.buy_property pid g)
  | DeclineProperty pid => ShapeT (Game.decline_property pid g)
  | BuildHouse pid pos => ShapeT (Game.build_house pid pos g)
  | BuildHotel pid pos => ShapeT (Game.build_hotel pid pos g)
  | SellBuilding pid pos => ShapeT (Game.sell_building pid pos g)
  | MortgageProperty pid pos => ShapeT (Game.mortgage_property pid pos g)
  | UnmortgageProperty pid pos => ShapeT (Game.unmortgage_property pid pos g)
  | PayBail pid => ShapeT (Game.pay_bail pid g)
  | UseJailCard pid => ShapeT (Game.use_jail_card pid g)
  | EndTurn pid => ShapeT (Game.end_turn pid g)
  | DeclareBankruptcy pid creditor => ShapeT (Game.declare_bankruptcy pid creditor g)
  | SaveLoad now pc pcc => True
  end.
Proof.
  intros HI HS. destruct op.
  - now apply add_player_Shape.
  - now apply remove_player_Shape.
  - now apply start_game_Shape.
  - now apply roll_dice_Shape.
  - now apply buy_property_Shape.
  - now apply decline_property_Shape.
  - now apply build_house_Shape.
  - now apply build_hotel_Shape.
  - now apply sell_building_Shape.
  - now apply mortgage_property_Shape.
  - now apply unmortgage_property_Shape.
  - now apply pay_bail_Shape.
  - now apply use_jail_card_Shape.
  - now apply end_turn_Shape.
  - now apply declare_bankruptcy_Shape.
  - exact I.
Qed.

Lemma step_Shape op g g' : Inv g -> Shape g -> step op g = Some g' -> Shape g'.
Proof.
  intros HI HS. pose proof (op_ShapeT op g HI HS) as H.
  destruct op; simpl; try (now apply ShapeT_outcome).
  now apply save_load_Shape.
Qed.

Lemma reachable_Shape g : reachable g -> Shape g.
Proof.
  induction 1 as [| op g g' Hr IH Hok Hstep]; [apply new_Shape|].
  eapply step_Shape; [apply reachable_Inv | |]; eauto.
Qed.

(** * Properties of every reachable game *)

(** The scenario games are reachable. *)
Lemma first_purchase_reachable : reachable first_purchase.
Proof. apply reachable_play; [reflexivity|]. vm_compute. discriminate. Qed.

Lemma bank_empty_reachable : reachable bank_empty.
Proof. apply reachable_play; [reflexivity|]. vm_compute. discriminate. Qed.

(** X1.  No public method of [Game] raises an exception or loops in a game
    reached through the public methods: each of the sixteen calls returns
    (the lookup of the current player stays in range, every rent table entry
    and tax amount is found, a drawn deck is never empty, a chain of card
    moves ends within three landings, the loop of [_advance_turn] leaves
    within one round), and the state sent to a client can be built. *)
Theorem public_calls_always_return op g :
  reachable g ->
  call_returns op g = true
  /\ forall player_id, Game.get_state_for_player player_id g <> None.
Proof.
  intros Hr. pose proof (reachable_Inv g Hr) as HI. pose proof (reachable_Shape g Hr) as HS.
  split.
  - pose proof (op_ShapeT op g HI HS) as H.
    destruct op; cbn [call_returns]; try (now apply ShapeT_returned).
    now rewrite from_to_dict.
  - intros pid. unfold Game.get_state_for_player.
    destruct (current_player_defined g HS) as [c ->]. discriminate.
Qed.

(** X2.  In every reachable game each player is stored under its own id,
    stands on one of the squares 0..39 and has a seat in [player_order];
    once there are seats, [current_player_index] designates one of them, and
    it is 0 as long as the game waits in the lobby. *)
Theorem players_are_seated g :
  reachable g ->
  (forall k p, dict_get (players g) k = Some p ->
     Player.id p = k /\ 0 <= Player.position p < BOARD_SIZE /\ In k (player_order g))
  /\ (player_order g <> [] ->
        0 <= current_player_index g < Z.of_nat (List.length (player_order g)))
  /\ (phase g = GamePhase.WAITING -> current_player_index g = 0).
Proof.
  intros Hr. pose proof (reachable_Shape g Hr) as HS.
  split; [|split; [apply (shape_index _ HS) | apply (shape_lobby _ HS)]].
  intros k p Hg. destruct (get_placed g k p HS Hg) as [Hid Hon].
  split; [exact Hid|]. split; [now apply on_board_range|].
  pose proof (forallb_In _ _ _ (shape_seated _ HS) (dict_get_In _ _ _ Hg)) as Hs.
  unfold seated_in in Hs. cbn [fst] in Hs.
  apply existsb_exists in Hs. destruct Hs as (x & Hx & E).
  apply String.eqb_eq in E. now subst x.
Qed.

(** X3.  In every reachable game each of the two decks holds only cards of
    its own table, and each of the table's fifteen ordinary cards (those not
    kept by the player) exactly once, spread over the draw pile and the
    discard pile: drawing and reshuffling neither lose nor duplicate a
    card. *)
Theorem decks_stay_complete g ct :
  reachable g ->
  incl (pile (deck_of ct (cards g))) (card_table ct)
  /\ Permutation (filter ordinary (pile (deck_of ct (cards g))))
                 (filter ordinary (card_table ct))
  /\ (15 <= List.length (pile (deck_of ct (cards g))))%nat.
Proof.
  intros Hr. pose proof (reachable_Shape g Hr) as HS.
  assert (deck_complete ct (deck_of ct (cards g))) as [Hi Hp]
    by (destruct ct; [apply (shape_chance _ HS) | apply (shape_chest _ HS)]).
  split; [exact Hi|]. split; [exact Hp|].
  pose proof (Permutation_length Hp) as Hl.
  pose proof (filter_length_le ordinary (pile (deck_of ct (cards g)))) as Hle.
  assert (List.length (filter ordinary (card_table ct)) = 15%nat) as E
    by (destruct ct; reflexivity).
  lia.
Qed.

(** X4.  [CardDeck.draw] fails (the [IndexError] of [pop(0)]) only on a deck
    whose two piles are both empty.  Otherwise it returns a card that was in
    the deck, after reshuffling the discard pile into an empty draw pile, and
    conserves the cards: the deck afterwards holds the same cards, less the
    drawn one when it is a card the player keeps. *)
Theorem draw_conserves_cards picks d :
  match CardDeck.draw picks d with
  | (None, _) => pile d = []
  | (Some card, d') =>
      In card (pile d)
      /\ Permutation (pile d) (if Card.keep card then card :: pile d' else pile d')
      /\ CardDeck.card_type d' = CardDeck.card_type d
  end.
Proof.
  unfold CardDeck.draw, pile.
  destruct (CardDeck.cards d) as [|c l] eqn:E.
  - cbn [CardDeck.cards app].
    pose proof (shuffle_permutation picks (CardDeck.discard d)) as Hp.
    destruct (shuffle picks (CardDeck.discard d)) as [|card rest] eqn:Es.
    + apply Permutation_nil in Hp. exact Hp.
    + assert (In card (CardDeck.discard d)) as Hin
        by (eapply Permutation_in; [exact Hp | now left]).
      destruct (Card.keep card) eqn:Ek; cbn [negb CardDeck.cards CardDeck.discard
                                               CardDeck.card_type app]; rewrite Ek.
      * split; [exact Hin|]. split; [|reflexivity].
        rewrite app_nil_r. now apply Permutation_sym.
      * split; [exact Hin|]. split; [|reflexivity].
        apply Permutation_sym. etransitivity; [|exact Hp].
        apply Permutation_sym. exact (Permutation_app_comm [card] rest).
  - rewrite E.
    destruct (Card.keep c) eqn:Ek; cbn [negb CardDeck.cards CardDeck.discard
                                          CardDeck.card_type app]; rewrite Ek.
    + split; [now left|]. split; reflexivity.
    + split; [now left|]. split; [|reflexivity].
      rewrite app_assoc.
      exact (Permutation_app_comm [c] (l ++ CardDeck.discard d)).
Qed.

(** X5.  In every reachable game the board holds the properties created by
    [_initialize_properties] with their position, name, type, cost, group,
    rent table and house cost untouched, and the buildings are regular:
    between 0 and 4 houses on a property, no house beside a hotel, and
    buildings on streets only. *)
Theorem board_stays_regular g :
  reachable g ->
  map static_part (board g) = map static_part Board.new
  /\ forall pos prop, Board.get_property (board g) pos = Some prop ->
       0 <= Property.houses prop <= 4
       /\ (Property.has_hotel prop = true -> Property.houses prop = 0)
       /\ (0 < Property.houses prop \/ Property.has_hotel prop = true ->
             Property.space_type prop = SpaceType.PROPERTY).
Proof.
  intros Hr. destruct (reachable_regular g Hr) as (Hl & Hb & _).
  split; [exact Hl|]. intros pos prop Hg.
  pose proof (buildings_ok_get _ _ _ Hb Hg) as Hp.
  destruct (building_ok_elim _ Hp) as (H1 & H2 & H3).
  split; [exact H1|]. split; [exact H2|].
  intros Hbuilt. apply H3. exact Hbuilt.
Qed.

(** X6.  In every reachable game the houses in the bank and the houses on
    the board add up to 32, and the hotels in the bank and on the board to
    12: building, selling, liquidating at a bankruptcy and loading a saved
    game move buildings between bank and board without creating or losing
    one. *)
Theorem buildings_are_conserved g :
  reachable g ->
  RuleEngine.houses_available (rules g) + houses_in_use (board g) = TOTAL_HOUSES
  /\ RuleEngine.hotels_available (rules g) + hotels_in_use (board g) = TOTAL_HOTELS.
Proof. intros Hr. now apply reachable_conservation. Qed.

(** * The table once play has begun *)

Lemma table_refl g : same_table g g.
Proof. repeat split; auto. Qed.

Lemma table_same g0 g g' :
  player_order g' = player_order g -> map fst (players g') = map fst (players g) ->
  (phase g' = GamePhase.WAITING -> phase g = GamePhase.WAITING) ->
  same_table g0 g -> same_table g0 g'.
Proof.
  intros Ho Hk Hp (H1 & H2 & H3). unfold same_table. rewrite Ho, Hk.
  split; [assumption|]. split; [assumption|]. intros H0 E. apply (H3 H0). auto.
Qed.

Lemma table_set_phase g0 g x :
  x <> GamePhase.WAITING -> same_table g0 g -> same_table g0 (set_phase g x).
Proof. intros Hx. apply table_same; try reflexivity. simpl. congruence. Qed.
Lemma table_set_turn_number g0 g x : same_table g0 g -> same_table g0 (set_turn_number g x).
Proof. apply table_same; auto. Qed.
Lemma table_set_index g0 g x :
  same_table g0 g -> same_table g0 (set_current_player_index g x).
Proof. apply table_same; auto. Qed.
Lemma table_set_last_dice_roll g0 g x :
  same_table g0 g -> same_table g0 (set_last_dice_roll g x).
Proof. apply table_same; auto. Qed.
Lemma table_set_winner_id g0 g x : same_table g0 g -> same_table g0 (set_winner_id g x).
Proof. apply table_same; auto. Qed.
Lemma table_set_board g0 g x : same_table g0 g -> same_table g0 (set_board g x).
Proof. apply table_same; auto. Qed.
Lemma table_set_rules g0 g x : same_table g0 g -> same_table g0 (set_rules g x).
Proof. apply table_same; auto. Qed.
Lemma table_set_cards g0 g x : same_table g0 g -> same_table g0 (set_cards g x).
Proof. apply table_same; auto. Qed.
Lemma table_log_event g0 g ty d : same_table g0 g -> same_table g0 (_log_event g ty d).
Proof. apply table_same; auto. Qed.

Lemma table_update_property g0 g pos f :
  same_table g0 g -> same_table g0 (update_property g pos f).
Proof.
  unfold update_property. destruct (Board.get_property _ _); [apply table_set_board | auto].
Qed.

Lemma keys_dict_set_present {V} (d : list (string * V)) k v w :
  dict_get d k = Some v -> map fst (dict_set d k w) = map fst d.
Proof.
  induction d as [|[k' v'] r IH]; simpl; [discriminate|].
  destruct (String.eqb k' k); [reflexivity|]. intros H. simpl. now rewrite IH.
Qed.

Lemma table_update_player g0 g k f :
  same_table g0 g -> same_table g0 (update_player g k f).
Proof.
  unfold update_player. destruct (dict_get (players g) k) eqn:E; [|auto].
  apply table_same; try reflexivity; auto.
  simpl. eapply keys_dict_set_present; eauto.
Qed.

Lemma keys_collect_from value drawer ps :
  map fst (fst (collect_from value drawer ps)) = map fst ps.
Proof.
  induction ps as [|[k p] r IH]; simpl; [reflexivity|].
  destruct (collect_from value drawer r) as [r' total]. simpl in IH.
  destruct (not_bankrupt p && negb (String.eqb (Player.id p) drawer)); simpl;
    now rewrite IH.
Qed.

Lemma keys_pay_each value drawer ps : map fst (pay_each value drawer ps) = map fst ps.
Proof.
  unfold pay_each. rewrite map_map. apply map_ext. intros [k p]. simpl.
  destruct (not_bankrupt p && negb (String.eqb (Player.id p) drawer)); reflexivity.
Qed.

Lemma table_set_players g0 g ps :
  map fst ps = map fst (players g) -> same_table g0 g -> same_table g0 (set_players g ps).
Proof. intros H. apply table_same; auto. Qed.

Lemma TableR_bind {A B} g0 (r : Result A) (k : A -> t -> Result B) :
  TableR g0 r -> (forall a g, same_table g0 g -> TableR g0 (k a g)) -> TableR g0 (bind r k).
Proof. destruct r; simpl; auto. Qed.

Ltac table_auto :=
  repeat first
    [ assumption
    | exact I
    | apply table_refl
    | apply table_log_event
    | apply table_set_phase; [discriminate|]
    | apply table_set_turn_number
    | apply table_set_index
    | apply table_set_last_dice_roll
    | apply table_set_winner_id
    | apply table_set_board
    | apply table_set_rules
    | apply table_set_cards
    | apply table_update_property
    | apply table_update_player
    | apply table_set_players; [apply keys_pay_each|]
    | match goal with
      | |- same_table _ (match ?x with _ => _ end) => let E := fresh "E" in destruct x eqn:E
      end ].

Ltac table_destruct :=
  repeat match goal with
         | |- TableR _ (match ?x with _ => _ end) => let E := fresh "E" in destruct x eqn:E
         | |- TableR _ (bind _ _) => apply TableR_bind; [| intros ? ? ?]
         end.

Ltac table_go := cbv beta zeta; table_destruct; cbn [TableR]; table_auto.

Lemma execute_card_Table g0 landing player card d g :
  (forall g', same_table g0 g' -> TableR g0 (landing g')) ->
  same_table g0 g -> TableR g0 (_execute_card landing player card d g).
Proof.
  intros Hland HT. unfold _execute_card.
  destruct (Card.action card); cbv zeta;
    try (apply Hland; table_auto); try (cbn [TableR]; table_auto; fail).
  pose proof (keys_collect_from (Card.value card) (Player.id (the_player g player))
                (players g)) as Hk.
  destruct (collect_from _ _ _) as [ps total]. cbn [fst] in Hk.
  cbn [TableR]. table_auto. now apply table_set_players.
Qed.

Lemma handle_landing_Table g0 depth : forall picks player d g,
  same_table g0 g -> TableR g0 (_handle_landing depth picks player d g).
Proof.
  induction depth as [|depth IH]; intros picks player d g HT; simpl; [assumption|].
  destruct (Board.get_space (Player.position (the_player g player))) as [space|];
    [|assumption].
  assert (forall ct, TableR g0 (_handle_card (_handle_landing depth (tl picks) player d)
                                  (hd [] picks) player ct d g)) as Hcard.
  { intros ct. unfold _handle_card.
    destruct (match ct with
              | CardType.CHANCE => CardManager.draw_chance (hd [] picks) (cards g)
              | CardType.COMMUNITY_CHEST =>
                  CardManager.draw_community_chest (hd [] picks) (cards g)
              end) as [[card|] cards1]; [|cbn [TableR]; table_auto].
    apply execute_card_Table; [intros; now apply IH | table_auto]. }
  destruct (sp_type space); try apply Hcard;
    try (unfold _handle_property_landing; table_go; fail);
    table_go.
Qed.

Lemma move_player_Table g0 picks player spaces d g :
  same_table g0 g -> TableR g0 (_move_player picks player spaces d g).
Proof.
  intros HT. unfold _move_player. cbv zeta. apply handle_landing_Table. table_auto.
Qed.

Lemma handle_jail_roll_Table g0 picks player d g :
  same_table g0 g -> TableR g0 (_handle_jail_roll picks player d g).
Proof.
  intros HT. unfold _handle_jail_roll. cbv zeta.
  destruct (DiceResult.is_double d).
  - apply move_player_Table. table_auto.
  - destruct (MAX_JAIL_TURNS <=? Player.jail_turns (the_player g player));
      [|cbn [TableR]; table_auto].
    destruct (Player.can_afford (the_player g player) JAIL_BAIL);
      [|cbn [TableR]; table_auto].
    apply move_player_Table. table_auto.
Qed.

Lemma roll_dice_Table g0 d picks pid g :
  same_table g0 g -> TableR g0 (roll_dice d picks pid g).
Proof.
  intros HT. unfold roll_dice.
  destruct (dict_get (players g) pid) as [player|]; [|assumption].
  destruct (current_player_id g) as [current|]; [|assumption]. cbv zeta.
  destruct (negb (ValidationResult.valid _)); [assumption|].
  destruct (PlayerState.eqb (Player.state player) PlayerState.IN_JAIL).
  - apply handle_jail_roll_Table. table_auto.
  - destruct (DiceResult.is_double d).
    + destruct (3 <=? _).
      * cbn [TableR]. table_auto.
      * apply move_player_Table. table_auto.
    + apply move_player_Table. table_auto.
Qed.

Lemma advance_loop_Table g0 fuel : forall start g,
  same_table g0 g -> TableR g0 (advance_loop fuel start g).
Proof.
  induction fuel as [|fuel IH]; intros start g HT; simpl; [exact I|].
  table_go; apply IH; table_auto.
Qed.

Lemma advance_turn_Table g0 g : same_table g0 g -> TableR g0 (_advance_turn g).
Proof.
  intros HT. unfold _advance_turn.
  destruct (player_order g); [assumption|].
  apply TableR_bind; [now apply advance_loop_Table|]. intros _ g1 H1. table_go.
Qed.

Lemma liquidate_houses_Table g0 n : forall pos g,
  same_table g0 g -> TableR g0 (liquidate_houses n pos g).
Proof.
  induction n as [|n IH]; intros pos g HT; simpl; [assumption|].
  destruct (Board.get_property (board g) pos) as [prop|]; [|assumption].
  destruct (0 <? Property.houses prop); [|assumption].
  destruct (Property.sell_house prop) as [[refund|] prop1]; [apply IH|cbn [TableR]];
    table_auto.
Qed.

Lemma return_all_to_bank_Table g0 l : forall g,
  same_table g0 g -> TableR g0 (return_all_to_bank l g).
Proof.
  induction l as [|pos l IH]; intros g HT; simpl; [assumption|].
  apply TableR_bind; [|intros; now apply IH].
  unfold return_to_bank.
  destruct (Board.get_property (board g) pos); [|assumption].
  apply TableR_bind.
  - unfold liquidate_hotel.
    destruct (Board.get_property (board g) pos) as [prop|]; [|assumption].
    destruct (Property.has_hotel prop); [|assumption].
    destruct (Property.sell_hotel prop) as [[refund|] prop1]; cbn [TableR]; table_auto.
  - intros _ g1 H1. apply TableR_bind; [now apply liquidate_houses_Table|].
    intros _ g2 H2. cbn [TableR]. table_auto.
Qed.

Lemma give_to_creditor_Table g0 c l : forall g,
  same_table g0 g -> same_table g0 (fold_left (give_to_creditor c) l g).
Proof.
  induction l as [|pos l IH]; intros g HT; simpl; [assumption|].
  apply IH. unfold give_to_creditor.
  destruct (Board.get_property (board g) pos); table_auto.
Qed.

Lemma handle_bankruptcy_Table g0 player creditor g :
  same_table g0 g -> TableR g0 (_handle_bankruptcy player creditor g).
Proof.
  intros HT. unfold _handle_bankruptcy. cbv beta zeta.
  destruct creditor as [c|].
  - cbn [TableR]. table_auto. apply give_to_creditor_Table. table_auto.
  - apply TableR_bind; [now apply return_all_to_bank_Table|].
    intros _ g1 H1. cbn [TableR]. table_auto.
Qed.

Lemma end_game_Table g0 g : same_table g0 g -> same_table g0 (_end_game g).
Proof. intros HT. unfold _end_game. cbv zeta. destruct (active_players _); table_auto. Qed.

Lemma keys_reloaded ps :
  distinct_str (map fst ps) = true ->
  map fst (fold_left (fun a kd => dict_set a (fst kd) (Player.from_dict (snd kd)))
             (map (fun kp => (fst kp, Player.to_dict (snd kp))) ps) [])
  = map fst ps.
Proof.
  intros Hd. rewrite players_fold_load; [|assumption | reflexivity].
  cbn [app]. rewrite map_map. reflexivity.
Qed.

(** Once the game has left the lobby, a call keeps the table. *)
Lemma step_Table op g g' :
  players_wf (players g) = true -> phase g <> GamePhase.WAITING ->
  step op g = Some g' -> same_table g g'.
Proof.
  intros Hwf Hph.
  assert (forall A (r : Result A), TableR g r -> outcome r = Some g' -> same_table g g') as Hout.
  { intros A r H E. destruct r; simpl in *; [injection E as <- | injection E as <- | discriminate];
      assumption. }
  assert (GamePhase.eqb (phase g) GamePhase.WAITING = false) as Ew.
  { destruct (GamePhase.eqb (phase g) GamePhase.WAITING) eqn:E; [|reflexivity].
    apply GamePhase_eqb_eq in E. contradiction. }
  destruct op; simpl; try (apply Hout).
  - unfold add_player. rewrite Ew. apply table_refl.
  - unfold remove_player. cbv beta zeta.
    destruct (dict_get (players g) player_id); [|apply table_refl].
    rewrite Ew. apply TableR_bind; [apply handle_bankruptcy_Table, table_refl|].
    intros _ g1 H1. cbn [TableR]. table_auto.
  - unfold start_game. rewrite Ew. apply table_refl.
  - apply roll_dice_Table, table_refl.
  - unfold buy_property. table_go.
  - unfold decline_property. table_go.
  - unfold build_house. table_go.
  - unfold build_hotel. table_go.
  - unfold sell_building. table_go.
  - unfold mortgage_property. table_go.
  - unfold unmortgage_property. table_go.
  - unfold pay_bail. table_go.
  - unfold use_jail_card. table_go.
  - unfold end_turn.
    destruct (dict_get (players g) player_id); [|apply table_refl].
    destruct (current_player_id g); [|apply table_refl]. cbv beta zeta.
    destruct (negb (ValidationResult.valid _)); [apply table_refl|].
    match goal with |- TableR _ (if ?c then _ else _) => destruct c end;
      [cbn [TableR]; table_auto|].
    destruct (is_game_over g); [apply end_game_Table, table_refl|].
    apply TableR_bind; [apply advance_turn_Table, table_refl|]. intros _ g1 H1. table_go.
  - unfold declare_bankruptcy.
    destruct (dict_get (players g) player_id); [|apply table_refl]. cbv beta zeta.
    apply TableR_bind; [apply handle_bankruptcy_Table, table_refl|]. intros _ g1 H1.
    destruct (is_game_over g1); [now apply end_game_Table|].
    destruct (current_player g1) as [[p|]|]; try assumption.
    destruct (String.eqb (Player.id p) player_id); [|assumption].
    apply TableR_bind; [now apply advance_turn_Table|]. intros; assumption.
  - rewrite from_to_dict. intros [= <-].
    unfold players_wf in Hwf. apply andb_prop in Hwf. destruct Hwf as [Hd _].
    split; [reflexivity|]. split; [|auto].
    cbn [players]. now apply keys_reloaded.
Qed.

(** * The turn while a rent is due *)

Lemma turn_refl g : same_turn g g.
Proof. repeat split. Qed.

Lemma turn_same g0 g g' :
  phase g' = phase g -> current_player_index g' = current_player_index g ->
  turn_number g' = turn_number g -> same_turn g0 g -> same_turn g0 g'.
Proof. intros H1 H2 H3 (A & B & C). unfold same_turn. now rewrite H1, H2, H3. Qed.

Lemma turn_set_last_dice_roll g0 g x : same_turn g0 g -> same_turn g0 (set_last_dice_roll g x).
Proof. apply turn_same; auto. Qed.
Lemma turn_set_board g0 g x : same_turn g0 g -> same_turn g0 (set_board g x).
Proof. apply turn_same; auto. Qed.
Lemma turn_set_rules g0 g x : same_turn g0 g -> same_turn g0 (set_rules g x).
Proof. apply turn_same; auto. Qed.
Lemma turn_set_cards g0 g x : same_turn g0 g -> same_turn g0 (set_cards g x).
Proof. apply turn_same; auto. Qed.
Lemma turn_set_players g0 g x : same_turn g0 g -> same_turn g0 (set_players g x).
Proof. apply turn_same; auto. Qed.
Lemma turn_log_event g0 g ty d : same_turn g0 g -> same_turn g0 (_log_event g ty d).
Proof. apply turn_same; auto. Qed.

Lemma turn_update_property g0 g pos f :
  same_turn g0 g -> same_turn g0 (update_property g pos f).
Proof.
  unfold update_property. destruct (Board.get_property _ _); [apply turn_set_board | auto].
Qed.

Lemma turn_update_player g0 g k f :
  same_turn g0 g -> same_turn g0 (update_player g k f).
Proof.
  unfold update_player. destruct (dict_get (players g) k); [apply turn_set_players | auto].
Qed.

Lemma TurnR_bind {A B} g0 (r : Result A) (k : A -> t -> Result B) :
  TurnR g0 r -> (forall a g, same_turn g0 g -> TurnR g0 (k a g)) -> TurnR g0 (bind r k).
Proof. destruct r; simpl; auto. Qed.

Ltac turn_auto :=
  repeat first
    [ assumption
    | exact I
    | apply turn_refl
    | apply turn_log_event
    | apply turn_set_last_dice_roll
    | apply turn_set_board
    | apply turn_set_rules
    | apply turn_set_cards
    | apply turn_update_property
    | apply turn_update_player
    | match goal with
      | |- same_turn _ (match ?x with _ => _ end) => let E := fresh "E" in destruct x eqn:E
      end ].

Ltac turn_destruct :=
  repeat match goal with
         | |- TurnR _ (match ?x with _ => _ end) => let E := fresh "E" in destruct x eqn:E
         | |- TurnR _ (bind _ _) => apply TurnR_bind; [| intros ? ? ?]
         end.

Ltac turn_go := cbv beta zeta; turn_destruct; cbn [TurnR]; turn_auto.

Lemma liquidate_houses_Turn g0 n : forall pos g,
  same_turn g0 g -> TurnR g0 (liquidate_houses n pos g).
Proof.
  induction n as [|n IH]; intros pos g HT; simpl; [assumption|].
  destruct (Board.get_property (board g) pos) as [prop|]; [|assumption].
  destruct (0 <? Property.houses prop); [|assumption].
  destruct (Property.sell_house prop) as [[refund|] prop1]; [apply IH|cbn [TurnR]];
    turn_auto.
Qed.

Lemma return_all_to_bank_Turn g0 l : forall g,
  same_turn g0 g -> TurnR g0 (return_all_to_bank l g).
Proof.
  induction l as [|pos l IH]; intros g HT; simpl; [assumption|].
  apply TurnR_bind; [|intros; now apply IH].
  unfold return_to_bank.
  destruct (Board.get_property (board g) pos); [|assumption].
  apply TurnR_bind.
  - unfold liquidate_hotel.
    destruct (Board.get_property (board g) pos) as [prop|]; [|assumption].
    destruct (Property.has_hotel prop); [|assumption].
    destruct (Property.sell_hotel prop) as [[refund|] prop1]; cbn [TurnR]; turn_auto.
  - intros _ g1 H1. apply TurnR_bind; [now apply liquidate_houses_Turn|].
    intros _ g2 H2. cbn [TurnR]. turn_auto.
Qed.

(** A player who leaves a running game is bankrupted towards the bank; the
    turn stays where it is. *)
Lemma remove_player_Turn player_id g :
  phase g <> GamePhase.WAITING -> TurnR g (remove_player player_id g).
Proof.
  intros Hph. unfold remove_player. cbv beta zeta.
  destruct (dict_get (players g) player_id); [|apply turn_refl].
  destruct (GamePhase.eqb (phase g) GamePhase.WAITING) eqn:Ew;
    [apply GamePhase_eqb_eq in Ew; contradiction|].
  apply TurnR_bind.
  - unfold _handle_bankruptcy. cbv beta zeta.
    apply TurnR_bind; [apply return_all_to_bank_Turn, turn_refl|].
    intros _ g1 H1. cbn [TurnR]. turn_auto.
  - intros _ g1 H1. cbn [TurnR]. turn_auto.
Qed.

(** While a rent is due, every call but [declare_bankruptcy] leaves the game
    at the same point of the same turn. *)
Lemma rent_due_Turn op g :
  phase g = GamePhase.PAYING_RENT ->
  (forall player_id creditor_id, op <> DeclareBankruptcy player_id creditor_id) ->
  forall g', step op g = Some g' -> same_turn g g'.
Proof.
  intros Hph Hop g'.
  assert (forall A (r : Result A), TurnR g r -> outcome r = Some g' -> same_turn g g') as Hout.
  { intros A r H E. destruct r; simpl in *; [injection E as <- | injection E as <- | discriminate];
      assumption. }
  destruct op; simpl; try (apply Hout).
  - unfold add_player. rewrite Hph. apply turn_refl.
  - apply remove_player_Turn. rewrite Hph. discriminate.
  - unfold start_game. rewrite Hph. apply turn_refl.
  - unfold roll_dice.
    destruct (dict_get (players g) player_id); [|apply turn_refl].
    destruct (current_player_id g); [|apply turn_refl]. cbv zeta.
    unfold RuleEngine.validate_roll_dice. rewrite Hph.
    destruct (negb (String.eqb _ _)); apply turn_refl.
  - unfold buy_property.
    destruct (dict_get (players g) player_id); [|apply turn_refl].
    destruct (current_player_id g); [|apply turn_refl]. cbv zeta.
    unfold RuleEngine.validate_buy_property. rewrite Hph.
    destruct (negb (String.eqb _ _)); apply turn_refl.
  - unfold decline_property. rewrite Hph.
    destruct (dict_get (players g) player_id); apply turn_refl.
  - unfold build_house. turn_go.
  - unfold build_hotel. turn_go.
  - unfold sell_building. turn_go.
  - unfold mortgage_property. turn_go.
  - unfold unmortgage_property. turn_go.
  - unfold pay_bail. turn_go.
  - unfold use_jail_card. turn_go.
  - unfold end_turn.
    destruct (dict_get (players g) player_id); [|apply turn_refl].
    destruct (current_player_id g); [|apply turn_refl]. cbv zeta.
    unfold RuleEngine.validate_end_turn. rewrite Hph.
    destruct (negb (String.eqb _ _)); apply turn_refl.
  - exfalso. eapply Hop. reflexivity.
  - rewrite from_to_dict. intros [= <-]. repeat split.
Qed.

(** * The table and the turn *)

(** X7.  Once a reachable game has left the lobby, no sequence of public
    calls changes [player_order] or the set of keys of [players] (a player
    who leaves or goes bankrupt keeps seat and entry), and the phase never
    goes back to WAITING. *)
Theorem seating_is_fixed_in_play ops g g' :
  reachable g -> forallb op_ok ops = true ->
  phase g <> GamePhase.WAITING ->
  run ops g = Some g' ->
  player_order g' = player_order g
  /\ map fst (players g') = map fst (players g)
  /\ phase g' <> GamePhase.WAITING.
Proof.
  revert g. induction ops as [|op ops IH]; intros g Hr Hok Hph Hrun; simpl in *.
  - injection Hrun as <-. auto.
  - apply andb_prop in Hok. destruct Hok as [H1 H2].
    destruct (step op g) as [g1|] eqn:E; [|discriminate].
    destruct (step_Table op g g1 (inv_players _ (reachable_Inv g Hr)) Hph E)
      as (Ho & Hk & Hp).
    destruct (IH g1 (reach_step op g g1 Hr H1 E) H2 (Hp Hph) Hrun) as (Ho' & Hk' & Hp').
    rewrite Ho', Hk'. auto.
Qed.

(** X8.  While the phase is PAYING_RENT, every public call other than
    [declare_bankruptcy] leaves the phase PAYING_RENT, the current seat and
    the turn number as they are: the turn cannot be ended, the dice cannot
    be rolled, and raising money by selling or mortgaging does not settle
    the rent. *)
Theorem rent_due_blocks_the_turn op g g' :
  phase g = GamePhase.PAYING_RENT ->
  (forall player_id creditor_id, op <> DeclareBankruptcy player_id creditor_id) ->
  step op g = Some g' ->
  phase g' = GamePhase.PAYING_RENT
  /\ current_player_index g' = current_player_index g
  /\ turn_number g' = turn_number g.
Proof.
  intros Hph Hop Hstep.
  destruct (rent_due_Turn op g Hph Hop g' Hstep) as (H1 & H2 & H3).
  rewrite H1. auto.
Qed.

(** * The helpers of the rule engine and of the board *)

(** ** Nearest railroad and utility *)

Lemma existsb_Zeqb_In x l : existsb (Z.eqb x) l = true <-> In x l.
Proof.
  rewrite existsb_exists. split.
  - intros (y & Hy & E). apply Z.eqb_eq in E. now subst.
  - intros H. exists x. split; [assumption | apply Z.eqb_refl].
Qed.

Lemma next_ahead_b_sound targets position r :
  next_ahead_b targets position r = true -> next_ahead targets position r.
Proof.
  unfold next_ahead_b, next_ahead. intros H.
  apply andb_prop in H. destruct H as [H H3]. apply andb_prop in H. destruct H as [H1 H2].
  split; [now apply existsb_Zeqb_In|]. split; [now apply Z.leb_le|].
  intros i Hi Hin. rewrite forallb_forall in H3.
  assert (In i (map Z.of_nat (seq 1 39))) as Hl.
  { apply in_map_iff. exists (Z.to_nat i). split; [lia|]. apply in_seq.
    pose proof (Z.mod_pos_bound (r - position) BOARD_SIZE eq_refl) as Hb.
    change BOARD_SIZE with 40 in *. lia. }
  specialize (H3 i Hl). apply orb_prop in H3. destruct H3 as [H3|H3].
  - apply Z.leb_le in H3. lia.
  - apply negb_true_iff in H3. apply existsb_Zeqb_In in Hin. congruence.
Qed.

Lemma get_nearest_mod targets position :
  RuleEngine.get_nearest targets position
  = RuleEngine.get_nearest targets (position mod BOARD_SIZE).
Proof.
  unfold RuleEngine.get_nearest.
  assert (forall i, (position mod BOARD_SIZE + i) mod BOARD_SIZE
                    = (position + i) mod BOARD_SIZE) as E
    by (intros i; apply Zplus_mod_idemp_l).
  replace (find (fun i => existsb (Z.eqb ((position mod BOARD_SIZE + i) mod BOARD_SIZE))
                            targets) (map Z.of_nat (seq 1 39)))
    with (find (fun i => existsb (Z.eqb ((position + i) mod BOARD_SIZE)) targets)
            (map Z.of_nat (seq 1 39))).
  - destruct (find _ _); [now rewrite E | reflexivity].
  - generalize (map Z.of_nat (seq 1 39)). intros l.
    induction l as [|x l IH]; simpl; [reflexivity|]. now rewrite E, IH.
Qed.

Lemma next_ahead_mod targets position r :
  next_ahead targets (position mod BOARD_SIZE) r -> next_ahead targets position r.
Proof.
  unfold next_ahead. rewrite Zminus_mod_idemp_r. intros (H1 & H2 & H3).
  split; [assumption|]. split; [assumption|].
  intros i Hi. rewrite <- Zplus_mod_idemp_l. now apply H3.
Qed.

(** ** The board put back to its initial state *)

Lemma reset_of_layout p q :
  static_part p = static_part q ->
  Property.owner_id q = None -> Property.houses q = 0 ->
  Property.has_hotel q = false -> Property.is_mortgaged q = false ->
  Property.set_is_mortgaged
    (Property.set_has_hotel (Property.set_houses (Property.set_owner_id p None) 0) false)
    false = q.
Proof.
  destruct p, q. unfold static_part. simpl. intros [= -> -> -> -> -> -> ->].
  now intros -> -> -> ->.
Qed.

Lemma reset_layout b : forall b0,
  map static_part b = map static_part b0 ->
  forallb (fun q => match Property.owner_id q with None => true | Some _ => false end
                    && (Property.houses q =? 0) && negb (Property.has_hotel q)
                    && negb (Property.is_mortgaged q)) b0 = true ->
  Board.reset b = b0.
Proof.
  unfold Board.reset.
  induction b as [|p b IH]; intros [|q b0] Hm Hq; cbn [map forallb] in *;
    try discriminate; [reflexivity|].
  pose proof (f_equal (hd (static_part p)) Hm) as Hp.
  pose proof (f_equal (@tl _) Hm) as Ht. cbn [hd tl] in Hp, Ht.
  apply andb_prop in Hq. destruct Hq as [Hq Hq0].
  f_equal; [|now apply IH].
  apply andb_prop in Hq. destruct Hq as [Hq Hd]. apply andb_prop in Hq.
  destruct Hq as [Hq Hc]. apply andb_prop in Hq. destruct Hq as [Ha Hb].
  apply reset_of_layout; try assumption.
  - revert Ha. destruct (Property.owner_id q); [discriminate | reflexivity].
  - now apply Z.eqb_eq.
  - now apply negb_true_iff.
  - now apply negb_true_iff.
Qed.

(** ** Assets *)

Lemma layout_In b p :
  board_layout b -> In p b -> In (static_part p) (map static_part Board.new).
Proof. intros Hl Hin. rewrite <- Hl. now apply in_map. Qed.

Lemma layout_costs b p :
  board_layout b -> In p b ->
  0 <= Property.cost p
  /\ match Property.house_cost p with Some c => 0 <= c | None => True end.
Proof.
  intros Hl Hin. pose proof (layout_In b p Hl Hin) as H.
  assert (forallb (fun s => let '(_, _, _, cost, _, _, hc) := s in
                            (0 <=? cost) && match hc with Some c => 0 <=? c | None => true end)
            (map static_part Board.new) = true) as Hall by (vm_compute; reflexivity).
  rewrite forallb_forall in Hall. specialize (Hall _ H).
  unfold static_part in Hall. cbv beta iota zeta in Hall.
  apply andb_prop in Hall. destruct Hall as [H1 H2].
  split; [now apply Z.leb_le|].
  destruct (Property.house_cost p); [now apply Z.leb_le | exact I].
Qed.

Lemma asset_value_nonneg b pos :
  board_layout b -> buildings_ok b = true -> 0 <= RuleEngine.asset_value b pos.
Proof.
  intros Hl Hb. unfold RuleEngine.asset_value.
  destruct (Board.get_property b pos) as [prop|] eqn:E; [|lia].
  destruct (get_property_In _ _ _ E) as [Hin _].
  destruct (layout_costs b prop Hl Hin) as [Hc Hh].
  unfold buildings_ok in Hb. rewrite forallb_forall in Hb. specialize (Hb _ Hin).
  unfold building_ok in Hb.
  apply andb_prop in Hb. destruct Hb as [Hb _]. apply andb_prop in Hb. destruct Hb as [Hb _].
  apply andb_prop in Hb. destruct Hb as [H0 _]. apply Z.leb_le in H0.
  assert (0 <= (if Property.is_mortgaged prop then 0 else Property.mortgage_value prop)) as Hm.
  { destruct (Property.is_mortgaged prop); [lia|]. unfold Property.mortgage_value.
    apply Z.div_pos; lia. }
  destruct (Property.house_cost prop) as [c|]; [|lia].
  destruct (c =? 0); [lia|].
  assert (0 <= Property.houses prop * c / 2) by (apply Z.div_pos; nia).
  assert (0 <= c / 2) by (apply Z.div_pos; lia).
  destruct (Property.has_hotel prop); lia.
Qed.

Lemma fold_assets_ge b l : forall total,
  (forall pos, 0 <= RuleEngine.asset_value b pos) ->
  total <= fold_left (fun total pos => total + RuleEngine.asset_value b pos) l total.
Proof.
  induction l as [|pos l IH]; intros total H; simpl; [lia|].
  specialize (IH (total + RuleEngine.asset_value b pos) H). specialize (H pos). lia.
Qed.

(** ** Trades *)

Lemma opt_str_eqb_Some o s : opt_str_eqb o (Some s) = true <-> o = Some s.
Proof.
  destruct o as [x|]; simpl; [|split; discriminate].
  rewrite String.eqb_eq. split; [now intros -> | now intros [= ->]].
Qed.

Lemma trade_properties_check_spec board owner msg l :
  match RuleEngine.trade_properties_check board owner msg l with
  | None => Forall (tradable board owner) l
  | Some v => ValidationResult.valid v = false /\ ~ Forall (tradable board owner) l
  end.
Proof.
  induction l as [|pos l IH]; simpl; [constructor|].
  destruct (Board.get_property board pos) as [prop|] eqn:E.
  - destruct (Board.owned_by (Player.id owner) prop) eqn:Eo; simpl.
    + destruct ((0 <? Property.houses prop) || Property.has_hotel prop) eqn:Eb.
      * split; [reflexivity|]. intros H. inversion H as [|? ? (q & Hq & _ & Hh & Ht) _]; subst.
        rewrite E in Hq. injection Hq as <-.
        apply orb_prop in Eb. destruct Eb as [Eb|Eb]; [apply Z.ltb_lt in Eb; lia | congruence].
      * apply orb_false_iff in Eb. destruct Eb as [E1 E2]. apply Z.ltb_ge in E1.
        assert (tradable board owner pos) as Ht.
        { exists prop. split; [assumption|]. split; [|auto].
          now apply opt_str_eqb_Some. }
        destruct (RuleEngine.trade_properties_check board owner msg l).
        -- destruct IH as [IH1 IH2]. split; [assumption|]. intros H.
           inversion H; subst. auto.
        -- now constructor.
    + split; [reflexivity|]. intros H. inversion H as [|? ? (q & Hq & Ho & _) _]; subst.
      rewrite E in Hq. injection Hq as <-.
      unfold Board.owned_by in Eo. apply opt_str_eqb_Some in Ho. congruence.
  - split; [reflexivity|]. intros H. inversion H as [|? ? (q & Hq & _) _]; subst. congruence.
Qed.

(** X9.  [get_nearest_railroad] and [get_nearest_utility] return, for every
    integer position, a railroad (5, 15, 25, 35) or a utility (12, 28) that
    lies at least one step ahead, with no other one on the squares walked
    over before it; the fallback after the loop is never taken. *)
Theorem nearest_is_next_ahead position :
  next_ahead [5; 15; 25; 35] position (RuleEngine.get_nearest_railroad position)
  /\ next_ahead [12; 28] position (RuleEngine.get_nearest_utility position).
Proof.
  pose proof (Z.mod_pos_bound position BOARD_SIZE eq_refl) as Hq.
  unfold RuleEngine.get_nearest_railroad, RuleEngine.get_nearest_utility.
  rewrite (get_nearest_mod [5; 15; 25; 35]), (get_nearest_mod [12; 28]).
  split; apply next_ahead_mod, next_ahead_b_sound.
  - revert Hq. generalize (position mod BOARD_SIZE).
    apply (range_check (fun q => next_ahead_b [5; 15; 25; 35] q
                                   (RuleEngine.get_nearest [5; 15; 25; 35] q))).
    vm_compute. reflexivity.
  - revert Hq. generalize (position mod BOARD_SIZE).
    apply (range_check (fun q => next_ahead_b [12; 28] q
                                   (RuleEngine.get_nearest [12; 28] q))).
    vm_compute. reflexivity.
Qed.

(** X10.  [Board.reset] on a board with the layout of the initial board
    (whatever its owners, buildings and mortgages) gives the initial board
    [Board()] again. *)
Theorem reset_restores_new_board b :
  board_layout b -> Board.reset b = Board.new.
Proof.
  intros Hl. apply reset_layout; [exact Hl|]. vm_compute. reflexivity.
Qed.

(** X11.  On a board in a regular state the total assets of a player are at
    least the player's cash, so that [can_player_pay] accepts every amount
    that [can_afford] accepts. *)
Theorem total_assets_cover_cash b player amount :
  board_layout b -> buildings_ok b = true ->
  Player.money player <= RuleEngine.calculate_total_assets b player
  /\ (Player.can_afford player amount = true ->
      RuleEngine.can_player_pay b player amount = true).
Proof.
  intros Hl Hb.
  assert (Player.money player <= RuleEngine.calculate_total_assets b player) as H.
  { unfold RuleEngine.calculate_total_assets. apply fold_assets_ge.
    intros pos. now apply asset_value_nonneg. }
  split; [exact H|].
  unfold Player.can_afford, RuleEngine.can_player_pay. intros Ha.
  apply Z.leb_le in Ha. apply Z.leb_le. lia.
Qed.

(** X12.  [validate_trade] accepts a proposal exactly when an offered or
    requested amount above 0 is covered by the cash of the player who gives
    it, every offered property is the proposer's and every requested one the
    other player's, none of them with a house or a hotel, neither side gives
    more jail cards than it holds, and the proposal is not empty. *)
Theorem validate_trade_accepts_exactly board from_player to_player
    offered_money requested_money offered_properties requested_properties
    offered_jail_cards requested_jail_cards :
  ValidationResult.valid
    (RuleEngine.validate_trade board from_player to_player offered_money requested_money
       offered_properties requested_properties offered_jail_cards requested_jail_cards)
  = true
  <-> ((0 < offered_money -> offered_money <= Player.money from_player)
       /\ (0 < requested_money -> requested_money <= Player.money to_player)
       /\ Forall (tradable board from_player) offered_properties
       /\ Forall (tradable board to_player) requested_properties
       /\ offered_jail_cards <= Player.jail_cards from_player
       /\ requested_jail_cards <= Player.jail_cards to_player
       /\ ~ (offered_money = 0 /\ requested_money = 0
             /\ offered_properties = [] /\ requested_properties = []
             /\ offered_jail_cards = 0 /\ requested_jail_cards = 0)).
Proof.
  unfold RuleEngine.validate_trade, Player.can_afford.
  destruct (0 <? offered_money) eqn:E1; simpl;
    [destruct (offered_money <=? Player.money from_player) eqn:E1'; simpl|].
  2: { apply Z.ltb_lt in E1. apply Z.leb_gt in E1'.
       split; [discriminate | intros (H & _); lia]. }
  all: (destruct (0 <? requested_money) eqn:E2; simpl;
        [destruct (requested_money <=? Player.money to_player) eqn:E2'; simpl|]).
  all: try (apply Z.ltb_lt in E2; apply Z.leb_gt in E2';
            split; [discriminate | intros (_ & H & _); lia]).
  all: pose proof (trade_properties_check_spec board from_player
                     (fun pos => "You don't own property at position " ++ str_of_Z pos)
                     offered_properties) as Ho;
       destruct (RuleEngine.trade_properties_check board from_player _ offered_properties);
       [destruct Ho as [Hv Hn]; rewrite Hv;
        split; [discriminate | intros (_ & _ & H & _); contradiction]|].
  all: pose proof (trade_properties_check_spec board to_player
                     (fun pos => "Other player doesn't own property at position "
                                 ++ str_of_Z pos)
                     requested_properties) as Hr;
       destruct (RuleEngine.trade_properties_check board to_player _ requested_properties);
       [destruct Hr as [Hv Hn]; rewrite Hv;
        split; [discriminate | intros (_ & _ & _ & H & _); contradiction]|].
  all: destruct (Player.jail_cards from_player <? offered_jail_cards) eqn:E3; simpl;
       [apply Z.ltb_lt in E3; split; [discriminate | intros (_ & _ & _ & _ & H & _); lia]
       | apply Z.ltb_ge in E3].
  all: destruct (Player.jail_cards to_player <? requested_jail_cards) eqn:E4; simpl;
       [apply Z.ltb_lt in E4;
        split; [discriminate | intros (_ & _ & _ & _ & _ & H & _); lia]
       | apply Z.ltb_ge in E4].
  all: destruct ((offered_money =? 0) && (requested_money =? 0)
                 && (Z.of_nat (List.length offered_properties) =? 0)
                 && (Z.of_nat (List.length requested_properties) =? 0)
                 && (offered_jail_cards =? 0) && (requested_jail_cards =? 0)) eqn:E5; simpl.
  all: try (split; [discriminate|]; intros (_ & _ & _ & _ & _ & _ & H); exfalso; apply H;
            repeat (apply andb_prop in E5; destruct E5 as [E5 ?]);
            repeat match goal with
                   | H : (_ =? 0) = true |- _ => apply Z.eqb_eq in H
                   end;
            destruct offered_properties; [|simpl in *; lia];
            destruct requested_properties; [|simpl in *; lia];
            repeat split; auto; lia).
  all: split; [intros _ | reflexivity].
  all: repeat (split; [first [assumption | intros; apply Z.leb_le; assumption
                             | apply Z.ltb_ge in E1; lia | apply Z.ltb_ge in E2; lia]|]).
  all: intros (A1 & A2 & A3 & A4 & A5 & A6); subst; discriminate.
Qed.

(** X13.  [Board.transfer_property] fails on a position that holds no
    property and leaves the board as it is; on a property it returns True,
    the property found there afterwards is the old one with the new owner
    (buildings and mortgage are kept), and no other position changes. *)
Theorem transfer_property_changes_owner_only b pos new_owner_id :
  match Board.get_property b pos with
  | None => Board.transfer_property b pos new_owner_id = (false, b)
  | Some prop =>
      fst (Board.transfer_property b pos new_owner_id) = true
      /\ forall pos',
           Board.get_property (snd (Board.transfer_property b pos new_owner_id)) pos'
           = if pos' =? pos then Some (Property.set_owner_id prop new_owner_id)
             else Board.get_property b pos'
  end.
Proof.
  unfold Board.transfer_property.
  destruct (Board.get_property b pos) as [prop|] eqn:E; [|reflexivity].
  split; [reflexivity|]. intros pos'. cbn [snd].
  destruct (get_property_In _ _ _ E) as [_ Hp].
  rewrite get_set_property by (destruct prop; exact Hp). now rewrite E.
Qed.

(** * The lobby, the dice and the mortgages *)

Lemma dict_del_set_fresh {V} (d : list (string * V)) k v :
  dict_get d k = None -> dict_del (dict_set d k v) k = d.
Proof.
  induction d as [|[k' v'] r IH]; simpl; intros H.
  - now rewrite String.eqb_refl.
  - destruct (String.eqb k' k) eqn:E; [discriminate|]. simpl. rewrite E. now rewrite IH.
Qed.

Lemma list_remove_last l x :
  ~ In x l -> list_remove (l ++ [x]) x = Some l.
Proof.
  induction l as [|y l IH]; simpl; intros H.
  - now rewrite String.eqb_refl.
  - destruct (String.eqb_spec y x) as [->|Hne]; [tauto|].
    rewrite IH by tauto. reflexivity.
Qed.

Lemma dict_get_set_same {V} (d : list (string * V)) k v :
  dict_get (dict_set d k v) k = Some v.
Proof. rewrite dict_get_set. now rewrite String.eqb_refl. Qed.

Lemma get_update_player_same g k f p :
  dict_get (players g) k = Some p ->
  dict_get (players (update_player g k f)) k = Some (f p).
Proof. intros E. rewrite get_update_player, String.eqb_refl, E. reflexivity. Qed.

Lemma the_player_get g k p : dict_get (players g) k = Some p -> the_player g k = p.
Proof. intros E. unfold the_player. now rewrite E. Qed.

Lemma last_roll_update_player g k f :
  last_dice_roll (update_player g k f) = last_dice_roll g.
Proof. apply update_player_turn. Qed.

Lemma set_board_same g : set_board g (board g) = g.
Proof. now destruct g. Qed.

(** X14.  In the lobby, a player who joins under an id that is neither a
    key of [players] nor in [player_order], and then leaves, leaves the
    game as it was, two logged events apart: [remove_player] undoes
    [add_player]. *)
Theorem join_then_leave_restores_the_lobby uuid name player_id g :
  phase g = GamePhase.WAITING ->
  Z.of_nat (List.length (players g)) < max_players g ->
  dict_get (players g) (joined_id uuid player_id) = None ->
  ~ In (joined_id uuid player_id) (player_order g) ->
  exists p g1,
    add_player uuid name player_id g = Ret (true, name ++ " joined the game", Some p) g1
    /\ Player.id p = joined_id uuid player_id
    /\ dict_get (players g1) (joined_id uuid player_id) = Some p
    /\ remove_player (joined_id uuid player_id) g1
       = Ret (true, name ++ " left the game")
           (_log_event
              (_log_event g "player_joined"
                 [("player_id", VStr (joined_id uuid player_id)); ("player_name", VStr name)])
              "player_left" [("player_id", VStr (joined_id uuid player_id))]).
Proof.
  intros Hph Hfull Hnew Hseat.
  set (p := match player_id with
            | Some pid => if String.eqb pid "" then Player.new name uuid
                          else Player.set_id (Player.new name uuid) pid
            | None => Player.new name uuid
            end).
  assert (Player.id p = joined_id uuid player_id) as Hid.
  { unfold p, joined_id. destruct player_id as [pid|]; [|reflexivity].
    destruct (String.eqb pid ""); reflexivity. }
  assert (Player.name p = name) as Hname.
  { unfold p. destruct player_id as [pid|]; [|reflexivity].
    destruct (String.eqb pid ""); reflexivity. }
  eexists p, _. split.
  - unfold add_player. rewrite Hph. cbn [GamePhase.eqb negb].
    replace (max_players g <=? Z.of_nat (List.length (players g))) with false
      by (symmetry; apply Z.leb_gt; lia).
    cbv zeta. fold p. reflexivity.
  - split; [exact Hid|]. rewrite Hid.
    cbn [players _log_event set_events set_player_order set_players].
    split; [apply dict_get_set_same|].
    unfold remove_player.
    cbn [players phase player_order _log_event set_events set_player_order set_players].
    rewrite dict_get_set_same, Hph. cbn [GamePhase.eqb].
    rewrite list_remove_last by assumption.
    rewrite dict_del_set_fresh by assumption. rewrite Hname.
    destruct g. reflexivity.
Qed.

(** X15.  [start_game] on a reachable game that waits in the lobby with at
    least [min_players] players succeeds: the seats are a permutation of the
    former ones, the first seat is the current one, the phase is PRE_ROLL
    and the turn number 1; the players keep their keys, and each player
    object is as before or, for the first to play, has its turn flags
    reset.  Board, bank and decks are untouched. *)
Theorem start_game_seats_the_players picks g :
  reachable g ->
  phase g = GamePhase.WAITING ->
  min_players g <= Z.of_nat (List.length (players g)) ->
  exists g',
    start_game picks g = Ret (true, "Game started!") g'
    /\ Permutation (player_order g') (player_order g)
    /\ current_player_index g' = 0
    /\ phase g' = GamePhase.PRE_ROLL
    /\ turn_number g' = 1
    /\ (forall k, dict_get (players g') k = dict_get (players g) k
                  \/ dict_get (players g') k
                     = option_map Player.reset_turn (dict_get (players g) k))
    /\ board g' = board g /\ rules g' = rules g /\ cards g' = cards g.
Proof.
  intros Hr Hph Hmin. pose proof (reachable_Shape g Hr) as HS.
  unfold start_game. rewrite Hph. cbn [GamePhase.eqb negb].
  replace (Z.of_nat (List.length (players g)) <? min_players g) with false
    by (symmetry; apply Z.ltb_ge; lia).
  cbv zeta.
  set (g2 := set_turn_number _ 1).
  pose proof (shuffle_permutation picks (player_order g)) as Hp.
  assert (Shape g2) as H2.
  { pose proof (shape_lobby _ HS Hph) as Hi. subst g2.
    constructor; cbn [players player_order phase current_player_index cards
                      set_turn_number set_phase set_player_order].
    - apply (shape_placed _ HS).
    - eapply forallb_impl; [|apply (shape_seated _ HS)].
      intros kp. unfold seated_in. now rewrite (existsb_perm _ _ _ Hp).
    - discriminate.
    - intros Hne. rewrite (Permutation_length Hp). apply (shape_index _ HS).
      intros E. rewrite E in Hp. apply Permutation_sym, Permutation_nil in Hp. congruence.
    - apply (shape_chance _ HS).
    - apply (shape_chest _ HS). }
  destruct (current_player_key_defined g2 H2) as [[k|] ->]; eexists; (split; [reflexivity|]).
  - destruct (update_player_turn g2 k Player.reset_turn) as (Hi & Ho & Ht & Hq & _).
    cbn [player_order current_player_index phase turn_number board rules cards
         _log_event set_events].
    rewrite Hi, Ho, Ht, Hq, board_update_player, rules_update_player.
    split; [exact Hp|]. split; [apply (shape_lobby _ HS Hph)|].
    split; [reflexivity|]. split; [reflexivity|].
    split; [|split; [reflexivity|split; [reflexivity|]]].
    + intros k'. cbn [players _log_event set_events]. rewrite get_update_player.
      destruct (String.eqb_spec k k') as [->|]; [right | left]; reflexivity.
    + unfold update_player. destruct (dict_get (players g2) k); reflexivity.
  - cbn. split; [exact Hp|]. split; [apply (shape_lobby _ HS Hph)|].
    repeat (split; [reflexivity|]). split; [|auto]. intros k'. now left.
Qed.

(** X16.  A player who is not in jail, whose turn it is to roll, and who
    rolls a double with two consecutive doubles already counted, does not
    move: [roll_dice] sends the player to jail (position 10, state IN_JAIL,
    doubles count and jail turns 0), keeps the player's money, sets the
    phase POST_ROLL and leaves board, bank and decks untouched. *)
Theorem third_double_sends_to_jail rolled picks pid g player :
  dict_get (players g) pid = Some player ->
  current_player_id g = Some (Player.id player) ->
  phase g = GamePhase.PRE_ROLL \/ phase g = GamePhase.POST_ROLL ->
  Player.has_rolled player = false ->
  Player.state player <> PlayerState.IN_JAIL ->
  DiceResult.is_double rolled = true ->
  2 <= Player.consecutive_doubles player ->
  exists g',
    roll_dice rolled picks pid g = Ret (true, "Three doubles! Go to jail!", Some rolled) g'
    /\ dict_get (players g') pid
       = Some (Player.send_to_jail
                 (Player.set_consecutive_doubles (Player.set_has_rolled player true)
                    (Player.consecutive_doubles player + 1)))
    /\ Player.position (the_player g' pid) = JAIL_POSITION
    /\ Player.state (the_player g' pid) = PlayerState.IN_JAIL
    /\ Player.money (the_player g' pid) = Player.money player
    /\ phase g' = GamePhase.POST_ROLL
    /\ last_dice_roll g' = Some rolled
    /\ board g' = board g /\ rules g' = rules g /\ cards g' = cards g.
Proof.
  intros Hg Hcur Hph Hroll Hjail Hdbl Hcnt.
  unfold roll_dice. rewrite Hg, Hcur. cbv zeta.
  unfold RuleEngine.validate_roll_dice. rewrite String.eqb_refl, Hroll.
  replace (GamePhase.eqb (phase g) GamePhase.PRE_ROLL
           || GamePhase.eqb (phase g) GamePhase.POST_ROLL) with true
    by (destruct Hph as [-> | ->]; reflexivity).
  cbn [negb andb ValidationResult.valid ValidationResult.success].
  replace (PlayerState.eqb (Player.state player) PlayerState.IN_JAIL) with false
    by (destruct (Player.state player); try reflexivity; congruence).
  rewrite Hdbl.
  set (g1 := set_last_dice_roll g (Some rolled)).
  assert (dict_get (players g1) pid = Some player) as H1 by exact Hg.
  pose proof (get_update_player_same g1 pid (fun q => Player.set_has_rolled q true) _ H1) as H2.
  set (g2 := update_player g1 pid _) in *.
  set (g3 := _log_event g2 _ _).
  assert (dict_get (players g3) pid = Some (Player.set_has_rolled player true)) as H3
    by exact H2.
  pose proof (get_update_player_same g3 pid
                (fun q => Player.set_consecutive_doubles q (Player.consecutive_doubles q + 1))
                _ H3) as H4.
  set (g4 := update_player g3 pid _) in *.
  rewrite (the_player_get g4 pid _ H4).
  cbn [Player.consecutive_doubles Player.set_consecutive_doubles Player.set_has_rolled] in *.
  replace (3 <=? Player.consecutive_doubles player + 1) with true
    by (symmetry; apply Z.leb_le; lia).
  pose proof (get_update_player_same g4 pid Player.send_to_jail _ H4) as H5.
  eexists. split; [reflexivity|].
  cbn [players phase last_dice_roll board rules cards _log_event set_events set_phase].
  split; [exact H5|].
  unfold the_player. cbn [players _log_event set_events set_phase]. rewrite H5.
  split; [reflexivity|]. split; [reflexivity|]. split; [reflexivity|].
  split; [reflexivity|].
  split.
  { rewrite last_roll_update_player. unfold g4. rewrite last_roll_update_player.
    unfold g3. cbn [last_dice_roll _log_event set_events].
    unfold g2. now rewrite last_roll_update_player. }
  rewrite !board_update_player, !rules_update_player.
  split; [|split].
  - unfold g4. rewrite ?board_update_player. unfold g3. cbn [board _log_event set_events].
    unfold g2. rewrite ?board_update_player. reflexivity.
  - unfold g4. rewrite ?rules_update_player. unfold g3. cbn [rules _log_event set_events].
    unfold g2. rewrite ?rules_update_player. reflexivity.
  - unfold g4, g3, g2, update_player.
    repeat match goal with
           | |- context [match ?x with _ => _ end] => destruct x
           end; reflexivity.
Qed.

(** X17.  Mortgaging a property of one's own that is neither mortgaged nor
    built on pays its mortgage value; unmortgaging it next, when the player
    can afford the cost, puts the board back exactly as it was, and the
    player has lost the difference between the cost and the value. *)
Theorem mortgage_then_unmortgage pid pos g player prop :
  dict_get (players g) pid = Some player ->
  Board.get_property (board g) pos = Some prop ->
  Property.owner_id prop = Some (Player.id player) ->
  Property.is_mortgaged prop = false ->
  Property.houses prop <= 0 ->
  Property.has_hotel prop = false ->
  Property.unmortgage_cost prop <= Player.money player + Property.mortgage_value prop ->
  exists m1 g1 m2 g2,
    mortgage_property pid pos g = Ret (true, m1) g1
    /\ dict_get (players g1) pid
       = Some (Player.add_money player (Property.mortgage_value prop))
    /\ Board.get_property (board g1) pos = Some (Property.set_is_mortgaged prop true)
    /\ unmortgage_property pid pos g1 = Ret (true, m2) g2
    /\ board g2 = board g
    /\ rules g2 = rules g
    /\ dict_get (players g2) pid
       = Some (Player.set_money player
                 (Player.money player + Property.mortgage_value prop
                  - Property.unmortgage_cost prop)).
Proof.
  intros Hg Hp Hown Hm Hh Hhot Hcost.
  destruct (get_property_In _ _ _ Hp) as [_ Hpos].
  assert (Board.owned_by (Player.id player) prop = true) as Ho
    by (unfold Board.owned_by; rewrite Hown; simpl; apply String.eqb_refl).
  assert ((0 <? Property.houses prop) = false) as Hh' by (apply Z.ltb_ge; lia).
  set (prop1 := Property.set_is_mortgaged prop true).
  set (p1 := Player.add_money player (Property.mortgage_value prop)).
  assert (Property.mortgage prop = (Property.mortgage_value prop, prop1)) as Emort.
  { unfold Property.mortgage. now rewrite Hm, Hh', Hhot. }
  unfold mortgage_property. rewrite Hg. cbv zeta.
  unfold RuleEngine.validate_mortgage. rewrite Hp, Ho, Hm, Hh', Hhot.
  cbn [negb orb ValidationResult.valid ValidationResult.success]. rewrite Emort.
  set (gb := set_board g (Board.set_property (board g) pos prop1)).
  assert (dict_get (players gb) pid = Some player) as Hgb by exact Hg.
  pose proof (get_update_player_same gb pid
                (fun q => Player.add_money q (Property.mortgage_value prop)) _ Hgb) as Hg1.
  set (g1 := update_player gb pid _) in *.
  assert (Board.get_property (board g1) pos = Some prop1) as Hp1.
  { unfold g1. rewrite board_update_player. unfold gb. cbn [board set_board].
    rewrite get_set_property by (unfold prop1; destruct prop; exact Hpos).
    now rewrite Z.eqb_refl, Hp. }
  set (e1 := _log_event g1 "property_mortgaged"
               [("player_id", VStr pid); ("property", VStr (Property.name prop));
                ("position", VInt pos); ("value", VInt (Property.mortgage_value prop))]).
  assert (dict_get (players e1) pid = Some p1) as He1 by exact Hg1.
  assert (Board.get_property (board e1) pos = Some prop1) as Hpe by exact Hp1.
  assert (Property.unmortgage_cost prop1 = Property.unmortgage_cost prop) as Ec
    by (unfold prop1; destruct prop; reflexivity).
  assert (Board.owned_by (Player.id p1) prop1 = true) as Ho1
    by (unfold prop1, p1; destruct prop, player; exact Ho).
  assert (Player.can_afford p1 (Property.unmortgage_cost prop1) = true) as Ha.
  { rewrite Ec. unfold Player.can_afford, p1. apply Z.leb_le.
    destruct player; simpl in *. lia. }
  exists ("Mortgaged " ++ Property.name prop ++ " for $"
          ++ str_of_Z (Property.mortgage_value prop)), e1.
  unfold unmortgage_property. rewrite He1. cbv zeta.
  unfold RuleEngine.validate_unmortgage. rewrite Hpe, Ho1, Ha.
  replace (Property.is_mortgaged prop1) with true by reflexivity.
  cbn [negb ValidationResult.valid ValidationResult.success].
  eexists _, _.
  split; [reflexivity|]. split; [reflexivity|]. split; [reflexivity|].
  split; [reflexivity|].
  cbn [players board rules _log_event set_events].
  pose proof (get_update_player_same e1 pid
                (fun q => snd (Player.remove_money q (Property.unmortgage_cost prop1)))
                _ He1) as Hg2.
  set (g2 := update_player e1 pid _) in *.
  assert (Board.get_property (board g2) pos = Some prop1) as Hp2.
  { unfold g2. rewrite board_update_player. exact Hpe. }
  unfold update_property. rewrite Hp2. cbn [players board rules set_board].
  split; [|split].
  - unfold g2. rewrite board_update_player. unfold e1. cbn [board _log_event set_events].
    unfold g1. rewrite board_update_player. unfold gb. cbn [board set_board].
    replace (snd (Property.unmortgage prop1)) with prop
      by (unfold prop1, Property.unmortgage; destruct prop; simpl in *; now subst).
    rewrite set_set_property by (unfold prop1; destruct prop; exact Hpos).
    now apply set_property_same.
  - unfold g2. rewrite rules_update_player. unfold e1. cbn [rules _log_event set_events].
    unfold g1. rewrite rules_update_player. reflexivity.
  - rewrite Hg2. f_equal. unfold Player.remove_money.
    fold (Player.can_afford p1 (Property.unmortgage_cost prop1)). rewrite Ha.
    rewrite Ec. unfold p1. destruct player; reflexivity.
Qed.

(** * The connection manager *)

Section Sessions.

Import ConnectionManager.

(** ** Dictionaries with distinct keys *)

Lemma dict_get_absent {V} (d : list (string * V)) k :
  existsb (String.eqb k) (map fst d) = false -> dict_get d k = None.
Proof.
  induction d as [|[k' v] r IH]; simpl; [reflexivity|].
  intros H. apply orb_false_elim in H. destruct H as [H1 H2].
  rewrite String.eqb_sym, H1. now apply IH.
Qed.

Lemma dict_get_present {V} (d : list (string * V)) k :
  existsb (String.eqb k) (map fst d) = true -> dict_get d k <> None.
Proof.
  induction d as [|[k' v] r IH]; simpl; [discriminate|].
  rewrite (String.eqb_sym k k'). destruct (String.eqb k' k); [discriminate | exact IH].
Qed.

Lemma distinct_dict_set {V} (d : list (string * V)) k v :
  distinct_str (map fst d) = true -> distinct_str (map fst (dict_set d k v)) = true.
Proof.
  induction d as [|[k' v'] r IH]; simpl; [reflexivity|].
  intros H. apply andb_prop in H. destruct H as [H1 H2].
  destruct (String.eqb_spec k' k) as [->|Hne]; simpl.
  - now rewrite H1, H2.
  - rewrite keys_dict_set, IH by assumption.
    apply negb_true_iff in H1. rewrite H1. simpl.
    destruct (String.eqb_spec k' k); [congruence | reflexivity].
Qed.

Lemma distinct_dict_del {V} (d : list (string * V)) k :
  distinct_str (map fst d) = true -> distinct_str (map fst (dict_del d k)) = true.
Proof.
  induction d as [|[k' v'] r IH]; simpl; [reflexivity|].
  intros H. apply andb_prop in H. destruct H as [H1 H2].
  destruct (String.eqb k' k); [assumption|]. simpl.
  rewrite IH by assumption. rewrite andb_true_r.
  apply negb_true_iff. apply negb_true_iff in H1.
  destruct (existsb (String.eqb k') (map fst (dict_del r k))) eqn:E; [|reflexivity].
  apply keys_dict_del in E. congruence.
Qed.

Lemma dict_get_del {V} (d : list (string * V)) k k' :
  distinct_str (map fst d) = true ->
  dict_get (dict_del d k) k' = if String.eqb k k' then None else dict_get d k'.
Proof.
  induction d as [|[k0 v0] r IH]; simpl; intros H.
  - now destruct (String.eqb k k').
  - apply andb_prop in H. destruct H as [H1 H2]. apply negb_true_iff in H1.
    destruct (String.eqb_spec k0 k) as [->|Hne].
    + destruct (String.eqb_spec k k') as [E|Hne']; [|reflexivity].
      rewrite <- E. now apply dict_get_absent.
    + simpl. destruct (String.eqb_spec k0 k') as [->|Hne'].
      * destruct (String.eqb_spec k k'); [congruence | reflexivity].
      * now apply IH.
Qed.

(** ** Member sets *)

Lemma str_mem_add s x : str_mem x (str_set_add s x) = true.
Proof.
  unfold str_set_add. destruct (str_mem x s) eqn:E; [assumption|].
  unfold str_mem. rewrite existsb_app. simpl. now rewrite String.eqb_refl, orb_true_r.
Qed.

Lemma str_set_add_nonempty s x : str_set_add s x <> [].
Proof.
  unfold str_set_add. destruct (str_mem x s) eqn:E.
  - destruct s; [discriminate E | discriminate].
  - destruct s; discriminate.
Qed.

Lemma str_mem_discard s x : str_mem x (str_set_discard s x) = false.
Proof.
  unfold str_mem, str_set_discard. induction s as [|y s IH]; simpl; [reflexivity|].
  destruct (String.eqb_spec y x) as [->|Hne]; simpl; [exact IH|].
  rewrite IH. destruct (String.eqb_spec x y); [congruence | reflexivity].
Qed.

Lemma remove_internal_keys pid gid gp :
  distinct_str (map fst gp) = true ->
  distinct_str (map fst (_remove_player_from_game_internal pid gid gp)) = true.
Proof.
  intros H. unfold _remove_player_from_game_internal.
  destruct (dict_get gp gid); [|assumption].
  destruct (str_set_discard _ pid); [now apply distinct_dict_del | now apply distinct_dict_set].
Qed.

Lemma remove_internal_members pid gid gp :
  distinct_str (map fst gp) = true ->
  (forall g s, dict_get gp g = Some s -> s <> []) ->
  forall g s, dict_get (_remove_player_from_game_internal pid gid gp) g = Some s -> s <> [].
Proof.
  intros Hd H g s. unfold _remove_player_from_game_internal.
  destruct (dict_get gp gid) as [old|] eqn:E; [|apply H].
  destruct (str_set_discard old pid) as [|y s'] eqn:Es.
  - rewrite dict_get_del by assumption. destruct (String.eqb gid g); [discriminate | apply H].
  - rewrite dict_get_set. destruct (String.eqb gid g); [|apply H].
    intros [= <-]. discriminate.
Qed.

Lemma remove_internal_gone pid gid gp :
  distinct_str (map fst gp) = true ->
  str_mem pid (match dict_get (_remove_player_from_game_internal pid gid gp) gid with
               | Some s => s
               | None => []
               end) = false.
Proof.
  intros Hd. unfold _remove_player_from_game_internal.
  destruct (dict_get gp gid) as [old|] eqn:E; [|now rewrite E].
  pose proof (str_mem_discard old pid) as Hm.
  destruct (str_set_discard old pid) as [|y s'] eqn:Es.
  - rewrite dict_get_del, String.eqb_refl by assumption. reflexivity.
  - now rewrite dict_get_set, String.eqb_refl.
Qed.

(** ** The invariant *)

Lemma SessionInv_connections m conns :
  SessionInv m ->
  SessionInv (mk conns (_player_to_socket m) (_game_players m) (_disconnected_players m)).
Proof. intros []. constructor; assumption. Qed.

Lemma update_connection_frame m ws f :
  _player_to_socket (update_connection m ws f) = _player_to_socket m
  /\ _game_players (update_connection m ws f) = _game_players m
  /\ _disconnected_players (update_connection m ws f) = _disconnected_players m.
Proof. unfold update_connection. destruct (ws_get _ _); repeat split. Qed.

Lemma SessionInv_frame m m' :
  _player_to_socket m' = _player_to_socket m ->
  _game_players m' = _game_players m ->
  _disconnected_players m' = _disconnected_players m ->
  SessionInv m -> SessionInv m'.
Proof. intros H1 H2 H3 []. constructor; rewrite ?H1, ?H2, ?H3; assumption. Qed.

Lemma connect_SessionInv ws pid name m : SessionInv m -> SessionInv (snd (connect ws pid name m)).
Proof.
  intros [H1 H2 H3 H4 H5 H6]. unfold connect.
  destruct (dict_get (_disconnected_players m) pid) as [c|] eqn:E; cbn [snd];
    constructor; cbn [_player_to_socket _disconnected_players _game_players];
    try assumption; try (now apply distinct_dict_set); try (now apply distinct_dict_del).
  - intros pid'. rewrite dict_get_set, dict_get_del by assumption.
    destruct (String.eqb pid pid'); [reflexivity | apply H4].
  - intros pid' c'. rewrite dict_get_del by assumption.
    destruct (String.eqb pid pid'); [discriminate | apply H6].
  - intros pid'. rewrite dict_get_set.
    destruct (String.eqb_spec pid pid') as [<-|]; [now intros _ | apply H4].
Qed.

Lemma disconnect_SessionInv ws m : SessionInv m -> SessionInv (snd (disconnect ws m)).
Proof.
  intros HI. pose proof HI as [H1 H2 H3 H4 H5 H6]. unfold disconnect.
  destruct (ws_get (_connections m) ws) as [c|]; [|assumption]. cbn [snd].
  destruct (truthy (game_id c)) eqn:Et;
    constructor; cbn [_player_to_socket _disconnected_players _game_players];
    try assumption; try (now apply distinct_dict_set); try (now apply distinct_dict_del).
  - intros pid. rewrite dict_get_del, dict_get_set by assumption.
    destruct (String.eqb (player_id c) pid); [congruence | apply H4].
  - intros pid c'. rewrite dict_get_set.
    destruct (String.eqb_spec (player_id c) pid) as [<-|]; [|apply H6].
    intros [= <-]. split; [reflexivity | congruence].
  - intros pid. rewrite dict_get_del by assumption.
    destruct (String.eqb (player_id c) pid); [congruence | apply H4].
Qed.

Lemma remove_player_completely_SessionInv pid m :
  SessionInv m -> SessionInv (remove_player_completely pid m).
Proof.
  intros HI. pose proof HI as [H1 H2 H3 H4 H5 H6]. unfold remove_player_completely.
  assert (forall d : list (string * PlayerConnection), distinct_str (map fst d) = true ->
            (forall p c, dict_get d p = Some c ->
                         player_id c = p /\ truthy (game_id c) <> None) ->
            forall p c, dict_get (dict_del d pid) p = Some c ->
                        player_id c = p /\ truthy (game_id c) <> None) as Hpark.
  { intros d Hd H p c. rewrite dict_get_del by assumption.
    destruct (String.eqb pid p); [discriminate | apply H]. }
  assert (forall (s : list (string * WebSocket)) (d : list (string * PlayerConnection)),
            distinct_str (map fst s) = true -> distinct_str (map fst d) = true ->
            (forall p, dict_get s p <> None -> dict_get d p = None) ->
            forall p, dict_get (dict_del s pid) p <> None -> dict_get (dict_del d pid) p = None)
    as Hapart.
  { intros s d Hs Hd H p. rewrite !dict_get_del by assumption.
    destruct (String.eqb pid p); [reflexivity | apply H]. }
  destruct (dict_get (_player_to_socket m) pid) as [ws|] eqn:E.
  - destruct (ws_get (_connections m) ws) as [c|];
      constructor; cbn [_player_to_socket _disconnected_players _game_players];
      try assumption; try (now apply distinct_dict_del);
      try (now apply Hapart); try (now apply Hpark).
    + destruct (truthy (game_id c)); [now apply remove_internal_keys | assumption].
    + destruct (truthy (game_id c)); [now apply remove_internal_members | assumption].
  - constructor; cbn [_player_to_socket _disconnected_players _game_players];
      try assumption; try (now apply distinct_dict_del); try (now apply Hpark).
    intros p Hp. rewrite dict_get_del by assumption.
    destruct (String.eqb pid p); [reflexivity | now apply H4].
Qed.

Lemma join_game_SessionInv pid gid host spectator m :
  SessionInv m -> SessionInv (snd (join_game pid gid host spectator m)).
Proof.
  intros HI. pose proof HI as [H1 H2 H3 H4 H5 H6]. unfold join_game.
  destruct (dict_get (_player_to_socket m) pid) as [ws|]; [|assumption].
  destruct (ws_get (_connections m) ws) as [c|]; [|assumption]. cbn [snd].
  set (gp1 := match truthy (game_id c) with
              | Some old => _remove_player_from_game_internal pid old (_game_players m)
              | None => _game_players m
              end).
  assert (distinct_str (map fst gp1) = true) as Hk
    by (unfold gp1; destruct (truthy (game_id c)); [now apply remove_internal_keys | assumption]).
  assert (forall g s, dict_get gp1 g = Some s -> s <> []) as Hm
    by (unfold gp1; destruct (truthy (game_id c));
        [now apply remove_internal_members | assumption]).
  constructor; cbn [_player_to_socket _disconnected_players _game_players]; try assumption.
  - now apply distinct_dict_set.
  - intros g s. rewrite dict_get_set. destruct (String.eqb gid g); [|apply Hm].
    intros [= <-]. apply str_set_add_nonempty.
Qed.

Lemma leave_game_SessionInv pid m : SessionInv m -> SessionInv (snd (leave_game pid m)).
Proof.
  intros HI. pose proof HI as [H1 H2 H3 H4 H5 H6]. unfold leave_game.
  destruct (dict_get (_player_to_socket m) pid) as [ws|] eqn:E.
  - destruct (ws_get (_connections m) ws) as [c|]; [|assumption].
    destruct (truthy (game_id c)); [|assumption]. cbn [snd].
    constructor; cbn [_player_to_socket _disconnected_players _game_players]; try assumption.
    + now apply remove_internal_keys.
    + now apply remove_internal_members.
  - destruct (dict_get (_disconnected_players m) pid) as [c|]; [|assumption].
    destruct (truthy (game_id c)); [|assumption]. cbn [snd].
    constructor; cbn [_player_to_socket _disconnected_players _game_players]; try assumption.
    + now apply distinct_dict_del.
    + now apply remove_internal_keys.
    + intros p Hp. rewrite dict_get_del by assumption.
      destruct (String.eqb pid p); [reflexivity | now apply H4].
    + now apply remove_internal_members.
    + intros p c'. rewrite dict_get_del by assumption.
      destruct (String.eqb pid p); [discriminate | apply H6].
Qed.

Lemma transfer_host_SessionInv gid pid m :
  SessionInv m -> SessionInv (snd (transfer_host gid pid m)).
Proof.
  intros HI. unfold transfer_host.
  destruct (negb (is_player_in_game m pid gid)); [assumption|].
  set (m1 := match find _ _ with Some (ws, _) => update_connection m ws _ | None => m end).
  assert (SessionInv m1) as H1.
  { unfold m1. destruct (find _ _) as [[ws c]|]; [|assumption].
    destruct (update_connection_frame m ws (fun c => set_is_host c false)) as (A & B & C).
    now apply (SessionInv_frame m). }
  destruct (get_connection_by_player_id m1 pid) as [[ws c]|]; [|assumption]. cbn [snd].
  destruct (update_connection_frame m1 ws (fun c => set_is_host c true)) as (A & B & C).
  now apply (SessionInv_frame m1).
Qed.

Lemma session_step_SessionInv op m : SessionInv m -> SessionInv (session_step op m).
Proof.
  destruct op; cbn [session_step].
  - apply connect_SessionInv.
  - apply disconnect_SessionInv.
  - apply remove_player_completely_SessionInv.
  - apply join_game_SessionInv.
  - apply leave_game_SessionInv.
  - apply transfer_host_SessionInv.
Qed.

Lemma session_reachable_SessionInv m : session_reachable m -> SessionInv m.
Proof.
  induction 1 as [|op m _ IH]; [|now apply session_step_SessionInv].
  constructor; cbn; try reflexivity; discriminate.
Qed.

Lemma In_dict_get {V} (d : list (string * V)) k v :
  distinct_str (map fst d) = true -> In (k, v) d -> dict_get d k = Some v.
Proof.
  induction d as [|[k0 v0] r IH]; simpl; [contradiction|].
  intros Hd. apply andb_prop in Hd. destruct Hd as [H0 Hd]. apply negb_true_iff in H0.
  intros [[= -> ->]|Hin]; [now rewrite String.eqb_refl|].
  destruct (String.eqb_spec k0 k) as [->|Hne]; [|now apply IH].
  exfalso. assert (existsb (String.eqb k) (map fst r) = true) as Hc; [|congruence].
  apply existsb_exists. exists k. split; [|apply String.eqb_refl].
  apply in_map_iff. now exists (k, v).
Qed.

Lemma ws_get_set_same {V} (d : list (WebSocket * V)) k v : ws_get (ws_set d k v) k = Some v.
Proof.
  induction d as [|[k0 v0] r IH]; simpl.
  - now rewrite Z.eqb_refl.
  - destruct (k0 =? k) eqn:E; simpl; [now rewrite E | now rewrite E, IH].
Qed.

Lemma truthy_game gid : gid <> "" -> truthy (Some gid) = Some gid.
Proof. intros H. unfold truthy. destruct (String.eqb_spec gid ""); [contradiction | reflexivity]. Qed.

(** X18.  In every manager obtained from [ConnectionManager()] by connect,
    disconnect, remove_player_completely, join_game, leave_game and
    transfer_host: a connected player is not parked for reconnection; a
    parked connection is kept under its own player id and carries a
    non-empty game id; and no game is tracked with an empty member set, so
    that every count in the [players_per_game] of [get_stats] is at
    least 1. *)
Theorem sessions_stay_consistent m :
  session_reachable m ->
  (forall pid, is_player_connected m pid = true ->
     dict_get (_disconnected_players m) pid = None)
  /\ (forall pid c, dict_get (_disconnected_players m) pid = Some c ->
        player_id c = pid /\ exists gid, game_id c = Some gid /\ gid <> "")
  /\ (forall gid n, In (gid, n) (players_per_game (get_stats m)) ->
        1 <= n /\ n = Z.of_nat (List.length (get_players_in_game m gid))).
Proof.
  intros Hr. apply session_reachable_SessionInv in Hr. destruct Hr as [H1 H2 H3 H4 H5 H6].
  split; [|split].
  - intros pid. unfold is_player_connected. intros Hc. apply H4.
    destruct (dict_get (_player_to_socket m) pid); [discriminate | discriminate Hc].
  - intros pid c Hc. destruct (H6 pid c Hc) as [Hid Hg]. split; [exact Hid|].
    unfold truthy in Hg. destruct (game_id c) as [gid|]; [|congruence].
    exists gid. split; [reflexivity|]. intros ->. now apply Hg.
  - intros gid n Hin. cbn [players_per_game get_stats] in Hin.
    apply in_map_iff in Hin. destruct Hin as ([g s] & [= <- <-] & Hin).
    pose proof (In_dict_get _ _ _ H3 Hin) as Hg. cbn [fst snd].
    unfold get_players_in_game, game_members. rewrite Hg.
    split; [|reflexivity]. pose proof (H5 _ _ Hg). destruct s; [congruence | simpl; lia].
Qed.

(** X19.  A player in a game who loses the connection and connects again
    on another websocket is given the same connection record back, with the
    new websocket: player name, game id, host flag and spectator flag are
    those from before the disconnection (the name sent with the new
    connection is ignored), the player counts as connected, and the member
    sets of the games were never touched. *)
Theorem reconnect_restores_session ws ws' name' m c gid :
  get_connection m ws = Some c ->
  game_id c = Some gid -> gid <> "" ->
  exists m1 m2,
    disconnect ws m = (Some c, m1)
    /\ dict_get (_disconnected_players m1) (player_id c) = Some c
    /\ connect ws' (player_id c) name' m1 = (set_websocket c ws', m2)
    /\ get_connection m2 ws' = Some (set_websocket c ws')
    /\ is_player_connected m2 (player_id c) = true
    /\ get_game_id m2 (player_id c) = Some gid
    /\ _game_players m2 = _game_players m.
Proof.
  unfold get_connection. intros Hc Hg Hne.
  unfold disconnect. rewrite Hc, Hg, (truthy_game gid Hne).
  eexists _, _. split; [reflexivity|].
  cbn [_disconnected_players]. rewrite dict_get_set_same. split; [reflexivity|].
  unfold connect. cbn [_disconnected_players _connections _player_to_socket _game_players].
  rewrite dict_get_set_same. split; [reflexivity|].
  unfold is_player_connected, get_game_id, get_connection_by_player_id.
  cbn [_disconnected_players _connections _player_to_socket _game_players].
  rewrite ws_get_set_same, dict_get_set_same, ws_get_set_same.
  cbn [option_map game_id set_websocket]. auto.
Qed.

(** X20.  In a reachable manager, [join_game] with a non-empty game id
    fails, changing nothing, exactly when the player has no live connection;
    otherwise the player is a member of the game and the connection carries
    the game id and the two flags.  [leave_game] next returns that game id,
    the player is no longer a member, the connection has no game and both
    flags are cleared. *)
Theorem join_game_then_leave pid gid host spectator m :
  session_reachable m -> gid <> "" ->
  match get_connection_by_player_id m pid with
  | None => join_game pid gid host spectator m = (false, m)
  | Some (ws, c) =>
      exists m1 m2,
        join_game pid gid host spectator m = (true, m1)
        /\ is_player_in_game m1 pid gid = true
        /\ get_game_id m1 pid = Some gid
        /\ get_connection m1 ws = Some (set_game c (Some gid) host spectator)
        /\ leave_game pid m1 = (Some gid, m2)
        /\ is_player_in_game m2 pid gid = false
        /\ get_game_id m2 pid = None
        /\ get_connection m2 ws = Some (set_game c None false false)
  end.
Proof.
  intros Hr Hne.
  pose proof (session_reachable_SessionInv _
                (session_next (JoinGame pid gid host spectator) m Hr)) as HI1.
  cbn [session_step] in HI1. apply si_game_keys in HI1. revert HI1.
  unfold get_connection_by_player_id, join_game.
  destruct (dict_get (_player_to_socket m) pid) as [ws|] eqn:Es; [|reflexivity].
  destruct (ws_get (_connections m) ws) as [c|] eqn:Ec; cbn [option_map]; [|reflexivity].
  cbn [snd _game_players]. intros Hk.
  eexists _, _. split; [reflexivity|].
  unfold is_player_in_game, game_members, get_game_id, get_connection_by_player_id,
    get_connection, leave_game.
  cbn [_disconnected_players _connections _player_to_socket _game_players].
  rewrite Es, !ws_get_set_same, dict_get_set_same. cbn [option_map game_id set_game].
  rewrite (truthy_game gid Hne).
  split; [apply str_mem_add|]. split; [reflexivity|]. split; [reflexivity|].
  split; [reflexivity|].
  cbn [_disconnected_players _connections _player_to_socket _game_players].
  rewrite Es, ws_get_set_same. cbn [option_map game_id set_game].
  split; [now apply remove_internal_gone|]. split; [reflexivity|].
  f_equal.
Qed.

End Sessions.

(** * The doubles count *)




















(** ** What keeps the dice *)









(** ** The invariant through the frames *)








(** ** Leaving jail *)


Lemma release_keeps q :
  Player.id (Player.release_from_jail q) = Player.id q
  /\ Player.consecutive_doubles (Player.release_from_jail q) = Player.consecutive_doubles q.
Proof. split; reflexivity. Qed.





(** ** Rolling *)







(** ** The turn passes *)







(** ** Bankruptcy *)





(** ** The lobby, saving and loading *)







(** ** Every reachable game *)





(** * The end of a turn *)







(** * A bankruptcy with a creditor *)

Lemma chest_card_drawn_reachable : reachable chest_card_drawn.
Proof.
  apply (reach_step (roll 1 1 "A") chest_card_due chest_card_drawn);
    [|reflexivity | vm_compute; reflexivity].
  apply reachable_play; [reflexivity|]. vm_compute. discriminate.
Qed.

(** C3.  [_handle_bankruptcy] credits the creditor and never debits the
    bankrupt player.  In [chest_card_drawn], a game reached by public calls,
    Alice has $1500 and the Community Chest jail card, Bob has $1500 and no
    card.  Alice declares bankruptcy with Bob as creditor: Bob has $3000 and
    one card, and Alice, marked BANKRUPT, still has her $1500 and her card.
    The players' cash has grown from $3000 to $4500 and one card is counted
    twice. *)
Theorem bankrupt_player_is_not_debited :
  reachable chest_card_drawn
  /\ Player.money (the_player chest_card_drawn "A") = 1500
  /\ Player.jail_cards (the_player chest_card_drawn "A") = 1
  /\ Player.money (the_player chest_card_drawn "B") = 1500
  /\ Player.jail_cards (the_player chest_card_drawn "B") = 0
  /\ declare_bankruptcy "A" (Some "B") chest_card_drawn
     = Ret (true, "Game Over! Bob wins!") chest_card_handed_over
  /\ Player.state (the_player chest_card_handed_over "A") = PlayerState.BANKRUPT
  /\ Player.money (the_player chest_card_handed_over "B") = 3000
  /\ Player.jail_cards (the_player chest_card_handed_over "B") = 1
  /\ Player.money (the_player chest_card_handed_over "A") = 1500
  /\ Player.jail_cards (the_player chest_card_handed_over "A") = 1.
Proof.
  split; [exact chest_card_drawn_reachable|].
  do 9 (split; [vm_compute; reflexivity|]).
  vm_compute. reflexivity.
Qed.

(** * Instances of the properties of reachable games *)

Lemma public_calls_always_return_witness :
  call_returns (EndTurn "A") first_purchase = true
  /\ Game.get_state_for_player "B" first_purchase <> None.
Proof.
  destruct (public_calls_always_return (EndTurn "A") first_purchase first_purchase_reachable)
    as [H1 H2].
  split; [exact H1 | exact (H2 "B")].
Defined.

Lemma players_are_seated_witness :
  dict_get (players first_purchase) "A" = Some (the_player first_purchase "A")
  /\ Player.id (the_player first_purchase "A") = "A"
  /\ Player.position (the_player first_purchase "A") = 6
  /\ In "A" (player_order first_purchase).
Proof.
  assert (dict_get (players first_purchase) "A" = Some (the_player first_purchase "A")) as Hg
    by (vm_compute; reflexivity).
  split; [exact Hg|].
  destruct (proj1 (players_are_seated first_purchase first_purchase_reachable) "A" _ Hg)
    as (H1 & H2 & H3).
  split; [exact H1|]. split; [vm_compute; reflexivity | exact H3].
Defined.

Lemma decks_stay_complete_witness :
  (15 <= List.length (pile (deck_of CardType.CHANCE (cards first_purchase))))%nat.
Proof.
  exact (proj2 (proj2 (decks_stay_complete first_purchase CardType.CHANCE
                         first_purchase_reachable))).
Defined.

Lemma board_stays_regular_witness :
  map static_part (board bank_empty) = map static_part Board.new.
Proof. exact (proj1 (board_stays_regular bank_empty bank_empty_reachable)). Defined.

Lemma buildings_are_conserved_witness :
  RuleEngine.houses_available (rules bank_empty) + houses_in_use (board bank_empty)
  = TOTAL_HOUSES
  /\ houses_in_use (board bank_empty) = 32.
Proof.
  split; [exact (proj1 (buildings_are_conserved bank_empty bank_empty_reachable))|].
  vm_compute. reflexivity.
Defined.

(** * Instances of the properties of the table and the turn *)

Lemma seating_is_fixed_in_play_witness :
  phase first_purchase <> GamePhase.WAITING
  /\ player_order (play [EndTurn "A"; RemovePlayer "B"] first_purchase)
     = player_order first_purchase
  /\ map fst (players (play [EndTurn "A"; RemovePlayer "B"] first_purchase)) = ["A"; "B"; "C"; "D"].
Proof.
  assert (phase first_purchase <> GamePhase.WAITING) as Hph by (vm_compute; discriminate).
  assert (run [EndTurn "A"; RemovePlayer "B"] first_purchase
          = Some (play [EndTurn "A"; RemovePlayer "B"] first_purchase)) as Hrun
    by (vm_compute; reflexivity).
  destruct (seating_is_fixed_in_play [EndTurn "A"; RemovePlayer "B"] _ _
              first_purchase_reachable eq_refl Hph Hrun)
    as (H1 & H2 & _).
  split; [exact Hph|]. split; [exact H1|]. rewrite H2. vm_compute. reflexivity.
Defined.

Lemma rent_due_blocks_the_turn_witness :
  phase rent_due_game = GamePhase.PAYING_RENT
  /\ Player.money (the_player (play [MortgageProperty "A" 6] rent_due_game) "A") = 1450
  /\ phase (play [MortgageProperty "A" 6] rent_due_game) = GamePhase.PAYING_RENT
  /\ current_player_index (play [MortgageProperty "A" 6] rent_due_game) = 1.
Proof.
  assert (phase rent_due_game = GamePhase.PAYING_RENT) as Hph by reflexivity.
  assert (step (MortgageProperty "A" 6) rent_due_game
          = Some (play [MortgageProperty "A" 6] rent_due_game)) as Hstep
    by (vm_compute; reflexivity).
  assert (forall player_id creditor_id,
            MortgageProperty "A" 6 <> DeclareBankruptcy player_id creditor_id) as Hop
    by (intros; discriminate).
  destruct (rent_due_blocks_the_turn _ _ _ Hph Hop Hstep) as (H1 & H2 & _).
  split; [exact Hph|]. split; [vm_compute; reflexivity|]. split; [exact H1 | exact H2].
Defined.

(** * Instances of the properties of the helpers and of the lobby *)

Lemma reset_restores_new_board_witness :
  board_layout brown_monopoly
  /\ Board.get_property_owner brown_monopoly 1 = Some "A"
  /\ Board.reset brown_monopoly = Board.new.
Proof.
  assert (board_layout brown_monopoly) as Hl by (vm_compute; reflexivity).
  split; [exact Hl|]. split; [vm_compute; reflexivity|].
  exact (reset_restores_new_board brown_monopoly Hl).
Defined.

Lemma total_assets_cover_cash_witness :
  board_layout brown_monopoly
  /\ buildings_ok brown_monopoly = true
  /\ RuleEngine.calculate_total_assets brown_monopoly brown_owner = 160
  /\ Player.money brown_owner <= RuleEngine.calculate_total_assets brown_monopoly brown_owner
  /\ RuleEngine.can_player_pay brown_monopoly brown_owner 100 = true.
Proof.
  assert (board_layout brown_monopoly) as Hl by (vm_compute; reflexivity).
  assert (buildings_ok brown_monopoly = true) as Hb by (vm_compute; reflexivity).
  destruct (total_assets_cover_cash brown_monopoly brown_owner 100 Hl Hb) as [H1 H2].
  split; [exact Hl|]. split; [exact Hb|]. split; [vm_compute; reflexivity|].
  split; [exact H1|]. apply H2. vm_compute. reflexivity.
Defined.

Lemma join_then_leave_restores_the_lobby_witness :
  phase two_player_game = GamePhase.WAITING
  /\ exists p g1,
       add_player "u1" "Alice" (Some "A") two_player_game
       = Ret (true, "Alice joined the game", Some p) g1
       /\ players (play [RemovePlayer "A"] g1) = players two_player_game
       /\ player_order (play [RemovePlayer "A"] g1) = [].
Proof.
  assert (phase two_player_game = GamePhase.WAITING) as Hph by reflexivity.
  split; [exact Hph|].
  assert (Z.of_nat (List.length (players two_player_game)) < max_players two_player_game)
    as Hfull by (vm_compute; reflexivity).
  assert (dict_get (players two_player_game) (joined_id "u1" (Some "A")) = None) as Hnew
    by reflexivity.
  assert (~ In (joined_id "u1" (Some "A")) (player_order two_player_game)) as Hseat
    by (intros []).
  destruct (join_then_leave_restores_the_lobby "u1" "Alice" (Some "A") two_player_game
              Hph Hfull Hnew Hseat) as (p & g1 & Ha & _ & _ & Hr).
  exists p, g1. split; [exact Ha|].
  unfold play, run, step.
  change (joined_id "u1" (Some "A")) with "A" in Hr. rewrite Hr.
  split; reflexivity.
Defined.

Lemma two_player_lobby_reachable : reachable two_player_lobby.
Proof. apply reachable_play; [reflexivity|]. vm_compute. discriminate. Qed.

Lemma start_game_seats_the_players_witness :
  phase two_player_lobby = GamePhase.WAITING
  /\ player_order two_player_lobby = ["A"; "B"]
  /\ exists g',
       start_game [1%nat] two_player_lobby = Ret (true, "Game started!") g'
       /\ Permutation (player_order g') ["A"; "B"]
       /\ phase g' = GamePhase.PRE_ROLL
       /\ turn_number g' = 1.
Proof.
  assert (phase two_player_lobby = GamePhase.WAITING) as Hph by (vm_compute; reflexivity).
  assert (min_players two_player_lobby <= Z.of_nat (List.length (players two_player_lobby)))
    as Hmin by (vm_compute; discriminate).
  assert (player_order two_player_lobby = ["A"; "B"]) as Ho by (vm_compute; reflexivity).
  split; [exact Hph|]. split; [exact Ho|].
  destruct (start_game_seats_the_players [1%nat] two_player_lobby
              two_player_lobby_reachable Hph Hmin)
    as (g' & Hs & Hp & _ & H1 & H2 & _).
  exists g'. rewrite Ho in Hp. auto.
Defined.

Lemma third_double_sends_to_jail_witness :
  dict_get (players after_stale_end_turn) "B" = Some (the_player after_stale_end_turn "B")
  /\ Player.consecutive_doubles (the_player after_stale_end_turn "B") = 2
  /\ Player.position (the_player after_stale_end_turn "B") = 7
  /\ exists g',
       roll_dice (DiceResult.mk 1 1) [] "B" after_stale_end_turn
       = Ret (true, "Three doubles! Go to jail!", Some (DiceResult.mk 1 1)) g'
       /\ Player.position (the_player g' "B") = 10
       /\ Player.state (the_player g' "B") = PlayerState.IN_JAIL
       /\ phase g' = GamePhase.POST_ROLL.
Proof.
  assert (dict_get (players after_stale_end_turn) "B"
          = Some (the_player after_stale_end_turn "B")) as Hg by (vm_compute; reflexivity).
  split; [exact Hg|]. split; [vm_compute; reflexivity|]. split; [vm_compute; reflexivity|].
  destruct (third_double_sends_to_jail (DiceResult.mk 1 1) [] "B" after_stale_end_turn
              (the_player after_stale_end_turn "B") Hg)
    as (g' & Hr & _ & H1 & H2 & _ & H3 & _).
  - vm_compute. reflexivity.
  - left. vm_compute. reflexivity.
  - vm_compute. reflexivity.
  - vm_compute. discriminate.
  - reflexivity.
  - vm_compute. discriminate.
  - exists g'. auto.
Defined.

Lemma mortgage_then_unmortgage_witness :
  dict_get (players first_purchase) "A" = Some (the_player first_purchase "A")
  /\ Player.money (the_player first_purchase "A") = 4400
  /\ exists m1 g1 m2 g2,
       mortgage_property "A" 6 first_purchase = Ret (true, m1) g1
       /\ Player.money (the_player g1 "A") = 4450
       /\ unmortgage_property "A" 6 g1 = Ret (true, m2) g2
       /\ board g2 = board first_purchase
       /\ Player.money (the_player g2 "A") = 4395.
Proof.
  assert (dict_get (players first_purchase) "A" = Some (the_player first_purchase "A")) as Hg
    by (vm_compute; reflexivity).
  split; [exact Hg|]. split; [vm_compute; reflexivity|].
  assert (exists prop, Board.get_property (board first_purchase) 6 = Some prop
                       /\ Property.owner_id prop = Some "A"
                       /\ Property.is_mortgaged prop = false
                       /\ Property.houses prop = 0
                       /\ Property.has_hotel prop = false
                       /\ Property.cost prop = 100) as (prop & Hp & Ho & Hm & Hh & Ht & Hc).
  { eexists. split; [vm_compute; reflexivity|]. repeat split. }
  assert (Player.id (the_player first_purchase "A") = "A") as Hid by (vm_compute; reflexivity).
  assert (Player.money (the_player first_purchase "A") = 4400) as Hmoney
    by (vm_compute; reflexivity).
  assert (Property.mortgage_value prop = 50) as Hmv
    by (unfold Property.mortgage_value; rewrite Hc; reflexivity).
  assert (Property.unmortgage_cost prop = 55) as Huc
    by (unfold Property.unmortgage_cost; rewrite Hmv; reflexivity).
  destruct (mortgage_then_unmortgage "A" 6 first_purchase
              (the_player first_purchase "A") prop Hg Hp)
    as (m1 & g1 & m2 & g2 & H1 & H2 & _ & H3 & H4 & _ & H5).
  - now rewrite Hid.
  - exact Hm.
  - rewrite Hh. lia.
  - exact Ht.
  - rewrite Huc, Hmv, Hmoney. lia.
  - exists m1, g1, m2, g2. split; [exact H1|].
    assert (forall p a, Player.money (Player.add_money p a) = Player.money p + a) as Eadd
      by (intros [] a; reflexivity).
    assert (forall p x, Player.money (Player.set_money p x) = x) as Eset
      by (intros [] x; reflexivity).
    split; [rewrite (the_player_get _ _ _ H2), Eadd, Hmv, Hmoney; reflexivity|].
    split; [exact H3|]. split; [exact H4|].
    rewrite (the_player_get _ _ _ H5), Eset, Hmv, Huc, Hmoney. reflexivity.
Defined.

(** * Instances of the properties of the connection manager *)

Lemma lobby_session_reachable : session_reachable lobby.
Proof.
  exact (session_next (JoinGame "B" "g" false false) _
           (session_next (JoinGame "A" "g" true false) _
              (session_next (Connect 2 "B" "Bob") _
                 (session_next (Connect 1 "A" "Alice") _ session_new)))).
Qed.

Lemma sessions_stay_consistent_witness :
  ConnectionManager.is_player_connected lobby "A" = true
  /\ dict_get (ConnectionManager._disconnected_players lobby) "A" = None
  /\ ConnectionManager.players_per_game (ConnectionManager.get_stats lobby) = [("g", 2)].
Proof.
  assert (ConnectionManager.is_player_connected lobby "A" = true) as Hc
    by (vm_compute; reflexivity).
  split; [exact Hc|].
  split; [exact (proj1 (sessions_stay_consistent lobby lobby_session_reachable) "A" Hc)|].
  vm_compute. reflexivity.
Defined.

Lemma reconnect_restores_session_witness :
  exists c m1 m2,
    ConnectionManager.get_connection lobby 2 = Some c
    /\ ConnectionManager.disconnect 2 lobby = (Some c, m1)
    /\ ConnectionManager.connect 7 "B" "Robert" m1 = (ConnectionManager.set_websocket c 7, m2)
    /\ ConnectionManager.player_name (ConnectionManager.set_websocket c 7) = "Bob"
    /\ ConnectionManager.get_game_id m2 "B" = Some "g".
Proof.
  assert (ConnectionManager.get_connection lobby 2
          = Some (ConnectionManager.mkConn "B" "Bob" 2 (Some "g") false false)) as Hc
    by (vm_compute; reflexivity).
  destruct (reconnect_restores_session 2 7 "Robert" lobby _ "g" Hc eq_refl)
    as (m1 & m2 & H1 & _ & H2 & _ & _ & H3 & _); [discriminate|].
  eexists _, m1, m2. split; [exact Hc|]. split; [exact H1|]. split; [exact H2|].
  split; [reflexivity | exact H3].
Defined.

Lemma join_game_then_leave_witness :
  exists m1 m2,
    ConnectionManager.join_game "A" "g" true false
      (snd (ConnectionManager.connect 1 "A" "Alice" ConnectionManager.new)) = (true, m1)
    /\ ConnectionManager.is_player_in_game m1 "A" "g" = true
    /\ ConnectionManager.leave_game "A" m1 = (Some "g", m2)
    /\ ConnectionManager.is_player_in_game m2 "A" "g" = false.
Proof.
  assert ("g" <> "") as Hne by discriminate.
  pose proof (join_game_then_leave "A" "g" true false _
                (session_next (Connect 1 "A" "Alice") _ session_new) Hne) as H.
  cbn [session_step] in H.
  change (ConnectionManager.get_connection_by_player_id
            (snd (ConnectionManager.connect 1 "A" "Alice" ConnectionManager.new)) "A")
    with (Some (1, ConnectionManager.mkConn "A" "Alice" 1 None false false)) in H.
  destruct H as (m1 & m2 & H1 & H2 & _ & _ & H3 & H4 & _).
  exists m1, m2. auto.
Defined.

(** * An instance of the end of a turn *)

